(** * xtrc: a shallow embedding of the indexing and retrieval core

    The development follows the Python sources module by module
    (tokenizer, route signals, intent metadata, hybrid scorer, ranking
    heuristics, chunk builder, rerankers, query engine, vector store,
    metadata store, indexer) and then states the properties of the
    specification over these definitions.

    Conventions of the embedding:
    - Python [str] is [string]: a sequence of code points below 256.
    - Python [int] is [Z]; [len] results are [nat] where they only count.
    - Python [float] scores are exact rationals [Q]; equalities between
      scores are stated with [Qeq].
    - Python [set] is [gset], [dict] is [gmap]; [sorted] of a set of
      strings is the code point order on [elements].
    - External collaborators (hash functions, the parser, the embedding
      model, the cross-encoder, the LLM client, the clock, the vector
      backend) are section variables or explicit oracle arguments. *)

From Stdlib Require Import ZArith QArith Qabs Lqa Ascii String.
From stdpp Require Import gmap strings list pretty sorting.

Local Open Scope string_scope.
Local Open Scope Z_scope.
Local Open Scope list_scope.

(** ** Python list primitives *)

Module PyList.

Section Sort.
Context {A : Type} (le : A → A → bool).

(** [sorted] and [list.sort] are stable: an element is inserted in front
    of the first element that it does not exceed, and the list is folded
    from the right, so equal elements keep their order. *)
Fixpoint insert_by (x : A) (l : list A) : list A :=
  match l with
  | [] => [x]
  | y :: l' => if le x y then x :: l else y :: insert_by x l'
  end.

Definition sort_by (l : list A) : list A := foldr insert_by [] l.

End Sort.

(** [l[i:j]] for [0 <= i]. *)
Definition slice {A : Type} (i j : Z) (l : list A) : list A :=
  drop (Z.to_nat i) (take (Z.to_nat j) l).

(** [l[:k]] for any integer [k]: a negative [k] counts from the end. *)
Definition slice_upto {A : Type} (k : Z) (l : list A) : list A :=
  if 0 <=? k then take (Z.to_nat k) l
  else take (length l - Z.to_nat (- k)) l.

Definition null {A : Type} (l : list A) : bool :=
  match l with [] => true | _ => false end.

End PyList.

(** ** Python string primitives *)

Module PyStr.

Definition chars (s : string) : list ascii := list_ascii_of_string s.
Definition str (l : list ascii) : string := string_of_list_ascii l.

Definition code (c : ascii) : nat := nat_of_ascii c.

Definition between (lo hi : nat) (c : ascii) : bool :=
  (lo <=? code c)%nat && (code c <=? hi)%nat.

Definition is_upper (c : ascii) : bool := between 65 90 c.
Definition is_lower (c : ascii) : bool := between 97 122 c.
Definition is_alpha (c : ascii) : bool := is_upper c || is_lower c.
Definition is_digit (c : ascii) : bool := between 48 57 c.
Definition is_underscore (c : ascii) : bool := (code c =? 95)%nat.

(** [str.isspace] on code points below 256; also the class [\s]. *)
Definition is_space (c : ascii) : bool :=
  between 9 13 c || between 28 32 c
  || (code c =? 133)%nat || (code c =? 160)%nat.

(** The class [\w] of a [str] pattern on code points below 256. *)
Definition is_word (c : ascii) : bool :=
  is_alpha c || is_digit c || is_underscore c
  || (code c =? 170)%nat || (code c =? 178)%nat || (code c =? 179)%nat
  || (code c =? 181)%nat || (code c =? 185)%nat || (code c =? 186)%nat
  || between 188 190 c
  || between 192 214 c || between 216 246 c || between 248 255 c.

(** [str.lower] on one code point. *)
Definition lower_char (c : ascii) : ascii :=
  if is_upper c || between 192 214 c || between 216 222 c
  then ascii_of_nat (code c + 32) else c.
Definition upper_char (c : ascii) : ascii :=
  if is_lower c || between 224 246 c || between 248 254 c
  then ascii_of_nat (code c - 32) else c.

Definition lower (s : string) : string := str (map lower_char (chars s)).
Definition upper (s : string) : string := str (map upper_char (chars s)).

Definition len (s : string) : nat := String.length s.

(** The line feed, for string literals that span lines. *)
Definition nl : string := String (ascii_of_nat 10) EmptyString.

(** [s[:n]] and [s[n:]] for a non-negative [n]. *)
Definition prefix_to (n : nat) (s : string) : string := str (take n (chars s)).
Definition suffix_from (n : nat) (s : string) : string := str (drop n (chars s)).
(** [s[:n]] for a non-negative integer literal [n]. *)
Definition slice_to (n : Z) (s : string) : string := prefix_to (Z.to_nat n) s.

Fixpoint lstrip_by (p : ascii → bool) (l : list ascii) : list ascii :=
  match l with
  | c :: l' => if p c then lstrip_by p l' else l
  | [] => []
  end.
Definition rstrip_by (p : ascii → bool) (l : list ascii) : list ascii :=
  reverse (lstrip_by p (reverse l)).
Definition strip_by (p : ascii → bool) (l : list ascii) : list ascii :=
  rstrip_by p (lstrip_by p l).

(** [s.strip()] and [s.strip(ch)] for a one-character argument. *)
Definition strip (s : string) : string := str (strip_by is_space (chars s)).
Definition strip_char (ch : ascii) (s : string) : string :=
  str (strip_by (fun c => bool_decide (c = ch)) (chars s)).

Fixpoint starts_with (p l : list ascii) : bool :=
  match p, l with
  | [], _ => true
  | a :: p', b :: l' => bool_decide (a = b) && starts_with p' l'
  | _ :: _, [] => false
  end.
Definition startswith (s p : string) : bool := starts_with (chars p) (chars s).
Definition endswith (s p : string) : bool :=
  starts_with (reverse (chars p)) (reverse (chars s)).

(** [p in s] for strings; [find_sub] is [s.find(p)]. *)
Fixpoint find_from (p l : list ascii) (i : nat) : option nat :=
  if starts_with p l then Some i
  else match l with
       | [] => None
       | _ :: l' => find_from p l' (S i)
       end.
Definition find_sub (p s : string) : option nat := find_from (chars p) (chars s) 0.
Definition contains (s p : string) : bool :=
  match find_sub p s with Some _ => true | None => false end.

(** [sep.join(parts)]. *)
Fixpoint join (sep : string) (parts : list string) : string :=
  match parts with
  | [] => EmptyString
  | [x] => x
  | x :: rest => x +:+ sep +:+ join sep rest
  end.

(** [s.split(ch)] for a one-character separator: always at least one piece. *)
Fixpoint split_acc (ch : ascii) (l cur : list ascii) : list (list ascii) :=
  match l with
  | [] => [reverse cur]
  | c :: l' => if bool_decide (c = ch) then reverse cur :: split_acc ch l' []
               else split_acc ch l' (c :: cur)
  end.
Definition split_char (ch : ascii) (s : string) : list string :=
  map str (split_acc ch (chars s) []).

(** [s.splitlines()]: the boundaries are LF, CR, CRLF, VT, FF, FS, GS,
    RS and NEL; a trailing boundary opens no empty last line. *)
Definition is_linebreak (c : ascii) : bool :=
  between 10 13 c || between 28 30 c || (code c =? 133)%nat.

Fixpoint splitlines_acc (l cur : list ascii) : list (list ascii) :=
  match l with
  | [] => match cur with [] => [] | _ => [reverse cur] end
  | c :: l' =>
      if is_linebreak c then
        match l' with
        | d :: l'' =>
            if (code c =? 13)%nat && (code d =? 10)%nat
            then reverse cur :: splitlines_acc l'' []
            else reverse cur :: splitlines_acc l' []
        | [] => [reverse cur]
        end
      else splitlines_acc l' (c :: cur)
  end.
Definition splitlines (s : string) : list string :=
  map str (splitlines_acc (chars s) []).

(** Truthiness of a string. *)
Definition nonempty (s : string) : bool :=
  match s with EmptyString => false | _ => true end.

(** [x or default] on an optional string: [None] and [EmptyString] are falsy. *)
Definition or_else (o : option string) (d : string) : string :=
  match o with
  | Some s => if nonempty s then s else d
  | None => d
  end.
Definition truthy (o : option string) : bool :=
  match o with Some s => nonempty s | None => false end.

(** [sorted] on strings: the code point order. *)
Definition sorted (l : list string) : list string := PyList.sort_by String.leb l.
Definition sorted_set (s : gset string) : list string := sorted (elements s).

End PyStr.

(** ** A backtracking matcher for the regular expressions of the sources *)

Module Re.
Import PyStr.

Inductive regex : Type :=
| Ch (p : ascii → bool)
| Eps
| Cat (r1 r2 : regex)
| Alt (r1 r2 : regex)
| Star (r : regex)
| Grp (i : nat) (r : regex)
| WordB.

Definition Plus (r : regex) : regex := Cat r (Star r).
Definition Opt (r : regex) : regex := Alt r Eps.

Definition caps := list (nat * list ascii).

Definition word_at (o : option ascii) : bool :=
  match o with Some c => is_word c | None => false end.

(** [rmatch r prev s cs k]: match [r] at the head of [s], [prev] being
    the character before it, then continue with [k]; alternatives are
    tried in order and [Star] is greedy, as in Python's [re]. *)
Fixpoint rmatch {R : Type} (r : regex) (prev : option ascii) (s : list ascii)
    (cs : caps) (k : option ascii → list ascii → caps → option R) {struct r}
    : option R :=
  match r with
  | Ch p =>
      match s with
      | c :: s' => if p c then k (Some c) s' cs else None
      | [] => None
      end
  | Eps => k prev s cs
  | Cat r1 r2 =>
      rmatch r1 prev s cs (fun prev' s' cs' => rmatch r2 prev' s' cs' k)
  | Alt r1 r2 =>
      match rmatch r1 prev s cs k with
      | Some x => Some x
      | None => rmatch r2 prev s cs k
      end
  | Star r' =>
      (fix star (fuel : nat) (prev : option ascii) (s : list ascii) (cs : caps)
         {struct fuel} : option R :=
         match fuel with
         | O => k prev s cs
         | S f =>
             match rmatch r' prev s cs
                     (fun prev' s' cs' =>
                        if (length s' <? length s)%nat then star f prev' s' cs'
                        else None) with
             | Some x => Some x
             | None => k prev s cs
             end
         end) (length s) prev s cs
  | Grp i r' =>
      rmatch r' prev s cs
        (fun prev' s' cs' =>
           k prev' s' ((i, take (length s - length s') s) :: cs'))
  | WordB =>
      if xorb (word_at prev) (word_at (head s)) then k prev s cs else None
  end.

Record found : Type := Found {
  f_text : list ascii;       (* group 0 *)
  f_groups : caps;
  f_prev : option ascii;     (* last character before the rest *)
  f_rest : list ascii;
}.

Definition match_here (r : regex) (prev : option ascii) (s : list ascii)
    : option found :=
  rmatch r prev s []
    (fun prev' s' cs => Some (Found (take (length s - length s') s) cs prev' s')).

(** [pattern.search]: the leftmost match. *)
Fixpoint search_from (r : regex) (prev : option ascii) (s : list ascii)
    : option found :=
  match match_here r prev s with
  | Some m => Some m
  | None =>
      match s with
      | [] => None
      | c :: s' => search_from r (Some c) s'
      end
  end.
Definition search (r : regex) (s : string) : option found :=
  search_from r None (chars s).

Fixpoint cap_lookup (i : nat) (cs : caps) : option (list ascii) :=
  match cs with
  | [] => None
  | (j, t) :: cs' => if (i =? j)%nat then Some t else cap_lookup i cs'
  end.
Definition group (i : nat) (m : found) : option string :=
  option_map str (cap_lookup i (f_groups m)).

(** [re.findall] for a pattern without groups: the successive
    non-overlapping matches, left to right. *)
Fixpoint findall_fuel (fuel : nat) (r : regex) (prev : option ascii)
    (s : list ascii) : list string :=
  match fuel with
  | O => []
  | S f =>
      match search_from r prev s with
      | None => []
      | Some m =>
          match f_text m with
          | [] =>
              match f_rest m with
              | [] => [EmptyString]
              | c :: s' => EmptyString :: findall_fuel f r (Some c) s'
              end
          | _ => str (f_text m) :: findall_fuel f r (f_prev m) (f_rest m)
          end
      end
  end.
Definition findall (r : regex) (s : string) : list string :=
  findall_fuel (S (length (chars s))) r None (chars s).

(** Character classes and literals. *)
Definition lit (c : ascii) : regex := Ch (fun x => bool_decide (x = c)).
Definition lit_i (c : ascii) : regex :=
  Ch (fun x => bool_decide (lower_char x = lower_char c)).
Fixpoint word_i (l : list ascii) : regex :=
  match l with
  | [] => Eps
  | [c] => lit_i c
  | c :: l' => Cat (lit_i c) (word_i l')
  end.
Definition kw_i (s : string) : regex := word_i (chars s).

Definition ident_start : regex := Ch (fun c => is_alpha c || is_underscore c).
Definition ident_char : regex :=
  Ch (fun c => is_alpha c || is_digit c || is_underscore c).
Definition identifier : regex := Cat ident_start (Star ident_char).
Definition spaces : regex := Star (Ch is_space).

End Re.

(** ** core/tokenizer.py *)

Module Tokenizer.
Import PyStr Re.

(** [[A-Za-z_][A-Za-z0-9_]*|\d+|\S] *)
Definition _TOKEN_RE : regex :=
  Alt identifier (Alt (Plus (Ch is_digit)) (Ch (fun c => negb (is_space c)))).

Definition estimate_tokens (text : string) : Z :=
  Z.of_nat (length (findall _TOKEN_RE text)).

Definition normalize_terms (text : string) : list string :=
  let tokens := findall identifier (lower text) in
  filter (fun token => (1 < len token)%nat) tokens.

End Tokenizer.


(** ** core/route_signals.py *)

Module RouteSignals.
Import PyStr Re Tokenizer.

Definition HTTP_INTENT_MAP : gmap string string :=
  list_to_map
    [("post", "create"); ("put", "update"); ("patch", "update");
     ("delete", "delete"); ("get", "read")].

Definition _INTENT_ALIASES : list (string * gset string) :=
  [("create", list_to_set ["create"; "add"; "new"; "insert"; "post"; "register"; "submit"]);
   ("update", list_to_set ["update"; "edit"; "modify"; "put"; "patch"; "change"]);
   ("delete", list_to_set ["delete"; "remove"; "destroy"; "drop"]);
   ("read", list_to_set ["read"; "get"; "fetch"; "find"; "list"; "show"; "retrieve"])].

Definition _STOP_TERMS : gset string :=
  list_to_set
    ["the"; "this"; "that"; "with"; "from"; "into"; "where"; "when"; "which";
     "what"; "does"; "should"; "route"; "endpoint"; "http"; "api"; "resource"].

Fixpoint seq (l : list regex) : regex :=
  match l with
  | [] => Eps
  | [r] => r
  | r :: l' => Cat r (seq l')
  end.

(** [(get|post|put|delete|patch)], case-insensitive, as group 1. *)
Definition method_group : regex :=
  Grp 1 (Alt (kw_i "get") (Alt (kw_i "post") (Alt (kw_i "put")
          (Alt (kw_i "delete") (kw_i "patch"))))).

(** A single or a double quote character. *)
Definition is_quote (c : ascii) : bool := (code c =? 39)%nat || (code c =? 34)%nat.
Definition quote : regex := Ch is_quote.
Definition not_quote : regex := Ch (fun c => negb (is_quote c)).

(** The common tail of both route patterns: optional spaces, the method
    (group 1), optional spaces, an opening parenthesis, optional spaces,
    a quote, one or more non-quote characters (group 2), a quote. *)
Definition route_call_tail : list regex :=
  [spaces; method_group; spaces; lit "("%char; spaces; quote;
   Grp 2 (Plus not_quote); quote].

(** A dot followed by the common tail. *)
Definition _JS_ROUTE_RE : regex := seq (lit "."%char :: route_call_tail).

(** An at sign, [[A-Za-z_][A-Za-z0-9_\.]*], an optional [router] or [app],
    an optional dot, then the common tail. *)
Definition _PY_DECORATOR_ROUTE_RE : regex :=
  seq ([lit "@"%char; ident_start;
        Star (Ch (fun c => is_alpha c || is_digit c || is_underscore c
                           || bool_decide (c = "."%char)));
        Opt (Alt (kw_i "router") (kw_i "app"));
        Opt (lit "."%char)] ++ route_call_tail).

(** [\b(get|post|put|delete|patch)\b] *)
Definition _GENERIC_METHOD_RE : regex := seq [WordB; method_group; WordB].

Record RouteSignal : Type := {
  rs_method : string;
  rs_intent : string;
  rs_resource : option string;
  rs_path : option string;
  rs_structural_terms : list string;
}.

Record QuerySignal : Type := {
  qs_intents : list string;
  qs_methods : list string;
  qs_structural_terms : list string;
}.

Definition _path_segments (path : string) : list string :=
  let normalized := strip path in
  if negb (nonempty normalized) then []
  else
    let normalized :=
      if startswith normalized "http://" || startswith normalized "https://" then
        let after :=
          match find_sub "//" normalized with
          | Some i => suffix_from (i + 2) normalized
          | None => normalized
          end in
        match find_sub "/" after with
        | Some j => suffix_from j after
        | None => EmptyString
        end
      else normalized in
    filter
      (fun segment =>
         nonempty segment
         && negb (startswith segment ":")
         && negb (startswith segment "{" && endswith segment "}"))
      (split_char "/"%char (strip_char "/"%char normalized)).

Definition _singularize (value : string) : string :=
  if endswith value "ies" && (4 <? len value)%nat
  then prefix_to (len value - 3) value +:+ "y"
  else if endswith value "s" && negb (endswith value "ss") && (3 <? len value)%nat
  then prefix_to (len value - 1) value
  else value.

Definition _extract_resource (path : option string) : option string :=
  match path with
  | None => None
  | Some p =>
      if negb (nonempty p) then None
      else
        match _path_segments p with
        | [] => None
        | candidate :: _ =>
            match normalize_terms candidate with
            | [] => None
            | token :: _ => Some (_singularize token)
            end
        end
  end.

Definition _VERB_TOKENS : gset string :=
  list_to_set ["create"; "update"; "delete"; "get"; "post"; "put"; "patch"].

Definition _resource_from_symbol (symbol_name : option string) : option string :=
  match symbol_name with
  | None => None
  | Some name =>
      if negb (nonempty name) then None
      else
        match filter (fun token => negb (bool_decide (token ∈ _VERB_TOKENS)))
                (normalize_terms name) with
        | [] => None
        | token :: _ => Some (_singularize token)
        end
  end.

(** The method found in the text, lowercased, and the path when one of
    the two route patterns matched. *)
Definition find_method (text : string) : option string * option string :=
  let from_match (m : found) := (lower <$> group 1 m, group 2 m) in
  let '(method, path) :=
    match search _JS_ROUTE_RE text with
    | Some js_match => from_match js_match
    | None =>
        match search _PY_DECORATOR_ROUTE_RE text with
        | Some py_match => from_match py_match
        | None => (None, None)
        end
    end in
  match method with
  | Some _ => (method, path)
  | None =>
      match search _GENERIC_METHOD_RE text with
      | Some generic => (lower <$> group 1 generic, path)
      | None => (None, path)
      end
  end.

Definition extract_route_signal (text : string) (symbol_name : option string)
    : option RouteSignal :=
  let '(method, path) := find_method text in
  match method with
  | None => None
  | Some method =>
      match HTTP_INTENT_MAP !! method with
      | None => None
      | Some intent =>
          let resource :=
            if truthy path then _extract_resource path
            else _resource_from_symbol symbol_name in
          let terms : gset string := {[method]} ∪ {[intent]} in
          let terms :=
            if truthy path
            then terms ∪ list_to_set
                   (concat (map normalize_terms (_path_segments (or_else path EmptyString))))
            else terms in
          let terms :=
            if truthy resource then terms ∪ {[or_else resource EmptyString]} else terms in
          let terms :=
            if truthy symbol_name
            then terms ∪ list_to_set (normalize_terms (or_else symbol_name EmptyString))
            else terms in
          Some {| rs_method := upper method;
                  rs_intent := intent;
                  rs_resource := resource;
                  rs_path := path;
                  rs_structural_terms := sorted_set terms |}
      end
  end.

Definition infer_query_signal (query : string) : QuerySignal :=
  let terms := normalize_terms query in
  let methods : gset string :=
    list_to_set (filter (fun term => bool_decide (is_Some (HTTP_INTENT_MAP !! term))) terms) in
  let intents : gset string :=
    list_to_set
      (map fst
         (filter (fun ia => existsb (fun term => bool_decide (term ∈ snd ia)) terms)
            _INTENT_ALIASES)) in
  let intents : gset string :=
    intents ∪ list_to_set (omap (fun method => HTTP_INTENT_MAP !! method) (elements methods)) in
  let structural : gset string :=
    list_to_set (filter (fun term => negb (bool_decide (term ∈ _STOP_TERMS))) terms) in
  let structural := structural ∪ methods ∪ intents in
  {| qs_intents := sorted_set intents;
     qs_methods := sorted_set methods;
     qs_structural_terms := sorted_set structural |}.

End RouteSignals.


(** ** indexer/intent.py *)

Module Intent.
Import PyStr Tokenizer RouteSignals.

Definition _NOISE_PATH_HINTS : list string :=
  ["seed"; "seeds"; "migration"; "migrations"; "fixture"; "fixtures"; "dummy";
   "mock"; "test"; "tests"; "spec"; "script"; "scripts"].

Definition _LOGGING_HINTS : gset string :=
  list_to_set ["log"; "logger"; "logging"; "audit"; "trace"].
Definition _ANALYTICS_HINTS : gset string :=
  list_to_set ["analytics"; "metric"; "metrics"; "telemetry"; "tracking"; "event"].
Definition _CREATE_HINTS : gset string :=
  list_to_set ["create"; "insert"; "add"; "register"; "new"; "post"].
Definition _UPDATE_HINTS : gset string :=
  list_to_set ["update"; "modify"; "edit"; "patch"; "put"; "upsert"].
Definition _DELETE_HINTS : gset string :=
  list_to_set ["delete"; "remove"; "destroy"; "drop"].
Definition _READ_HINTS : gset string :=
  list_to_set ["get"; "fetch"; "read"; "list"; "find"; "retrieve"; "query"].

Record IntentMetadata : Type := {
  intent_tags : list string;
  route_method : option string;
  route_path : option string;
  route_intent : option string;
  route_resource : option string;
  structural_terms : list string;
  is_route_handler : bool;
}.

Definition _has_any (value : string) (candidates : list string) : bool :=
  let low := lower value in
  existsb (fun candidate => contains low candidate) candidates.

Definition _has_any_set (values candidates : gset string) : bool :=
  bool_decide (values ∩ candidates ≠ ∅).

(** [tags.add(t)] under a guard. *)
Definition add_if (b : bool) (t : string) (tags : gset string) : gset string :=
  if b then tags ∪ {[t]} else tags.

(** The tag set before it is sorted. *)
Definition intent_tag_set (file_path : string) (terms : gset string)
    (route_signal : option RouteSignal) : gset string :=
  let route_intent := rs_intent <$> route_signal in
  let tags : gset string := ∅ in
  let tags := add_if (truthy route_intent) (or_else route_intent EmptyString +:+ "_resource") tags in
  let tags :=
    if _has_any file_path _NOISE_PATH_HINTS
       || _has_any_set terms (list_to_set ["fixture"; "fixtures"; "mock"])
    then
      let tags := add_if (contains file_path "seed" || contains file_path "seeds")
                    "seed_data" tags in
      let tags := add_if (contains file_path "migration" || contains file_path "migrations")
                    "migration_script" tags in
      let tags := add_if (_has_any file_path ["test"; "tests"; "spec"]) "test_script" tags in
      add_if (_has_any file_path ["script"; "scripts"]) "script" tags
    else tags in
  let tags := add_if (_has_any_set terms _LOGGING_HINTS) "logging" tags in
  let tags := add_if (_has_any_set terms _ANALYTICS_HINTS) "analytics" tags in
  let tags := add_if (_has_any_set terms _CREATE_HINTS) "create_resource" tags in
  let tags := add_if (_has_any_set terms _UPDATE_HINTS) "update_resource" tags in
  let tags := add_if (_has_any_set terms _DELETE_HINTS) "delete_resource" tags in
  let tags := add_if (_has_any_set terms _READ_HINTS) "read_resource" tags in
  add_if (bool_decide (is_Some route_signal)) "route_handler" tags.

Definition extract_intent_metadata (file_path : string) (symbol_kind : option string)
    (symbol : option string) (text : string) : IntentMetadata :=
  let terms : gset string :=
    list_to_set
      (normalize_terms
         (file_path +:+ nl +:+ or_else symbol EmptyString +:+ nl +:+ slice_to 8000 text)) in
  let route_signal := extract_route_signal text symbol in
  let tags := intent_tag_set file_path terms route_signal in
  let structural : gset string :=
    match route_signal with
    | Some rs =>
        let st := terms ∪ list_to_set (rs_structural_terms rs)
                  ∪ {[lower (rs_method rs)]} ∪ {[lower (rs_intent rs)]} in
        if truthy (rs_resource rs)
        then st ∪ list_to_set (normalize_terms (or_else (rs_resource rs) EmptyString))
        else st
    | None => terms
    end in
  {| intent_tags := sorted_set tags;
     route_method := rs_method <$> route_signal;
     route_path := route_signal ≫= rs_path;
     route_intent := rs_intent <$> route_signal;
     route_resource := route_signal ≫= rs_resource;
     structural_terms := sorted_set structural;
     is_route_handler :=
       bool_decide (is_Some route_signal) || bool_decide (symbol_kind = Some "route") |}.

End Intent.


(** ** Python floats as rationals *)

Module PyNum.
Local Open Scope Q_scope.

Definition Qlt_bool (a b : Q) : bool := negb (Qle_bool b a).

(** [max(a, b)] and [min(a, b)]: the first argument wins a tie. *)
Definition py_max (a b : Q) : Q := if Qlt_bool a b then b else a.
Definition py_min (a b : Q) : Q := if Qlt_bool b a then b else a.

(** [n / d] on two lengths, [d] not zero. *)
Definition ratio (n d : nat) : Q := inject_Z (Z.of_nat n) / inject_Z (Z.of_nat d).

End PyNum.

(** ** core/models.py *)

Module SymbolBlock.
Record t : Type := {
  kind : string;
  name : option string;
  start_line : Z;
  end_line : Z;
  text : string;
}.
End SymbolBlock.

Module Models.

Record CodeChunk : Type := {
  chunk_id : string;
  repo_path : string;
  file_path : string;
  language : string;
  start_line : Z;
  end_line : Z;
  symbol : option string;
  symbol_kind : option string;
  description : string;
  text : string;
  content_hash : string;
  tokens : Z;
  keywords : list string;
  symbol_terms : list string;
  route_method : option string;
  route_path : option string;
  route_intent : option string;
  route_resource : option string;
  intent_tags : list string;
  structural_terms : list string;
  llm_summary : option string;
}.

Record QueryMatch : Type := {
  chunk : CodeChunk;
  vector_score : Q;
  keyword_score : Q;
  symbol_score : Q;
  score : Q;
  intent_score : Q;
  structural_score : Q;
  matched_intents : list string;
  matched_keywords : list string;
  explanation : string;
}.

End Models.
Import Models.

(** [SelectionSource = Literal["vector", "gemini"]] is a [str] at run time. *)
Module QuerySelection.
Record t : Type := {
  file : string;
  line : Z;
  reason : string;
  source : string;
}.
End QuerySelection.

(** ** core/scorer.py *)

Module HybridScorer.
Import PyStr PyNum Tokenizer RouteSignals.
Local Open Scope Q_scope.

Definition VECTOR_WEIGHT : Q := 0.50.
Definition KEYWORD_WEIGHT : Q := 0.18.
Definition SYMBOL_WEIGHT : Q := 0.12.
Definition INTENT_WEIGHT : Q := 0.12.
Definition STRUCTURAL_WEIGHT : Q := 0.08.

Definition _normalize_vector_score (score : Q) : Q :=
  if Qle_bool 0 score && Qle_bool score 1 then score
  else py_max 0 (py_min 1 ((score + 1) / 2)).

Definition _overlap_score (query_terms candidates : list string) : Q :=
  match query_terms, candidates with
  | [], _ | _, [] => 0
  | _, _ =>
      let qset : gset string := list_to_set query_terms in
      let cset : gset string := list_to_set candidates in
      let overlap := size (qset ∩ cset) in
      ratio overlap (size qset)
  end.

Definition _intent_score (query_intents : list string)
    (route_intent route_method : option string) : Q :=
  match query_intents with
  | [] => 0
  | _ =>
      let candidate : gset string := ∅ in
      let candidate :=
        if truthy route_intent
        then candidate ∪ {[lower (or_else route_intent EmptyString)]} else candidate in
      let candidate :=
        if truthy route_method then
          let normalized_method := lower (or_else route_method EmptyString) in
          let candidate := candidate ∪ {[normalized_method]} in
          match HTTP_INTENT_MAP !! normalized_method with
          | Some mapped => if nonempty mapped then candidate ∪ {[mapped]} else candidate
          | None => candidate
          end
        else candidate in
      if bool_decide (candidate = ∅) then 0
      else
        let qset : gset string := list_to_set query_intents in
        ratio (size (qset ∩ candidate)) (size qset)
  end.

Record scores : Type := {
  total : Q;
  normalized_vector : Q;
  s_keyword : Q;
  s_symbol : Q;
  s_intent : Q;
  s_structural : Q;
}.

Definition score (query : string) (vector_score : Q) (keywords symbol_terms : list string)
    (route_intent route_method route_resource : option string)
    (structural_terms : option (list string)) : scores :=
  let query_signal := infer_query_signal query in
  let query_terms := normalize_terms query in
  let keyword_score := _overlap_score query_terms keywords in
  let symbol_score := _overlap_score query_terms symbol_terms in
  let normalized_vector := _normalize_vector_score vector_score in
  let intent_score := _intent_score (qs_intents query_signal) route_intent route_method in
  let candidate_structural_terms := default [] structural_terms in
  let candidate_structural_terms :=
    if truthy route_method
    then (candidate_structural_terms ++ [lower (or_else route_method EmptyString)])
    else candidate_structural_terms in
  let candidate_structural_terms :=
    if truthy route_intent
    then (candidate_structural_terms ++ [lower (or_else route_intent EmptyString)])
    else candidate_structural_terms in
  let candidate_structural_terms :=
    if truthy route_resource
    then (candidate_structural_terms ++ normalize_terms (or_else route_resource EmptyString))
    else candidate_structural_terms in
  let structural_score :=
    _overlap_score (qs_structural_terms query_signal) candidate_structural_terms in
  let total :=
    VECTOR_WEIGHT * normalized_vector
    + KEYWORD_WEIGHT * keyword_score
    + SYMBOL_WEIGHT * symbol_score
    + INTENT_WEIGHT * intent_score
    + STRUCTURAL_WEIGHT * structural_score in
  {| total := total;
     normalized_vector := normalized_vector;
     s_keyword := keyword_score;
     s_symbol := symbol_score;
     s_intent := intent_score;
     s_structural := structural_score |}.

End HybridScorer.


(** ** ranking/heuristics.py *)

Module RankingHeuristics.
Import PyStr PyNum Tokenizer RouteSignals.
Local Open Scope Q_scope.

Definition _ROUTE_QUERY_HINTS : gset string :=
  list_to_set ["create"; "post"; "api"; "endpoint"; "route"].
Definition _NEGATIVE_INTENTS : gset string :=
  list_to_set ["seed_data"; "migration_script"; "test_script"; "script"].

Record HeuristicDecision : Type := {
  multiplier : Q;
  h_matched_intents : list string;
  h_matched_keywords : list string;
  reasons : list string;
}.

Record t : Type := {
  route_boost : Q;
  noise_penalty : Q;
  intent_boost : Q;
}.

(** [RankingHeuristics.__init__] *)
Definition init (route_boost noise_penalty intent_boost : Q) : t :=
  {| route_boost := py_max 0.1 route_boost;
     noise_penalty := py_max 0.1 noise_penalty;
     intent_boost := py_max 0.1 intent_boost |}.

(** The defaults of the keyword arguments. *)
Definition init_default : t := init 1.3 0.7 1.2.

Definition _is_route_chunk (c : CodeChunk) : bool :=
  truthy (route_method c)
  || bool_decide ("route_handler" ∈ intent_tags c)
  || bool_decide (symbol_kind c = Some "route").

Definition _matched_intents (query_intents tags : list string) : list string :=
  match query_intents with
  | [] => []
  | _ =>
      let tag_set : gset string := list_to_set tags in
      let matched :=
        filter (fun key => bool_decide (key ∈ tag_set))
          (map (fun intent => intent +:+ "_resource") query_intents) in
      sorted_set (list_to_set matched)
  end.

Definition _matched_keywords (query_terms : gset string) (c : CodeChunk) : list string :=
  let candidate_terms : gset string := list_to_set (keywords c) in
  let candidate_terms := candidate_terms ∪ list_to_set (symbol_terms c) in
  let candidate_terms := candidate_terms ∪ list_to_set (structural_terms c) in
  let candidate_terms :=
    if truthy (route_method c)
    then candidate_terms ∪ {[lower (or_else (route_method c) EmptyString)]}
    else candidate_terms in
  let candidate_terms :=
    if truthy (route_resource c)
    then candidate_terms ∪ list_to_set (normalize_terms (or_else (route_resource c) EmptyString))
    else candidate_terms in
  let overlap := sorted_set (query_terms ∩ candidate_terms) in
  take 8 overlap.

(** The three guarded updates of [multiplier] and [reasons], in order. *)
Definition evaluate (self : t) (query : string) (c : CodeChunk) : HeuristicDecision :=
  let query_terms : gset string := list_to_set (normalize_terms query) in
  let query_signal := infer_query_signal query in
  let multiplier : Q := 1 in
  let reasons : list string := [] in
  let matched_intents := _matched_intents (qs_intents query_signal) (intent_tags c) in
  let '(multiplier, reasons) :=
    match matched_intents with
    | [] => (multiplier, reasons)
    | _ => (multiplier * intent_boost self,
            (reasons ++ ["intent match: " +:+ join ", " matched_intents]))
    end in
  let '(multiplier, reasons) :=
    if bool_decide (query_terms ∩ _ROUTE_QUERY_HINTS ≠ ∅) && _is_route_chunk c
    then (multiplier * route_boost self, (reasons ++ ["route handler boost"]))
    else (multiplier, reasons) in
  let '(multiplier, reasons) :=
    if bool_decide (_NEGATIVE_INTENTS ∩ list_to_set (intent_tags c) ≠ ∅)
    then (multiplier * noise_penalty self, (reasons ++ ["noise/script penalty"]))
    else (multiplier, reasons) in
  let matched_keywords := _matched_keywords query_terms c in
  {| multiplier := multiplier;
     h_matched_intents := matched_intents;
     h_matched_keywords := matched_keywords;
     reasons := reasons |}.

End RankingHeuristics.


(** ** core/chunker.py *)

Module ChunkDraft.
Record t : Type := {
  start_line : Z;
  end_line : Z;
  symbol : option string;
  symbol_kind : option string;
  text : string;
}.
Definition tokens (d : t) : Z := Tokenizer.estimate_tokens (text d).
End ChunkDraft.

Module ChunkBuilder.
Import PyStr PyList Tokenizer.

Record t : Type := {
  min_tokens : Z;
  max_tokens : Z;
  target_tokens : Z;
}.

(** The defaults of [ChunkBuilder.__init__]. *)
Definition default : t := {| min_tokens := 200; max_tokens := 800; target_tokens := 500 |}.

Definition part : Type := (string * Z * Z)%type.

Record split_state : Type := {
  sp_chunks : list part;
  sp_current : list string;
  sp_current_tokens : Z;
  sp_block_start : Z;
}.

(** Close the current block: [end_line = block_start + len(current) - 1]. *)
Definition emit_block (st : split_state) (next_start : Z → Z) : split_state :=
  let end_line := sp_block_start st + Z.of_nat (length (sp_current st)) - 1 in
  {| sp_chunks := sp_chunks st ++ [(join nl (sp_current st), sp_block_start st, end_line)];
     sp_current := [];
     sp_current_tokens := 0;
     sp_block_start := next_start end_line |}.

(** One iteration of the loop over [enumerate(lines)]. *)
Definition split_step (self : t) (start_line : Z) (st : split_state)
    (item : nat * string) : split_state :=
  let '(idx, line) := item in
  let line_tokens := estimate_tokens line in
  let projected := sp_current_tokens st + line_tokens in
  let st :=
    if negb (null (sp_current st)) && (target_tokens self <? projected)
       && (min_tokens self <=? sp_current_tokens st)
    then emit_block st (fun _ => start_line + Z.of_nat idx)
    else st in
  let st :=
    {| sp_chunks := sp_chunks st;
       sp_current := sp_current st ++ [line];
       sp_current_tokens := sp_current_tokens st + line_tokens;
       sp_block_start := sp_block_start st |} in
  if max_tokens self <=? sp_current_tokens st
  then emit_block st (fun end_line => end_line + 1)
  else st.

Definition _split_text_by_lines (self : t) (text : string) (start_line : Z) : list part :=
  let lines := splitlines text in
  let st :=
    foldl (split_step self start_line)
      {| sp_chunks := []; sp_current := []; sp_current_tokens := 0;
         sp_block_start := start_line |}
      (imap (fun idx line => (idx, line)) lines) in
  if negb (null (sp_current st))
  then sp_chunks (emit_block st (fun e => e))
  else sp_chunks st.

Definition draft_of_part (symbol symbol_kind : option string) (p : part) : ChunkDraft.t :=
  let '(text, start, end_) := p in
  {| ChunkDraft.start_line := start; ChunkDraft.end_line := end_;
     ChunkDraft.symbol := symbol; ChunkDraft.symbol_kind := symbol_kind;
     ChunkDraft.text := text |}.

Definition _slice_file_fallback (self : t) (lines : list string) : list ChunkDraft.t :=
  match lines with
  | [] => []
  | _ =>
      let content := join nl lines in
      let tokens := estimate_tokens content in
      if tokens <=? max_tokens self then
        [{| ChunkDraft.start_line := 1;
            ChunkDraft.end_line := Z.of_nat (length lines);
            ChunkDraft.symbol := None;
            ChunkDraft.symbol_kind := Some "major_block";
            ChunkDraft.text := content |}]
      else
        map (draft_of_part None (Some "major_block")) (_split_text_by_lines self content 1)
  end.

(** The order of the key [(start_line, end_line)]. *)
Definition pair_le (a b : Z * Z) : bool :=
  (fst a <? fst b) || ((fst a =? fst b) && (snd a <=? snd b)).

Definition symbol_le (a b : SymbolBlock.t) : bool :=
  pair_le (SymbolBlock.start_line a, SymbolBlock.end_line a)
          (SymbolBlock.start_line b, SymbolBlock.end_line b).

Definition draft_le (a b : ChunkDraft.t) : bool :=
  pair_le (ChunkDraft.start_line a, ChunkDraft.end_line a)
          (ChunkDraft.start_line b, ChunkDraft.end_line b).

(** The draft of one symbol, unless its stripped text is empty. *)
Definition symbol_draft (lines : list string) (sym : SymbolBlock.t) : option ChunkDraft.t :=
  let start := Z.max (SymbolBlock.start_line sym) 1 in
  let end_ := Z.max (SymbolBlock.end_line sym) start in
  let text := strip (join nl (slice (start - 1) end_ lines)) in
  if negb (nonempty text) then None
  else Some {| ChunkDraft.start_line := start; ChunkDraft.end_line := end_;
               ChunkDraft.symbol := SymbolBlock.name sym;
               ChunkDraft.symbol_kind := Some (SymbolBlock.kind sym);
               ChunkDraft.text := text |}.

Definition _initial_drafts (self : t) (content : string) (symbols : list SymbolBlock.t)
    : list ChunkDraft.t :=
  let lines := splitlines content in
  match symbols with
  | [] => _slice_file_fallback self lines
  | _ =>
      let ordered := sort_by symbol_le symbols in
      match omap (symbol_draft lines) ordered with
      | [] => _slice_file_fallback self lines
      | drafts => drafts
      end
  end.

Definition _split_large_drafts (self : t) (drafts : list ChunkDraft.t) : list ChunkDraft.t :=
  concat
    (map (fun draft =>
            if ChunkDraft.tokens draft <=? max_tokens self then [draft]
            else map (draft_of_part (ChunkDraft.symbol draft) (ChunkDraft.symbol_kind draft))
                   (_split_text_by_lines self (ChunkDraft.text draft)
                      (ChunkDraft.start_line draft)))
       drafts).

(** The blank line that joins merged texts. *)
Definition blank : string := nl +:+ nl.

(** The state of the merge loop: [merged] and [buffer]. *)
Definition merge_state : Type := (list ChunkDraft.t * list ChunkDraft.t)%type.

Definition flush_buffer (st : merge_state) : merge_state :=
  let '(merged, buffer) := st in
  match buffer with
  | [] => (merged, [])
  | [d] => (merged ++ [d], [])
  | first :: _ =>
      let text := join blank (map ChunkDraft.text buffer) in
      (merged ++ [{| ChunkDraft.start_line := ChunkDraft.start_line first;
                     ChunkDraft.end_line :=
                       ChunkDraft.end_line (List.last buffer first);
                     ChunkDraft.symbol := None;
                     ChunkDraft.symbol_kind := Some "major_block";
                     ChunkDraft.text := text |}], [])
  end.

Definition merge_step (self : t) (st : merge_state) (draft : ChunkDraft.t) : merge_state :=
  if min_tokens self <=? ChunkDraft.tokens draft then
    let '(merged, buffer) := flush_buffer st in
    (merged ++ [draft], buffer)
  else
    let '(merged, buffer) := st in
    match buffer with
    | [] => (merged, [draft])
    | first :: _ =>
        let current_tokens := estimate_tokens (join blank (map ChunkDraft.text buffer)) in
        let gap := ChunkDraft.start_line draft - ChunkDraft.end_line (List.last buffer first) in
        if (current_tokens + ChunkDraft.tokens draft <=? max_tokens self) && (gap <=? 40)
        then (merged, buffer ++ [draft])
        else
          let '(merged, buffer) := flush_buffer st in
          (merged, buffer ++ [draft])
    end.

(** The backward merge of a small tail. *)
Definition merge_tail (self : t) (merged : list ChunkDraft.t) : list ChunkDraft.t :=
  match reverse merged with
  | tail :: prev :: rest_rev =>
      if ChunkDraft.tokens tail <? min_tokens self then
        let combined_text := ChunkDraft.text prev +:+ blank +:+ ChunkDraft.text tail in
        if estimate_tokens combined_text <=? max_tokens self then
          reverse rest_rev ++
            [{| ChunkDraft.start_line := ChunkDraft.start_line prev;
                ChunkDraft.end_line := ChunkDraft.end_line tail;
                ChunkDraft.symbol := ChunkDraft.symbol prev;
                ChunkDraft.symbol_kind := ChunkDraft.symbol_kind prev;
                ChunkDraft.text := combined_text |}]
        else reverse rest_rev ++ [prev; tail]
      else merged
  | _ => merged
  end.

Definition _merge_small_drafts (self : t) (drafts : list ChunkDraft.t) : list ChunkDraft.t :=
  match drafts with
  | [] => []
  | _ =>
      let sorted_drafts := sort_by draft_le drafts in
      let st := foldl (merge_step self) ([], []) sorted_drafts in
      let '(merged, _) := flush_buffer st in
      merge_tail self merged
  end.

End ChunkBuilder.

Module Chunker.
Import PyStr PyList Tokenizer.

Section BuildChunks.

(** [hashlib.sha256(s.encode("utf-8")).hexdigest()] *)
Variable sha256_hex : string → string.
(** [str(file_path.relative_to(repo_path))] *)
Variable relative_to : string → string → string.

(** The route part shared by the description and the keyword source. *)
Definition route_intent_label (m : Intent.IntentMetadata) : string :=
  or_else (Intent.route_intent m) "unknown".

Definition _describe (file_path : string) (draft : ChunkDraft.t)
    (intent_meta : Intent.IntentMetadata) : string :=
  let stripped := strip (ChunkDraft.text draft) in
  let first_line :=
    if nonempty stripped
    then match splitlines stripped with
         | l :: _ => strip l
         | [] => EmptyString
         end
    else EmptyString in
  let preview := slice_to 120 first_line in
  let route_suffix := EmptyString in
  let route_suffix :=
    if truthy (Intent.route_method intent_meta) then
      let rs := " Intent: " +:+ route_intent_label intent_meta +:+ " resource."
                +:+ " HTTP method: " +:+ or_else (Intent.route_method intent_meta) EmptyString
                +:+ "." in
      let rs :=
        if truthy (Intent.route_resource intent_meta)
        then rs +:+ " Resource: " +:+ or_else (Intent.route_resource intent_meta) EmptyString +:+ "."
        else rs in
      if truthy (Intent.route_path intent_meta)
      then rs +:+ " Path: " +:+ or_else (Intent.route_path intent_meta) EmptyString +:+ "."
      else rs
    else route_suffix in
  let route_suffix :=
    match Intent.intent_tags intent_meta with
    | [] => route_suffix
    | tags => route_suffix +:+ " Tags: " +:+ join ", " tags +:+ "."
    end in
  let tail := " in " +:+ file_path +:+ ". Starts with: " +:+ preview +:+ route_suffix in
  let kind := ChunkDraft.symbol_kind draft in
  let sym := ChunkDraft.symbol draft in
  if bool_decide (kind = Some "class") && truthy sym then
    strip ("Class " +:+ or_else sym EmptyString +:+ tail)
  else if bool_decide (kind = Some "route") then
    strip ("Route handler " +:+ or_else sym "unnamed route" +:+ tail)
  else if bool_decide (kind = Some "handler") then
    strip ("Handler " +:+ or_else sym "anonymous handler" +:+ tail)
  else if truthy sym && bool_decide (kind = Some "function") then
    strip ("Function " +:+ or_else sym EmptyString +:+ tail)
  else
    strip ("Major code block in " +:+ file_path +:+ " (lines "
           +:+ pretty (ChunkDraft.start_line draft) +:+ "-"
           +:+ pretty (ChunkDraft.end_line draft) +:+ "). "
           +:+ "Starts with: " +:+ preview +:+ route_suffix).

(** The argument of the hash: [f"{path}|{start}|{end}|{text}"]. *)
Definition chunk_hash_input (relative_path : string) (draft : ChunkDraft.t) : string :=
  relative_path +:+ "|" +:+ pretty (ChunkDraft.start_line draft) +:+ "|"
  +:+ pretty (ChunkDraft.end_line draft) +:+ "|" +:+ ChunkDraft.text draft.

(** The body of the loop over the final drafts. *)
Definition chunk_of_draft (repo_path relative_path language file_hash : string)
    (draft : ChunkDraft.t) : CodeChunk :=
  let intent_meta :=
    Intent.extract_intent_metadata relative_path (ChunkDraft.symbol_kind draft)
      (ChunkDraft.symbol draft) (ChunkDraft.text draft) in
  let description := _describe relative_path draft intent_meta in
  let symbol_terms := normalize_terms (or_else (ChunkDraft.symbol draft) EmptyString) in
  let structural_terms :=
    Intent.structural_terms intent_meta ++ normalize_terms relative_path in
  let structural_terms := sorted_set (list_to_set structural_terms) in
  let symbol_terms :=
    if null structural_terms then symbol_terms else symbol_terms ++ structural_terms in
  let symbol_terms := sorted_set (list_to_set symbol_terms) in
  let keyword_source := [description; slice_to 4000 (ChunkDraft.text draft)] in
  let keyword_source :=
    if truthy (Intent.route_method intent_meta) then
      let route_context :=
        ["Intent: " +:+ route_intent_label intent_meta +:+ " resource";
         "HTTP method: " +:+ or_else (Intent.route_method intent_meta) EmptyString] in
      let route_context :=
        if truthy (Intent.route_resource intent_meta)
        then route_context
             ++ ["Resource: " +:+ or_else (Intent.route_resource intent_meta) EmptyString]
        else route_context in
      let route_context :=
        if truthy (Intent.route_path intent_meta)
        then route_context ++ ["Path: " +:+ or_else (Intent.route_path intent_meta) EmptyString]
        else route_context in
      keyword_source ++ [join nl route_context]
    else keyword_source in
  let keyword_terms := normalize_terms (join nl keyword_source) in
  let chunk_hash := sha256_hex (chunk_hash_input relative_path draft) in
  {| chunk_id := chunk_hash;
     repo_path := repo_path;
     file_path := relative_path;
     language := language;
     start_line := ChunkDraft.start_line draft;
     end_line := ChunkDraft.end_line draft;
     symbol := ChunkDraft.symbol draft;
     symbol_kind := ChunkDraft.symbol_kind draft;
     description := description;
     text := ChunkDraft.text draft;
     content_hash := file_hash;
     tokens := estimate_tokens (ChunkDraft.text draft);
     keywords := keyword_terms;
     symbol_terms := symbol_terms;
     route_method := Intent.route_method intent_meta;
     route_path := Intent.route_path intent_meta;
     route_intent := Intent.route_intent intent_meta;
     route_resource := Intent.route_resource intent_meta;
     intent_tags := Intent.intent_tags intent_meta;
     structural_terms := structural_terms;
     llm_summary := None |}.

(** The drafts after the three passes. *)
Definition final_drafts (self : ChunkBuilder.t) (content : string)
    (symbols : list SymbolBlock.t) : list ChunkDraft.t :=
  let drafts := ChunkBuilder._initial_drafts self content symbols in
  let drafts := ChunkBuilder._split_large_drafts self drafts in
  ChunkBuilder._merge_small_drafts self drafts.

Definition build_chunks (self : ChunkBuilder.t) (repo_path file_path language file_hash : string)
    (content : string) (symbols : list SymbolBlock.t) : list CodeChunk :=
  let relative_path := relative_to file_path repo_path in
  map (chunk_of_draft repo_path relative_path language file_hash)
    (final_drafts self content symbols).

End BuildChunks.
End Chunker.


(** ** Exceptions and JSON values *)

Inductive exn : Type :=
| GeminiClientError (msg : string)
| ValueError (msg : string)
| KeyError (msg : string)
| TypeError (msg : string)
| RuntimeError (msg : string)
| OverflowError (msg : string)
| AinavError (code message : string) (status_code : Z) (details : gmap string Z)
| OtherError (msg : string).

(** [str(exc)] *)
Definition exn_message (e : exn) : string :=
  match e with
  | GeminiClientError m | ValueError m | KeyError m | TypeError m
  | RuntimeError m | OverflowError m | OtherError m => m
  | AinavError _ m _ _ => m
  end.

Inductive result (A : Type) : Type :=
| Ok (a : A)
| Raise (e : exn).
Arguments Ok {A} a.
Arguments Raise {A} e.

(** The values of [json.loads] and of point payloads. *)
#[warnings="-register-all"]
Inductive pyobj : Type :=
| JNull
| JBool (b : bool)
| JInt (z : Z)
| JFloat (q : Q)
| JStr (s : string)
| JArr (l : list pyobj)
| JObj (l : list (string * pyobj)).

(** ** query/rerank.py *)

Module LocalReranker.
Import PyStr PyList PyNum.

Record t : Type := {
  enabled : bool;
  max_candidates : nat;
}.

(** [LocalReranker.__init__]: [max(1, max_candidates)]. *)
Definition init (enabled : bool) (max_candidates : Z) : t :=
  {| enabled := enabled; max_candidates := Z.to_nat (Z.max 1 max_candidates) |}.

Section Rerank.

(** [_sigmoid], [1 / (1 + math.exp(-value))] on the model score; [None]
    when [math.exp] raises [OverflowError], which it does for a score below
    about -709.78. *)
Variable sigmoid : Q → option Q.
(** [f"{x:.3f}"] *)
Variable fmt3 : Q → string.
(** [_predict_scores] with the elapsed milliseconds; [None] when it raises
    (model load failure, timeout, invalid score format). *)
Variable predict : string → list QueryMatch → option (list Q * Z).

Definition with_score (m : QueryMatch) (s : Q) (e : string) : QueryMatch :=
  {| chunk := chunk m; vector_score := vector_score m; keyword_score := keyword_score m;
     symbol_score := symbol_score m; score := s; intent_score := intent_score m;
     structural_score := structural_score m; matched_intents := matched_intents m;
     matched_keywords := matched_keywords m; explanation := e |}.

(** The body of the loop over [zip(target, scores)], with the value of
    [_sigmoid] on the local score. *)
Definition blend (m : QueryMatch) (local_score squashed : Q) : QueryMatch :=
  let combined := (0.7 * score m + 0.3 * squashed)%Q in
  let explanation :=
    if nonempty (explanation m)
    then explanation m +:+ "; local reranker score=" +:+ fmt3 local_score
    else "local reranker score=" +:+ fmt3 local_score in
  with_score m combined explanation.

(** The loop over [zip(target, scores, strict=True)], which is outside
    the [try]: the pairs are taken in order, [_sigmoid] raises on the first
    score it overflows on, and [zip] raises [ValueError] when one list ends
    before the other. *)
Fixpoint blend_all (target : list QueryMatch) (scores : list Q)
    : result (list QueryMatch) :=
  match target, scores with
  | [], [] => Ok []
  | m :: target', local_score :: scores' =>
      match sigmoid local_score with
      | None => Raise (OverflowError "math range error")
      | Some squashed =>
          match blend_all target' scores' with
          | Ok reranked => Ok (blend m local_score squashed :: reranked)
          | Raise e => Raise e
          end
      end
  | [], _ :: _ => Raise (ValueError "zip() argument 2 is longer than argument 1")
  | _ :: _, [] => Raise (ValueError "zip() argument 2 is shorter than argument 1")
  end.

(** The key [item.score] with [reverse=True]. *)
Definition score_ge (a b : QueryMatch) : bool := Qle_bool (score b) (score a).

Definition rerank (self : t) (query : string) (matches : list QueryMatch)
    : result (list QueryMatch * bool * option Z) :=
  if negb (enabled self) || (length matches <=? 1)%nat then Ok (matches, false, None)
  else
    let target := take (max_candidates self) matches in
    let remainder := drop (max_candidates self) matches in
    match predict query target with
    | None => Ok (matches, false, None)
    | Some (scores, latency_ms) =>
        match blend_all target scores with
        | Raise e => Raise e
        | Ok reranked =>
            let reranked := sort_by score_ge reranked in
            Ok (reranked ++ remainder, true, Some latency_ms)
        end
    end.

End Rerank.
End LocalReranker.

(** ** llm/reranker.py *)

Module GeminiReranker.
Import PyStr PyList PyNum.

Record RerankDecision : Type := {
  selection : QuerySelection.t;
  used_gemini : bool;
  gemini_model : option string;
  gemini_latency_ms : option Z;
  rewritten_query : option string;
}.

Record t : Type := {
  model_name : string;
  threshold : Q;
  enable_rewrite : bool;
  max_candidates : nat;
}.

(** [GeminiReranker.__init__]: the threshold is clamped to [0, 1] and
    [max_candidates] to at least 1. *)
Definition init (model_name : string) (threshold : Q) (enable_rewrite : bool)
    (max_candidates : Z) : t :=
  {| model_name := model_name;
     threshold := py_max 0 (py_min 1 threshold);
     enable_rewrite := enable_rewrite;
     max_candidates := Z.to_nat (Z.max 1 max_candidates) |}.

(** The two methods of the client that the reranker calls; each call
    either returns or raises. *)
Record client : Type := {
  rewrite_query : string → string → result (string * Z);
  complete_json : string → string → result (gmap string pyobj * Z);
}.

(** The log of the calls made on the client. *)
Inductive llm_call : Type :=
| RewriteQuery (prompt model : string)
| CompleteJson (prompt model : string).

(** [isinstance(x, str)] *)
Definition as_str (o : pyobj) : option string :=
  match o with JStr s => Some s | _ => None end.
(** [isinstance(x, int)]: [bool] is a subclass of [int], [True] is 1. *)
Definition as_int (o : pyobj) : option Z :=
  match o with
  | JInt z => Some z
  | JBool b => Some (if b then 1 else 0)
  | _ => None
  end.

(** [payload[key]] *)
Definition getitem (payload : gmap string pyobj) (key : string) : result pyobj :=
  match payload !! key with
  | Some v => Ok v
  | None => Raise (KeyError ("'" +:+ key +:+ "'"))
  end.

(** [max(items, key=lambda item: item.score)] on a non-empty list: the
    first element with the greatest score. *)
Definition max_by_score (first : QueryMatch) (others : list QueryMatch) : QueryMatch :=
  foldl (fun best item => if Qlt_bool (score best) (score item) then item else best)
    first others.

Definition in_range (file_path : string) (line : Z) (item : QueryMatch) : bool :=
  bool_decide (Models.file_path (chunk item) = file_path)
  && (start_line (chunk item) <=? line) && (line <=? end_line (chunk item)).

Definition _selection_from_payload (payload : gmap string pyobj)
    (candidates : list QueryMatch) : result QuerySelection.t :=
  match getitem payload "file" with
  | Raise e => Raise e
  | Ok file_path =>
  match getitem payload "line" with
  | Raise e => Raise e
  | Ok line =>
  match getitem payload "reason" with
  | Raise e => Raise e
  | Ok reason =>
      match as_str file_path with
      | None => Raise (ValueError "Gemini output must include non-empty string 'file'")
      | Some file_path =>
      if negb (nonempty (strip file_path))
      then Raise (ValueError "Gemini output must include non-empty string 'file'")
      else
      match as_int line with
      | None => Raise (ValueError "Gemini output must include positive integer 'line'")
      | Some line =>
      if line <=? 0
      then Raise (ValueError "Gemini output must include positive integer 'line'")
      else
      match as_str reason with
      | None => Raise (ValueError "Gemini output must include non-empty string 'reason'")
      | Some reason =>
      if negb (nonempty (strip reason))
      then Raise (ValueError "Gemini output must include non-empty string 'reason'")
      else
        let make (candidate : QueryMatch) (line : Z) :=
          Ok {| QuerySelection.file := Models.file_path (chunk candidate);
                QuerySelection.line := line;
                QuerySelection.reason := strip reason;
                QuerySelection.source := "gemini" |} in
        match List.find (in_range file_path line) candidates with
        | Some candidate => make candidate line
        | None =>
            match filter (fun item =>
                            bool_decide (Models.file_path (chunk item) = file_path))
                    candidates with
            | first :: others =>
                let candidate := max_by_score first others in
                make candidate (start_line (chunk candidate))
            | [] =>
                Raise (ValueError
                         "Gemini selected a file that is not part of the candidate list")
            end
        end
      end
      end
      end
  end
  end
  end.

Definition _REWRITE_PROMPT (query : string) : string :=
  join nl
    ["Rewrite this source-code search query to be more precise and technical.";
     EmptyString;
     "Rules:";
     "- Preserve intent.";
     "- Mention likely symbols, behaviors, or API shape.";
     "- Keep it as a single sentence.";
     "- If already precise, return it unchanged.";
     "- Return plain text only.";
     EmptyString;
     "Query:";
     query;
     EmptyString].

(** [except (GeminiClientError, ValueError, KeyError, TypeError)] *)
Definition caught (e : exn) : bool :=
  match e with
  | GeminiClientError _ | ValueError _ | KeyError _ | TypeError _ => true
  | _ => false
  end.

Section Decide.

(** [f"{x:.3f}"] and [f"{x:.2f}"] *)
Variable fmt3 fmt2 : Q → string.
(** [_build_rerank_prompt]: the template filled with [json.dumps] of the
    serialized candidates. *)
Variable _build_rerank_prompt : string → list QueryMatch → string.

Definition vector_selection (best : QueryMatch) (reason : string) : QuerySelection.t :=
  {| QuerySelection.file := Models.file_path (chunk best);
     QuerySelection.line := start_line (chunk best);
     QuerySelection.reason := reason;
     QuerySelection.source := "vector" |}.

(** [total_latency_ms or None] *)
Definition nonzero (z : Z) : option Z := if z =? 0 then None else Some z.

Definition decide (self : t) (c : client) (query : string) (matches : list QueryMatch)
    : result (option RerankDecision) * list llm_call :=
  match matches with
  | [] => (Ok None, [])
  | best :: _ =>
      if Qle_bool (threshold self) (vector_score best) then
        let reason :=
          "High vector confidence " +:+ fmt3 (vector_score best) +:+ " meets threshold "
          +:+ fmt2 (threshold self) +:+ "; returning top semantic match." in
        (Ok (Some {| selection := vector_selection best reason;
                     used_gemini := false;
                     gemini_model := None;
                     gemini_latency_ms := None;
                     rewritten_query := None |}), [])
      else
        let candidates := take (max_candidates self) matches in
        (* optional rewrite: a GeminiClientError is logged and ignored *)
        let rewrite_step : result (option string * Z * string) * list llm_call :=
          if enable_rewrite self then
            let rewrite_prompt := _REWRITE_PROMPT query in
            let log := [RewriteQuery rewrite_prompt (model_name self)] in
            match rewrite_query c rewrite_prompt (model_name self) with
            | Ok (rewritten, rewrite_latency_ms) =>
                (Ok (Some rewritten, rewrite_latency_ms, rewritten), log)
            | Raise (GeminiClientError _) => (Ok (None, 0, query), log)
            | Raise e => (Raise e, log)
            end
          else (Ok (None, 0, query), []) in
        match rewrite_step with
        | (Raise e, log) => (Raise e, log)
        | (Ok (rewritten_query, total_latency_ms, query_for_rerank), log) =>
            let prompt := _build_rerank_prompt query_for_rerank candidates in
            let log := log ++ [CompleteJson prompt (model_name self)] in
            let attempt : result (QuerySelection.t * Z) * Z :=
              match complete_json c prompt (model_name self) with
              | Raise e => (Raise e, total_latency_ms)
              | Ok (payload, rerank_latency_ms) =>
                  let total_latency_ms := total_latency_ms + rerank_latency_ms in
                  match _selection_from_payload payload candidates with
                  | Raise e => (Raise e, total_latency_ms)
                  | Ok sel => (Ok (sel, total_latency_ms), total_latency_ms)
                  end
              end in
            match attempt with
            | (Raise e, total_latency_ms) =>
                if caught e then
                  let fallback_reason :=
                    "Gemini rerank failed (" +:+ exn_message e
                    +:+ "); falling back to top vector candidate with score "
                    +:+ fmt3 (vector_score best) +:+ "." in
                  (Ok (Some {| selection := vector_selection best fallback_reason;
                               used_gemini := false;
                               gemini_model := Some (model_name self);
                               gemini_latency_ms := nonzero total_latency_ms;
                               rewritten_query := rewritten_query |}), log)
                else (Raise e, log)
            | (Ok (sel, total_latency_ms), _) =>
                (Ok (Some {| selection := sel;
                             used_gemini := true;
                             gemini_model := Some (model_name self);
                             gemini_latency_ms := Some total_latency_ms;
                             rewritten_query := rewritten_query |}), log)
            end
        end
  end.

End Decide.
End GeminiReranker.

(** ** A state and exception monad for the stores *)

Module StateExn.

Definition M (S A : Type) : Type := S → result A * S.

Definition ret {S A : Type} (a : A) : M S A := fun s => (Ok a, s).
Definition raise {S A : Type} (e : exn) : M S A := fun s => (Raise e, s).
Definition bind {S A B : Type} (m : M S A) (k : A → M S B) : M S B :=
  fun s =>
    match m s with
    | (Ok a, s') => k a s'
    | (Raise e, s') => (Raise e, s')
    end.
Definition get {S : Type} : M S S := fun s => (Ok s, s).
Definition gets {S A : Type} (f : S → A) : M S A := fun s => (Ok (f s), s).
Definition modify {S : Type} (f : S → S) : M S unit := fun s => (Ok tt, f s).

(** [for x in l: body(x)] *)
Fixpoint for_each {S A : Type} (l : list A) (body : A → M S unit) : M S unit :=
  match l with
  | [] => ret tt
  | x :: l' => bind (body x) (fun _ => for_each l' body)
  end.

End StateExn.

Notation "'let*' x ':=' m 'in' k" := (StateExn.bind m (fun x => k))
  (at level 10, x name, m at level 100, k at level 200).
Notation "'do' m 'then' k" := (StateExn.bind m (fun _ => k))
  (at level 10, m at level 100, k at level 200).

(** ** core/vector_store.py *)

Module VectorStore.
Import PyStr PyList StateExn.

Record SearchHit : Type := {
  hit_chunk_id : string;
  hit_score : Q;
  hit_payload : gmap string pyobj;
}.

(** A stored point: its vector and its payload. *)
Record point : Type := {
  p_vector : list Q;
  p_payload : gmap string pyobj;
}.

(** A collection of the backend: the vector size that its configuration
    reports ([None] when [_collection_vector_size] finds none) and its
    points by point id. *)
Record collection : Type := {
  vec_size : option Z;
  points : gmap string point;
}.

(** A scored point returned by the backend. *)
Record scored_point : Type := {
  sp_id : string;
  sp_score : Q;
  sp_payload : option (gmap string pyobj);
}.

(** Which search method the installed client offers. *)
Inductive client_api : Type := HasSearch | HasQueryPoints | HasNeither.

(** The local backend: its collections, the client's API and the
    nearest-neighbour engine, which returns scored points or raises. *)
Record t : Type := {
  collections : gmap string collection;
  api : client_api;
  engine : collection → list Q → Z → result (list scored_point);
}.

Definition with_collections (s : t) (cs : gmap string collection) : t :=
  {| collections := cs; api := api s; engine := engine s |}.

(** A batch of vectors: a two-dimensional array with [shape[1] = v_dim]. *)
Record vectors : Type := {
  v_dim : Z;
  v_rows : list (list Q);
}.

Section Store.

(** [hashlib.sha1(s.encode("utf-8")).hexdigest()] *)
Variable sha1_hex : string → string.
(** [str(uuid.uuid5(uuid.NAMESPACE_URL, chunk_id))] *)
Variable uuid5 : string → string.

Definition collection_name (repo_path : string) : string :=
  "ainav_" +:+ slice_to 20 (sha1_hex repo_path).

Definition point_id (chunk_id : string) : string := uuid5 chunk_id.

Definition collection_exists (s : t) (name : string) : bool :=
  bool_decide (is_Some (collections s !! name)).

Definition _collection_vector_size (s : t) (name : string) : option Z :=
  collections s !! name ≫= vec_size.

Definition ensure_collection (repo_path : string) (vector_size : Z) (recreate : bool)
    : M t bool :=
  fun s =>
    let name := collection_name repo_path in
    let exists_ := collection_exists s name in
    let recreated := false in
    let '(s, exists_, recreated) :=
      if recreate && exists_
      then (with_collections s (delete name (collections s)), false, true)
      else (s, exists_, recreated) in
    let '(s, exists_, recreated) :=
      if exists_ && negb recreate then
        match _collection_vector_size s name with
        | Some existing_size =>
            if negb (existing_size =? vector_size)
            then (with_collections s (delete name (collections s)), false, true)
            else (s, exists_, recreated)
        | None => (s, exists_, recreated)
        end
      else (s, exists_, recreated) in
    if negb exists_ then
      (Ok true,
       with_collections s
         (<[name := {| vec_size := Some vector_size; points := ∅ |}]> (collections s)))
    else (Ok recreated, s).

Definition opt_str (o : option string) : pyobj :=
  match o with Some x => JStr x | None => JNull end.

Definition payload_of (c : CodeChunk) : gmap string pyobj :=
  list_to_map
    [("chunk_id", JStr (chunk_id c)); ("repo_path", JStr (repo_path c));
     ("file_path", JStr (file_path c)); ("language", JStr (language c));
     ("start_line", JInt (start_line c)); ("end_line", JInt (end_line c));
     ("symbol", opt_str (symbol c)); ("symbol_kind", opt_str (symbol_kind c));
     ("description", JStr (description c));
     ("keywords", JArr (map JStr (keywords c)));
     ("symbol_terms", JArr (map JStr (symbol_terms c)));
     ("route_method", opt_str (route_method c)); ("route_path", opt_str (route_path c));
     ("route_intent", opt_str (route_intent c));
     ("route_resource", opt_str (route_resource c));
     ("intent_tags", JArr (map JStr (intent_tags c)));
     ("structural_terms", JArr (map JStr (structural_terms c)))].

(** [client.upsert]: later points replace earlier ones with the same id. *)
Definition upsert_points (name : string) (ps : list (string * point)) (s : t) : t :=
  match collections s !! name with
  | Some col =>
      with_collections s
        (<[name := {| vec_size := vec_size col;
                      points := foldl (fun m p => <[fst p := snd p]> m) (points col) ps |}]>
           (collections s))
  | None => s
  end.

Definition upsert_chunks (repo_path : string) (chunks : list CodeChunk) (vs : vectors)
    : M t unit :=
  match chunks with
  | [] => ret tt
  | _ =>
      let name := collection_name repo_path in
      do ensure_collection repo_path (v_dim vs) false then
      if negb (length chunks =? length (v_rows vs))%nat
      then raise (ValueError "zip() arguments have different lengths")
      else
        let pts :=
          zip_with (fun c v => (point_id (chunk_id c),
                                {| p_vector := v; p_payload := payload_of c |}))
            chunks (v_rows vs) in
        modify (upsert_points name pts)
  end.

Definition update_points (name : string) (f : gmap string point → gmap string point)
    (s : t) : t :=
  match collections s !! name with
  | Some col =>
      with_collections s
        (<[name := {| vec_size := vec_size col; points := f (points col) |}]> (collections s))
  | None => s
  end.

Definition delete_chunk_ids (repo_path : string) (chunk_ids : list string) : M t unit :=
  match chunk_ids with
  | [] => ret tt
  | _ =>
      let name := collection_name repo_path in
      modify (fun s =>
                if negb (collection_exists s name) then s
                else update_points name
                       (fun m => foldl (fun m i => delete (point_id i) m) m chunk_ids) s)
  end.

(** The filter [file_path == value] on a payload. *)
Definition payload_file_is (file_path : string) (p : point) : bool :=
  match p_payload p !! "file_path" with
  | Some (JStr f) => bool_decide (f = file_path)
  | _ => false
  end.

Definition delete_file_chunks (repo_path file_path : string) : M t unit :=
  let name := collection_name repo_path in
  modify (fun s =>
            if negb (collection_exists s name) then s
            else update_points name
                   (filter (fun kv => payload_file_is file_path (snd kv) = false)) s).

(** [str(x)] for the payload's chunk id and [str(point.id)]. *)
Variable py_str : pyobj → string.

Definition hit_of_point (p : scored_point) : SearchHit :=
  let payload := default ∅ (sp_payload p) in
  let chunk_id :=
    match payload !! "chunk_id" with
    | Some JNull | None => sp_id p
    | Some (JStr s) => s
    | Some v => py_str v
    end in
  {| hit_chunk_id := chunk_id; hit_score := sp_score p; hit_payload := payload |}.

Definition dimension_mismatch_message (existing_size expected_size : Z) : string :=
  "Indexed vectors are incompatible with current embedding model (index_dim="
  +:+ pretty existing_size +:+ ", model_dim=" +:+ pretty expected_size
  +:+ "). Run `xtrc index <repo> --rebuild`.".

Definition search (s : t) (repo_path : string) (query_vector : list Q) (limit : Z)
    : result (list SearchHit) :=
  let name := collection_name repo_path in
  match collections s !! name with
  | None => Ok []
  | Some col =>
      let expected_size := Z.of_nat (length query_vector) in
      let existing_size := vec_size col in
      let mismatch :=
        match existing_size with
        | Some d => if negb (d =? expected_size) then Some d else None
        | None => None
        end in
      match mismatch with
      | Some d =>
          Raise (AinavError "INDEX_DIMENSION_MISMATCH"
                   (dimension_mismatch_message d expected_size) 409
                   (list_to_map [("index_dim", d); ("model_dim", expected_size)]))
      | None =>
          let outcome :=
            match api s with
            | HasSearch | HasQueryPoints => engine s col query_vector limit
            | HasNeither =>
                Raise (RuntimeError
                         "Unsupported qdrant-client version: missing search/query_points")
            end in
          match outcome with
          | Ok pts => Ok (map hit_of_point pts)
          | Raise (ValueError _) =>
              Raise (AinavError "INDEX_DIMENSION_MISMATCH"
                       ("Indexed vectors are incompatible with current embedding model. "
                        +:+ "Run `xtrc index <repo> --rebuild`.") 409 ∅)
          | Raise e => Raise e
          end
      end
  end.

Definition count_chunks (s : t) (repo_path : string) : Z :=
  match collections s !! collection_name repo_path with
  | None => 0
  | Some col => Z.of_nat (size (points col))
  end.

End Store.
End VectorStore.

(** ** core/metadata_store.py *)

Module MetadataStore.
Import PyStr PyList.

(** The five tables.  [files] is keyed by [(repo_path, file_path)] and
    holds [(content_hash, last_indexed_at)]; [chunks] is keyed by
    [chunk_id]; [repo_meta] holds [last_indexed_at]; [embeddings] holds
    [(dimension, vector, updated_at)]; [llm_summaries] holds
    [(model, summary, updated_at)]. *)
Record t : Type := {
  files : gmap (string * string) (string * string);
  chunks : gmap string CodeChunk;
  repo_meta : gmap string string;
  embeddings : gmap string (Z * list Q * string);
  llm_summaries : gmap string (string * string * string);
}.

Definition empty : t :=
  {| files := ∅; chunks := ∅; repo_meta := ∅; embeddings := ∅; llm_summaries := ∅ |}.

Definition with_files (s : t) (f : gmap (string * string) (string * string)) : t :=
  {| files := f; chunks := chunks s; repo_meta := repo_meta s;
     embeddings := embeddings s; llm_summaries := llm_summaries s |}.
Definition with_chunks (s : t) (c : gmap string CodeChunk) : t :=
  {| files := files s; chunks := c; repo_meta := repo_meta s;
     embeddings := embeddings s; llm_summaries := llm_summaries s |}.
Definition with_repo_meta (s : t) (m : gmap string string) : t :=
  {| files := files s; chunks := chunks s; repo_meta := m;
     embeddings := embeddings s; llm_summaries := llm_summaries s |}.
Definition with_embeddings (s : t) (e : gmap string (Z * list Q * string)) : t :=
  {| files := files s; chunks := chunks s; repo_meta := repo_meta s;
     embeddings := e; llm_summaries := llm_summaries s |}.
Definition with_llm_summaries (s : t) (l : gmap string (string * string * string)) : t :=
  {| files := files s; chunks := chunks s; repo_meta := repo_meta s;
     embeddings := embeddings s; llm_summaries := l |}.

Definition in_file (repo file : string) (c : CodeChunk) : bool :=
  bool_decide (Models.repo_path c = repo) && bool_decide (Models.file_path c = file).

Definition clear_repo (repo : string) (s : t) : t :=
  {| files := filter (fun kv => fst (fst kv) ≠ repo) (files s);
     chunks := filter (fun kv => Models.repo_path (snd kv) ≠ repo) (chunks s);
     repo_meta := delete repo (repo_meta s);
     embeddings := embeddings s;
     llm_summaries := llm_summaries s |}.

(** [SELECT file_path, content_hash FROM files WHERE repo_path = ?] as a dict. *)
Definition get_file_hashes (s : t) (repo : string) : gmap string string :=
  list_to_map
    (omap (fun kv => if bool_decide (fst (fst kv) = repo)
                     then Some (snd (fst kv), fst (snd kv)) else None)
       (map_to_list (files s))).

Definition upsert_file_hash (repo file content_hash now : string) (s : t) : t :=
  with_files s (<[(repo, file) := (content_hash, now)]> (files s)).

Definition delete_files (repo : string) (file_paths : list string) (s : t) : t :=
  match file_paths with
  | [] => s
  | _ => with_files s (foldl (fun m p => delete (repo, p) m) (files s) file_paths)
  end.

Definition get_chunk_ids_for_file (s : t) (repo file : string) : list string :=
  map fst (filter (fun kv => in_file repo file (snd kv) = true) (map_to_list (chunks s))).

Definition delete_chunks_by_file (repo file : string) (s : t) : t :=
  with_chunks s (filter (fun kv => in_file repo file (snd kv) = false) (chunks s)).

Definition delete_chunks_by_ids (chunk_ids : list string) (s : t) : t :=
  match chunk_ids with
  | [] => s
  | _ => with_chunks s (foldl (fun m i => delete i m) (chunks s) chunk_ids)
  end.

(** [INSERT ... ON CONFLICT(chunk_id) DO UPDATE]: the row is replaced. *)
Definition upsert_chunks (cs : list CodeChunk) (s : t) : t :=
  match cs with
  | [] => s
  | _ => with_chunks s (foldl (fun m c => <[chunk_id c := c]> m) (chunks s) cs)
  end.

Definition get_chunks_by_ids (s : t) (chunk_ids : list string) : gmap string CodeChunk :=
  match chunk_ids with
  | [] => ∅
  | _ => filter (fun kv => fst kv ∈ chunk_ids) (chunks s)
  end.

Definition set_repo_last_indexed (repo now : string) (s : t) : t :=
  with_repo_meta s (<[repo := now]> (repo_meta s)).

Record StatusStats : Type := {
  st_repo_path : string;
  indexed_files : Z;
  indexed_chunks : Z;
  last_indexed_at : option string;
}.

Definition get_status (s : t) (repo : string) : StatusStats :=
  {| st_repo_path := repo;
     indexed_files :=
       Z.of_nat (size (filter (fun kv => fst (fst kv) = repo) (files s)));
     indexed_chunks :=
       Z.of_nat (size (filter (fun kv => Models.repo_path (snd kv) = repo) (chunks s)));
     last_indexed_at :=
       match repo_meta s !! repo with
       | Some ts => if nonempty ts then Some ts else None
       | None => None
       end |}.

End MetadataStore.

(** ** core/repo.py *)

Module Repo.
Import PyStr.

Definition SUPPORTED_EXTENSIONS : gmap string string :=
  list_to_map
    [(".py", "python"); (".js", "javascript"); (".jsx", "javascript");
     (".ts", "typescript"); (".tsx", "tsx")].

(** [PurePosixPath.name]: the text after the last slash. *)
Definition path_name (path : string) : string :=
  List.last (split_char "/"%char path) EmptyString.

(** [PurePath.suffix]: from the last dot of the name on, unless that dot
    is the first or the last character of the name. *)
Definition suffix (path : string) : string :=
  let name := chars (path_name path) in
  match find_from ["."%char] (reverse name) 0 with
  | Some j =>
      let i := (length name - 1 - j)%nat in
      if (0 <? i)%nat && (i <? length name - 1)%nat then str (drop i name) else EmptyString
  | None => EmptyString
  end.

Definition detect_language (path : string) : option string :=
  SUPPORTED_EXTENSIONS !! lower (suffix path).

End Repo.


(** ** indexer/summarizer.py, the static methods *)

Module IndexChunkSummarizer.
Import PyStr.

Definition with_summary (c : CodeChunk) (s : option string) : CodeChunk :=
  {| chunk_id := chunk_id c; repo_path := repo_path c; file_path := file_path c;
     language := language c; start_line := start_line c; end_line := end_line c;
     symbol := symbol c; symbol_kind := symbol_kind c; description := description c;
     text := text c; content_hash := content_hash c; tokens := tokens c;
     keywords := keywords c; symbol_terms := symbol_terms c;
     route_method := route_method c; route_path := route_path c;
     route_intent := route_intent c; route_resource := route_resource c;
     intent_tags := intent_tags c; structural_terms := structural_terms c;
     llm_summary := s |}.

Definition apply_summaries (chunks : list CodeChunk) (summaries : gmap string string)
    : list CodeChunk :=
  if bool_decide (summaries = ∅) then chunks
  else map (fun c => with_summary c
                       (match summaries !! chunk_id c with
                        | Some s => Some s
                        | None => llm_summary c
                        end)) chunks.

Definition build_embedding_text (c : CodeChunk) : string :=
  let intent_line :=
    let joined := join ", " (intent_tags c) in
    if nonempty joined then joined else "unknown" in
  let parts :=
    ["File: " +:+ file_path c;
     "Symbol: " +:+ or_else (symbol c) "-";
     "Type: " +:+ or_else (symbol_kind c) "major_block";
     "Intent: " +:+ intent_line;
     EmptyString;
     "Summary:";
     or_else (llm_summary c) (description c)] in
  let parts :=
    if truthy (route_method c) || truthy (route_path c) then
      parts ++ [EmptyString; "HTTP Metadata (if applicable):";
                "Method: " +:+ or_else (route_method c) "-";
                "Route: " +:+ or_else (route_path c) "-"]
    else parts in
  strip (join nl parts).

End IndexChunkSummarizer.

(** ** core/indexer.py *)

Module Indexer.
Import PyStr PyList StateExn.

Record IndexStats : Type := {
  st_repo_path : string;
  files_scanned : Z;
  files_indexed : Z;
  files_deleted : Z;
  chunks_indexed : Z;
  duration_ms : Z;
}.

(** The two stores and the number of clock readings taken so far. *)
Record world : Type := {
  md : MetadataStore.t;
  vs : VectorStore.t;
  tick : nat;
}.

(** What the run reads from the file system: the walk and the files'
    texts ([None] when reading raises [OSError]). *)
Record file_system : Type := {
  walk_source_files : list string;
  read_text : string → option string;
}.

Definition on_md (f : MetadataStore.t → MetadataStore.t) : M world unit :=
  modify (fun w => {| md := f (md w); vs := vs w; tick := tick w |}).

Definition on_vs {A : Type} (m : M VectorStore.t A) : M world A :=
  fun w =>
    let '(r, v) := m (vs w) in
    (r, {| md := md w; vs := v; tick := tick w |}).

Section Index.

Variable sha256_hex sha1_hex uuid5 : string → string.
Variable relative_to : string → string → string.
(** [datetime.now(UTC).isoformat()] at the n-th reading of the clock. *)
Variable clock : nat → string.
(** [time.perf_counter] difference over the run, in milliseconds. *)
Variable elapsed_ms : Z.
(** [TreeSitterCodeParser.parse_symbols] *)
Variable parse_symbols : string → string → string → list SymbolBlock.t.
Variable chunk_builder : ChunkBuilder.t.
(** [EmbeddingService.dimension] and [embed_documents], which reads and
    fills the embedding cache table. *)
Variable dimension : Z.
Variable embed_documents :
  gmap string (Z * list Q * string) → list string →
  VectorStore.vectors * gmap string (Z * list Q * string).
(** [IndexChunkSummarizer.summarize_chunks] when a summarizer is
    configured: the summaries by chunk id; it reads and fills the summary
    cache table. *)
Variable summarize_chunks :
  option (gmap string (string * string * string) → list CodeChunk →
          gmap string string * gmap string (string * string * string)).

(** [datetime.now] *)
Definition now : M world string :=
  fun w => (Ok (clock (tick w)), {| md := md w; vs := vs w; tick := S (tick w) |}).

Definition changed_file : Type := (string * string * string * string * string)%type.

(** The first loop: the current paths and the changed files. *)
Definition scan_step (fs : file_system) (repo_path : string) (rebuild : bool)
    (known_hashes : gmap string string)
    (acc : gset string * list changed_file) (file_path : string)
    : gset string * list changed_file :=
  let '(current_paths, changed_files) := acc in
  match Repo.detect_language file_path with
  | None => acc
  | Some language =>
      let relative_path := relative_to file_path repo_path in
      let current_paths := current_paths ∪ {[relative_path]} in
      match read_text fs file_path with
      | None => (current_paths, changed_files)
      | Some text =>
          let file_hash := sha256_hex text in
          if negb rebuild && bool_decide (known_hashes !! relative_path = Some file_hash)
          then (current_paths, changed_files)
          else (current_paths,
                changed_files ++ [(file_path, relative_path, language, text, file_hash)])
      end
  end.

Definition scan (fs : file_system) (repo_path : string) (rebuild : bool)
    (known_hashes : gmap string string) : gset string * list changed_file :=
  foldl (scan_step fs repo_path rebuild known_hashes) (∅, []) (walk_source_files fs).

Definition run_summarizer (chunks : list CodeChunk) : M world (list CodeChunk) :=
  match summarize_chunks with
  | None => ret chunks
  | Some summarize =>
      fun w =>
        let '(summaries, table) := summarize (MetadataStore.llm_summaries (md w)) chunks in
        (Ok (IndexChunkSummarizer.apply_summaries chunks summaries),
         {| md := MetadataStore.with_llm_summaries (md w) table; vs := vs w; tick := tick w |})
  end.

Definition run_embedding (texts : list string) : M world VectorStore.vectors :=
  fun w =>
    let '(vectors, table) := embed_documents (MetadataStore.embeddings (md w)) texts in
    (Ok vectors,
     {| md := MetadataStore.with_embeddings (md w) table; vs := vs w; tick := tick w |}).

(** The body of the loop over the changed files; the result is the
    number of chunks indexed for the file. *)
Definition index_file (repo_path repo_key : string) (f : changed_file) : M world Z :=
  let '(file_path, relative_path, language, text, file_hash) := f in
  let* old_chunk_ids :=
    gets (fun w => MetadataStore.get_chunk_ids_for_file (md w) repo_key relative_path) in
  do (if null old_chunk_ids then ret tt
      else
        do on_vs (VectorStore.delete_chunk_ids sha1_hex uuid5 repo_key old_chunk_ids) then
        on_md (MetadataStore.delete_chunks_by_ids old_chunk_ids)) then
  let symbols := parse_symbols file_path language text in
  let chunks :=
    Chunker.build_chunks sha256_hex relative_to chunk_builder repo_path file_path
      language file_hash text symbols in
  let* n :=
    (if null chunks then ret 0
     else
       let* chunks := run_summarizer chunks in
       let embedding_input := map IndexChunkSummarizer.build_embedding_text chunks in
       let* vectors := run_embedding embedding_input in
       do on_vs (VectorStore.upsert_chunks sha1_hex uuid5 repo_key chunks vectors) then
       do on_md (MetadataStore.upsert_chunks chunks) then
       ret (Z.of_nat (length chunks))) in
  let* stamp := now in
  do on_md (MetadataStore.upsert_file_hash repo_key relative_path file_hash stamp) then
  ret n.

(** The loop over the changed files with its two counters. *)
Fixpoint index_files (repo_path repo_key : string) (fs : list changed_file)
    (files_indexed chunks_indexed : Z) : M world (Z * Z) :=
  match fs with
  | [] => ret (files_indexed, chunks_indexed)
  | f :: fs' =>
      let* n := index_file repo_path repo_key f in
      index_files repo_path repo_key fs' (files_indexed + 1) (chunks_indexed + n)
  end.

(** The deletion of the files that left the walk, from both stores. *)
Definition delete_missing (repo_key : string) (deleted_files : list string) : M world unit :=
  do for_each deleted_files
       (fun relative_path =>
          do on_vs (VectorStore.delete_file_chunks sha1_hex repo_key relative_path) then
          on_md (MetadataStore.delete_chunks_by_file repo_key relative_path)) then
  on_md (MetadataStore.delete_files repo_key deleted_files).

(** The first step: the collection is ensured and the effective value
    of [rebuild] is fixed. *)
Definition prepare (repo_key : string) (vector_size : Z) (rebuild : bool) : M world bool :=
  if rebuild then
    do on_md (MetadataStore.clear_repo repo_key) then
    do on_vs (VectorStore.ensure_collection sha1_hex repo_key vector_size true) then
    ret true
  else
    let* recreated :=
      on_vs (VectorStore.ensure_collection sha1_hex repo_key vector_size false) in
    if recreated : bool then
      do on_md (MetadataStore.clear_repo repo_key) then
      ret true
    else ret false.

(** [Indexer.index]; [repo_path] is the resolved path and [repo_key] its
    string. *)
Definition index (fs : file_system) (repo_path : string) (rebuild : bool)
    : M world IndexStats :=
  let repo_key := repo_path in
  let files := walk_source_files fs in
  let files_scanned := Z.of_nat (length files) in
  let vector_size := dimension in
  let* rebuild := prepare repo_key vector_size rebuild in
  let* known_hashes := gets (fun w => MetadataStore.get_file_hashes (md w) repo_key) in
  let '(current_paths, changed_files) := scan fs repo_path rebuild known_hashes in
  let deleted_files :=
    sorted (filter (fun p => p ∉ current_paths) (elements (dom known_hashes))) in
  do delete_missing repo_key deleted_files then
  let* counts := index_files repo_path repo_key changed_files 0 0 in
  let* stamp := now in
  do on_md (MetadataStore.set_repo_last_indexed repo_key stamp) then
  ret {| st_repo_path := repo_key;
         files_scanned := files_scanned;
         files_indexed := fst counts;
         files_deleted := Z.of_nat (length deleted_files);
         chunks_indexed := snd counts;
         duration_ms := elapsed_ms |}.

End Index.
End Indexer.

(** ** core/query_engine.py *)

Module QueryEngine.
Import PyStr PyList PyNum.

Record QueryOutcome : Type := {
  matches : list QueryMatch;
  duration_ms : Z;
  selection : option QuerySelection.t;
  used_gemini : bool;
  gemini_model : option string;
  gemini_latency_ms : option Z;
  rewritten_query : option string;
}.

(** The optional stages of the engine. *)
Record t : Type := {
  query_rewriter : option (string → result (string * bool));
  local_reranker : option LocalReranker.t;
  ranking_heuristics : option RankingHeuristics.t;
  reranker : option (GeminiReranker.t * GeminiReranker.client);
}.

Section Query.

Variable sha1_hex : string → string.
Variable py_str : pyobj → string.
Variable fmt3 fmt2 : Q → string.
Variable sigmoid : Q → option Q.
Variable predict : string → list QueryMatch → option (list Q * Z).
Variable _build_rerank_prompt : string → list QueryMatch → string.
(** [EmbeddingService.embed_query], which returns the vector or raises
    (the model cannot be loaded, the encoder fails). *)
Variable embed_query : string → result (list Q).
Variable elapsed_ms : Z.

(** The body of the loop over the hits, for a hit whose chunk exists. *)
Definition match_of_hit (self : t) (query_for_search : string)
    (hit : VectorStore.SearchHit) (c : CodeChunk) : QueryMatch :=
  let s :=
    HybridScorer.score query_for_search (VectorStore.hit_score hit) (keywords c)
      (symbol_terms c) (route_intent c) (route_method c) (route_resource c)
      (Some (structural_terms c)) in
  let explanation_bits :=
    ["semantic=" +:+ fmt3 (HybridScorer.normalized_vector s);
     "keyword=" +:+ fmt3 (HybridScorer.s_keyword s);
     "symbol=" +:+ fmt3 (HybridScorer.s_symbol s);
     "intent=" +:+ fmt3 (HybridScorer.s_intent s);
     "structural=" +:+ fmt3 (HybridScorer.s_structural s)] in
  let '(adjusted_total, matched_intents, matched_keywords, explanation_bits) :=
    match ranking_heuristics self with
    | Some h =>
        let decision := RankingHeuristics.evaluate h query_for_search c in
        ((HybridScorer.total s * RankingHeuristics.multiplier decision)%Q,
         RankingHeuristics.h_matched_intents decision,
         RankingHeuristics.h_matched_keywords decision,
         match RankingHeuristics.reasons decision with
         | [] => explanation_bits
         | reasons => explanation_bits ++ ["heuristics=" +:+ join ", " reasons]
         end)
    | None => (HybridScorer.total s, [], [], explanation_bits)
    end in
  {| chunk := c;
     score := adjusted_total;
     vector_score := HybridScorer.normalized_vector s;
     keyword_score := HybridScorer.s_keyword s;
     symbol_score := HybridScorer.s_symbol s;
     intent_score := HybridScorer.s_intent s;
     structural_score := HybridScorer.s_structural s;
     matched_intents := matched_intents;
     matched_keywords := matched_keywords;
     explanation := join "; " explanation_bits |}.

Definition build_matches (self : t) (query_for_search : string)
    (hits : list VectorStore.SearchHit) (chunks : gmap string CodeChunk)
    : list QueryMatch :=
  omap (fun hit => match_of_hit self query_for_search hit
                     <$> chunks !! VectorStore.hit_chunk_id hit) hits.

(** The sort key [(score, vector_score, 1 if symbol else 0, -tokens)]. *)
Definition sort_key (m : QueryMatch) : Q * Q * Z * Z :=
  (score m, vector_score m, if truthy (symbol (chunk m)) then 1 else 0, - tokens (chunk m)).

(** Tuple comparison [a <= b]: the first differing component decides. *)
Definition key_le (a b : Q * Q * Z * Z) : bool :=
  let '(a1, a2, a3, a4) := a in
  let '(b1, b2, b3, b4) := b in
  if negb (Qeq_bool a1 b1) then Qlt_bool a1 b1
  else if negb (Qeq_bool a2 b2) then Qlt_bool a2 b2
  else if negb (a3 =? b3) then a3 <? b3
  else a4 <=? b4.

(** [reverse=True] *)
Definition key_ge (a b : QueryMatch) : bool := key_le (sort_key b) (sort_key a).

Definition rank (ms : list QueryMatch) : list QueryMatch := sort_by key_ge ms.

(** The optional local rerank of the first ten matches. *)
Definition local_stage (self : t) (query_for_search : string) (ms : list QueryMatch)
    : result (list QueryMatch) :=
  match local_reranker self, ms with
  | Some lr, _ :: _ =>
      match LocalReranker.rerank sigmoid fmt3 predict lr query_for_search (take 10 ms) with
      | Raise e => Raise e
      | Ok (reranked, _, _) =>
          Ok (if (10 <? length ms)%nat then reranked ++ drop 10 ms else reranked)
      end
  | _, _ => Ok ms
  end.

Definition disabled_reason : string :=
  "Gemini reranker is disabled; returning highest scoring semantic result.".

(** The selection step; the second component is the log of LLM calls. *)
Definition select (self : t) (query_for_search : string) (ms : list QueryMatch)
    : result (option GeminiReranker.RerankDecision) * list GeminiReranker.llm_call :=
  match ms with
  | [] => (Ok None, [])
  | top :: _ =>
      match reranker self with
      | None =>
          (Ok (Some {| GeminiReranker.selection :=
                         GeminiReranker.vector_selection top disabled_reason;
                       GeminiReranker.used_gemini := false;
                       GeminiReranker.gemini_model := None;
                       GeminiReranker.gemini_latency_ms := None;
                       GeminiReranker.rewritten_query := None |}), [])
      | Some (rr, c) =>
          GeminiReranker.decide fmt3 fmt2 _build_rerank_prompt rr c query_for_search ms
      end
  end.

Definition query (self : t) (md : MetadataStore.t) (vs : VectorStore.t)
    (repo_key query_text : string) (top_k : Z)
    : result QueryOutcome * list GeminiReranker.llm_call :=
  let rewritten : result (string * option string) :=
    match query_rewriter self with
    | Some rewrite =>
        match rewrite query_text with
        | Raise e => Raise e
        | Ok (candidate_query, changed) =>
            Ok (candidate_query, if changed then Some candidate_query else None)
        end
    | None => Ok (query_text, None)
    end in
  match rewritten with
  | Raise e => (Raise e, [])
  | Ok (query_for_search, rewritten_query) =>
  match embed_query query_for_search with
  | Raise e => (Raise e, [])
  | Ok query_embedding =>
  let candidate_limit := Z.max (top_k * 12) top_k in
  match VectorStore.search sha1_hex py_str vs repo_key query_embedding candidate_limit with
  | Raise e => (Raise e, [])
  | Ok hits =>
      let chunk_ids := map VectorStore.hit_chunk_id hits in
      let chunks := MetadataStore.get_chunks_by_ids md chunk_ids in
      let ms := rank (build_matches self query_for_search hits chunks) in
      match local_stage self query_for_search ms with
      | Raise e => (Raise e, [])
      | Ok ms =>
          match select self query_for_search ms with
          | (Raise e, log) => (Raise e, log)
          | (Ok decision, log) =>
              let rewritten_query :=
                match decision ≫= GeminiReranker.rewritten_query with
                | Some r => if nonempty r then Some r else rewritten_query
                | None => rewritten_query
                end in
              (Ok {| matches := slice_upto top_k ms;
                     duration_ms := elapsed_ms;
                     selection := GeminiReranker.selection <$> decision;
                     used_gemini :=
                       default false (GeminiReranker.used_gemini <$> decision);
                     gemini_model := decision ≫= GeminiReranker.gemini_model;
                     gemini_latency_ms := decision ≫= GeminiReranker.gemini_latency_ms;
                     rewritten_query := rewritten_query |}, log)
          end
      end
  end
  end
  end.

End Query.
End QueryEngine.

(** ** More string primitives *)

Module PyText.
Import PyStr.

Definition space : ascii := ascii_of_nat 32.
Definition quote : string := String (ascii_of_nat 34) EmptyString.

(** [s.split()]: the maximal runs of characters that are not whitespace. *)
Fixpoint split_ws_acc (l cur : list ascii) : list (list ascii) :=
  match l with
  | [] => match cur with [] => [] | _ => [reverse cur] end
  | c :: l' =>
      if is_space c then
        match cur with
        | [] => split_ws_acc l' []
        | _ => reverse cur :: split_ws_acc l' []
        end
      else split_ws_acc l' (c :: cur)
  end.
Definition split_ws (s : string) : list string := map str (split_ws_acc (chars s) []).

Definition rstrip (s : string) : string := str (rstrip_by is_space (chars s)).

(** [s[:k]] for any integer [k]. *)
Definition slice_upto (k : Z) (s : string) : string := str (PyList.slice_upto k (chars s)).

(** [s[1:-1]] *)
Definition unwrap (s : string) : string := str (drop 1 (PyList.slice_upto (-1) (chars s))).

(** [" ".join(text.strip().split())] *)
Definition squeeze (text : string) : string := join " " (split_ws (strip text)).

End PyText.


(** ** llm/text_client.py, the outcome of [complete_text] *)

(** A client returns the text and the latency in milliseconds, raises
    [LLMClientError], or raises something else.  The first argument of a
    client is the number of calls made before, so that two calls with one
    prompt may differ. *)
Inductive completion : Type :=
| Completed (text : string) (latency_ms : Z)
| LLMClientError (msg : string)
| Crashed (e : exn).

Definition text_client : Type := nat → string → string → completion.


(** ** indexer/summarizer.py, the instance methods *)

Module IndexSummarizer.
Import PyStr PyText.

Record t : Type := {
  llm_client : option text_client;
  model_name : string;
  max_chars : Z;
}.

(** [IndexChunkSummarizer.__init__]: [max(80, max_chars)]. *)
Definition init (llm_client : option text_client) (model_name : string) (max_chars : Z) : t :=
  {| llm_client := llm_client; model_name := model_name; max_chars := Z.max 80 max_chars |}.

Definition _truncate_code (text : string) (max_chars : Z) : string :=
  if Z.of_nat (len text) <=? max_chars then text
  else slice_upto max_chars text +:+ nl +:+ "# ... truncated ...".

Definition _clean_summary (self : t) (text : string) : string :=
  let normalized := squeeze text in
  if Z.of_nat (len normalized) <=? max_chars self then normalized
  else rstrip (slice_upto (max_chars self - 3) normalized) +:+ "...".

End IndexSummarizer.


(** ** llm/chunk_summarizer.py *)

Module GeminiChunkSummarizer.
Import PyStr PyText.

Record t : Type := {
  model_name : string;
  max_chars : Z;
}.

(** [GeminiChunkSummarizer.__init__]: [max(64, max_chars)]. *)
Definition init (model_name : string) (max_chars : Z) : t :=
  {| model_name := model_name; max_chars := Z.max 64 max_chars |}.

Definition _truncate_code (text : string) (limit : Z) : string :=
  if Z.of_nat (len text) <=? limit then text
  else slice_upto limit text +:+ nl +:+ "# ... truncated ...".

Definition _clean_summary (self : t) (text : string) : string :=
  let one_line := squeeze text in
  if Z.of_nat (len one_line) <=? max_chars self then one_line
  else rstrip (slice_upto (max_chars self - 3) one_line) +:+ "...".

End GeminiChunkSummarizer.


(** ** query/rewrite.py *)

Module QueryRewriter.
Import PyStr PyText.

Definition _REWRITE_PROMPT (query : string) : string :=
  "Rewrite this code search query into precise backend intent." +:+ nl
  +:+ nl
  +:+ "Rules:" +:+ nl
  +:+ "- Keep original user intent." +:+ nl
  +:+ "- Mention endpoint/handler behavior when applicable." +:+ nl
  +:+ "- Include CRUD action and likely HTTP semantics if implied." +:+ nl
  +:+ "- Keep to one sentence." +:+ nl
  +:+ "- Return plain text only." +:+ nl
  +:+ nl
  +:+ "Query:" +:+ nl
  +:+ query +:+ nl.

Record t : Type := {
  llm_client : option text_client;
  model_name : string;
  enabled : bool;
  maxsize : nat;
}.

(** [QueryRewriter.__init__]: the cache holds [max(1, cache_size)] entries. *)
Definition init (llm_client : option text_client) (model_name : string) (enabled : bool)
    (cache_size : Z) : t :=
  {| llm_client := llm_client; model_name := model_name; enabled := enabled;
     maxsize := Z.to_nat (Z.max 1 cache_size) |}.

(** The entries of the [lru_cache], the most recently used first, and the
    prompts sent to the client so far. *)
Record state : Type := {
  cache : list (string * (string * Z));
  calls : list string;
}.

Definition state0 : state := {| cache := []; calls := [] |}.

Definition _clean_rewrite (text : string) : string :=
  let line := squeeze text in
  if negb (nonempty line) then EmptyString
  else
    let line :=
      if startswith line quote && endswith line quote then strip (unwrap line) else line in
    if (220 <? Z.of_nat (len line)) then rstrip (slice_upto 217 line) +:+ "..."
    else line.

(** The outcome of a call that may raise [LLMClientError]. *)
Inductive outcome : Type :=
| Returned (rewritten : string) (latency : Z)
| ClientFailed (msg : string)
| Failed (e : exn).

Definition _rewrite_uncached (self : t) (query : string) (st : state) : outcome * state :=
  match llm_client self with
  | None => (Returned query 0, st)
  | Some client =>
      let prompt := _REWRITE_PROMPT query in
      let st' := {| cache := cache st; calls := calls st ++ [prompt] |} in
      match client (length (calls st)) prompt (model_name self) with
      | Completed rewritten latency =>
          let cleaned := _clean_rewrite rewritten in
          (Returned (if nonempty cleaned then cleaned else query) latency, st')
      | LLMClientError msg => (ClientFailed msg, st')
      | Crashed e => (Failed e, st')
      end
  end.

Fixpoint cache_get (key : string) (c : list (string * (string * Z))) : option (string * Z) :=
  match c with
  | [] => None
  | (k, v) :: c' => if bool_decide (k = key) then Some v else cache_get key c'
  end.

(** [self._cached_rewrite]: a hit makes the entry the most recent one; a
    miss calls the function and stores what it returns, dropping the
    least recently used entry when the cache is full; a call that raises
    stores nothing. *)
Definition _cached_rewrite (self : t) (key : string) (st : state) : outcome * state :=
  match cache_get key (cache st) with
  | Some v =>
      (Returned (fst v) (snd v),
       {| cache := (key, v) :: filter (fun kv => fst kv ≠ key) (cache st);
          calls := calls st |})
  | None =>
      match _rewrite_uncached self key st with
      | (Returned rewritten latency, st') =>
          (Returned rewritten latency,
           {| cache := take (maxsize self) ((key, (rewritten, latency)) :: cache st');
              calls := calls st' |})
      | (failure, st') => (failure, st')
      end
  end.

Definition rewrite (self : t) (query : string) (st : state)
    : result (string * bool * option Z) * state :=
  if negb (enabled self) || bool_decide (llm_client self = None)
  then (Ok (query, false, None), st)
  else
    let normalized := strip query in
    if negb (nonempty normalized) then (Ok (query, false, None), st)
    else
      match _cached_rewrite self normalized st with
      | (ClientFailed _, st') => (Ok (query, false, None), st')
      | (Failed e, st') => (Raise e, st')
      | (Returned rewritten latency, st') =>
          if negb (nonempty rewritten) then (Ok (query, false, None), st')
          else (Ok (rewritten, negb (bool_decide (rewritten = query)), Some latency), st')
      end.

End QueryRewriter.


(** ** core/metadata_store.py, the table of cached summaries *)

Module SummaryCache.
Import PyStr.

(** A row of [llm_summaries], found by its key, holds the model, the
    summary and the time of the write. *)
Definition row_summary (row : string * string * string) : string := snd (fst row).

Definition get_cached_chunk_summaries (t : gmap string (string * string * string))
    (keys : list string) : gmap string string :=
  match keys with
  | [] => ∅
  | _ => row_summary <$> filter (fun kv => fst kv ∈ keys) t
  end.

(** [now] is the time of the write, which is read only when there is a
    row to write. *)
Definition upsert_cached_chunk_summaries (model : string) (summaries : gmap string string)
    (now : string) (t : gmap string (string * string * string))
    : gmap string (string * string * string) :=
  if bool_decide (summaries = ∅) then t
  else ((fun summary => (model, summary, now)) <$> summaries) ∪ t.

End SummaryCache.


(** ** indexer/summarizer.py, [summarize_chunks] *)

Module SummarizeChunks.
Import PyStr PyText StateExn SummaryCache.

Definition _SUMMARY_PROMPT (file_path symbol chunk_type method path intent_tags code : string)
    : string :=
  "Summarize this backend code chunk for semantic retrieval." +:+ nl
  +:+ nl
  +:+ "Requirements:" +:+ nl
  +:+ "- 1 to 2 short sentences." +:+ nl
  +:+ "- Explain purpose and business intent." +:+ nl
  +:+ "- Mention API behavior and data mutations when present." +:+ nl
  +:+ "- Avoid implementation details and low-level syntax." +:+ nl
  +:+ "- No markdown." +:+ nl
  +:+ nl
  +:+ "File: " +:+ file_path +:+ nl
  +:+ "Symbol: " +:+ symbol +:+ nl
  +:+ "Type: " +:+ chunk_type +:+ nl
  +:+ "Route Method: " +:+ method +:+ nl
  +:+ "Route Path: " +:+ path +:+ nl
  +:+ "Intent Tags: " +:+ intent_tags +:+ nl
  +:+ nl
  +:+ "Code:" +:+ nl
  +:+ code +:+ nl.

(** The cache table and the prompts sent to the client so far. *)
Record world : Type := {
  llm_summaries : gmap string (string * string * string);
  calls : list string;
}.

(** The three accumulators of the loop. *)
Record progress : Type := {
  summaries : gmap string string;
  to_store : gmap string string;
  latency_ms : Z;
}.

Section Summarize.

(** [hashlib.sha256(s.encode("utf-8")).hexdigest()] *)
Variable sha256_hex : string → string.
Variable self : IndexSummarizer.t.

Definition _summary_key (chunk : CodeChunk) : string :=
  sha256_hex (IndexSummarizer.model_name self +:+ "|" +:+ chunk_id chunk +:+ "|"
              +:+ content_hash chunk +:+ "|" +:+ text chunk).

Definition prompt_of (chunk : CodeChunk) : string :=
  _SUMMARY_PROMPT (file_path chunk) (or_else (symbol chunk) "-")
    (or_else (symbol_kind chunk) "major_block") (or_else (route_method chunk) "-")
    (or_else (route_path chunk) "-")
    (let joined := join ", " (intent_tags chunk) in
     if nonempty joined then joined else "none")
    (IndexSummarizer._truncate_code (text chunk) 2600).

(** [keys]: the key of the last chunk with each id. *)
Definition keys_of (chunks : list CodeChunk) : gmap string string :=
  foldl (fun m chunk => <[chunk_id chunk := _summary_key chunk]> m) ∅ chunks.

(** The body of the loop, on the log of the calls. *)
Definition summarize_one (keys cached : gmap string string) (acc : progress)
    (chunk : CodeChunk) : M (list string) progress :=
  let key := default EmptyString (keys !! chunk_id chunk) in
  let cached_summary := cached !! key in
  if truthy cached_summary then
    ret {| summaries := <[chunk_id chunk := or_else cached_summary EmptyString]> (summaries acc);
           to_store := to_store acc; latency_ms := latency_ms acc |}
  else
    match IndexSummarizer.llm_client self with
    | None => ret acc
    | Some client =>
        let prompt := prompt_of chunk in
        fun log =>
          match client (length log) prompt (IndexSummarizer.model_name self) with
          | LLMClientError _ => (Ok acc, log ++ [prompt])
          | Crashed e => (Raise e, log ++ [prompt])
          | Completed text elapsed =>
              let clean := IndexSummarizer._clean_summary self text in
              if negb (nonempty clean) then (Ok acc, log ++ [prompt])
              else
                (Ok {| summaries := <[chunk_id chunk := clean]> (summaries acc);
                       to_store := <[key := clean]> (to_store acc);
                       latency_ms := latency_ms acc + elapsed |},
                 log ++ [prompt])
          end
    end.

Fixpoint summarize_loop (keys cached : gmap string string) (chunks : list CodeChunk)
    (acc : progress) : M (list string) progress :=
  match chunks with
  | [] => ret acc
  | chunk :: rest =>
      let* acc := summarize_one keys cached acc chunk in
      summarize_loop keys cached rest acc
  end.

Definition summarize_chunks (now : string) (chunks : list CodeChunk)
    : M world (gmap string string * Z) :=
  match chunks with
  | [] => ret (∅, 0)
  | _ =>
      fun w =>
        let keys := keys_of chunks in
        let cached :=
          get_cached_chunk_summaries (llm_summaries w) (map snd (map_to_list keys)) in
        let start := {| summaries := ∅; to_store := ∅; latency_ms := 0 |} in
        match summarize_loop keys cached chunks start (calls w) with
        | (Raise e, log) => (Raise e, {| llm_summaries := llm_summaries w; calls := log |})
        | (Ok acc, log) =>
            (Ok (summaries acc, latency_ms acc),
             {| llm_summaries :=
                  upsert_cached_chunk_summaries (IndexSummarizer.model_name self)
                    (to_store acc) now (llm_summaries w);
                calls := log |})
        end
  end.

End Summarize.
End SummarizeChunks.


(** ** core/embeddings.py, the preparation of the texts *)

Module EmbeddingService.
Import PyStr.

Definition query_prefix : string :=
  "Represent this sentence for searching relevant passages: ".

(** [model_name] is [self.settings.model_name]. *)
Definition _prepare_document_text (model_name text : string) : string :=
  let model_name := lower model_name in
  if contains model_name "e5" then
    if startswith text "passage: " then text else "passage: " +:+ text
  else text.

Definition _prepare_query_text (model_name text : string) : string :=
  let model_name := lower model_name in
  if contains model_name "bge" then
    if startswith text query_prefix then text else query_prefix +:+ text
  else if contains model_name "e5" then
    if startswith text "query: " then text else "query: " +:+ text
  else text.

End EmbeddingService.


(** * The vocabulary of the properties *)

(** ** The overlap ratio *)

Module ScorerSpec.
Import PyList PyNum.

(** The overlap ratio in the words of the specification: the number of
    distinct query terms that occur among the candidates, over the number
    of distinct query terms; zero when either list is empty. *)
Definition spec_overlap (query_terms candidates : list string) : Q :=
  if null query_terms || null candidates then 0%Q
  else
    let distinct := remove_dups query_terms in
    ratio (length (filter (fun term => term ∈ candidates) distinct)) (length distinct).

End ScorerSpec.

(** ** Payloads and client behaviour *)

Module GeminiSpec.
Import PyStr PyNum GeminiReranker.








Definition fallback_reason (fmt3 : Q → string) (best : QueryMatch) (e : exn) : string :=
  "Gemini rerank failed (" +:+ exn_message e
  +:+ "); falling back to top vector candidate with score "
  +:+ fmt3 (vector_score best) +:+ ".".

End GeminiSpec.

(** ** Provenance tags *)

Module SelectionSpec.

(** The tag that goes with the flag [used_gemini]. *)
Definition tag_of (used : bool) : string := if used then "gemini" else "vector".

End SelectionSpec.

(** ** Ranking order *)

Module RankSpec.

(** [a] ranks at least as high as [b] by score. *)
Definition outranks (a b : QueryMatch) : Prop := (score b <= score a)%Q.



End RankSpec.

(** ** Well-formed drafts *)

Module ChunkSpec.
Import ChunkBuilder.

(** A draft spans at least one line. *)
Definition wf (d : ChunkDraft.t) : Prop := ChunkDraft.start_line d <= ChunkDraft.end_line d.

Definition wf_part (p : part) : Prop := snd (fst p) <= snd p.

(** Drafts in the order of their start lines. *)
Definition starts_before (a b : ChunkDraft.t) : Prop :=
  ChunkDraft.start_line a <= ChunkDraft.start_line b.

Definition ordered (l : list ChunkDraft.t) : Prop := StronglySorted starts_before l.

(** The two invariants of the merge loop, on what has been merged, what
    is buffered and what is still to come. *)
Definition merge_inv (st : merge_state) (rest : list ChunkDraft.t) : Prop :=
  Forall wf (fst st ++ snd st ++ rest) ∧ ordered (fst st ++ snd st ++ rest).

End ChunkSpec.

(** ** An unchanged repository *)

Module IndexSpec.
Import Indexer.

(** The collection of the repository exists with the model's dimension. *)
Definition collection_ready (sha1_hex : string → string) (dimension : Z)
    (v : VectorStore.t) (repo : string) : Prop :=
  ∃ col, VectorStore.collections v !! VectorStore.collection_name sha1_hex repo = Some col
         ∧ VectorStore.vec_size col = Some dimension.

(** Every readable source file of the walk has its hash stored. *)
Definition hashes_current (sha256_hex : string → string)
    (relative_to : string → string → string) (fs : file_system) (repo : string)
    (known : gmap string string) : Prop :=
  ∀ file language text,
    file ∈ walk_source_files fs →
    Repo.detect_language file = Some language →
    read_text fs file = Some text →
    known !! relative_to file repo = Some (sha256_hex text).

(** Every stored file is still a source file of the walk. *)
Definition none_missing (relative_to : string → string → string)
    (fs : file_system) (repo : string)
    (known : gmap string string) : Prop :=
  ∀ path, is_Some (known !! path) →
    ∃ file, file ∈ walk_source_files fs
            ∧ is_Some (Repo.detect_language file)
            ∧ relative_to file repo = path.

End IndexSpec.

(** ** Tokens and terms *)

Module TokenSpec.
Import PyStr Re.

(** Every character class of [r] accepts only characters that satisfy [P]. *)
Fixpoint classes (P : ascii → Prop) (r : regex) : Prop :=
  match r with
  | Ch p => ∀ c, p c = true → P c
  | Eps | WordB => True
  | Cat r1 r2 | Alt r1 r2 => classes P r1 ∧ classes P r2
  | Star r' | Grp _ r' => classes P r'
  end.

(** [r] cannot match the empty text. *)
Fixpoint consuming (r : regex) : Prop :=
  match r with
  | Ch _ => True
  | Cat r1 r2 => consuming r1 ∨ consuming r2
  | Alt r1 r2 => consuming r1 ∧ consuming r2
  | Grp _ r' => consuming r'
  | Eps | Star _ | WordB => False
  end.

(** A character of an identifier. *)
Definition ident_class (c : ascii) : Prop :=
  (is_alpha c || is_digit c || is_underscore c) = true.

(** A character of a normalized term: a lower-case ASCII letter, a digit
    or an underscore. *)
Definition term_char (c : ascii) : bool := is_lower c || is_digit c || is_underscore c.

(** A normalized term: at least two characters, the first a lower-case
    letter or an underscore, the others term characters. *)
Definition is_term (token : string) : bool :=
  match chars token with
  | c :: d :: rest => (is_lower c || is_underscore c) && forallb term_char (d :: rest)
  | _ => false
  end.

(** [not text.strip()] *)
Definition blank_text (text : string) : bool := negb (nonempty (strip text)).

End TokenSpec.


(** ** Route and query signals *)

Module SignalSpec.
Import PyStr RouteSignals.

Definition HTTP_METHODS : list string := ["GET"; "POST"; "PUT"; "DELETE"; "PATCH"].

Definition CRUD_INTENTS : list string := ["create"; "update"; "delete"; "read"].

(** Every tag that [extract_intent_metadata] can emit. *)
Definition TAG_VOCABULARY : list string :=
  ["create_resource"; "update_resource"; "delete_resource"; "read_resource";
   "seed_data"; "migration_script"; "test_script"; "script";
   "logging"; "analytics"; "route_handler"].

(** A route signal is coherent: an upper-case HTTP method, the intent
    that [HTTP_INTENT_MAP] gives it, and both among the structural terms,
    with the resource when there is one. *)
Definition signal_ok (rs : RouteSignal) : Prop :=
  rs_method rs ∈ HTTP_METHODS
  ∧ HTTP_INTENT_MAP !! lower (rs_method rs) = Some (rs_intent rs)
  ∧ rs_intent rs ∈ CRUD_INTENTS
  ∧ lower (rs_method rs) ∈ rs_structural_terms rs
  ∧ rs_intent rs ∈ rs_structural_terms rs
  ∧ match rs_resource rs with
    | Some r => nonempty r = false ∨ r ∈ rs_structural_terms rs
    | None => True
    end.

(** A query signal is coherent: its methods are HTTP methods that occur
    in the query, each one brings its intent, the intents are CRUD
    intents, and the structural terms hold every method and intent. *)
Definition query_signal_ok (query : string) (qs : QuerySignal) : Prop :=
  Forall (fun m => m ∈ Tokenizer.normalize_terms query
                   ∧ ∃ i, HTTP_INTENT_MAP !! m = Some i ∧ i ∈ qs_intents qs)
    (qs_methods qs)
  ∧ Forall (fun i => i ∈ CRUD_INTENTS) (qs_intents qs)
  ∧ Forall (fun t => t ∈ qs_structural_terms qs) (qs_methods qs ++ qs_intents qs)
  ∧ NoDup (qs_intents qs) ∧ NoDup (qs_methods qs) ∧ NoDup (qs_structural_terms qs).

(** The intent metadata of a chunk is coherent: its tags come from the
    fixed vocabulary without duplicates; with a route method there are
    the mapped intent, its [_resource] tag and the handler flag; without
    one there is no route field at all. *)
Definition metadata_ok (m : Intent.IntentMetadata) : Prop :=
  Forall (fun t => t ∈ TAG_VOCABULARY) (Intent.intent_tags m)
  ∧ NoDup (Intent.intent_tags m)
  ∧ NoDup (Intent.structural_terms m)
  ∧ match Intent.route_method m with
    | Some method =>
        method ∈ HTTP_METHODS
        ∧ Intent.is_route_handler m = true
        ∧ ∃ i, Intent.route_intent m = Some i
               ∧ HTTP_INTENT_MAP !! lower method = Some i
               ∧ (i +:+ "_resource") ∈ Intent.intent_tags m
               ∧ lower method ∈ Intent.structural_terms m
               ∧ i ∈ Intent.structural_terms m
    | None =>
        Intent.route_intent m = None ∧ Intent.route_path m = None
        ∧ Intent.route_resource m = None
    end.

End SignalSpec.


(** ** Score ranges *)

Module ScoreSpec.
Local Open Scope Q_scope.

Definition unit_interval (q : Q) : Prop := 0 <= q ∧ q <= 1.

(** Every component of a hybrid score and its total lie in [0, 1]. *)
Definition scores_in_range (r : HybridScorer.scores) : Prop :=
  unit_interval (HybridScorer.total r)
  ∧ unit_interval (HybridScorer.normalized_vector r)
  ∧ unit_interval (HybridScorer.s_keyword r)
  ∧ unit_interval (HybridScorer.s_symbol r)
  ∧ unit_interval (HybridScorer.s_intent r)
  ∧ unit_interval (HybridScorer.s_structural r).

(** The component scores of a match lie in [0, 1] and its score is not
    negative; without heuristics the score is at most 1 as well. *)
Definition match_in_range (heuristics : bool) (m : QueryMatch) : Prop :=
  unit_interval (vector_score m)
  ∧ unit_interval (keyword_score m)
  ∧ unit_interval (symbol_score m)
  ∧ unit_interval (intent_score m)
  ∧ unit_interval (structural_score m)
  ∧ 0 <= score m
  ∧ if heuristics then True else score m <= 1.

(** An engine whose heuristics, when present, come from the constructor. *)
Definition engine_with (rewriter : option (string → result (string * bool)))
    (local_reranker : option LocalReranker.t) (boosts : option (Q * Q * Q))
    (reranker : option (GeminiReranker.t * GeminiReranker.client)) : QueryEngine.t :=
  {| QueryEngine.query_rewriter := rewriter;
     QueryEngine.local_reranker := local_reranker;
     QueryEngine.ranking_heuristics :=
       (fun b => RankingHeuristics.init (fst (fst b)) (snd (fst b)) (snd b)) <$> boosts;
     QueryEngine.reranker := reranker |}.

End ScoreSpec.


(** ** Heuristic decisions *)

Module DecisionSpec.
Import PyStr RouteSignals RankingHeuristics.

(** What a decision reports is grounded in the query and the chunk: at
    most eight keywords, each a normalized term of the query; matched
    intents that are tags of the chunk of the form [<intent>_resource]
    for an intent of the query; at most three reasons, and the neutral
    multiplier when there is none. *)
Definition decision_ok (query : string) (c : CodeChunk) (d : HeuristicDecision) : Prop :=
  (length (h_matched_keywords d) ≤ 8)%nat
  ∧ NoDup (h_matched_keywords d)
  ∧ Forall (fun k => k ∈ Tokenizer.normalize_terms query) (h_matched_keywords d)
  ∧ NoDup (h_matched_intents d)
  ∧ Forall (fun t => t ∈ intent_tags c
                     ∧ ∃ i, i ∈ qs_intents (infer_query_signal query)
                            ∧ t = i +:+ "_resource")
      (h_matched_intents d)
  ∧ (length (reasons d) ≤ 3)%nat
  ∧ match reasons d with
    | [] => multiplier d = 1%Q
    | _ => True
    end.

End DecisionSpec.


(** ** The parts of the line splitter *)

Module TilingSpec.
Import PyStr ChunkBuilder.

Definition part_text (p : part) : string := fst (fst p).
Definition part_start (p : part) : Z := snd (fst p).
Definition part_end (p : part) : Z := snd p.

(** Each part starts where the one before it ended, from [next] on, and
    spans at least one line. *)
Fixpoint contiguous (next : Z) (parts : list part) : Prop :=
  match parts with
  | [] => True
  | p :: rest => part_start p = next ∧ next <= part_end p ∧ contiguous (part_end p + 1) rest
  end.

(** The line after the last part. *)
Fixpoint after (next : Z) (parts : list part) : Z :=
  match parts with
  | [] => next
  | p :: rest => after (part_end p + 1) rest
  end.

(** The parts tile the lines: contiguous from [start], as many lines as
    the text has, and their texts joined by line feeds give the lines
    joined by line feeds. *)
Definition tiles (start : Z) (lines : list string) (parts : list part) : Prop :=
  contiguous start parts
  ∧ after start parts = start + Z.of_nat (length lines)
  ∧ join nl (map part_text parts) = join nl lines.

(** The invariant of the loop after the lines [done]. *)
Definition split_inv (start : Z) (done : list string) (st : split_state) : Prop :=
  contiguous start (sp_chunks st)
  ∧ after start (sp_chunks st) = sp_block_start st
  ∧ sp_block_start st + Z.of_nat (length (sp_current st)) = start + Z.of_nat (length done)
  ∧ ∃ groups : list (list string),
      Forall (fun g => g ≠ []) groups
      ∧ map part_text (sp_chunks st) = map (join nl) groups
      ∧ concat groups ++ sp_current st = done.

End TilingSpec.


(** ** The chunks of a file, in order *)

Module OrderSpec.

(** Chunks in the order of their start lines. *)
Definition chunk_starts_before (a b : CodeChunk) : Prop := start_line a <= start_line b.

End OrderSpec.

(** ** The fields of a chunk *)

Module ChunkFieldSpec.
Import PyStr.

(** The fields that [build_chunks] derives for a chunk fit together: a
    description that is not empty; keywords that are normalized terms;
    structural terms and symbol terms without duplicates, the former
    among the latter; and for a chunk with a route method the tag of its
    intent and the standing of a route chunk for the ranking heuristics. *)
Definition chunk_ok (c : CodeChunk) : Prop :=
  nonempty (description c) = true
  ∧ Forall (fun k => TokenSpec.is_term k = true) (keywords c)
  ∧ NoDup (structural_terms c)
  ∧ NoDup (symbol_terms c)
  ∧ Forall (fun t => t ∈ symbol_terms c) (structural_terms c)
  ∧ Forall (fun t => t ∈ SignalSpec.TAG_VOCABULARY) (intent_tags c)
  ∧ match route_method c with
    | Some method =>
        method ∈ SignalSpec.HTTP_METHODS
        ∧ RankingHeuristics._is_route_chunk c = true
        ∧ ∃ i, route_intent c = Some i ∧ (i +:+ "_resource") ∈ intent_tags c
    | None => route_intent c = None ∧ route_path c = None ∧ route_resource c = None
    end.

End ChunkFieldSpec.


(** ** What reranking keeps *)

Module RerankSpec.

(** Everything of a match but its score and explanation. *)
Definition core (m : QueryMatch) :
    CodeChunk * Q * Q * Q * Q * Q * list string * list string :=
  (chunk m, vector_score m, keyword_score m, symbol_score m, intent_score m,
   structural_score m, matched_intents m, matched_keywords m).

(** The outcome of a local rerank of [l] into [l']: the same candidates
    up to order, scores and explanations; the part behind the window
    untouched; and either the window sorted by score or nothing changed. *)
Definition reranked (max_candidates : nat) (l l' : list QueryMatch) (used : bool) : Prop :=
  map core l' ≡ₚ map core l
  ∧ drop max_candidates l' = drop max_candidates l
  ∧ if used then StronglySorted RankSpec.outranks (take max_candidates l') else l' = l.

(** How the loop of the local reranker fails on the scores of the
    model: [_sigmoid] overflows on one of the scores that are paired with a
    candidate, or none of these overflows and the number of scores is not
    the number of candidates, which [zip] answers with a [ValueError]. *)
Definition loop_failure (sigmoid : Q → option Q) (target : list QueryMatch)
    (scores : list Q) (e : exn) : Prop :=
  let paired := take (length target) scores in
  (e = OverflowError "math range error" ∧ Exists (fun x => sigmoid x = None) paired)
  ∨ ((∃ msg, e = ValueError msg)
     ∧ length scores ≠ length target
     ∧ Forall (fun x => is_Some (sigmoid x)) paired).

(** The selection names a candidate: its file is the file of a match and
    its line is that match's start line or lies in its line range. *)
Definition names_candidate (sel : QuerySelection.t) (ms : list QueryMatch) : Prop :=
  ∃ m, m ∈ ms
       ∧ QuerySelection.file sel = Models.file_path (chunk m)
       ∧ (QuerySelection.line sel = start_line (chunk m)
          ∨ start_line (chunk m) <= QuerySelection.line sel <= end_line (chunk m)).

(** The number of JSON completions in a log of LLM calls. *)
Definition is_completion (call : GeminiReranker.llm_call) : bool :=
  match call with
  | GeminiReranker.CompleteJson _ _ => true
  | GeminiReranker.RewriteQuery _ _ => false
  end.
Definition completions (log : list GeminiReranker.llm_call) : nat :=
  length (filter (fun call => is_completion call = true) log).

(** A decision is sound for the matches it was taken on: its selection
    names one of them, at most one JSON completion and at most two LLM
    calls were made, and an LLM decision made exactly one completion and
    reports its model and latency. *)
Definition decision_sound (self : GeminiReranker.t) (ms : list QueryMatch)
    (d : GeminiReranker.RerankDecision) (log : list GeminiReranker.llm_call) : Prop :=
  names_candidate (GeminiReranker.selection d) ms
  ∧ (completions log ≤ 1)%nat
  ∧ (length log ≤ 2)%nat
  ∧ (if GeminiReranker.enable_rewrite self then True else length log = completions log)
  ∧ if GeminiReranker.used_gemini d
    then completions log = 1%nat
         ∧ GeminiReranker.gemini_model d = Some (GeminiReranker.model_name self)
         ∧ is_Some (GeminiReranker.gemini_latency_ms d)
    else True.

(** The exception was raised by a call on the client. *)
Definition client_raised (c : GeminiReranker.client) (e : exn) : Prop :=
  ∃ prompt model,
    GeminiReranker.rewrite_query c prompt model = Raise e
    ∨ GeminiReranker.complete_json c prompt model = Raise e.

End RerankSpec.


(** ** The outcome of a query *)

Module QuerySpec.
Import ScoreSpec RerankSpec.







End QuerySpec.


(** ** The collections of the vector store *)

Module StoreSpec.
Import VectorStore.

(** A collection as [create_collection] makes it. *)
Definition fresh (vector_size : Z) : collection :=
  {| vec_size := Some vector_size; points := ∅ |}.

(** The collections other than [name] are the same in both stores, and
    so are the client and the backend. *)
Definition same_elsewhere (name : string) (s s' : t) : Prop :=
  delete name (collections s') = delete name (collections s)
  ∧ api s' = api s ∧ engine s' = engine s.

(** What [ensure_collection] leaves behind, by its result: [true] for a
    fresh empty collection of the requested size, [false] for the
    untouched store, whose collection has the requested size or reports
    none. *)
Definition ensured (name : string) (vector_size : Z) (recreate : bool) (s : t)
    (recreated : bool) (s' : t) : Prop :=
  same_elsewhere name s s'
  ∧ if recreated
    then collections s' !! name = Some (fresh vector_size)
    else s' = s ∧ recreate = false
         ∧ ∃ col, collections s !! name = Some col
                  ∧ (vec_size col = Some vector_size ∨ vec_size col = None).

(** The points of the collection [name], none when it does not exist. *)
Definition points_of (s : t) (name : string) : gmap string point :=
  match collections s !! name with
  | Some col => points col
  | None => ∅
  end.

(** No point of [m] has the file path [file_path] in its payload. *)
Definition file_absent (file_path : string) (m : gmap string point) : Prop :=
  map_Forall (fun _ p => payload_file_is file_path p = false) m.

(** Every point of [m] whose payload has another file path is in [m']
    unchanged. *)
Definition others_kept (file_path : string) (m m' : gmap string point) : Prop :=
  map_Forall (fun id p => payload_file_is file_path p = true ∨ m' !! id = Some p) m.

(** The chunk [c] of the batch is stored under its point id, with the
    payload of a chunk of the batch that has the same point id. *)
Definition stored_in (uuid5 : string → string) (batch : list CodeChunk)
    (m : gmap string point) (c : CodeChunk) : Prop :=
  ∃ c' v, c' ∈ batch
          ∧ point_id uuid5 (chunk_id c') = point_id uuid5 (chunk_id c)
          ∧ m !! point_id uuid5 (chunk_id c)
            = Some {| p_vector := v; p_payload := payload_of c' |}.

(** Every point of [m] whose id is not among [ids] is in [m'] unchanged. *)
Definition ids_kept (ids : list string) (m m' : gmap string point) : Prop :=
  map_Forall (fun id p => id ∈ ids ∨ m' !! id = Some p) m.

(** The outcome of [upsert_chunks] on the store [s]. *)
Definition upserted (sha1_hex uuid5 : string → string) (repo_path : string)
    (chunks : list CodeChunk) (vs : vectors) (s : t)
    (outcome : result unit * t) : Prop :=
  let name := collection_name sha1_hex repo_path in
  match chunks with
  | [] => outcome = (Ok tt, s)
  | _ =>
      ∃ recreated s1,
        ensure_collection sha1_hex repo_path (v_dim vs) false s = (Ok recreated, s1)
        ∧ if bool_decide (length chunks = length (v_rows vs))
          then fst outcome = Ok tt
               ∧ same_elsewhere name s (snd outcome)
               ∧ Forall (stored_in uuid5 chunks (points_of (snd outcome) name)) chunks
               ∧ ids_kept (map (fun c => point_id uuid5 (chunk_id c)) chunks)
                   (points_of s1 name) (points_of (snd outcome) name)
          else snd outcome = s1 ∧ ∃ msg, fst outcome = Raise (ValueError msg)
  end.

(** The outcome of the two deletions: nothing but the named collection
    changes, it exists afterwards exactly if it did, and no point is
    added. *)
Definition only_removed (name : string) (s s' : t) : Prop :=
  same_elsewhere name s s'
  ∧ collection_exists s' name = collection_exists s name
  ∧ _collection_vector_size s' name = _collection_vector_size s name
  ∧ points_of s' name ⊆ points_of s name.

End StoreSpec.


(** ** The tables of the metadata store *)

Module TableSpec.
Import MetadataStore.

(** The dict [{c.chunk_id: c for c in batch}]: a later chunk replaces an
    earlier one with the same id. *)
Definition by_id (batch : list CodeChunk) : gmap string CodeChunk :=
  foldl (fun m c => <[chunk_id c := c]> m) ∅ batch.

(** Every row of [s] whose id is not among [ids] is in [s'] unchanged. *)
Definition rows_kept (ids : list string) (s s' : t) : Prop :=
  map_Forall (fun id c => id ∈ ids ∨ chunks s' !! id = Some c) (chunks s).

(** Only the table [chunks] differs. *)
Definition only_chunks (s s' : t) : Prop :=
  files s' = files s ∧ repo_meta s' = repo_meta s
  ∧ embeddings s' = embeddings s ∧ llm_summaries s' = llm_summaries s.

End TableSpec.


(** ** A run of the indexer *)

Module RunSpec.
Import Indexer.

Definition relative_path_of (f : changed_file) : string := snd (fst (fst (fst f))).
Definition file_hash_of (f : changed_file) : string := snd f.

Section Run.
Variable sha256_hex : string → string.
Variable relative_to : string → string → string.

(** The entry that the first loop of [Indexer.index] appends to
    [changed_files] for a file of the walk, if it appends one. *)
Definition changed_of (fs : file_system) (repo_path : string) (rebuild : bool)
    (known_hashes : gmap string string) (file_path : string) : option changed_file :=
  match Repo.detect_language file_path with
  | None => None
  | Some language =>
      match read_text fs file_path with
      | None => None
      | Some text =>
          if negb rebuild
             && bool_decide (known_hashes !! relative_to file_path repo_path
                             = Some (sha256_hex text))
          then None
          else Some (file_path, relative_to file_path repo_path, language, text,
                     sha256_hex text)
      end
  end.

(** The files of the walk have distinct paths relative to the repository. *)
Definition distinct_paths (fs : file_system) (repo_path : string) : Prop :=
  NoDup (map (fun file => relative_to file repo_path) (walk_source_files fs)).

(** What a completed run from [w] to [w'] with the statistics [stats]
    leaves: the stored hashes of the repository are those of the walk, the
    stored hashes of every other repository are as before, and the
    counters are within their bounds. *)
Definition up_to_date (fs : file_system) (repo : string) (w w' : world)
    (stats : IndexStats) : Prop :=
  IndexSpec.hashes_current sha256_hex relative_to fs repo
    (MetadataStore.get_file_hashes (md w') repo)
  ∧ IndexSpec.none_missing relative_to fs repo
      (MetadataStore.get_file_hashes (md w') repo)
  ∧ (∀ other, other ≠ repo →
       MetadataStore.get_file_hashes (md w') other
       = MetadataStore.get_file_hashes (md w) other)
  ∧ 0 <= files_indexed stats <= files_scanned stats
  ∧ 0 <= chunks_indexed stats.

End Run.
End RunSpec.


(** ** Cleaned text *)

Module TextSpec.
Import PyStr.

Definition head_space (l : list ascii) : bool :=
  match l with c :: _ => is_space c | [] => false end.

(** Every whitespace character is a plain space, and no two follow each
    other. *)
Fixpoint spaced (l : list ascii) : bool :=
  match l with
  | [] => true
  | c :: l' =>
      (negb (is_space c) || (bool_decide (c = PyText.space) && negb (head_space l')))
      && spaced l'
  end.

(** The text is one line of words set apart by single spaces, with no
    whitespace at either end. *)
Definition one_line (s : string) : bool :=
  spaced (chars s) && negb (head_space (chars s)) && negb (head_space (reverse (chars s))).

End TextSpec.


(** ** The cache of summaries *)

Module SummarySpec.
Import PyStr SummaryCache SummarizeChunks.

(** The summary that the table holds for a key, if it is not empty. *)
Definition cached_for (t : gmap string (string * string * string)) (key : string) : option string :=
  match t !! key with
  | Some row => if nonempty (row_summary row) then Some (row_summary row) else None
  | None => None
  end.

(** The key under which the summary of a chunk of the batch is looked up. *)
Definition key_in (sha256_hex : string → string) (self : IndexSummarizer.t)
    (chunks : list CodeChunk) (id : string) : string :=
  default EmptyString (keys_of sha256_hex self chunks !! id).

(** The chunks of the batch without a summary in [m]. *)
Definition unsummarized (m : gmap string string) (chunks : list CodeChunk) : list CodeChunk :=
  filter (fun chunk => m !! chunk_id chunk = None) chunks.

(** The chunks of [part], a part of the batch, without a cached summary
    in [t]. *)
Definition uncached (sha256_hex : string → string) (self : IndexSummarizer.t)
    (t : gmap string (string * string * string)) (chunks part : list CodeChunk)
    : list CodeChunk :=
  filter (fun chunk => cached_for t (key_in sha256_hex self chunks (chunk_id chunk)) = None)
    part.

(** What the loop of [summarize_chunks] keeps: a summary is not empty and
    belongs to a chunk of the batch; it is the cached one if the key of
    its chunk has one, and otherwise the key is among those to store; what
    is to store is not empty and not cached. *)
Definition loop_inv (sha256_hex : string → string) (self : IndexSummarizer.t)
    (chunks : list CodeChunk) (t : gmap string (string * string * string)) (acc : progress) : Prop :=
  map_Forall (fun id s =>
                nonempty s = true ∧ id ∈ map chunk_id chunks
                ∧ match cached_for t (key_in sha256_hex self chunks id) with
                  | Some s0 => s = s0
                  | None => is_Some (to_store acc !! key_in sha256_hex self chunks id)
                  end) (summaries acc)
  ∧ map_Forall (fun k s => nonempty s = true ∧ cached_for t k = None) (to_store acc).

(** No summary is lost from [acc] to [acc']. *)
Definition grows (acc acc' : progress) : Prop :=
  ∀ id, is_Some (summaries acc !! id) → is_Some (summaries acc' !! id).

(** The dictionary [cached] of a run on the table [t]. *)
Definition cached_of (sha256_hex : string → string) (self : IndexSummarizer.t)
    (chunks : list CodeChunk) (t : gmap string (string * string * string)) : gmap string string :=
  get_cached_chunk_summaries t (map snd (map_to_list (keys_of sha256_hex self chunks))).

End SummarySpec.


(** * Fixtures of the repository's tests *)

Module Fixtures.

(** [_make_match] of tests/test_reranker.py. *)
Definition make_chunk (file_path : string) (start_line end_line : Z) : CodeChunk :=
  {| chunk_id := file_path +:+ ":" +:+ pretty start_line +:+ ":" +:+ pretty end_line;
     repo_path := "/tmp/repo"; file_path := file_path; language := "python";
     start_line := start_line; end_line := end_line;
     symbol := Some "fn"; symbol_kind := Some "function";
     description := "code in " +:+ file_path;
     text := "def fn(): pass";
     content_hash := "hash-" +:+ file_path; tokens := 10;
     keywords := ["score"; "user"]; symbol_terms := ["fn"];
     route_method := None; route_path := None; route_intent := None;
     route_resource := None; intent_tags := []; structural_terms := [];
     llm_summary := None |}.

Definition make_match (file_path : string) (start_line end_line : Z) (vector_score : Q)
    : QueryMatch :=
  {| chunk := make_chunk file_path start_line end_line;
     score := vector_score; vector_score := vector_score;
     keyword_score := 0; symbol_score := 0; intent_score := 0; structural_score := 0;
     matched_intents := []; matched_keywords := []; explanation := EmptyString |}.

(** [FakeGeminiClient]: a fixed payload after 42 ms, a fixed rewrite
    after 11 ms. *)
Definition fake_client (payload : gmap string pyobj) : GeminiReranker.client :=
  {| GeminiReranker.rewrite_query :=
       fun _ _ => Ok ("find score calculation path for user", 11);
     GeminiReranker.complete_json := fun _ _ => Ok (payload, 42) |}.

Definition payload_of (file : string) (line : Z) (reason : string) : gmap string pyobj :=
  list_to_map [("file", JStr file); ("line", JInt line); ("reason", JStr reason)].

(** Stand-ins for number formatting and prompt rendering. *)
Definition show (q : Q) : string := pretty (Qnum q) +:+ "/" +:+ pretty (Zpos (Qden q)).
Definition render (query : string) (candidates : list QueryMatch) : string :=
  query +:+ "|" +:+ PyStr.join "," (map (fun m => file_path (chunk m)) candidates).

Definition reranker_085 : GeminiReranker.t :=
  GeminiReranker.init "gemini-1.5-flash" 0.85 false 10.

(** Twelve low-confidence candidates, as in the second reranker test. *)
Definition twelve_candidates : list QueryMatch :=
  map (fun i => make_match ("src/candidate_" +:+ pretty (Z.of_nat i) +:+ ".py") 10 20 0.4)
    (seq 0 12).

(** The stores of tests/test_query_engine_gemini.py: the engine returns
    the given hits, the metadata store holds the given chunks. *)
Definition ident (s : string) : string := s.
Definition obj_text (o : pyobj) : string := "?".

Definition point_for (c : CodeChunk) (s : Q) : VectorStore.scored_point :=
  {| VectorStore.sp_id := chunk_id c; VectorStore.sp_score := s;
     VectorStore.sp_payload := Some (VectorStore.payload_of c) |}.

Definition store_of (hits : list VectorStore.scored_point) : VectorStore.t :=
  {| VectorStore.collections :=
       {[ VectorStore.collection_name ident "/tmp/repo" :=
            {| VectorStore.vec_size := Some 2; VectorStore.points := ∅ |} ]};
     VectorStore.api := VectorStore.HasSearch;
     VectorStore.engine := fun _ _ limit => Ok (take (Z.to_nat limit) hits) |}.

Definition md_of (chunks : list CodeChunk) : MetadataStore.t :=
  MetadataStore.with_chunks MetadataStore.empty
    (list_to_map (map (fun c => (chunk_id c, c)) chunks)).

(** An engine without optional stages. *)
Definition plain_engine : QueryEngine.t :=
  {| QueryEngine.query_rewriter := None; QueryEngine.local_reranker := None;
     QueryEngine.ranking_heuristics := None; QueryEngine.reranker := None |}.

(** The logistic function is only evaluated at 0 in the fixtures; this
    rational function agrees with it there and is increasing with values
    strictly between 0 and 1. *)
Definition logistic_like (x : Q) : Q := (1 / 2 + x / (2 * (1 + Qabs x)))%Q.

(** A [_sigmoid] that never overflows, and one that overflows below -709. *)
Definition squash (x : Q) : option Q := Some (logistic_like x).
Definition squash_709 (x : Q) : option Q :=
  if Qle_bool (-709) x then Some (logistic_like x) else None.

(** A cross-encoder that scores every candidate 0, after 5 ms. *)
Definition flat_predict (query : string) (target : list QueryMatch) : option (list Q * Z) :=
  Some (map (fun _ => 0%Q) target, 5).

(** A cross-encoder that scores every candidate -710, after 5 ms. *)
Definition cold_predict (query : string) (target : list QueryMatch) : option (list Q * Z) :=
  Some (map (fun _ => (-710)%Q) target, 5).

Definition run_query (self : QueryEngine.t) (md : MetadataStore.t) (vs : VectorStore.t)
    (query_text : string) (top_k : Z) :=
  QueryEngine.query ident obj_text show show squash flat_predict render
    (fun _ => Ok [1%Q; 0%Q]) 7 self md vs "/tmp/repo" query_text top_k.

(** An engine whose only optional stage is the local reranker with its
    default window of ten candidates. *)
Definition local_engine : QueryEngine.t :=
  {| QueryEngine.query_rewriter := None;
     QueryEngine.local_reranker := Some (LocalReranker.init true 10);
     QueryEngine.ranking_heuristics := None; QueryEngine.reranker := None |}.

Definition chunks_upto (n : nat) : list CodeChunk :=
  map (fun i => make_chunk ("src/candidate_" +:+ pretty (Z.of_nat i) +:+ ".py") 10 20)
    (seq 0 n).
Definition three_chunks : list CodeChunk := chunks_upto 3.

(** A repository with one source file for the indexer. *)
Definition demo_text : string := "def f():" +:+ PyStr.nl +:+ "    return 1".

Definition demo_fs : Indexer.file_system :=
  {| Indexer.walk_source_files := ["/tmp/repo/main.py"];
     Indexer.read_text := fun _ => Some demo_text |}.

(** The path below the repository root. *)
Definition demo_relative_to (file_path repo_path : string) : string :=
  PyStr.suffix_from (PyStr.len repo_path + 1) file_path.

(** An embedding model of dimension 2 that does not use its cache. *)
Definition demo_embed (table : gmap string (Z * list Q * string)) (texts : list string)
    : VectorStore.vectors * gmap string (Z * list Q * string) :=
  ({| VectorStore.v_dim := 2; VectorStore.v_rows := map (fun _ => [1%Q; 0%Q]) texts |},
   table).

(** A clock that shows the number of the reading. *)
Definition demo_clock (n : nat) : string := pretty (Z.of_nat n).

Definition world0 : Indexer.world :=
  {| Indexer.md := MetadataStore.empty;
     Indexer.vs := {| VectorStore.collections := ∅;
                      VectorStore.api := VectorStore.HasSearch;
                      VectorStore.engine := fun _ _ _ => Ok [] |};
     Indexer.tick := 0 |}.

(** [index(repo, rebuild=False)] with hashes and ids left as they are, no
    parser symbols and no summarizer. *)
Definition demo_index (w : Indexer.world) : result Indexer.IndexStats * Indexer.world :=
  Indexer.index ident ident ident demo_relative_to demo_clock 7 (fun _ _ _ => [])
    ChunkBuilder.default 2 demo_embed None demo_fs "/tmp/repo" false w.

(** The chunk of tests/test_ranking_heuristics.py. *)
Definition test_route_chunk : CodeChunk :=
  {| chunk_id := "c1"; repo_path := "/tmp/repo"; file_path := "routes/posts.js";
     language := "javascript"; start_line := 1; end_line := 8;
     symbol := Some "POST /posts"; symbol_kind := Some "route";
     description := "Route handler";
     text := "router.post('/posts', createPostHandler)";
     content_hash := "h"; tokens := 10;
     keywords := ["post"; "create"; "handler"];
     symbol_terms := ["post"; "create"];
     route_method := Some "POST"; route_path := Some "/posts";
     route_intent := Some "create"; route_resource := Some "post";
     intent_tags := ["create_resource"; "route_handler"];
     structural_terms := ["post"; "create"; "endpoint"];
     llm_summary := Some "Creates a post resource." |}.

End Fixtures.

(** ** Fixtures of the tests of the rewriter and of the summarizer *)

Module LLMFixtures.

(** The client of tests/test_query_rewrite.py. *)
Definition rewrite_llm : text_client :=
  fun _ _ _ => Completed "backend POST route or function that creates user posts" 12.

Definition test_rewriter : QueryRewriter.t :=
  QueryRewriter.init (Some rewrite_llm) "m" true 64.

(** The client and the chunk of tests/test_chunk_summarizer.py. *)
Definition summary_llm : text_client :=
  fun _ _ _ => Completed "Creates a post resource using a POST route handler." 7.

Definition test_chunk : CodeChunk :=
  {| chunk_id := "chunk-1"; repo_path := "/tmp/repo"; file_path := "routes/posts.js";
     language := "javascript"; start_line := 1; end_line := 12;
     symbol := Some "POST /posts"; symbol_kind := Some "route";
     description := "Route handler POST /posts";
     text := "router.post('/posts', createPostHandler)";
     content_hash := "hash1"; tokens := 12;
     keywords := ["post"; "create"]; symbol_terms := ["post"];
     route_method := Some "POST"; route_path := None;
     route_intent := Some "create"; route_resource := Some "post";
     intent_tags := []; structural_terms := ["post"; "create"];
     llm_summary := None |}.

Definition test_summarizer : IndexSummarizer.t :=
  IndexSummarizer.init (Some summary_llm) "gemini-2.5-flash" 400.

Definition world0 : SummarizeChunks.world :=
  {| SummarizeChunks.llm_summaries := ∅; SummarizeChunks.calls := [] |}.

End LLMFixtures.


(** * Checks of the embedding against the tests of the repository *)

Example tokens_ex1 :
Tokenizer.normalize_terms "Get user_score 42 a (x1)" = ["get"; "user_score"; "x1"].
Proof. vm_compute. reflexivity. Qed.

Example tokens_ex2 :
  Tokenizer.estimate_tokens ("def f0():" +:+ PyStr.nl +:+ "    return 0") = 7.
Proof. vm_compute. reflexivity. Qed.

(** The route of tests/test_route_signals.py and scenario 1. *)
Example route_signal_post :
  RouteSignals.extract_route_signal "router.post('/posts', createPostHandler)" (Some "POST /posts")
  = Some {| RouteSignals.rs_method := "POST"; RouteSignals.rs_intent := "create";
            RouteSignals.rs_resource := Some "post"; RouteSignals.rs_path := Some "/posts";
            RouteSignals.rs_structural_terms := ["create"; "post"; "posts"] |}.
Proof. vm_compute. reflexivity. Qed.

Example query_signal_get :
  RouteSignals.infer_query_signal "get user score"
  = {| RouteSignals.qs_intents := ["read"]; RouteSignals.qs_methods := ["get"];
       RouteSignals.qs_structural_terms := ["get"; "read"; "score"; "user"] |}.
Proof. vm_compute. reflexivity. Qed.

Example route_signal_decorator :
  RouteSignals.extract_route_signal
    ("@router.delete('/posts/{post_id}')" +:+ PyStr.nl +:+ "def delete_post():" +:+ PyStr.nl +:+ "    pass")
    None
  = Some {| RouteSignals.rs_method := "DELETE"; RouteSignals.rs_intent := "delete";
            RouteSignals.rs_resource := Some "post"; RouteSignals.rs_path := Some "/posts/{post_id}";
            RouteSignals.rs_structural_terms := ["delete"; "post"; "posts"] |}.
Proof. vm_compute. reflexivity. Qed.

Example query_signal_put :
  RouteSignals.infer_query_signal "where is the PUT endpoint to update post"
  = {| RouteSignals.qs_intents := ["create"; "update"];
       RouteSignals.qs_methods := ["post"; "put"];
       RouteSignals.qs_structural_terms := ["create"; "is"; "post"; "put"; "to"; "update"] |}.
Proof. vm_compute. reflexivity. Qed.

(** tests/test_indexer_intent.py *)
Example intent_post_route :
  Intent.extract_intent_metadata "routes/posts.js" (Some "route") (Some "POST /posts")
    "router.post('/posts', createPostHandler)"
  = {| Intent.intent_tags := ["create_resource"; "route_handler"];
       Intent.route_method := Some "POST";
       Intent.route_path := Some "/posts";
       Intent.route_intent := Some "create";
       Intent.route_resource := Some "post";
       Intent.structural_terms :=
         ["create"; "createposthandler"; "js"; "post"; "posts"; "router"; "routes"];
       Intent.is_route_handler := true |}.
Proof. vm_compute. reflexivity. Qed.

Example intent_seed_script :
  Intent.intent_tags
    (Intent.extract_intent_metadata "scripts/seeds/seed_posts.py" (Some "function")
       (Some "seed_posts")
       ("def seed_posts(db):" +:+ PyStr.nl +:+ "    db.insert({'title': 'x'})"))
  = ["create_resource"; "script"; "seed_data"].
Proof. vm_compute. reflexivity. Qed.

(** tests/test_scorer.py, first test. *)
Example scorer_weights_applied :
  let r := HybridScorer.score "get user score" 0.5 ["get"; "user"; "score"]
             ["get"; "user"; "score"] None None None None in
  Qred (HybridScorer.total r) = Qred (0.5 * 0.5 + 0.18 + 0.12)%Q.
Proof. vm_compute. reflexivity. Qed.

Example heuristics_route_and_intent_boost :
  let d := RankingHeuristics.evaluate RankingHeuristics.init_default
             "create post api endpoint" Fixtures.test_route_chunk in
  Qred (RankingHeuristics.multiplier d) = Qred (1.2 * 1.3)%Q
  ∧ RankingHeuristics.h_matched_intents d = ["create_resource"]
  ∧ RankingHeuristics.reasons d = ["intent match: create_resource"; "route handler boost"].
Proof. vm_compute. repeat split; reflexivity. Qed.

(** tests/test_chunker.py, second test: one route chunk. *)
Example chunker_route_chunk :
  map (fun c => (start_line c, end_line c, route_method c, route_intent c, route_resource c,
                 description c))
    (Chunker.build_chunks (fun s => s) (fun _ _ => "routes/posts.js")
       {| ChunkBuilder.min_tokens := 5; ChunkBuilder.max_tokens := 120;
          ChunkBuilder.target_tokens := 60 |}
       "/tmp/repo" "/tmp/repo/routes/posts.js" "javascript" "abc123"
       "router.post('/posts', createPostHandler)"
       [{| SymbolBlock.kind := "route"; SymbolBlock.name := Some "POST /posts";
           SymbolBlock.start_line := 1; SymbolBlock.end_line := 1;
           SymbolBlock.text := "router.post('/posts', createPostHandler)" |}])
  = [(1, 1, Some "POST", Some "create", Some "post",
      "Route handler POST /posts in routes/posts.js. Starts with: router.post('/posts', createPostHandler) Intent: create resource. HTTP method: POST. Resource: post. Path: /posts. Tags: create_resource, route_handler.")].
Proof. vm_compute. reflexivity. Qed.

Example detect_language_ex :
  map Repo.detect_language ["/r/src/Main.PY"; "/r/a.tar.tsx"; "/r/.js"; "/r/x.rb"; "/r/noext"]
  = [Some "python"; Some "tsx"; None; None; None].
Proof. vm_compute. reflexivity. Qed.

(** * The hybrid score *)

Module ScorerFacts.
Import ScorerSpec.
Import PyList PyNum.

Lemma size_distinct (l : list string) :
  size (list_to_set l : gset string) = length (remove_dups l).
Proof.
  rewrite <- (size_list_to_set (C := gset string) (remove_dups l)).
  - f_equal. apply set_eq. intros x.
    rewrite !elem_of_list_to_set. symmetry. apply elem_of_remove_dups.
  - apply NoDup_remove_dups.
Qed.

Lemma size_common (l k : list string) :
  size ((list_to_set l : gset string) ∩ list_to_set k)
  = length (filter (fun term => term ∈ k) (remove_dups l)).
Proof.
  rewrite <- (size_list_to_set (C := gset string)).
  - f_equal. apply set_eq. intros x.
    rewrite elem_of_intersection, !elem_of_list_to_set, list_elem_of_filter,
      elem_of_remove_dups.
    tauto.
  - apply NoDup_filter, NoDup_remove_dups.
Qed.

Lemma overlap_score_spec (query_terms candidates : list string) :
  HybridScorer._overlap_score query_terms candidates = spec_overlap query_terms candidates.
Proof.
  unfold HybridScorer._overlap_score, spec_overlap.
  destruct query_terms as [|t ts]; [reflexivity|].
  destruct candidates as [|c cs]; [reflexivity|].
  cbn [null orb]. cbv zeta.
  rewrite size_common, size_distinct. reflexivity.
Qed.

End ScorerFacts.

(** C1. For every query, vector score and chunk fields the total returned
    by [HybridScorer.score] is the weighted sum
    0.50 * vector + 0.18 * keyword + 0.12 * symbol + 0.12 * intent
    + 0.08 * structural of the five components it returns; the keyword
    and the symbol score are the overlap ratio of the specification
    (distinct query terms found among the candidates over distinct query
    terms, zero when either side is empty); and the scenario of the
    specification evaluates to (0.5 * 0.5 + 0.18 + 0.12, 0.5, 1, 1, 0, 0). *)
Theorem C1_hybrid_score_weights :
  (∀ (q : string) (v : Q) (kws syms : list string) (ri rm rr : option string)
     (st : option (list string)),
     let r := HybridScorer.score q v kws syms ri rm rr st in
     (HybridScorer.total r
      == 0.50 * HybridScorer.normalized_vector r + 0.18 * HybridScorer.s_keyword r
         + 0.12 * HybridScorer.s_symbol r + 0.12 * HybridScorer.s_intent r
         + 0.08 * HybridScorer.s_structural r)%Q
     ∧ HybridScorer.s_keyword r = ScorerSpec.spec_overlap (Tokenizer.normalize_terms q) kws
     ∧ HybridScorer.s_symbol r = ScorerSpec.spec_overlap (Tokenizer.normalize_terms q) syms)
  ∧ (let r := HybridScorer.score "get user score" 0.5 ["get"; "user"; "score"]
                ["get"; "user"; "score"] None None None None in
     (HybridScorer.total r == 0.5 * 0.5 + 0.18 + 0.12)%Q
     ∧ (HybridScorer.normalized_vector r == 0.5)%Q
     ∧ (HybridScorer.s_keyword r == 1)%Q
     ∧ (HybridScorer.s_symbol r == 1)%Q
     ∧ (HybridScorer.s_intent r == 0)%Q
     ∧ (HybridScorer.s_structural r == 0)%Q).
Proof.
  split.
  - intros q v kws syms ri rm rr st r. subst r. unfold HybridScorer.score.
    cbn [HybridScorer.total HybridScorer.normalized_vector HybridScorer.s_keyword
         HybridScorer.s_symbol HybridScorer.s_intent HybridScorer.s_structural].
    split; [reflexivity|].
    split; apply ScorerFacts.overlap_score_spec.
  - vm_compute. repeat split; reflexivity.
Qed.

(** * The heuristic multiplier *)

Module HeuristicsFacts.
Import PyNum.
Local Open Scope Q_scope.

Lemma Qlt_bool_true (a b : Q) : Qlt_bool a b = true ↔ a < b.
Proof.
  unfold Qlt_bool. rewrite negb_true_iff. split.
  - intros H. apply Qnot_le_lt. intros Hle. apply Qle_bool_iff in Hle. congruence.
  - intros H. destruct (Qle_bool b a) eqn:E; [|reflexivity].
    apply Qle_bool_iff in E. exfalso. apply (Qlt_not_le _ _ H E).
Qed.

Lemma Qlt_bool_false (a b : Q) : Qlt_bool a b = false ↔ b <= a.
Proof.
  unfold Qlt_bool. rewrite negb_false_iff. apply Qle_bool_iff.
Qed.

(** [max(lo, x)] is at least [lo]. *)
Lemma py_max_lower (lo x : Q) : lo <= py_max lo x.
Proof.
  unfold py_max. destruct (Qlt_bool lo x) eqn:E.
  - apply Qlt_bool_true in E. apply Qlt_le_weak, E.
  - apply Qle_refl.
Qed.

Lemma init_clamped (rb np ib : Q) :
  0.1 <= RankingHeuristics.route_boost (RankingHeuristics.init rb np ib)
  ∧ 0.1 <= RankingHeuristics.noise_penalty (RankingHeuristics.init rb np ib)
  ∧ 0.1 <= RankingHeuristics.intent_boost (RankingHeuristics.init rb np ib).
Proof. repeat split; apply py_max_lower. Qed.

(** A product of positive factors that starts from one is positive. *)
Lemma scale_pos (m f : Q) : 0 < m → 0.1 <= f → 0 < m * f.
Proof.
  intros Hm Hf. apply Qmult_lt_0_compat; [exact Hm|].
  eapply Qlt_le_trans; [|exact Hf]. reflexivity.
Qed.

Lemma multiplier_pos (h : RankingHeuristics.t) (q : string) (c : CodeChunk) :
  0.1 <= RankingHeuristics.route_boost h →
  0.1 <= RankingHeuristics.noise_penalty h →
  0.1 <= RankingHeuristics.intent_boost h →
  0 < RankingHeuristics.multiplier (RankingHeuristics.evaluate h q c).
Proof.
  intros Hr Hn Hi. unfold RankingHeuristics.evaluate.
  destruct (RankingHeuristics._matched_intents _ _) as [|mi mis];
    destruct (bool_decide _ && RankingHeuristics._is_route_chunk c);
    destruct (bool_decide (RankingHeuristics._NEGATIVE_INTENTS ∩ _ ≠ ∅));
    cbn [RankingHeuristics.multiplier];
    repeat (apply scale_pos; [|assumption]); reflexivity.
Qed.

End HeuristicsFacts.

(** C10. Whatever route boost, noise penalty and intent boost are
    configured (zero and negative values included), the constructor of
    [RankingHeuristics] clamps each of them to at least 0.1, the multiplier
    that [evaluate] returns for any query and chunk is strictly positive,
    and the adjusted score of a match, the hybrid total times this
    multiplier, has the sign of the total: the adjustment neither zeroes
    nor negates a score. *)
Theorem C10_multiplier_positive :
  ∀ (route_boost noise_penalty intent_boost : Q) (query : string) (c : CodeChunk),
    let h := RankingHeuristics.init route_boost noise_penalty intent_boost in
    let m := RankingHeuristics.multiplier (RankingHeuristics.evaluate h query c) in
    (0.1 <= RankingHeuristics.route_boost h)%Q
    ∧ (0.1 <= RankingHeuristics.noise_penalty h)%Q
    ∧ (0.1 <= RankingHeuristics.intent_boost h)%Q
    ∧ (0 < m)%Q
    ∧ ∀ total : Q, (total * m ?= 0)%Q = (total ?= 0)%Q.
Proof.
  intros rb np ib q c h m.
  destruct (HeuristicsFacts.init_clamped rb np ib) as (Hr & Hn & Hi).
  assert (Hm : (0 < m)%Q) by (apply HeuristicsFacts.multiplier_pos; assumption).
  repeat split; try assumption.
  intros total. destruct (Qcompare_spec total 0) as [Hz|Hneg|Hpos].
  - apply Qeq_alt. rewrite Hz. apply Qmult_0_l.
  - apply Qlt_alt. rewrite <- (Qmult_0_l m).
    apply Qmult_lt_compat_r; assumption.
  - apply Qgt_alt. rewrite <- (Qmult_0_l m).
    apply Qmult_lt_compat_r; assumption.
Qed.

(** * Facts about the stable sort *)

Module SortFacts.
Import PyList.

Section Facts.
Context {A : Type} (le : A → A → bool).

Lemma insert_by_perm (x : A) (l : list A) : insert_by le x l ≡ₚ x :: l.
Proof.
  induction l as [|y l IH]; cbn; [reflexivity|].
  destruct (le x y); [reflexivity|].
  rewrite IH. apply Permutation_swap.
Qed.

Lemma sort_by_perm (l : list A) : sort_by le l ≡ₚ l.
Proof.
  induction l as [|x l IH]; cbn; [reflexivity|].
  fold (sort_by le l). rewrite insert_by_perm, IH. reflexivity.
Qed.

Lemma elem_of_sort_by (x : A) (l : list A) : x ∈ sort_by le l ↔ x ∈ l.
Proof. rewrite sort_by_perm. reflexivity. Qed.

Lemma sort_by_length (l : list A) : length (sort_by le l) = length l.
Proof. rewrite sort_by_perm. reflexivity. Qed.

Lemma sort_by_Forall (P : A → Prop) (l : list A) : Forall P l → Forall P (sort_by le l).
Proof. rewrite sort_by_perm. trivial. Qed.

(** Sortedness for any transitive relation [R] that the comparison
    decides in both directions. *)
Section Sorted.
Context (R : A → A → Prop).
Hypothesis le_R : ∀ a b, le a b = true → R a b.
Hypothesis nle_R : ∀ a b, le a b = false → R b a.
Hypothesis R_trans : ∀ a b c, R a b → R b c → R a c.

Lemma insert_by_sorted (x : A) (l : list A) :
  StronglySorted R l → StronglySorted R (insert_by le x l).
Proof.
  induction 1 as [|y l Hl IH Hy]; cbn.
  - repeat constructor.
  - destruct (le x y) eqn:E.
    + constructor; [constructor; assumption|].
      constructor; [apply le_R, E|].
      eapply Forall_impl; [exact Hy|].
      intros z Hz. eapply R_trans; [apply le_R, E|exact Hz].
    + constructor; [exact IH|].
      rewrite insert_by_perm. constructor; [apply nle_R, E|exact Hy].
Qed.

Lemma sort_by_sorted (l : list A) : StronglySorted R (sort_by le l).
Proof.
  induction l as [|x l IH]; cbn; [constructor|].
  apply insert_by_sorted, IH.
Qed.


End Sorted.
End Facts.

Lemma elem_of_sorted (x : string) (l : list string) : x ∈ PyStr.sorted l ↔ x ∈ l.
Proof. apply elem_of_sort_by. Qed.

Lemma elem_of_sorted_set (x : string) (s : gset string) : x ∈ PyStr.sorted_set s ↔ x ∈ s.
Proof. unfold PyStr.sorted_set. rewrite elem_of_sorted. apply elem_of_elements. Qed.

End SortFacts.

(** * The route handler tag *)

Module IntentFacts.
Import Intent.

Lemma add_if_other (b : bool) (t x : string) (tags : gset string) :
  x ≠ t → x ∈ add_if b t tags ↔ x ∈ tags.
Proof.
  intros Hne. unfold add_if. destruct b; [|reflexivity].
  rewrite elem_of_union, elem_of_singleton. tauto.
Qed.

Lemma add_if_true (t : string) (tags : gset string) : t ∈ add_if true t tags.
Proof. unfold add_if. set_solver. Qed.

Lemma add_if_false (t : string) (tags : gset string) : add_if false t tags = tags.
Proof. reflexivity. Qed.

(** Without a route signal no tag of the set is [route_handler]. *)
Lemma tag_set_no_signal (file_path : string) (terms : gset string) :
  "route_handler" ∉ intent_tag_set file_path terms None.
Proof.
  unfold intent_tag_set. cbn [fmap option_fmap option_map PyStr.truthy].
  rewrite !add_if_false.
  destruct (_has_any file_path _NOISE_PATH_HINTS || _);
    rewrite ?add_if_other by congruence; set_solver.
Qed.

Lemma tag_set_signal (file_path : string) (terms : gset string)
    (rs : RouteSignals.RouteSignal) :
  "route_handler" ∈ intent_tag_set file_path terms (Some rs).
Proof.
  unfold intent_tag_set.
  rewrite bool_decide_eq_true_2 by (eexists; reflexivity).
  apply add_if_true.
Qed.

Lemma route_handler_tag (file_path : string) (symbol_kind symbol : option string)
    (text : string) :
  "route_handler" ∈ intent_tags (extract_intent_metadata file_path symbol_kind symbol text)
  ↔ is_Some (RouteSignals.extract_route_signal text symbol).
Proof.
  unfold extract_intent_metadata. cbn [intent_tags].
  rewrite SortFacts.elem_of_sorted_set.
  destruct (RouteSignals.extract_route_signal text symbol) as [rs|].
  - split; [eauto|]. intros _. apply tag_set_signal.
  - split.
    + intros H. exfalso. revert H. apply tag_set_no_signal.
    + intros [x Hx]. discriminate.
Qed.

End IntentFacts.

(** C5, as the code has it.  For every call of [extract_intent_metadata]
    the tag [route_handler] is among the returned intent tags exactly when
    a route signal is extracted from the text; the symbol kind does not
    enter the tags.  It enters the flag [is_route_handler], which is true
    exactly when a route signal exists or the symbol kind is [route]. *)
Theorem C5_route_handler_tag :
  ∀ (file_path : string) (symbol_kind symbol : option string) (text : string),
    let meta := Intent.extract_intent_metadata file_path symbol_kind symbol text in
    let signal := RouteSignals.extract_route_signal text symbol in
    bool_decide ("route_handler" ∈ Intent.intent_tags meta) = bool_decide (is_Some signal)
    ∧ Intent.is_route_handler meta
      = bool_decide (is_Some signal) || bool_decide (symbol_kind = Some "route").
Proof.
  intros file_path symbol_kind symbol text meta signal. split.
  - apply bool_decide_ext, IntentFacts.route_handler_tag.
  - reflexivity.
Qed.

(** C5 as stated fails.  A chunk of kind [route] whose text names no HTTP
    method has no route signal and carries no [route_handler] tag, so the
    tag is not equivalent to a route signal or the kind [route]. *)
Lemma C5_counterexample_route_kind_without_signal :
  let symbol_kind := Some "route" in
  let text := "app.use('/health', healthHandler)" in
  let meta := Intent.extract_intent_metadata "routes/health.js" symbol_kind (Some "health") text in
  RouteSignals.extract_route_signal text (Some "health") = None
  ∧ Intent.intent_tags meta = []
  ∧ Intent.is_route_handler meta = true
  ∧ ¬ ("route_handler" ∈ Intent.intent_tags meta
       ↔ is_Some (RouteSignals.extract_route_signal text (Some "health"))
         ∨ symbol_kind = Some "route").
Proof.
  intros symbol_kind text meta.
  assert (Hsig : RouteSignals.extract_route_signal text (Some "health") = None)
    by (vm_compute; reflexivity).
  assert (Htags : Intent.intent_tags meta = []) by (vm_compute; reflexivity).
  split; [exact Hsig|]. split; [exact Htags|]. split; [reflexivity|].
  intros [_ H]. rewrite Htags in H.
  assert (Hin : "route_handler" ∈ @nil string) by (apply H; right; reflexivity).
  inversion Hin.
Qed.

(** * The LLM reranker *)

Module GeminiFacts.
Import GeminiSpec.
Import PyStr PyNum GeminiReranker.

Lemma in_range_spec (f : string) (l : Z) (item : QueryMatch) :
  in_range f l item = true
  ↔ Models.file_path (chunk item) = f
    ∧ start_line (chunk item) <= l <= end_line (chunk item).
Proof.
  unfold in_range. rewrite !andb_true_iff, bool_decide_eq_true, !Z.leb_le. tauto.
Qed.

Lemma max_by_score_fold (best : QueryMatch) (others : list QueryMatch) :
  let m := max_by_score best others in
  (m = best ∨ m ∈ others)
  ∧ (score best <= score m)%Q
  ∧ Forall (fun x => (score x <= score m)%Q) others.
Proof.
  unfold max_by_score. revert best.
  induction others as [|x xs IH]; intros best; cbn.
  - split; [left; reflexivity|]. split; [apply Qle_refl|constructor].
  - destruct (Qlt_bool (score best) (score x)) eqn:E.
    + apply HeuristicsFacts.Qlt_bool_true in E.
      destruct (IH x) as (Hin & Hle & Hall).
      split; [right; destruct Hin as [->|Hin]; [left|right; exact Hin]|].
      split; [eapply Qle_trans; [apply Qlt_le_weak, E|exact Hle]|].
      constructor; assumption.
    + apply HeuristicsFacts.Qlt_bool_false in E.
      destruct (IH best) as (Hin & Hle & Hall).
      split; [destruct Hin as [->|Hin]; [left; reflexivity|right; right; exact Hin]|].
      split; [exact Hle|].
      constructor; [eapply Qle_trans; eassumption|exact Hall].
Qed.

(** The candidate that [max] picks has the greatest score of the list. *)
Lemma max_by_score_spec (first : QueryMatch) (others : list QueryMatch) :
  max_by_score first others ∈ first :: others
  ∧ Forall (fun x => (score x <= score (max_by_score first others))%Q) (first :: others).
Proof.
  destruct (max_by_score_fold first others) as (Hin & Hle & Hall).
  split.
  - destruct Hin as [->|Hin]; [left|right; exact Hin].
  - constructor; assumption.
Qed.



Section DecideFacts.
Variable fmt3 fmt2 : Q → string.
Variable build : string → list QueryMatch → string.


(** High confidence: the decision is taken without the client. *)
Lemma decide_bypass (self : t) (c : client) (query : string) (best : QueryMatch)
    (rest : list QueryMatch) :
  (threshold self <= vector_score best)%Q →
  ∃ reason,
    decide fmt3 fmt2 build self c query (best :: rest)
    = (Ok (Some {| selection := vector_selection best reason;
                   used_gemini := false;
                   gemini_model := None;
                   gemini_latency_ms := None;
                   rewritten_query := None |}), []).
Proof.
  intros Hge. unfold decide.
  apply Qle_bool_iff in Hge. rewrite Hge.
  eexists. reflexivity.
Qed.


End DecideFacts.

End GeminiFacts.

(** C3. Whenever [decide] is called with a non-empty list of matches
    whose first match has a vector score at or above the reranker's
    threshold, it returns a selection with the top match's file path and
    start line, source [vector] and [used_gemini = false], and its log of
    LLM calls is empty.  The default threshold 0.85 is left unchanged by
    the constructor's clamp. *)
Theorem C3_confident_bypass_without_llm :
  ∀ (fmt3 fmt2 : Q → string) (build : string → list QueryMatch → string)
    (self : GeminiReranker.t) (c : GeminiReranker.client) (query : string)
    (best : QueryMatch) (rest : list QueryMatch),
    (GeminiReranker.threshold self <= vector_score best)%Q →
    (∃ d, GeminiReranker.decide fmt3 fmt2 build self c query (best :: rest)
          = (Ok (Some d), [])
          ∧ QuerySelection.file (GeminiReranker.selection d) = file_path (chunk best)
          ∧ QuerySelection.line (GeminiReranker.selection d) = start_line (chunk best)
          ∧ QuerySelection.source (GeminiReranker.selection d) = "vector"
          ∧ GeminiReranker.used_gemini d = false)
    ∧ GeminiReranker.threshold
        (GeminiReranker.init (GeminiReranker.model_name self) 0.85
           (GeminiReranker.enable_rewrite self) 10) = 0.85%Q.
Proof.
  intros fmt3 fmt2 build self c query best rest Hge. split; [|reflexivity].
  destruct (GeminiFacts.decide_bypass fmt3 fmt2 build self c query best rest Hge)
    as [reason Hd].
  eexists. split; [exact Hd|]. repeat split.
Qed.

(** Scenario 4: a top match at 0.93 against the threshold 0.85. *)
Lemma C3_witness_093 :
  let best := Fixtures.make_match "src/a.py" 10 20 0.93 in
  let c := Fixtures.fake_client (Fixtures.payload_of "src/a.py" 10 "unused") in
  (GeminiReranker.threshold Fixtures.reranker_085 <= vector_score best)%Q
  ∧ ∃ d, GeminiReranker.decide Fixtures.show Fixtures.show Fixtures.render
           Fixtures.reranker_085 c "where is score computed" [best]
         = (Ok (Some d), [])
         ∧ QuerySelection.file (GeminiReranker.selection d) = "src/a.py"
         ∧ QuerySelection.line (GeminiReranker.selection d) = 10
         ∧ QuerySelection.source (GeminiReranker.selection d) = "vector"
         ∧ GeminiReranker.used_gemini d = false.
Proof.
  intros best c.
  assert (Hge : (GeminiReranker.threshold Fixtures.reranker_085 <= vector_score best)%Q)
    by (vm_compute; discriminate).
  split; [exact Hge|].
  exact (proj1 (C3_confident_bypass_without_llm Fixtures.show Fixtures.show Fixtures.render
                  Fixtures.reranker_085 c "where is score computed" best [] Hge)).
Defined.




(** * The provenance tag of a selection *)

Module SelectionFacts.
Import SelectionSpec.
Import GeminiReranker.

Lemma payload_selection_source (payload : gmap string pyobj)
    (candidates : list QueryMatch) (sel : QuerySelection.t) :
  _selection_from_payload payload candidates = Ok sel →
  QuerySelection.source sel = "gemini".
Proof.
  unfold _selection_from_payload. intros H.
  repeat case_match; simplify_eq; reflexivity.
Qed.

Lemma decide_source (fmt3 fmt2 : Q → string) (build : string → list QueryMatch → string)
    (self : t) (c : client) (query : string) (ms : list QueryMatch)
    (d : RerankDecision) (log : list llm_call) :
  decide fmt3 fmt2 build self c query ms = (Ok (Some d), log) →
  QuerySelection.source (selection d) = tag_of (used_gemini d).
Proof.
  unfold decide. intros H.
  repeat case_match; simplify_eq; cbn; try reflexivity;
    eapply payload_selection_source; eassumption.
Qed.

Lemma select_source (fmt3 fmt2 : Q → string) (build : string → list QueryMatch → string)
    (self : QueryEngine.t) (query : string) (ms : list QueryMatch)
    (d : RerankDecision) (log : list llm_call) :
  QueryEngine.select fmt3 fmt2 build self query ms = (Ok (Some d), log) →
  QuerySelection.source (selection d) = tag_of (used_gemini d).
Proof.
  unfold QueryEngine.select. intros H.
  destruct ms as [|top rest]; [discriminate|].
  destruct (QueryEngine.reranker self) as [[rr c]|].
  - eapply decide_source. exact H.
  - simplify_eq. reflexivity.
Qed.

End SelectionFacts.

(** C6, as the code has it.  Every selection that [QueryEngine.query]
    returns has the source [vector] or [gemini]: it is [gemini] exactly
    when the outcome reports [used_gemini = true] (a successful LLM
    rerank) and [vector] on the other paths (reranker disabled,
    high-confidence bypass, rerank failure fallback). *)
Theorem C6_selection_source :
  ∀ (sha1_hex : string → string) (py_str : pyobj → string) (fmt3 fmt2 : Q → string)
    (sigmoid : Q → option Q) (predict : string → list QueryMatch → option (list Q * Z))
    (build : string → list QueryMatch → string) (embed_query : string → result (list Q))
    (elapsed_ms : Z) (self : QueryEngine.t) (md : MetadataStore.t) (vs : VectorStore.t)
    (repo_key query_text : string) (top_k : Z)
    (outcome : QueryEngine.QueryOutcome) (log : list GeminiReranker.llm_call)
    (sel : QuerySelection.t),
    QueryEngine.query sha1_hex py_str fmt3 fmt2 sigmoid predict build embed_query
      elapsed_ms self md vs repo_key query_text top_k = (Ok outcome, log) →
    QueryEngine.selection outcome = Some sel →
    QuerySelection.source sel = SelectionSpec.tag_of (QueryEngine.used_gemini outcome)
    ∧ (QuerySelection.source sel = "vector" ∨ QuerySelection.source sel = "gemini").
Proof.
  intros sha1_hex py_str fmt3 fmt2 sigmoid predict build embed_query elapsed_ms self md vs
    repo_key query_text top_k outcome log sel Hq Hsel.
  assert (Htag : QuerySelection.source sel
                 = SelectionSpec.tag_of (QueryEngine.used_gemini outcome)).
  { unfold QueryEngine.query in Hq.
    repeat case_match; simplify_eq; cbn in Hsel;
      match goal with
      | H : QueryEngine.select _ _ _ _ _ _ = (Ok ?d, _) |- _ =>
          destruct d as [d|]; [|discriminate];
          cbn in Hsel; injection Hsel as <-; cbn;
          eapply SelectionFacts.select_source; exact H
      end. }
  split; [exact Htag|].
  rewrite Htag. destruct (QueryEngine.used_gemini outcome); [right|left]; reflexivity.
Qed.

(** The second test of tests/test_query_engine_gemini.py: no reranker. *)
Lemma C6_witness_vector_selection :
  let c := Fixtures.make_chunk "src/a.py" 10 20 in
  ∃ outcome log sel,
    Fixtures.run_query Fixtures.plain_engine (Fixtures.md_of [c])
      (Fixtures.store_of [Fixtures.point_for c 0.91]) "where is scoring done" 1
    = (Ok outcome, log)
    ∧ QueryEngine.selection outcome = Some sel
    ∧ QuerySelection.file sel = "src/a.py"
    ∧ QuerySelection.source sel = SelectionSpec.tag_of (QueryEngine.used_gemini outcome)
    ∧ (QuerySelection.source sel = "vector" ∨ QuerySelection.source sel = "gemini").
Proof.
  intros c.
  assert (Hrun : ∃ outcome log sel,
            Fixtures.run_query Fixtures.plain_engine (Fixtures.md_of [c])
              (Fixtures.store_of [Fixtures.point_for c 0.91]) "where is scoring done" 1
            = (Ok outcome, log)
            ∧ QueryEngine.selection outcome = Some sel
            ∧ QuerySelection.file sel = "src/a.py").
  { eexists _, _, _. split; [vm_compute; reflexivity|]. split; reflexivity. }
  destruct Hrun as (outcome & log & sel & Hq & Hsel & Hfile).
  exists outcome, log, sel.
  split; [exact Hq|]. split; [exact Hsel|]. split; [exact Hfile|].
  unfold Fixtures.run_query in Hq.
  exact (C6_selection_source _ _ _ _ _ _ _ _ _ _ _ _ _ _ _ outcome log sel Hq Hsel).
Defined.

(** C6 as stated fails on the tag of the LLM path: a successful rerank
    (scenario 5) yields the source [gemini], which is neither [vector]
    nor [llm]. *)
Lemma C6_counterexample_gemini_tag :
  ∃ d log,
    GeminiReranker.decide Fixtures.show Fixtures.show Fixtures.render Fixtures.reranker_085
      (Fixtures.fake_client (Fixtures.payload_of "src/candidate_2.py" 12 "best match"))
      "where is score computed" Fixtures.twelve_candidates = (Ok (Some d), log)
    ∧ GeminiReranker.used_gemini d = true
    ∧ QuerySelection.source (GeminiReranker.selection d) = "gemini"
    ∧ ¬ (QuerySelection.source (GeminiReranker.selection d) = "vector"
         ∨ QuerySelection.source (GeminiReranker.selection d) = "llm").
Proof.
  eexists _, _. split; [vm_compute; reflexivity|].
  split; [reflexivity|]. split; [reflexivity|].
  cbn. intros [H|H]; discriminate.
Qed.

(** * The order of the returned matches *)

Module RankFacts.
Import RankSpec.
Import PyList PyNum.

Lemma outranks_trans (a b c : QueryMatch) : outranks a b → outranks b c → outranks a c.
Proof. unfold outranks. intros Hab Hbc. eapply Qle_trans; eassumption. Qed.





Lemma score_ge_true (a b : QueryMatch) : LocalReranker.score_ge a b = true → outranks a b.
Proof. unfold LocalReranker.score_ge, outranks. apply Qle_bool_iff. Qed.

Lemma score_ge_false (a b : QueryMatch) : LocalReranker.score_ge a b = false → outranks b a.
Proof.
  unfold LocalReranker.score_ge, outranks. intros H.
  apply Qlt_le_weak, HeuristicsFacts.Qlt_bool_true.
  unfold Qlt_bool. rewrite H. reflexivity.
Qed.




Section Stage.
Variable sigmoid : Q → option Q.
Variable fmt3 : Q → string.
Variable predict : string → list QueryMatch → option (list Q * Z).






End Stage.
End RankFacts.




(** * The chunks of a file *)

Module ChunkFacts.
Import ChunkSpec.
Import PyList ChunkBuilder.

(** ** The line splitter *)

Lemma emit_block_parts (st : split_state) (next : Z → Z) :
  sp_current st ≠ [] →
  Forall wf_part (sp_chunks st) →
  Forall wf_part (sp_chunks (emit_block st next)).
Proof.
  intros Hne Hall. unfold emit_block. cbn [sp_chunks].
  apply Forall_app. split; [exact Hall|].
  constructor; [|constructor]. unfold wf_part. cbn [fst snd].
  destruct (sp_current st) as [|x xs]; [congruence|]. cbn [length]. lia.
Qed.

Lemma split_step_parts (self : t) (start_line : Z) (st : split_state)
    (item : nat * string) :
  Forall wf_part (sp_chunks st) →
  Forall wf_part (sp_chunks (split_step self start_line st item)).
Proof.
  intros Hall. unfold split_step. destruct item as [idx line].
  match goal with
  | |- context [if ?c then emit_block st ?f else st] =>
      assert (H1 : Forall wf_part (sp_chunks (if c then emit_block st f else st)));
      [ destruct c eqn:E; [|exact Hall];
        apply emit_block_parts; [|exact Hall];
        apply andb_true_iff in E as [E _]; apply andb_true_iff in E as [E _];
        destruct (sp_current st); [discriminate|congruence]
      | generalize dependent (if c then emit_block st f else st) ]
  end.
  intros st1 H1.
  destruct (max_tokens self <=? _); [|exact H1].
  apply emit_block_parts; [|exact H1].
  cbn [sp_current]. destruct (sp_current st1); discriminate.
Qed.

Lemma foldl_split_parts (self : t) (start_line : Z) (items : list (nat * string))
    (st : split_state) :
  Forall wf_part (sp_chunks st) →
  Forall wf_part (sp_chunks (foldl (split_step self start_line) st items)).
Proof.
  revert st. induction items as [|item items IH]; intros st Hall; cbn; [exact Hall|].
  apply IH, split_step_parts, Hall.
Qed.

Lemma split_text_parts (self : t) (text : string) (start_line : Z) :
  Forall wf_part (_split_text_by_lines self text start_line).
Proof.
  unfold _split_text_by_lines.
  set (st := foldl _ _ _).
  assert (Hst : Forall wf_part (sp_chunks st))
    by (apply foldl_split_parts; constructor).
  destruct (negb (null (sp_current st))) eqn:E; [|exact Hst].
  apply emit_block_parts; [|exact Hst].
  destruct (sp_current st); [discriminate|congruence].
Qed.

Lemma draft_of_part_wf (sym kind : option string) (p : part) :
  wf_part p → wf (draft_of_part sym kind p).
Proof. destruct p as [[text s] e]. trivial. Qed.

Lemma split_drafts_wf (self : t) (sym kind : option string) (text : string) (start : Z) :
  Forall wf (map (draft_of_part sym kind) (_split_text_by_lines self text start)).
Proof.
  apply Forall_map. eapply Forall_impl; [apply split_text_parts|].
  intros p. apply draft_of_part_wf.
Qed.

(** ** The initial drafts and the split pass *)

Lemma fallback_wf (self : t) (lines : list string) :
  Forall wf (_slice_file_fallback self lines).
Proof.
  unfold _slice_file_fallback. destruct lines as [|l ls]; [constructor|].
  destruct (_ <=? max_tokens self).
  - constructor; [|constructor]. unfold wf. cbn. lia.
  - apply split_drafts_wf.
Qed.

Lemma symbol_draft_wf (lines : list string) (sym : SymbolBlock.t) (d : ChunkDraft.t) :
  symbol_draft lines sym = Some d → wf d.
Proof.
  unfold symbol_draft. destruct (negb _); [discriminate|].
  intros [= <-]. unfold wf. cbn. lia.
Qed.

Lemma initial_drafts_wf (self : t) (content : string) (symbols : list SymbolBlock.t) :
  Forall wf (_initial_drafts self content symbols).
Proof.
  unfold _initial_drafts. destruct symbols as [|s ss]; [apply fallback_wf|].
  destruct (omap _ _) as [|d ds] eqn:E; [apply fallback_wf|].
  rewrite <- E. apply Forall_forall. intros x Hx.
  apply list_elem_of_omap in Hx as (sym & _ & Hsym).
  eapply symbol_draft_wf, Hsym.
Qed.

Lemma split_large_wf (self : t) (drafts : list ChunkDraft.t) :
  Forall wf drafts → Forall wf (_split_large_drafts self drafts).
Proof.
  unfold _split_large_drafts. induction 1 as [|d ds Hd Hds IH]; cbn; [constructor|].
  apply Forall_app. split; [|exact IH].
  destruct (_ <=? _); [constructor; [exact Hd|constructor]|apply split_drafts_wf].
Qed.

(** ** The merge pass *)

Lemma draft_le_true (a b : ChunkDraft.t) : draft_le a b = true → starts_before a b.
Proof.
  unfold draft_le, pair_le, starts_before. cbn [fst snd]. intros H.
  apply orb_true_iff in H as [H|H]; [apply Z.ltb_lt in H; lia|].
  apply andb_true_iff in H as [H _]. apply Z.eqb_eq in H. lia.
Qed.

Lemma draft_le_false (a b : ChunkDraft.t) : draft_le a b = false → starts_before b a.
Proof.
  unfold draft_le, pair_le, starts_before. cbn [fst snd]. intros H.
  apply orb_false_iff in H as [H _]. apply Z.ltb_ge in H. exact H.
Qed.

Lemma starts_before_trans (a b c : ChunkDraft.t) :
  starts_before a b → starts_before b c → starts_before a c.
Proof. unfold starts_before. lia. Qed.

Lemma sorted_drafts_ordered (drafts : list ChunkDraft.t) : ordered (sort_by draft_le drafts).
Proof.
  apply SortFacts.sort_by_sorted.
  - apply draft_le_true.
  - apply draft_le_false.
  - apply starts_before_trans.
Qed.

Lemma stdlib_last_elem (l : list ChunkDraft.t) (d : ChunkDraft.t) :
  l ≠ [] → List.last l d ∈ l.
Proof.
  induction l as [|x xs IH]; [congruence|]. intros _.
  destruct xs as [|y ys]; [left|]. right.
  change (List.last (x :: y :: ys) d) with (List.last (y :: ys) d).
  apply IH. discriminate.
Qed.

Lemma stdlib_last_in (d : ChunkDraft.t) (l : list ChunkDraft.t) : List.last (d :: l) d ∈ d :: l.
Proof. apply stdlib_last_elem. discriminate. Qed.

(** A run of drafts is replaced by one draft with the start of the first
    and the end of the last. *)
Lemma collapse_run (merged rest : list ChunkDraft.t) (first : ChunkDraft.t)
    (more : list ChunkDraft.t) (x : ChunkDraft.t) :
  merge_inv (merged, first :: more) rest →
  ChunkDraft.start_line x = ChunkDraft.start_line first →
  ChunkDraft.end_line x = ChunkDraft.end_line (List.last (first :: more) first) →
  merge_inv (merged ++ [x], []) rest.
Proof.
  unfold merge_inv. cbn [fst snd]. intros [Hwf Hord] Hs He.
  apply Forall_app in Hwf as [Hwm Hwf]. apply Forall_app in Hwf as [Hwb Hwr].
  apply StronglySorted_app in Hord as (Hmb & Hom & Hord).
  apply StronglySorted_app in Hord as (Hbr & Hob & Hor).
  pose proof (stdlib_last_in first more) as Hlast.
  assert (Hx : wf x).
  { unfold wf. rewrite Hs, He.
    assert (Hl : wf (List.last (first :: more) first))
      by (eapply Forall_forall in Hwb; [exact Hwb|exact Hlast]).
    assert (Hfl : starts_before first (List.last (first :: more) first)).
    { apply elem_of_cons in Hlast as [->|Hin]; [unfold starts_before; lia|].
      apply StronglySorted_inv in Hob as [_ Hall].
      eapply Forall_forall in Hall; [exact Hall|exact Hin]. }
    unfold wf in Hl. unfold starts_before in Hfl. lia. }
  split.
  - rewrite <- app_assoc. apply Forall_app. split; [exact Hwm|].
    constructor; [exact Hx|exact Hwr].
  - rewrite <- app_assoc. apply StronglySorted_app. split; [|split].
    + intros a b Ha Hb. apply elem_of_cons in Hb as [->|Hb].
      * unfold starts_before. rewrite Hs.
        apply (Hmb a first Ha). left.
      * apply (Hmb a b Ha). apply elem_of_app. right. exact Hb.
    + exact Hom.
    + constructor; [exact Hor|]. apply Forall_forall. intros b Hb.
      unfold starts_before. rewrite Hs. apply (Hbr first b); [left|exact Hb].
Qed.

Lemma flush_buffer_inv (st : merge_state) (rest : list ChunkDraft.t) :
  merge_inv st rest →
  snd (flush_buffer st) = [] ∧ merge_inv (flush_buffer st) rest.
Proof.
  destruct st as [merged buffer]. intros Hinv. unfold flush_buffer.
  destruct buffer as [|first more]; [split; [reflexivity|exact Hinv]|].
  destruct more as [|second more].
  - split; [reflexivity|].
    unfold merge_inv in *. cbn [fst snd] in *. rewrite <- app_assoc. exact Hinv.
  - split; [reflexivity|].
    eapply collapse_run; [exact Hinv|reflexivity|reflexivity].
Qed.

Lemma merge_step_inv (self : t) (st : merge_state) (draft : ChunkDraft.t)
    (rest : list ChunkDraft.t) :
  merge_inv st (draft :: rest) → merge_inv (merge_step self st draft) rest.
Proof.
  intros Hinv. unfold merge_step.
  assert (Hflushed : ∀ merged' , flush_buffer st = (merged', []) →
            merge_inv (merged' ++ [draft], []) rest ∧ merge_inv (merged', [draft]) rest).
  { intros merged' Hf. destruct (flush_buffer_inv st (draft :: rest) Hinv) as [_ Hi].
    rewrite Hf in Hi. unfold merge_inv in *. cbn [fst snd app] in *.
    rewrite <- app_assoc. cbn [app]. split; exact Hi. }
  destruct (flush_buffer_inv st (draft :: rest) Hinv) as [Hnil _].
  destruct (flush_buffer st) as [merged' buffer'] eqn:Ef. cbn [snd] in Hnil. subst buffer'.
  destruct (Hflushed merged' eq_refl) as [Hbig Hsmall].
  destruct (min_tokens self <=? ChunkDraft.tokens draft); [exact Hbig|].
  destruct st as [merged buffer].
  destruct buffer as [|first more].
  - unfold merge_inv in *. cbn [fst snd app] in *. exact Hinv.
  - destruct (_ && _).
    + unfold merge_inv in *. cbn [fst snd] in *.
      rewrite <- (app_assoc (first :: more) [draft] rest). exact Hinv.
    + exact Hsmall.
Qed.

Lemma merge_loop_inv (self : t) (drafts : list ChunkDraft.t) (st : merge_state) :
  merge_inv st drafts → merge_inv (foldl (merge_step self) st drafts) [].
Proof.
  revert st. induction drafts as [|d ds IH]; intros st Hinv; cbn; [exact Hinv|].
  apply IH, merge_step_inv, Hinv.
Qed.

Lemma merge_tail_wf (self : t) (merged : list ChunkDraft.t) :
  Forall wf merged → ordered merged → Forall wf (merge_tail self merged).
Proof.
  intros Hwf Hord. unfold merge_tail.
  destruct (reverse merged) as [|tail [|prev rest_rev]] eqn:E; try exact Hwf.
  destruct (ChunkDraft.tokens tail <? min_tokens self); [|exact Hwf].
  assert (Hm : merged = reverse rest_rev ++ [prev; tail]).
  { rewrite <- (reverse_involutive merged), E.
    rewrite !reverse_cons, <- app_assoc. reflexivity. }
  rewrite Hm in Hwf, Hord.
  apply Forall_app in Hwf as [Hwr Hpt].
  apply StronglySorted_app in Hord as (_ & _ & Hpt_ord).
  destruct (_ <=? max_tokens self).
  - apply Forall_app. split; [exact Hwr|]. constructor; [|constructor].
    apply Forall_cons in Hpt as [_ Ht]. apply Forall_cons in Ht as [Ht _].
    apply StronglySorted_inv in Hpt_ord as [_ Hall].
    apply Forall_cons in Hall as [Hbefore _].
    unfold wf in *. unfold starts_before in Hbefore. cbn. lia.
  - apply Forall_app. split; assumption.
Qed.

Lemma merge_small_wf (self : t) (drafts : list ChunkDraft.t) :
  Forall wf drafts → Forall wf (_merge_small_drafts self drafts).
Proof.
  intros Hwf. unfold _merge_small_drafts.
  destruct drafts as [|d ds]; [constructor|].
  set (sorted_drafts := sort_by draft_le (d :: ds)).
  assert (Hinv : merge_inv ([], []) sorted_drafts).
  { split; cbn [fst snd app].
    - apply SortFacts.sort_by_Forall, Hwf.
    - apply sorted_drafts_ordered. }
  apply (merge_loop_inv self) in Hinv.
  apply flush_buffer_inv in Hinv as [Hnil Hinv].
  destruct (flush_buffer _) as [merged buffer]. cbn [snd] in Hnil. subst buffer.
  destruct Hinv as [Hw Ho]. cbn [fst snd] in Hw, Ho. rewrite !app_nil_r in Hw, Ho.
  apply merge_tail_wf; assumption.
Qed.

Lemma final_drafts_wf (self : t) (content : string) (symbols : list SymbolBlock.t) :
  Forall wf (Chunker.final_drafts self content symbols).
Proof.
  unfold Chunker.final_drafts.
  apply merge_small_wf, split_large_wf, initial_drafts_wf.
Qed.

End ChunkFacts.

(** C7. Every chunk that [ChunkBuilder.build_chunks] emits has
    [start_line <= end_line]; its [chunk_id] is the SHA-256 hex digest of
    the string made of the relative file path, the start line, the end
    line and the text, joined by vertical bars; and its [file_path] is the
    path relative to the repository root. *)
Theorem C7_chunk_lines_and_id :
  ∀ (sha256_hex : string → string) (relative_to : string → string → string)
    (self : ChunkBuilder.t) (repo_path file_path language file_hash content : string)
    (symbols : list SymbolBlock.t),
    Forall
      (fun c =>
         start_line c <= end_line c
         ∧ Models.file_path c = relative_to file_path repo_path
         ∧ chunk_id c
           = sha256_hex (Models.file_path c +:+ "|" +:+ pretty (start_line c) +:+ "|"
                         +:+ pretty (end_line c) +:+ "|" +:+ text c))
      (Chunker.build_chunks sha256_hex relative_to self repo_path file_path language
         file_hash content symbols).
Proof.
  intros sha256_hex relative_to self repo_path file_path language file_hash content symbols.
  unfold Chunker.build_chunks. apply Forall_map.
  eapply Forall_impl; [apply ChunkFacts.final_drafts_wf|].
  intros d Hd. cbn. split; [exact Hd|]. split; reflexivity.
Qed.

(** tests/test_chunker.py, first test: twelve two-line functions with
    the limits (20, 80, 40) merge into the lines 1-22 and 23-24. *)
Example chunker_twelve_functions :
  let content :=
    PyStr.join PyStr.nl
      (map (fun i => "def f" +:+ pretty (Z.of_nat i) +:+ "():" +:+ PyStr.nl
                      +:+ "    return " +:+ pretty (Z.of_nat i)) (seq 0 12)) in
  let symbols :=
    map (fun i => {| SymbolBlock.kind := "function";
                     SymbolBlock.name := Some ("f" +:+ pretty (Z.of_nat i));
                     SymbolBlock.start_line := 2 * Z.of_nat i + 1;
                     SymbolBlock.end_line := 2 * Z.of_nat i + 2;
                     SymbolBlock.text := EmptyString |}) (seq 0 12) in
  map (fun c => (file_path c, start_line c, end_line c, symbol_kind c, tokens c))
    (Chunker.build_chunks (fun s => s) (fun _ _ => "main.py")
       {| ChunkBuilder.min_tokens := 20; ChunkBuilder.max_tokens := 80;
          ChunkBuilder.target_tokens := 40 |}
       "/tmp/repo" "/tmp/repo/main.py" "python" "abc123" content symbols)
  = [("main.py", 1, 22, Some "major_block", 77); ("main.py", 23, 24, Some "function", 7)].
Proof. vm_compute. reflexivity. Qed.

(** * Vector search *)

Module SearchFacts.
Import VectorStore.

Section Cases.
Variable sha1_hex : string → string.
Variable py_str : pyobj → string.

Lemma search_missing (s : t) (repo : string) (qv : list Q) (limit : Z) :
  collections s !! collection_name sha1_hex repo = None →
  search sha1_hex py_str s repo qv limit = Ok [].
Proof. unfold search. intros ->. reflexivity. Qed.

Lemma search_mismatch (s : t) (repo : string) (qv : list Q) (limit : Z)
    (col : collection) (d : Z) :
  collections s !! collection_name sha1_hex repo = Some col →
  vec_size col = Some d →
  d ≠ Z.of_nat (length qv) →
  search sha1_hex py_str s repo qv limit
  = Raise (AinavError "INDEX_DIMENSION_MISMATCH"
             (dimension_mismatch_message d (Z.of_nat (length qv))) 409
             (list_to_map [("index_dim", d); ("model_dim", Z.of_nat (length qv))])).
Proof.
  unfold search. intros -> -> Hne.
  destruct (d =? Z.of_nat (length qv)) eqn:E; [apply Z.eqb_eq in E; contradiction|].
  reflexivity.
Qed.

Lemma search_hits (s : t) (repo : string) (qv : list Q) (limit : Z)
    (col : collection) (pts : list scored_point) :
  collections s !! collection_name sha1_hex repo = Some col →
  vec_size col = None ∨ vec_size col = Some (Z.of_nat (length qv)) →
  api s ≠ HasNeither →
  engine s col qv limit = Ok pts →
  search sha1_hex py_str s repo qv limit = Ok (map (hit_of_point py_str) pts).
Proof.
  unfold search. intros -> Hsize Hapi Heng.
  assert (Hm : match vec_size col with
               | Some d => if negb (d =? Z.of_nat (length qv)) then Some d else None
               | None => None
               end = None).
  { destruct Hsize as [->| ->]; [reflexivity|]. rewrite Z.eqb_refl. reflexivity. }
  rewrite Hm. destruct (api s); [| |congruence]; rewrite Heng; reflexivity.
Qed.

Lemma size_agrees (col : collection) (qv : list Q) :
  vec_size col = None ∨ vec_size col = Some (Z.of_nat (length qv)) →
  match vec_size col with
  | Some d => if negb (d =? Z.of_nat (length qv)) then Some d else None
  | None => None
  end = None.
Proof. intros [->| ->]; [reflexivity|]. rewrite Z.eqb_refl. reflexivity. Qed.

Lemma search_value_error (s : t) (repo : string) (qv : list Q) (limit : Z)
    (col : collection) (msg : string) :
  collections s !! collection_name sha1_hex repo = Some col →
  vec_size col = None ∨ vec_size col = Some (Z.of_nat (length qv)) →
  api s ≠ HasNeither →
  engine s col qv limit = Raise (ValueError msg) →
  search sha1_hex py_str s repo qv limit
  = Raise (AinavError "INDEX_DIMENSION_MISMATCH"
             ("Indexed vectors are incompatible with current embedding model. "
              +:+ "Run `xtrc index <repo> --rebuild`.") 409 ∅).
Proof.
  unfold search. intros -> Hsize Hapi Heng. rewrite (size_agrees col qv Hsize).
  destruct (api s); [| |congruence]; rewrite Heng; reflexivity.
Qed.

Lemma search_propagates (s : t) (repo : string) (qv : list Q) (limit : Z)
    (col : collection) (e : exn) :
  collections s !! collection_name sha1_hex repo = Some col →
  vec_size col = None ∨ vec_size col = Some (Z.of_nat (length qv)) →
  api s ≠ HasNeither →
  engine s col qv limit = Raise e →
  (∀ msg, e ≠ ValueError msg) →
  search sha1_hex py_str s repo qv limit = Raise e.
Proof.
  unfold search. intros -> Hsize Hapi Heng Hne. rewrite (size_agrees col qv Hsize).
  destruct (api s); [| |congruence]; rewrite Heng;
    (destruct e; try reflexivity; exfalso; eapply Hne; reflexivity).
Qed.

Lemma search_unsupported (s : t) (repo : string) (qv : list Q) (limit : Z)
    (col : collection) :
  collections s !! collection_name sha1_hex repo = Some col →
  vec_size col = None ∨ vec_size col = Some (Z.of_nat (length qv)) →
  api s = HasNeither →
  search sha1_hex py_str s repo qv limit
  = Raise (RuntimeError "Unsupported qdrant-client version: missing search/query_points").
Proof.
  unfold search. intros -> Hsize ->. rewrite (size_agrees col qv Hsize). reflexivity.
Qed.

End Cases.
End SearchFacts.

(** C9, as the code has it.  [search] returns the empty list when the
    repository's collection does not exist.  When the collection exists
    and reports a vector size different from the query vector's dimension,
    it fails with the code [INDEX_DIMENSION_MISMATCH], status 409 and a
    details payload that holds both dimensions.  Otherwise, when the
    client offers a search method and the backend call returns points, it
    returns one (chunk_id, score, payload) triple per point, in order,
    with the chunk id taken from the payload when it has one; when the
    backend call raises a [ValueError], it fails with the code
    [INDEX_DIMENSION_MISMATCH], status 409 and an empty details payload;
    when the backend call raises another exception, that exception
    propagates; and when the client offers no search method, it raises a
    [RuntimeError]. *)
Theorem C9_search_outcomes :
  ∀ (sha1_hex : string → string) (py_str : pyobj → string) (s : VectorStore.t)
    (repo : string) (qv : list Q) (limit : Z),
    let name := VectorStore.collection_name sha1_hex repo in
    let dim := Z.of_nat (length qv) in
    (VectorStore.collections s !! name = None →
     VectorStore.search sha1_hex py_str s repo qv limit = Ok [])
    ∧ (∀ col d,
         VectorStore.collections s !! name = Some col →
         VectorStore.vec_size col = Some d → d ≠ dim →
         ∃ message details,
           VectorStore.search sha1_hex py_str s repo qv limit
           = Raise (AinavError "INDEX_DIMENSION_MISMATCH" message 409 details)
           ∧ details !! "index_dim" = Some d
           ∧ details !! "model_dim" = Some dim)
    ∧ (∀ col pts,
         VectorStore.collections s !! name = Some col →
         VectorStore.vec_size col = None ∨ VectorStore.vec_size col = Some dim →
         VectorStore.api s ≠ VectorStore.HasNeither →
         VectorStore.engine s col qv limit = Ok pts →
         ∃ hits,
           VectorStore.search sha1_hex py_str s repo qv limit = Ok hits
           ∧ map VectorStore.hit_score hits = map VectorStore.sp_score pts
           ∧ Forall2
               (fun (h : VectorStore.SearchHit) (p : VectorStore.scored_point) =>
                  VectorStore.hit_payload h = default ∅ (VectorStore.sp_payload p)
                  ∧ (∀ id, VectorStore.hit_payload h !! "chunk_id" = Some (JStr id) →
                           VectorStore.hit_chunk_id h = id)
                  ∧ (VectorStore.hit_payload h !! "chunk_id" = None →
                     VectorStore.hit_chunk_id h = VectorStore.sp_id p))
               hits pts)
    ∧ (∀ col msg,
         VectorStore.collections s !! name = Some col →
         VectorStore.vec_size col = None ∨ VectorStore.vec_size col = Some dim →
         VectorStore.api s ≠ VectorStore.HasNeither →
         VectorStore.engine s col qv limit = Raise (ValueError msg) →
         VectorStore.search sha1_hex py_str s repo qv limit
         = Raise (AinavError "INDEX_DIMENSION_MISMATCH"
                    ("Indexed vectors are incompatible with current embedding model. "
                     +:+ "Run `xtrc index <repo> --rebuild`.") 409 ∅))
    ∧ (∀ col e,
         VectorStore.collections s !! name = Some col →
         VectorStore.vec_size col = None ∨ VectorStore.vec_size col = Some dim →
         VectorStore.api s ≠ VectorStore.HasNeither →
         VectorStore.engine s col qv limit = Raise e →
         (∀ msg, e ≠ ValueError msg) →
         VectorStore.search sha1_hex py_str s repo qv limit = Raise e)
    ∧ (∀ col,
         VectorStore.collections s !! name = Some col →
         VectorStore.vec_size col = None ∨ VectorStore.vec_size col = Some dim →
         VectorStore.api s = VectorStore.HasNeither →
         VectorStore.search sha1_hex py_str s repo qv limit
         = Raise (RuntimeError
                    "Unsupported qdrant-client version: missing search/query_points")).
Proof.
  intros sha1_hex py_str s repo qv limit name dim.
  split; [|split; [|split; [|split; [|split]]]].
  - apply SearchFacts.search_missing.
  - intros col d Hcol Hsize Hne. eexists _, _. split.
    + apply (SearchFacts.search_mismatch sha1_hex py_str s repo qv limit col d Hcol Hsize Hne).
    + split.
      * apply lookup_insert_eq.
      * rewrite list_to_map_cons, lookup_insert_ne by discriminate. apply lookup_insert_eq.
  - intros col pts Hcol Hsize Hapi Heng. eexists. split.
    + apply (SearchFacts.search_hits sha1_hex py_str s repo qv limit col pts
               Hcol Hsize Hapi Heng).
    + split.
      * rewrite map_map. reflexivity.
      * clear. induction pts as [|p pts IH]; cbn [map]; constructor; [|exact IH].
        unfold VectorStore.hit_of_point. cbn. split; [reflexivity|]. split.
        -- intros id Hid. rewrite Hid. reflexivity.
        -- intros Hnone. rewrite Hnone. reflexivity.
  - intros col msg. apply SearchFacts.search_value_error.
  - intros col e. apply SearchFacts.search_propagates.
  - intros col. apply SearchFacts.search_unsupported.
Qed.

(** Six stores through the theorem: no collection; a collection of size
    3 against a query of dimension 2; a matching collection whose backend
    returns one point; one whose backend raises a [ValueError]; one whose
    backend raises a [RuntimeError]; one whose client has no search
    method. *)
Lemma C9_witness_three_stores :
  let c := Fixtures.make_chunk "src/a.py" 10 20 in
  let qv := [1%Q; 0%Q] in
  let missing := {| VectorStore.collections := ∅; VectorStore.api := VectorStore.HasSearch;
                    VectorStore.engine := fun _ _ _ => Ok [] |} in
  let col3 := {| VectorStore.vec_size := Some 3; VectorStore.points := ∅ |} in
  let col2 := {| VectorStore.vec_size := Some 2; VectorStore.points := ∅ |} in
  let wrong := {| VectorStore.collections :=
                    {[ VectorStore.collection_name Fixtures.ident "/tmp/repo" := col3 ]};
                  VectorStore.api := VectorStore.HasSearch;
                  VectorStore.engine := fun _ _ _ => Ok [] |} in
  let failing (api : VectorStore.client_api) (e : exn) :=
    {| VectorStore.collections :=
         {[ VectorStore.collection_name Fixtures.ident "/tmp/repo" := col2 ]};
       VectorStore.api := api;
       VectorStore.engine := fun _ _ _ => Raise e |} in
  VectorStore.search Fixtures.ident Fixtures.obj_text missing "/tmp/repo" qv 12 = Ok []
  ∧ (∃ message details,
       VectorStore.search Fixtures.ident Fixtures.obj_text wrong "/tmp/repo" qv 12
       = Raise (AinavError "INDEX_DIMENSION_MISMATCH" message 409 details)
       ∧ details !! "index_dim" = Some 3 ∧ details !! "model_dim" = Some 2)
  ∧ (∃ hits,
       VectorStore.search Fixtures.ident Fixtures.obj_text
         (Fixtures.store_of [Fixtures.point_for c 0.91]) "/tmp/repo" qv 12 = Ok hits
       ∧ map VectorStore.hit_score hits = [0.91%Q])
  ∧ VectorStore.search Fixtures.ident Fixtures.obj_text
      (failing VectorStore.HasQueryPoints (ValueError "shapes (3,) and (2,) not aligned"))
      "/tmp/repo" qv 12
    = Raise (AinavError "INDEX_DIMENSION_MISMATCH"
               ("Indexed vectors are incompatible with current embedding model. "
                +:+ "Run `xtrc index <repo> --rebuild`.") 409 ∅)
  ∧ VectorStore.search Fixtures.ident Fixtures.obj_text
      (failing VectorStore.HasSearch (RuntimeError "storage folder is locked"))
      "/tmp/repo" qv 12
    = Raise (RuntimeError "storage folder is locked")
  ∧ VectorStore.search Fixtures.ident Fixtures.obj_text
      (failing VectorStore.HasNeither (RuntimeError "storage folder is locked"))
      "/tmp/repo" qv 12
    = Raise (RuntimeError "Unsupported qdrant-client version: missing search/query_points").
Proof.
  intros c qv missing col3 col2 wrong failing.
  split; [|split; [|split; [|split; [|split]]]].
  - apply (proj1 (C9_search_outcomes Fixtures.ident Fixtures.obj_text missing
                    "/tmp/repo" qv 12)).
    reflexivity.
  - apply (proj1 (proj2 (C9_search_outcomes Fixtures.ident Fixtures.obj_text wrong
                           "/tmp/repo" qv 12)) col3 3).
    + vm_compute. reflexivity.
    + reflexivity.
    + discriminate.
  - destruct (proj1 (proj2 (proj2 (C9_search_outcomes Fixtures.ident Fixtures.obj_text
                                     (Fixtures.store_of [Fixtures.point_for c 0.91])
                                     "/tmp/repo" qv 12)))
                col2 [Fixtures.point_for c 0.91]) as (hits & Hs & Hscores & _).
    + vm_compute. reflexivity.
    + right. reflexivity.
    + discriminate.
    + reflexivity.
    + exists hits. split; [exact Hs|exact Hscores].
  - apply (proj1 (proj2 (proj2 (proj2
             (C9_search_outcomes Fixtures.ident Fixtures.obj_text
                (failing VectorStore.HasQueryPoints
                   (ValueError "shapes (3,) and (2,) not aligned"))
                "/tmp/repo" qv 12)))) col2 "shapes (3,) and (2,) not aligned").
    + vm_compute. reflexivity.
    + right. reflexivity.
    + discriminate.
    + reflexivity.
  - apply (proj1 (proj2 (proj2 (proj2 (proj2
             (C9_search_outcomes Fixtures.ident Fixtures.obj_text
                (failing VectorStore.HasSearch (RuntimeError "storage folder is locked"))
                "/tmp/repo" qv 12))))) col2).
    + vm_compute. reflexivity.
    + right. reflexivity.
    + discriminate.
    + reflexivity.
    + discriminate.
  - apply (proj2 (proj2 (proj2 (proj2 (proj2
             (C9_search_outcomes Fixtures.ident Fixtures.obj_text
                (failing VectorStore.HasNeither (RuntimeError "storage folder is locked"))
                "/tmp/repo" qv 12))))) col2).
    + vm_compute. reflexivity.
    + right. reflexivity.
    + reflexivity.
Defined.

(** C9 as stated fails in its last clause.  The collection exists and
    reports no vector size, so no mismatch is detected, but the backend
    search raises [ValueError]: [search] fails with
    [INDEX_DIMENSION_MISMATCH] and an empty details payload instead of
    returning triples. *)
Lemma C9_counterexample_backend_value_error :
  let col := {| VectorStore.vec_size := None; VectorStore.points := ∅ |} in
  let s := {| VectorStore.collections :=
                {[ VectorStore.collection_name Fixtures.ident "/tmp/repo" := col ]};
              VectorStore.api := VectorStore.HasSearch;
              VectorStore.engine :=
                fun _ _ _ => Raise (ValueError "shapes (3,) and (2,) not aligned") |} in
  VectorStore.collections s !! VectorStore.collection_name Fixtures.ident "/tmp/repo"
  = Some col
  ∧ (∃ message,
       VectorStore.search Fixtures.ident Fixtures.obj_text s "/tmp/repo" [1%Q; 0%Q] 12
       = Raise (AinavError "INDEX_DIMENSION_MISMATCH" message 409 ∅))
  ∧ ¬ (∃ hits,
         VectorStore.search Fixtures.ident Fixtures.obj_text s "/tmp/repo" [1%Q; 0%Q] 12
         = Ok hits).
Proof.
  intros col s.
  assert (Hlook : VectorStore.collections s
                  !! VectorStore.collection_name Fixtures.ident "/tmp/repo" = Some col)
    by apply lookup_singleton_eq.
  split; [exact Hlook|].
  unfold VectorStore.search. rewrite Hlook. cbn.
  split; [eexists; reflexivity|].
  intros [hits H]. discriminate.
Qed.

(** * Indexing an unchanged repository *)

Module IndexFacts.
Import IndexSpec.
Import PyList StateExn Indexer.

Section Unchanged.
Variable sha256_hex sha1_hex uuid5 : string → string.
Variable relative_to : string → string → string.
Variable clock : nat → string.
Variable elapsed_ms : Z.
Variable parse_symbols : string → string → string → list SymbolBlock.t.
Variable chunk_builder : ChunkBuilder.t.
Variable dimension : Z.
Variable embed_documents :
  gmap string (Z * list Q * string) → list string →
  VectorStore.vectors * gmap string (Z * list Q * string).
Variable summarize_chunks :
  option (gmap string (string * string * string) → list CodeChunk →
          gmap string string * gmap string (string * string * string)).

Lemma ensure_collection_ready (v : VectorStore.t) (repo : string) :
  collection_ready sha1_hex dimension v repo →
  VectorStore.ensure_collection sha1_hex repo dimension false v = (Ok false, v).
Proof.
  intros (col & Hcol & Hsize). unfold VectorStore.ensure_collection.
  unfold VectorStore.collection_exists, VectorStore._collection_vector_size.
  rewrite Hcol. cbn. rewrite Hcol. cbn. rewrite Hsize, Z.eqb_refl. reflexivity.
Qed.

Lemma filter_none {A : Type} (P : A → Prop) `{∀ x, Decision (P x)} (l : list A) :
  (∀ x, x ∈ l → ¬ P x) → filter P l = [].
Proof.
  induction l as [|x l IH]; intros Hnone; [reflexivity|].
  rewrite filter_cons. destruct (decide (P x)) as [Hp|_].
  - exfalso. apply (Hnone x); [left|exact Hp].
  - apply IH. intros y Hy. apply Hnone. right. exact Hy.
Qed.

(** The scan of an unchanged repository finds no changed file and
    collects the relative paths of the source files. *)
Lemma scan_fold (fs : file_system) (repo : string) (known : gmap string string)
    (files : list string) (acc : gset string * list changed_file) :
  (∀ file language text,
     file ∈ files → Repo.detect_language file = Some language →
     read_text fs file = Some text →
     known !! relative_to file repo = Some (sha256_hex text)) →
  let out := foldl (scan_step sha256_hex relative_to fs repo false known) acc files in
  snd out = snd acc
  ∧ ∀ path, path ∈ fst out
            ↔ path ∈ fst acc
              ∨ ∃ file, file ∈ files ∧ is_Some (Repo.detect_language file)
                        ∧ relative_to file repo = path.
Proof.
  revert acc. induction files as [|f files IH]; intros acc Hcur; cbn.
  - split; [reflexivity|]. intros path. split; [tauto|].
    intros [H|(file & Hin & _)]; [exact H|inversion Hin].
  - assert (Hrest : ∀ file language text,
              file ∈ files → Repo.detect_language file = Some language →
              read_text fs file = Some text →
              known !! relative_to file repo = Some (sha256_hex text)).
    { intros file language text Hin. apply Hcur. right. exact Hin. }
    specialize (IH (scan_step sha256_hex relative_to fs repo false known acc f) Hrest).
    destruct IH as [Hsnd Hfst].
    assert (Hstep : snd (scan_step sha256_hex relative_to fs repo false known acc f) = snd acc
                    ∧ ∀ path,
                        path ∈ fst (scan_step sha256_hex relative_to fs repo false known acc f)
                        ↔ path ∈ fst acc
                          ∨ (is_Some (Repo.detect_language f)
                             ∧ relative_to f repo = path)).
    { unfold scan_step. destruct acc as [paths changed].
      destruct (Repo.detect_language f) as [language|] eqn:El.
      - destruct (read_text fs f) as [text|] eqn:Et.
        + rewrite (Hcur f language text (list_elem_of_here _ _) El Et).
          rewrite bool_decide_eq_true_2 by reflexivity. cbn.
          split; [reflexivity|]. intros path.
          rewrite elem_of_union, elem_of_singleton. split.
          * intros [H|H]; [left; exact H|right; split; [eexists; reflexivity|congruence]].
          * intros [H|[_ H]]; [left; exact H|right; congruence].
        + cbn. split; [reflexivity|]. intros path.
          rewrite elem_of_union, elem_of_singleton. split.
          * intros [H|H]; [left; exact H|right; split; [eexists; reflexivity|congruence]].
          * intros [H|[_ H]]; [left; exact H|right; congruence].
      - cbn. split; [reflexivity|]. intros path. split; [tauto|].
        intros [H|[[x Hx] _]]; [exact H|discriminate]. }
    destruct Hstep as [Hs1 Hf1].
    split; [rewrite Hsnd; exact Hs1|].
    intros path. rewrite Hfst, Hf1. split.
    + intros [[H|[Hl Hp]]|(file & Hin & Hl & Hp)].
      * left. exact H.
      * right. exists f. split; [left|]. split; assumption.
      * right. exists file. split; [right; exact Hin|]. split; assumption.
    + intros [H|(file & Hin & Hl & Hp)]; [left; left; exact H|].
      apply elem_of_cons in Hin as [->|Hin].
      * left. right. split; assumption.
      * right. exists file. split; [exact Hin|]. split; assumption.
Qed.

Lemma scan_unchanged (fs : file_system) (repo : string) (known : gmap string string) :
  hashes_current sha256_hex relative_to fs repo known →
  none_missing relative_to fs repo known →
  ∃ current_paths,
    scan sha256_hex relative_to fs repo false known = (current_paths, [])
    ∧ filter (fun p => p ∉ current_paths) (elements (dom known)) = [].
Proof.
  intros Hcur Hmiss. unfold scan.
  destruct (scan_fold fs repo known (walk_source_files fs) (∅, []) Hcur) as [Hsnd Hfst].
  destruct (foldl _ _ _) as [current_paths changed]. cbn [fst snd] in Hsnd, Hfst.
  subst changed. exists current_paths. split; [reflexivity|].
  apply filter_none. intros p Hp Hnot. apply Hnot.
  apply elem_of_elements, elem_of_dom in Hp.
  destruct (Hmiss p Hp) as (file & Hin & Hl & Hrel).
  apply Hfst. right. exists file. split; [exact Hin|]. split; assumption.
Qed.

(** The run on an unchanged repository, step by step. *)
Lemma index_unchanged (fs : file_system) (repo : string) (w : world) :
  collection_ready sha1_hex dimension (vs w) repo →
  hashes_current sha256_hex relative_to fs repo (MetadataStore.get_file_hashes (md w) repo) →
  none_missing relative_to fs repo (MetadataStore.get_file_hashes (md w) repo) →
  index sha256_hex sha1_hex uuid5 relative_to clock elapsed_ms parse_symbols chunk_builder
    dimension embed_documents summarize_chunks fs repo false w
  = (Ok {| st_repo_path := repo;
           files_scanned := Z.of_nat (length (walk_source_files fs));
           files_indexed := 0;
           files_deleted := 0;
           chunks_indexed := 0;
           duration_ms := elapsed_ms |},
     {| md := MetadataStore.set_repo_last_indexed repo (clock (tick w)) (md w);
        vs := vs w;
        tick := S (tick w) |}).
Proof.
  destruct w as [m v t]. cbn [md vs tick]. intros Hready Hcur Hmiss.
  unfold index, prepare, bind, on_vs, on_md, gets, modify, now, ret. cbn [md vs tick].
  rewrite (ensure_collection_ready v repo Hready). cbn [md vs tick].
  destruct (scan_unchanged fs repo _ Hcur Hmiss) as (current_paths & Hscan & Hdel).
  rewrite Hscan, Hdel.
  unfold delete_missing, bind, on_md, modify. cbn.
  reflexivity.
Qed.

End Unchanged.
End IndexFacts.

(** C8, as the code has it.  A run of [Indexer.index] with
    [rebuild = false] on a repository whose collection exists with the
    model's dimension, whose readable source files all have their current
    hash stored and whose stored files are all still in the walk, indexes
    no file and no chunk and deletes none; it leaves the [files] and
    [chunks] tables, the two cache tables and the whole vector store (so
    every count) unchanged.  It stamps [repo_meta.last_indexed_at] with
    the time of the run, so the metadata store does change in that row. *)
Theorem C8_index_unchanged_repository :
  ∀ (sha256_hex sha1_hex uuid5 : string → string)
    (relative_to : string → string → string) (clock : nat → string) (elapsed_ms : Z)
    (parse_symbols : string → string → string → list SymbolBlock.t)
    (chunk_builder : ChunkBuilder.t) (dimension : Z)
    (embed_documents :
       gmap string (Z * list Q * string) → list string →
       VectorStore.vectors * gmap string (Z * list Q * string))
    (summarize_chunks :
       option (gmap string (string * string * string) → list CodeChunk →
               gmap string string * gmap string (string * string * string)))
    (fs : Indexer.file_system) (repo : string) (w : Indexer.world),
    IndexSpec.collection_ready sha1_hex dimension (Indexer.vs w) repo →
    IndexSpec.hashes_current sha256_hex relative_to fs repo
      (MetadataStore.get_file_hashes (Indexer.md w) repo) →
    IndexSpec.none_missing relative_to fs repo
      (MetadataStore.get_file_hashes (Indexer.md w) repo) →
    ∃ stats w',
      Indexer.index sha256_hex sha1_hex uuid5 relative_to clock elapsed_ms parse_symbols
        chunk_builder dimension embed_documents summarize_chunks fs repo false w
      = (Ok stats, w')
      ∧ Indexer.files_indexed stats = 0
      ∧ Indexer.chunks_indexed stats = 0
      ∧ Indexer.files_deleted stats = 0
      ∧ MetadataStore.files (Indexer.md w') = MetadataStore.files (Indexer.md w)
      ∧ MetadataStore.chunks (Indexer.md w') = MetadataStore.chunks (Indexer.md w)
      ∧ MetadataStore.embeddings (Indexer.md w') = MetadataStore.embeddings (Indexer.md w)
      ∧ MetadataStore.llm_summaries (Indexer.md w')
        = MetadataStore.llm_summaries (Indexer.md w)
      ∧ MetadataStore.repo_meta (Indexer.md w')
        = <[repo := clock (Indexer.tick w)]> (MetadataStore.repo_meta (Indexer.md w))
      ∧ Indexer.vs w' = Indexer.vs w
      ∧ VectorStore.count_chunks sha1_hex (Indexer.vs w') repo
        = VectorStore.count_chunks sha1_hex (Indexer.vs w) repo.
Proof.
  intros sha256_hex sha1_hex uuid5 relative_to clock elapsed_ms parse_symbols chunk_builder
    dimension embed_documents summarize_chunks fs repo w Hready Hcur Hmiss.
  eexists _, _. split.
  - apply IndexFacts.index_unchanged; assumption.
  - cbn. repeat split.
Qed.

(** A repository with one file, indexed twice in succession: the second
    run goes through the theorem. *)
Lemma C8_witness_second_run :
  ∃ stats1 w1 stats2 w2,
    Fixtures.demo_index Fixtures.world0 = (Ok stats1, w1)
    ∧ Indexer.files_indexed stats1 = 1
    ∧ Indexer.chunks_indexed stats1 = 1
    ∧ Fixtures.demo_index w1 = (Ok stats2, w2)
    ∧ Indexer.files_indexed stats2 = 0
    ∧ Indexer.chunks_indexed stats2 = 0
    ∧ MetadataStore.files (Indexer.md w2) = MetadataStore.files (Indexer.md w1)
    ∧ MetadataStore.chunks (Indexer.md w2) = MetadataStore.chunks (Indexer.md w1)
    ∧ VectorStore.count_chunks Fixtures.ident (Indexer.vs w2) "/tmp/repo" = 1
    ∧ VectorStore.count_chunks Fixtures.ident (Indexer.vs w1) "/tmp/repo" = 1.
Proof.
  assert (Hrun1 : ∃ stats1 w1,
            Fixtures.demo_index Fixtures.world0 = (Ok stats1, w1)
            ∧ Indexer.files_indexed stats1 = 1
            ∧ Indexer.chunks_indexed stats1 = 1
            ∧ VectorStore.count_chunks Fixtures.ident (Indexer.vs w1) "/tmp/repo" = 1
            ∧ IndexSpec.collection_ready Fixtures.ident 2 (Indexer.vs w1) "/tmp/repo"
            ∧ MetadataStore.get_file_hashes (Indexer.md w1) "/tmp/repo"
              = {[ "main.py" := Fixtures.demo_text ]}).
  { eexists _, _. split; [vm_compute; reflexivity|].
    split; [reflexivity|]. split; [reflexivity|]. split; [vm_compute; reflexivity|].
    split; [|vm_compute; reflexivity].
    eexists. split; vm_compute; reflexivity. }
  destruct Hrun1 as (stats1 & w1 & Hq1 & Hf1 & Hc1 & Hn1 & Hready & Hknown).
  destruct (C8_index_unchanged_repository Fixtures.ident Fixtures.ident Fixtures.ident
              Fixtures.demo_relative_to Fixtures.demo_clock 7 (fun _ _ _ => [])
              ChunkBuilder.default 2 Fixtures.demo_embed None Fixtures.demo_fs
              "/tmp/repo" w1 Hready)
    as (stats2 & w2 & Hq2 & Hf2 & Hc2 & _ & Hfiles & Hchunks & _ & _ & _ & Hvs & Hcount).
  - rewrite Hknown. intros file language text Hin Hl Ht.
    apply list_elem_of_singleton in Hin. subst file.
    cbn in Ht. injection Ht as <-. vm_compute. reflexivity.
  - rewrite Hknown. intros path [h Hh].
    apply lookup_singleton_Some in Hh as [<- _].
    exists "/tmp/repo/main.py". split; [left|]. split; [eexists|]; vm_compute; reflexivity.
  - exists stats1, w1, stats2, w2.
    split; [exact Hq1|]. split; [exact Hf1|]. split; [exact Hc1|].
    split; [exact Hq2|]. split; [exact Hf2|]. split; [exact Hc2|].
    split; [exact Hfiles|]. split; [exact Hchunks|].
    split; [rewrite Hcount; exact Hn1|exact Hn1].
Defined.

(** C8 as stated fails on the metadata store.  On the same repository
    the second run indexes nothing, yet the metadata store differs after
    it: the row of [repo_meta] holds the time of the second run. *)
Lemma C8_counterexample_repo_meta_restamped :
  ∃ stats1 w1 stats2 w2,
    Fixtures.demo_index Fixtures.world0 = (Ok stats1, w1)
    ∧ Fixtures.demo_index w1 = (Ok stats2, w2)
    ∧ Indexer.files_indexed stats2 = 0
    ∧ Indexer.chunks_indexed stats2 = 0
    ∧ MetadataStore.repo_meta (Indexer.md w1) !! "/tmp/repo" = Some "1"
    ∧ MetadataStore.repo_meta (Indexer.md w2) !! "/tmp/repo" = Some "2"
    ∧ Indexer.md w2 ≠ Indexer.md w1.
Proof.
  assert (Hruns : ∃ stats1 w1 stats2 w2,
            Fixtures.demo_index Fixtures.world0 = (Ok stats1, w1)
            ∧ Fixtures.demo_index w1 = (Ok stats2, w2)
            ∧ Indexer.files_indexed stats2 = 0
            ∧ Indexer.chunks_indexed stats2 = 0
            ∧ MetadataStore.repo_meta (Indexer.md w1) !! "/tmp/repo" = Some "1"
            ∧ MetadataStore.repo_meta (Indexer.md w2) !! "/tmp/repo" = Some "2").
  { eexists _, _, _, _. split; [vm_compute; reflexivity|].
    split; [vm_compute; reflexivity|].
    split; [reflexivity|]. split; [reflexivity|].
    split; vm_compute; reflexivity. }
  destruct Hruns as (stats1 & w1 & stats2 & w2 & H1 & H2 & Hf & Hc & Hm1 & Hm2).
  exists stats1, w1, stats2, w2.
  repeat (split; [assumption|]).
  intros Heq. rewrite Heq, Hm1 in Hm2. discriminate.
Qed.

(** * Tokens and terms *)

Module ReFacts.
Import PyStr Re TokenSpec.

Lemma rmatch_consumed (P : ascii → Prop) (r : regex) :
  classes P r →
  ∀ (R : Type) prev s cs (k : option ascii → list ascii → caps → option R) x,
    rmatch r prev s cs k = Some x →
    ∃ t prev' s' cs', s = t ++ s' ∧ Forall P t ∧ k prev' s' cs' = Some x.
Proof.
  induction r as [p| |r1 IH1 r2 IH2|r1 IH1 r2 IH2|r IH|i r IH|]; intros Hcl R prev s cs k x H.
  - cbn in H. destruct s as [|c s']; [discriminate|].
    destruct (p c) eqn:Hp; [|discriminate].
    exists [c], (Some c), s', cs. split; [reflexivity|]. split; [|exact H].
    constructor; [apply Hcl, Hp|constructor].
  - exists [], prev, s, cs. split; [reflexivity|]. split; [constructor|exact H].
  - destruct Hcl as [H1 H2]. cbn in H.
    apply (IH1 H1) in H as (t1 & p1 & s1 & c1 & -> & Ht1 & H).
    apply (IH2 H2) in H as (t2 & p2 & s2 & c2 & -> & Ht2 & H).
    exists (t1 ++ t2), p2, s2, c2. split; [by rewrite <- (assoc_L (++))|].
    split; [by apply Forall_app|exact H].
  - destruct Hcl as [H1 H2]. cbn in H.
    destruct (rmatch r1 prev s cs k) eqn:E1.
    + simplify_eq. by apply (IH1 H1) in E1.
    + by apply (IH2 H2) in H.
  - cbn in H. cbn in Hcl. revert H. generalize (length s) as fuel.
    intros fuel. revert prev s cs. induction fuel as [|f IHf]; intros prev s cs H.
    + exists [], prev, s, cs. split; [reflexivity|]. split; [constructor|exact H].
    + match type of H with
      | match ?m with _ => _ end = _ => destruct m eqn:E
      end.
      * simplify_eq.
        apply (IH Hcl) in E as (t1 & p1 & s1 & c1 & -> & Ht1 & E).
        match type of E with (if ?c then _ else _) = _ => destruct c end; [|discriminate].
        apply IHf in E as (t2 & p2 & s2 & c2 & -> & Ht2 & E).
        exists (t1 ++ t2), p2, s2, c2. split; [by rewrite <- (assoc_L (++))|].
        split; [by apply Forall_app|exact E].
      * exists [], prev, s, cs. split; [reflexivity|]. split; [constructor|exact H].
  - cbn in H. cbn in Hcl.
    apply (IH Hcl) in H as (t1 & p1 & s1 & c1 & -> & Ht1 & H).
    by exists t1, p1, s1, ((i, take (length (t1 ++ s1) - length s1) (t1 ++ s1)) :: c1).
  - cbn in H. destruct (xorb _ _); [|discriminate].
    exists [], prev, s, cs. split; [reflexivity|]. split; [constructor|exact H].
Qed.

(** What [match_here] found: the text consumed and the rest. *)
Lemma match_here_split (P : ascii → Prop) (r : regex) (prev : option ascii)
    (s : list ascii) (m : found) :
  classes P r → match_here r prev s = Some m →
  s = f_text m ++ f_rest m ∧ Forall P (f_text m).
Proof.
  intros Hcl H. unfold match_here in H.
  apply (rmatch_consumed P r Hcl) in H as (t & p' & s' & c' & -> & Ht & H).
  injection H as <-. cbn.
  rewrite length_app, Nat.add_sub, take_app_length. done.
Qed.

Lemma search_from_here (r : regex) (prev : option ascii) (s : list ascii) (m : found) :
  search_from r prev s = Some m →
  ∃ prev' skipped s0, s = skipped ++ s0 ∧ match_here r prev' s0 = Some m.
Proof.
  revert prev. induction s as [|c s IH]; intros prev H; cbn in H.
  - destruct (match_here r prev []) eqn:E; [|discriminate].
    injection H as ->. by exists prev, [], [].
  - destruct (match_here r prev (c :: s)) eqn:E.
    + injection H as ->. by exists prev, [], (c :: s).
    + apply IH in H as (p' & sk & s0 & -> & H). by exists p', (c :: sk), s0.
Qed.

Lemma rmatch_consuming (r : regex) :
  consuming r →
  ∀ (R : Type) prev s cs (k : option ascii → list ascii → caps → option R) x,
    rmatch r prev s cs k = Some x →
    ∃ t prev' s' cs', s = t ++ s' ∧ t ≠ [] ∧ k prev' s' cs' = Some x.
Proof.
  assert (Hany : ∀ r', classes (fun _ => True) r').
  { induction r'; cbn; auto. }
  induction r as [p| |r1 IH1 r2 IH2|r1 IH1 r2 IH2|r IH|i r IH|]; intros Hc R prev s cs k x H;
    cbn in Hc; try done.
  - cbn in H. destruct s as [|c s']; [discriminate|].
    destruct (p c); [|discriminate]. by exists [c], (Some c), s', cs.
  - cbn in H. destruct Hc as [Hc|Hc].
    + apply (IH1 Hc) in H as (t1 & p1 & s1 & c1 & -> & Hne & H).
      apply (rmatch_consumed _ r2 (Hany r2)) in H as (t2 & p2 & s2 & c2 & -> & _ & H).
      exists (t1 ++ t2), p2, s2, c2. split; [by rewrite <- (assoc_L (++))|].
      split; [|exact H]. by destruct t1.
    + apply (rmatch_consumed _ r1 (Hany r1)) in H as (t1 & p1 & s1 & c1 & -> & _ & H).
      apply (IH2 Hc) in H as (t2 & p2 & s2 & c2 & -> & Hne & H).
      exists (t1 ++ t2), p2, s2, c2. split; [by rewrite <- (assoc_L (++))|].
      split; [|exact H]. destruct t1; [done|discriminate].
  - cbn in H. destruct Hc as [Hc1 Hc2].
    destruct (rmatch r1 prev s cs k) eqn:E1.
    + simplify_eq. by apply (IH1 Hc1) in E1.
    + by apply (IH2 Hc2) in H.
  - cbn in H.
    apply (IH Hc) in H as (t1 & p1 & s1 & c1 & -> & Hne & H).
    by exists t1, p1, s1, ((i, take (length (t1 ++ s1) - length s1) (t1 ++ s1)) :: c1).
Qed.

Lemma match_here_nonempty (r : regex) (prev : option ascii) (s : list ascii) (m : found) :
  consuming r → match_here r prev s = Some m → f_text m ≠ [].
Proof.
  intros Hc H. unfold match_here in H.
  apply (rmatch_consuming r Hc) in H as (t & p' & s' & c' & -> & Hne & H).
  injection H as <-. cbn.
  by rewrite length_app, Nat.add_sub, take_app_length.
Qed.

(** The matches of [findall] for a pattern that cannot match the empty
    text: each one is a part of the input that the pattern's classes
    accept, and there are at most as many matches as characters. *)
Lemma findall_fuel_matches (P : ascii → Prop) (T : list ascii → Prop) (r : regex) :
  classes P r → consuming r →
  (∀ prev s m, match_here r prev s = Some m → T (f_text m)) →
  ∀ fuel prev s,
    Forall (fun tok => ∃ t a b, tok = str t ∧ s = a ++ t ++ b ∧ T t ∧ Forall P t)
      (findall_fuel fuel r prev s)
    ∧ (length (findall_fuel fuel r prev s) ≤ length s)%nat.
Proof.
  intros Hcl Hc HT fuel. induction fuel as [|f IH]; intros prev s; cbn.
  - split; [constructor|lia].
  - destruct (search_from r prev s) as [m|] eqn:E; [|split; [apply Forall_nil_2|cbn; lia]].
    apply search_from_here in E as (p' & sk & s0 & -> & E).
    pose proof (match_here_nonempty _ _ _ _ Hc E) as Hnonempty.
    pose proof (HT _ _ _ E) as Ht.
    destruct (match_here_split P r p' s0 m Hcl E) as [-> HP].
    destruct (f_text m) as [|c t] eqn:Et; [done|].
    destruct (IH (f_prev m) (f_rest m)) as [IH1 IH2].
    split.
    + constructor; [by exists (c :: t), sk, (f_rest m)|].
      eapply Forall_impl; [exact IH1|].
      intros tok (t' & a & b & -> & Hs & Ht' & HP'). rewrite Hs.
      exists t', (sk ++ (c :: t) ++ a), b. split; [done|]. split; [|done].
      by rewrite <- !(assoc_L (++)).
    + cbn. rewrite !length_app. cbn. rewrite length_app. lia.
Qed.

Lemma upper_lower_char (c : ascii) : is_upper (lower_char c) = false.
Proof. destruct c as [[] [] [] [] [] [] [] []]; reflexivity. Qed.

Lemma chars_str (l : list ascii) : chars (str l) = l.
Proof. apply list_ascii_of_string_of_list_ascii. Qed.

Lemma str_chars (s : string) : str (chars s) = s.
Proof. apply string_of_list_ascii_of_string. Qed.

Lemma len_chars (s : string) : len s = length (chars s).
Proof. unfold len, chars. induction s; cbn; congruence. Qed.

End ReFacts.

Module TokenFacts.
Import PyStr Re TokenSpec Tokenizer ReFacts.

Lemma identifier_classes : classes ident_class identifier.
Proof.
  cbn. split.
  - intros c Hc. unfold ident_class. destruct (is_alpha c), (is_underscore c); cbn in *; try done.
    by rewrite orb_true_r.
  - intros c Hc. exact Hc.
Qed.

Lemma identifier_consuming : consuming identifier.
Proof. cbn. by left. Qed.

Lemma identifier_head (prev : option ascii) (s : list ascii) (m : found) :
  match_here identifier prev s = Some m →
  ∃ c rest, f_text m = c :: rest ∧ (is_alpha c || is_underscore c) = true.
Proof.
  intros H. pose proof (match_here_split _ _ _ _ _ identifier_classes H) as [Hs _].
  pose proof (match_here_nonempty _ _ _ _ identifier_consuming H) as Hne.
  unfold match_here, identifier in H. cbn [rmatch] in H.
  destruct s as [|c s1]; [discriminate|]. unfold ident_start in H at 1.
  destruct (f_text m) as [|c' rest] eqn:Et; [done|].
  cbn in Hs. injection Hs as <- _.
  exists c, rest. split; [done|].
  cbn in H. by destruct (is_alpha c || is_underscore c).
Qed.

Lemma term_of_token (s : list ascii) (token : string) :
  Forall (fun c => is_upper c = false) s →
  (∃ t a b, token = str t ∧ s = a ++ t ++ b
            ∧ (∃ c rest, t = c :: rest ∧ (is_alpha c || is_underscore c) = true)
            ∧ Forall ident_class t) →
  (1 < len token)%nat →
  is_term token = true.
Proof.
  intros Hs (t & a & b & -> & -> & (c & rest & -> & Hc) & Hcl) Hlen.
  rewrite len_chars, chars_str in Hlen. unfold is_term. rewrite chars_str.
  destruct rest as [|d rest]; [cbn in Hlen; lia|].
  apply Forall_app in Hs as [_ Hs]. apply Forall_app in Hs as [Hs _].
  assert (Hterm : ∀ x, is_upper x = false → ident_class x → term_char x = true).
  { intros x Hx Hi. unfold ident_class, is_alpha in Hi. unfold term_char.
    rewrite Hx in Hi. exact Hi. }
  apply andb_true_iff. split.
  - apply Forall_cons in Hs as [Hu _]. unfold is_alpha in Hc. by rewrite Hu in Hc.
  - apply forallb_forall. intros x Hx. apply list_elem_of_In in Hx.
    apply Forall_cons in Hs as [_ Hs]. apply Forall_cons in Hcl as [_ Hcl].
    rewrite Forall_forall in Hs, Hcl. apply Hterm; auto.
Qed.

Lemma normalize_terms_are_terms (text : string) :
  Forall (fun token => is_term token = true) (normalize_terms text).
Proof.
  unfold normalize_terms, findall.
  destruct (findall_fuel_matches ident_class
              (fun t => ∃ c rest, t = c :: rest ∧ (is_alpha c || is_underscore c) = true)
              identifier identifier_classes identifier_consuming identifier_head
              (S (length (chars (lower text)))) None (chars (lower text))) as [Hall _].
  apply Forall_forall. intros token Hin.
  apply list_elem_of_filter in Hin as [Hlen Hin].
  rewrite Forall_forall in Hall. specialize (Hall _ Hin).
  apply (term_of_token (chars (lower text))); [|exact Hall|].
  - unfold lower. rewrite chars_str. apply Forall_map, Forall_forall.
    intros c _. apply upper_lower_char.
  - exact Hlen.
Qed.

Lemma ident_not_space (c : ascii) : ident_class c → is_space c = false.
Proof. unfold ident_class. destruct c as [[] [] [] [] [] [] [] []]; vm_compute; congruence. Qed.

Lemma token_re_classes : classes (fun c => is_space c = false) _TOKEN_RE.
Proof.
  cbn. repeat split; intros c Hc.
  - apply ident_not_space. unfold ident_class.
    destruct (is_alpha c), (is_underscore c); cbn in *; try done. by rewrite orb_true_r.
  - by apply ident_not_space.
  - apply ident_not_space. unfold ident_class. rewrite Hc. by rewrite orb_true_r.
  - apply ident_not_space. unfold ident_class. rewrite Hc. by rewrite orb_true_r.
  - by apply negb_true_iff.
Qed.

Lemma token_re_consuming : consuming _TOKEN_RE.
Proof. cbn. repeat split; by left. Qed.

Lemma token_re_total (prev : option ascii) (c : ascii) (s : list ascii) :
  is_space c = false → match_here _TOKEN_RE prev (c :: s) ≠ None.
Proof.
  intros Hc. unfold match_here, _TOKEN_RE. cbn [rmatch].
  destruct (rmatch identifier _ _ _ _); [done|].
  destruct (rmatch (Plus _) _ _ _ _); [done|].
  by rewrite Hc.
Qed.

Lemma search_tokens_none (prev : option ascii) (s : list ascii) :
  Forall (fun c => is_space c = true) s → search_from _TOKEN_RE prev s = None.
Proof.
  revert prev. induction s as [|c s IH]; intros prev Hs.
  - reflexivity.
  - apply Forall_cons in Hs as [Hc Hs]. cbn [search_from].
    destruct (match_here _TOKEN_RE prev (c :: s)) as [m|] eqn:E; [|by apply IH].
    pose proof (match_here_nonempty _ _ _ _ token_re_consuming E) as Hne.
    destruct (match_here_split _ _ _ _ _ token_re_classes E) as [Hsplit Hall].
    destruct (f_text m) as [|c' t]; [done|].
    injection Hsplit as <- _. apply Forall_cons in Hall as [Hns _]. congruence.
Qed.

Lemma search_tokens_some (prev : option ascii) (s : list ascii) :
  Exists (fun c => is_space c = false) s → search_from _TOKEN_RE prev s ≠ None.
Proof.
  revert prev. induction s as [|c s IH]; intros prev Hs.
  - by apply Exists_nil in Hs.
  - cbn [search_from].
    destruct (match_here _TOKEN_RE prev (c :: s)) as [m|] eqn:E; [done|].
    apply Exists_cons in Hs as [Hc|Hs]; [|by apply IH].
    by apply (token_re_total prev c s) in Hc.
Qed.

Lemma lstrip_by_split (p : ascii → bool) (l : list ascii) :
  ∃ a, l = a ++ lstrip_by p l ∧ Forall (fun c => p c = true) a.
Proof.
  induction l as [|c l (a & IH & Ha)]; [by exists []|]. cbn.
  destruct (p c) eqn:Hc; [|by exists []].
  exists (c :: a). split; [cbn; congruence|by constructor].
Qed.

Lemma lstrip_by_all (p : ascii → bool) (l : list ascii) :
  Forall (fun c => p c = true) l → lstrip_by p l = [].
Proof.
  induction 1 as [|c l Hc _ IH]; [done|]. cbn. by rewrite Hc.
Qed.

Lemma strip_by_nil (p : ascii → bool) (l : list ascii) :
  strip_by p l = [] ↔ Forall (fun c => p c = true) l.
Proof.
  unfold strip_by, rstrip_by. split.
  - intros H. apply (f_equal reverse) in H. rewrite reverse_involutive in H.
    cbn in H. destruct (lstrip_by_split p (reverse (lstrip_by p l))) as (a & Ha & Hall).
    rewrite H, app_nil_r in Ha. rewrite <- Ha in Hall.
    apply (proj1 (Forall_reverse _ _)) in Hall.
    destruct (lstrip_by_split p l) as (b & Hb & Hallb).
    rewrite Hb. apply Forall_app. by split.
  - intros H. by rewrite (lstrip_by_all p l H).
Qed.

Lemma blank_text_spaces (text : string) :
  blank_text text = true ↔ Forall (fun c => is_space c = true) (chars text).
Proof.
  unfold blank_text, strip. rewrite <- strip_by_nil. split.
  - intros H. destruct (str _) eqn:E; [|done].
    apply (f_equal chars) in E. by rewrite chars_str in E.
  - by intros ->.
Qed.

Lemma estimate_tokens_bounds (text : string) :
  0 <= estimate_tokens text <= Z.of_nat (len text).
Proof.
  unfold estimate_tokens, findall. split; [lia|]. rewrite len_chars.
  destruct (findall_fuel_matches _ (fun _ => True) _TOKEN_RE token_re_classes
              token_re_consuming (fun _ _ _ _ => I)
              (S (length (chars text))) None (chars text)) as [_ Hlen].
  lia.
Qed.

Lemma estimate_tokens_zero (text : string) :
  estimate_tokens text = 0 ↔ blank_text text = true.
Proof.
  rewrite blank_text_spaces. unfold estimate_tokens, findall. cbn [findall_fuel]. split.
  - intros H. apply Forall_forall. intros c Hc.
    destruct (is_space c) eqn:Hs; [done|]. exfalso.
    assert (Hex : Exists (fun c => is_space c = false) (chars text)).
    { apply Exists_exists. by exists c. }
    apply (search_tokens_some None) in Hex.
    destruct (search_from _TOKEN_RE None (chars text)) as [m|]; [|done].
    destruct (f_text m); [destruct (f_rest m)|]; cbn in H; lia.
  - intros H. by rewrite (search_tokens_none None _ H).
Qed.

End TokenFacts.

(** X1. Every term that [normalize_terms] returns has at least two
    characters, starts with a lower-case ASCII letter or an underscore and
    continues with lower-case letters, digits and underscores: no
    upper-case letter, no one-character token and no punctuation survives. *)
Theorem X1_normalize_terms_shape :
  ∀ text : string,
    Forall (fun token => TokenSpec.is_term token = true) (Tokenizer.normalize_terms text).
Proof. exact TokenFacts.normalize_terms_are_terms. Qed.

(** X2. [estimate_tokens] counts at most one token per character, and it
    counts zero tokens exactly for the texts whose [strip()] is empty. *)
Theorem X2_estimate_tokens_bounds :
  ∀ text : string,
    0 <= Tokenizer.estimate_tokens text <= Z.of_nat (PyStr.len text)
    ∧ (Tokenizer.estimate_tokens text =? 0) = TokenSpec.blank_text text.
Proof.
  intros text. split; [apply TokenFacts.estimate_tokens_bounds|].
  pose proof (TokenFacts.estimate_tokens_zero text) as Hz.
  destruct (TokenSpec.blank_text text).
  - apply Z.eqb_eq, Hz. reflexivity.
  - apply Z.eqb_neq. intros H. apply Hz in H. discriminate.
Qed.


(** * Route signals and intent metadata *)

Module SignalFacts.
Import PyStr RouteSignals SignalSpec.

(** Membership in a list literal. *)
Ltac pick := first [apply list_elem_of_here | apply list_elem_of_further; pick].

(** Membership in a set that guarded updates only grow. *)
Ltac grown :=
  repeat match goal with
         | |- _ ∈ (if ?c then _ else _) => destruct c
         | |- _ ∈ match ?c with _ => _ end => destruct c
         | |- _ ∈ _ ∪ _ => apply elem_of_union
         | |- _ ∈ {[ _ ]} ∨ _ => left; apply elem_of_singleton; reflexivity
         | |- _ ∨ _ ∈ {[ _ ]} => right; apply elem_of_singleton; reflexivity
         | |- _ ∨ _ => left
         end.

Lemma http_map_cases (m i : string) :
  HTTP_INTENT_MAP !! m = Some i →
  upper m ∈ HTTP_METHODS ∧ lower (upper m) = m ∧ i ∈ CRUD_INTENTS.
Proof.
  intros H. apply elem_of_list_to_map_2 in H.
  repeat (apply elem_of_cons in H as [H|H]); [..|by apply elem_of_nil in H];
    injection H as -> ->; (split; [|split; [reflexivity|]]);
    unfold HTTP_METHODS, CRUD_INTENTS; pick.
Qed.

Lemma NoDup_sorted_set (s : gset string) : NoDup (sorted_set s).
Proof.
  unfold sorted_set, sorted. rewrite SortFacts.sort_by_perm. apply NoDup_elements.
Qed.

Lemma route_signal_ok (text : string) (symbol_name : option string) :
  from_option signal_ok True (extract_route_signal text symbol_name).
Proof.
  unfold extract_route_signal. destruct (find_method text) as [method path].
  destruct method as [m|]; [|done].
  destruct (HTTP_INTENT_MAP !! m) as [i|] eqn:E; [|done].
  destruct (http_map_cases m i E) as (Hm & Hlow & Hi).
  cbn [from_option]. unfold signal_ok.
  cbn [rs_method rs_intent rs_resource rs_structural_terms]. rewrite Hlow.
  split; [exact Hm|]. split; [exact E|]. split; [exact Hi|].
  rewrite !SortFacts.elem_of_sorted_set.
  split; [|split].
  - grown.
  - grown.
  - destruct (if truthy path then _ else _) as [r|] eqn:Er; [|done].
    rewrite SortFacts.elem_of_sorted_set.
    destruct (nonempty r) eqn:Hr; [right|by left]. cbn [truthy or_else]. rewrite Hr.
    grown.
Qed.

Lemma alias_intents : Forall (fun ia => fst ia ∈ CRUD_INTENTS) _INTENT_ALIASES.
Proof. unfold _INTENT_ALIASES, CRUD_INTENTS. repeat constructor; cbn; pick. Qed.

Lemma query_signal_coherent (query : string) :
  query_signal_ok query (infer_query_signal query).
Proof.
  unfold query_signal_ok, infer_query_signal.
  cbn [qs_intents qs_methods qs_structural_terms].
  set (terms := Tokenizer.normalize_terms query).
  set (methods := list_to_set (filter _ terms) : gset string).
  set (aliased := list_to_set (map fst (filter _ _INTENT_ALIASES)) : gset string).
  set (mapped := list_to_set (omap _ (elements methods)) : gset string).
  split; [|split; [|split]].
  - apply Forall_forall. intros m Hm.
    apply SortFacts.elem_of_sorted_set, elem_of_list_to_set, list_elem_of_filter in Hm
      as [Hmap Hin].
    split; [exact Hin|].
    apply bool_decide_unpack in Hmap as [i Hi]. exists i. split; [exact Hi|].
    apply SortFacts.elem_of_sorted_set, elem_of_union. right.
    apply elem_of_list_to_set, list_elem_of_omap. exists m. split; [|exact Hi].
    apply elem_of_elements, elem_of_list_to_set, list_elem_of_filter.
    split; [|exact Hin]. apply bool_decide_pack. by exists i.
  - apply Forall_forall. intros i Hi.
    apply SortFacts.elem_of_sorted_set, elem_of_union in Hi as [Hi|Hi].
    + apply elem_of_list_to_set, list_elem_of_fmap in Hi as (ia & -> & Hia).
      apply list_elem_of_filter in Hia as [_ Hia].
      pose proof alias_intents as Hall. rewrite Forall_forall in Hall. by apply Hall.
    + apply elem_of_list_to_set, list_elem_of_omap in Hi as (m & _ & Hm).
      by apply http_map_cases in Hm as (_ & _ & Hm).
  - apply Forall_forall. intros x Hx. apply SortFacts.elem_of_sorted_set.
    apply elem_of_app in Hx as [Hx|Hx]; apply SortFacts.elem_of_sorted_set in Hx.
    + apply elem_of_union. left. apply elem_of_union. by right.
    + apply elem_of_union. by right.
  - repeat split; apply NoDup_sorted_set.
Qed.

End SignalFacts.

Module MetadataFacts.
Import PyStr RouteSignals SignalSpec Intent SignalFacts.

Lemma add_if_within (V : list string) (b : bool) (t : string) (tags : gset string) :
  (b = true → t ∈ V) → (∀ x, x ∈ tags → x ∈ V) → ∀ x, x ∈ add_if b t tags → x ∈ V.
Proof.
  intros Ht Htags x. unfold add_if. destruct b; [|apply Htags].
  rewrite elem_of_union, elem_of_singleton. intros [Hx| ->]; [by apply Htags|by apply Ht].
Qed.

Lemma add_if_keeps (b : bool) (t x : string) (tags : gset string) :
  x ∈ tags → x ∈ add_if b t tags.
Proof. unfold add_if. destruct b; [|done]. intros Hx. apply elem_of_union. by left. Qed.

Lemma crud_resource_tag (i : string) :
  i ∈ CRUD_INTENTS → nonempty i = true ∧ (i +:+ "_resource") ∈ TAG_VOCABULARY.
Proof.
  intros H. unfold CRUD_INTENTS in H.
  repeat (apply elem_of_cons in H as [->|H]); [..|by apply elem_of_nil in H];
    (split; [reflexivity|unfold TAG_VOCABULARY; pick]).
Qed.

Lemma tag_set_vocabulary (file_path : string) (terms : gset string)
    (route_signal : option RouteSignal) :
  from_option signal_ok True route_signal →
  ∀ x, x ∈ intent_tag_set file_path terms route_signal → x ∈ TAG_VOCABULARY.
Proof.
  intros Hok. unfold intent_tag_set.
  assert (Hfirst : ∀ x,
    x ∈ add_if (truthy (rs_intent <$> route_signal))
          (or_else (rs_intent <$> route_signal) EmptyString +:+ "_resource") ∅ →
    x ∈ TAG_VOCABULARY).
  { apply add_if_within; [|intros x Hx; by apply elem_of_empty in Hx].
    destruct route_signal as [rs|]; [|done]. cbn. intros Hne. rewrite Hne.
    destruct Hok as (_ & _ & Hi & _). by apply crud_resource_tag. }
  repeat (apply add_if_within; [intros _; unfold TAG_VOCABULARY; pick|]).
  destruct (_has_any file_path _NOISE_PATH_HINTS || _); [|exact Hfirst].
  repeat (apply add_if_within; [intros _; unfold TAG_VOCABULARY; pick|]).
  exact Hfirst.
Qed.

Lemma tag_set_intent (file_path : string) (terms : gset string) (rs : RouteSignal) :
  signal_ok rs →
  (rs_intent rs +:+ "_resource") ∈ intent_tag_set file_path terms (Some rs).
Proof.
  intros (_ & _ & Hi & _). apply crud_resource_tag in Hi as [Hne _].
  unfold intent_tag_set. cbn [fmap option_fmap option_map truthy or_else]. rewrite Hne.
  pose proof (IntentFacts.add_if_true (rs_intent rs +:+ "_resource") ∅) as Hbase.
  revert Hbase. generalize (add_if true (rs_intent rs +:+ "_resource") ∅).
  intros base Hbase.
  repeat apply add_if_keeps.
  destruct (_has_any file_path _NOISE_PATH_HINTS || _);
    repeat apply add_if_keeps; exact Hbase.
Qed.

Lemma intent_metadata_ok (file_path : string) (symbol_kind symbol : option string)
    (text : string) :
  metadata_ok (extract_intent_metadata file_path symbol_kind symbol text).
Proof.
  unfold metadata_ok, extract_intent_metadata.
  cbn [intent_tags structural_terms route_method route_intent route_path route_resource
       is_route_handler].
  pose proof (route_signal_ok text symbol) as Hok.
  destruct (extract_route_signal text symbol) as [rs|].
  - split; [|split; [|split]]; try apply NoDup_sorted_set.
    + apply Forall_forall. intros x Hx. apply SortFacts.elem_of_sorted_set in Hx.
      revert x Hx. by apply tag_set_vocabulary.
    + cbn [fmap option_fmap option_map mbind option_bind from_option] in *.
      pose proof Hok as (Hm & Hmap & Hi & Hlow & Hint & _).
      split; [exact Hm|]. split; [reflexivity|]. exists (rs_intent rs).
      split; [reflexivity|]. split; [exact Hmap|].
      rewrite !SortFacts.elem_of_sorted_set. split; [by apply tag_set_intent|].
      split.
      * grown.
      * destruct (truthy (rs_resource rs)); [apply elem_of_union; left|];
          (apply elem_of_union; left; apply elem_of_union; left; apply elem_of_union; right;
           by apply elem_of_list_to_set).
  - split; [|split; [|split]]; try apply NoDup_sorted_set; [|done].
    apply Forall_forall. intros x Hx. apply SortFacts.elem_of_sorted_set in Hx.
    revert x Hx. by apply tag_set_vocabulary.
Qed.

End MetadataFacts.

(** X3. Whenever [extract_route_signal] returns a signal, its method is
    one of GET, POST, PUT, DELETE and PATCH in upper case, its intent is
    the one that [HTTP_INTENT_MAP] gives the method, and the structural
    terms hold the lower-case method, the intent and the resource. *)
Theorem X3_route_signal_coherent :
  ∀ (text : string) (symbol_name : option string),
    from_option SignalSpec.signal_ok True (RouteSignals.extract_route_signal text symbol_name).
Proof. exact SignalFacts.route_signal_ok. Qed.

(** X4. The signal that [infer_query_signal] reads off a query is
    coherent: every method is an HTTP method that occurs among the
    normalized terms of the query and brings its mapped intent, every
    intent is one of create, update, delete and read, the structural terms
    hold every method and every intent, and no list has duplicates. *)
Theorem X4_query_signal_coherent :
  ∀ query : string,
    SignalSpec.query_signal_ok query (RouteSignals.infer_query_signal query).
Proof. exact SignalFacts.query_signal_coherent. Qed.

(** X5. The metadata that [extract_intent_metadata] returns is coherent
    for every input: the tags are drawn from eleven fixed tags and have
    no duplicates; when a route method is set it is an upper-case HTTP
    method, the handler flag is set, the route intent is the mapped
    intent and the tag [<intent>_resource] is present; when no route
    method is set, intent, path and resource are all absent. *)
Theorem X5_intent_metadata_coherent :
  ∀ (file_path : string) (symbol_kind symbol : option string) (text : string),
    SignalSpec.metadata_ok (Intent.extract_intent_metadata file_path symbol_kind symbol text).
Proof. exact MetadataFacts.intent_metadata_ok. Qed.


(** * The range of the scores *)

Module ScoreFacts.
Import PyNum ScoreSpec.
Local Open Scope Q_scope.

Lemma unit_zero : unit_interval 0.
Proof. split; [apply Qle_refl|discriminate]. Qed.

Lemma ratio_unit (n d : nat) : (n ≤ d)%nat → (0 < d)%nat → unit_interval (ratio n d).
Proof.
  intros Hle Hpos. unfold ratio, unit_interval.
  assert (Hd : 0 < inject_Z (Z.of_nat d)).
  { rewrite <- (Zlt_Qlt 0). lia. }
  split.
  - apply Qle_shift_div_l; [exact Hd|]. rewrite Qmult_0_l.
    rewrite <- (Zle_Qle 0). lia.
  - apply Qle_shift_div_r; [exact Hd|]. rewrite Qmult_1_l.
    rewrite <- Zle_Qle. lia.
Qed.

Lemma normalize_unit (s : Q) : unit_interval (HybridScorer._normalize_vector_score s).
Proof.
  unfold HybridScorer._normalize_vector_score, unit_interval.
  destruct (Qle_bool 0 s && Qle_bool s 1) eqn:E.
  - apply andb_true_iff in E as [H0 H1]. by rewrite !Qle_bool_iff in *.
  - unfold py_max, py_min.
    destruct (Qlt_bool ((s + 1) / 2) 1) eqn:E1;
      [apply HeuristicsFacts.Qlt_bool_true in E1|apply HeuristicsFacts.Qlt_bool_false in E1].
    + destruct (Qlt_bool 0 ((s + 1) / 2)) eqn:E0;
        [apply HeuristicsFacts.Qlt_bool_true in E0|apply HeuristicsFacts.Qlt_bool_false in E0].
      * split; apply Qlt_le_weak; assumption.
      * apply unit_zero.
    + destruct (Qlt_bool 0 1) eqn:E0.
      * split; [discriminate|apply Qle_refl].
      * apply unit_zero.
Qed.

Lemma size_nonempty (x : string) (l : list string) :
  (0 < size (list_to_set (x :: l) : gset string))%nat.
Proof.
  assert (H : size (list_to_set (x :: l) : gset string) ≠ 0%nat); [|lia].
  apply size_non_empty_iff. intros H.
  apply (proj1 (elem_of_equiv_empty _) H x). apply elem_of_list_to_set. left.
Qed.

Lemma overlap_unit (query_terms candidates : list string) :
  unit_interval (HybridScorer._overlap_score query_terms candidates).
Proof.
  unfold HybridScorer._overlap_score.
  destruct query_terms as [|t ts]; [apply unit_zero|].
  destruct candidates as [|c cs]; [apply unit_zero|].
  apply ratio_unit; [|apply size_nonempty].
  apply subseteq_size, intersection_subseteq_l.
Qed.

Lemma intent_unit (query_intents : list string) (route_intent route_method : option string) :
  unit_interval (HybridScorer._intent_score query_intents route_intent route_method).
Proof.
  unfold HybridScorer._intent_score.
  destruct query_intents as [|t ts]; [apply unit_zero|].
  cbv zeta. destruct (bool_decide _); [apply unit_zero|].
  apply ratio_unit; [|apply size_nonempty].
  apply subseteq_size, intersection_subseteq_l.
Qed.

Lemma weighted_unit (a b c d e : Q) :
  unit_interval a → unit_interval b → unit_interval c → unit_interval d → unit_interval e →
  unit_interval (HybridScorer.VECTOR_WEIGHT * a + HybridScorer.KEYWORD_WEIGHT * b
                 + HybridScorer.SYMBOL_WEIGHT * c + HybridScorer.INTENT_WEIGHT * d
                 + HybridScorer.STRUCTURAL_WEIGHT * e).
Proof.
  unfold unit_interval, HybridScorer.VECTOR_WEIGHT, HybridScorer.KEYWORD_WEIGHT,
    HybridScorer.SYMBOL_WEIGHT, HybridScorer.INTENT_WEIGHT, HybridScorer.STRUCTURAL_WEIGHT.
  intros [] [] [] [] []. split; lra.
Qed.

Lemma score_in_range (query : string) (v : Q) (keywords symbol_terms : list string)
    (route_intent route_method route_resource : option string)
    (structural_terms : option (list string)) :
  scores_in_range (HybridScorer.score query v keywords symbol_terms route_intent
                     route_method route_resource structural_terms).
Proof.
  unfold scores_in_range, HybridScorer.score.
  cbn [HybridScorer.total HybridScorer.normalized_vector HybridScorer.s_keyword
       HybridScorer.s_symbol HybridScorer.s_intent HybridScorer.s_structural].
  pose proof (normalize_unit v).
  pose proof (overlap_unit (Tokenizer.normalize_terms query) keywords).
  pose proof (overlap_unit (Tokenizer.normalize_terms query) symbol_terms).
  pose proof (intent_unit (RouteSignals.qs_intents (RouteSignals.infer_query_signal query))
                route_intent route_method).
  split; [apply weighted_unit; try assumption; apply overlap_unit|].
  split; [assumption|]. split; [assumption|]. split; [assumption|].
  split; [assumption|apply overlap_unit].
Qed.

Lemma match_of_hit_range (fmt3 : Q → string) (rewriter : option (string → result (string * bool)))
    (lr : option LocalReranker.t) (boosts : option (Q * Q * Q))
    (reranker : option (GeminiReranker.t * GeminiReranker.client))
    (q : string) (hit : VectorStore.SearchHit) (c : CodeChunk) :
  match_in_range (bool_decide (is_Some boosts))
    (QueryEngine.match_of_hit fmt3 (engine_with rewriter lr boosts reranker) q hit c).
Proof.
  unfold QueryEngine.match_of_hit, match_in_range.
  destruct (score_in_range q (VectorStore.hit_score hit) (keywords c) (symbol_terms c)
              (route_intent c) (route_method c) (route_resource c)
              (Some (structural_terms c))) as ([Ht0 Ht1] & Hv & Hk & Hs & Hi & Hst).
  destruct boosts as [[[rb np] ib]|];
    cbn [engine_with QueryEngine.ranking_heuristics fmap option_fmap option_map
         vector_score keyword_score symbol_score intent_score structural_score score
         fst snd];
    (split; [exact Hv|]); (split; [exact Hk|]); (split; [exact Hs|]);
    (split; [exact Hi|]); (split; [exact Hst|]).
  - split; [|rewrite bool_decide_eq_true_2 by eauto; exact I].
    destruct (HeuristicsFacts.init_clamped rb np ib) as (Hr & Hn & Hb).
    pose proof (HeuristicsFacts.multiplier_pos (RankingHeuristics.init rb np ib) q c Hr Hn Hb)
      as Hm.
    apply Qmult_le_0_compat; [exact Ht0|apply Qlt_le_weak, Hm].
  - split; [exact Ht0|].
    rewrite bool_decide_eq_false_2 by (intros [x Hx]; discriminate). exact Ht1.
Qed.

Lemma build_matches_range (fmt3 : Q → string) (rewriter : option (string → result (string * bool)))
    (lr : option LocalReranker.t) (boosts : option (Q * Q * Q))
    (reranker : option (GeminiReranker.t * GeminiReranker.client))
    (q : string) (hits : list VectorStore.SearchHit) (chunks : gmap string CodeChunk) :
  Forall (fun m => match_in_range (bool_decide (is_Some boosts)) m
                   ∧ ∃ hit, hit ∈ hits ∧ chunks !! VectorStore.hit_chunk_id hit = Some (chunk m))
    (QueryEngine.build_matches fmt3 (engine_with rewriter lr boosts reranker) q hits chunks).
Proof.
  unfold QueryEngine.build_matches. apply Forall_forall. intros m Hm.
  apply list_elem_of_omap in Hm as (hit & Hhit & Hm).
  destruct (chunks !! VectorStore.hit_chunk_id hit) as [c|] eqn:Hc; [|discriminate].
  injection Hm as <-. split; [apply match_of_hit_range|].
  exists hit. split; [exact Hhit|]. rewrite Hc. f_equal.
  unfold QueryEngine.match_of_hit.
  destruct (QueryEngine.ranking_heuristics _); reflexivity.
Qed.

End ScoreFacts.

(** X6. Whatever the query, the raw vector score (also outside [-1, 1])
    and the fields of the chunk are, the five components that
    [HybridScorer.score] returns and their weighted total all lie between
    0 and 1. *)
Theorem X6_hybrid_score_range :
  ∀ (query : string) (vector_score : Q) (keywords symbol_terms : list string)
    (route_intent route_method route_resource : option string)
    (structural_terms : option (list string)),
    ScoreSpec.scores_in_range
      (HybridScorer.score query vector_score keywords symbol_terms route_intent
         route_method route_resource structural_terms).
Proof. exact ScoreFacts.score_in_range. Qed.

(** X7. The loop of [QueryEngine.query] over the search hits builds only
    matches whose chunk is the metadata row of a hit (a hit without a row
    is skipped), whose five component scores lie in [0, 1] and whose score
    is not negative, also after the heuristic multiplier of any
    configuration; without heuristics the score is at most 1. *)
Theorem X7_built_matches_in_range :
  ∀ (fmt3 : Q → string) (rewriter : option (string → result (string * bool)))
    (local_reranker : option LocalReranker.t) (boosts : option (Q * Q * Q))
    (reranker : option (GeminiReranker.t * GeminiReranker.client))
    (query : string) (hits : list VectorStore.SearchHit) (chunks : gmap string CodeChunk),
    let self := ScoreSpec.engine_with rewriter local_reranker boosts reranker in
    Forall (fun m =>
              ScoreSpec.match_in_range (bool_decide (is_Some boosts)) m
              ∧ ∃ hit, hit ∈ hits
                       ∧ chunks !! VectorStore.hit_chunk_id hit = Some (chunk m))
      (QueryEngine.build_matches fmt3 self query hits chunks).
Proof. intros. apply ScoreFacts.build_matches_range. Qed.


(** * What a heuristic decision rests on *)

Module DecisionFacts.
Import PyStr RouteSignals RankingHeuristics DecisionSpec.

Lemma matched_keywords_ok (query_terms : gset string) (c : CodeChunk) :
  (length (_matched_keywords query_terms c) ≤ 8)%nat
  ∧ NoDup (_matched_keywords query_terms c)
  ∧ Forall (fun k => k ∈ query_terms) (_matched_keywords query_terms c).
Proof.
  unfold _matched_keywords. cbv zeta. split; [|split].
  - rewrite length_take. lia.
  - eapply sublist_NoDup; [apply SignalFacts.NoDup_sorted_set|apply sublist_take].
  - apply Forall_take, Forall_forall. intros k Hk.
    apply SortFacts.elem_of_sorted_set, elem_of_intersection in Hk. tauto.
Qed.

Lemma matched_intents_ok (query_intents tags : list string) :
  NoDup (_matched_intents query_intents tags)
  ∧ Forall (fun t => t ∈ tags ∧ ∃ i, i ∈ query_intents ∧ t = i +:+ "_resource")
      (_matched_intents query_intents tags).
Proof.
  unfold _matched_intents. destruct query_intents as [|i0 is0]; [split; constructor|].
  cbv zeta. split; [apply SignalFacts.NoDup_sorted_set|].
  apply Forall_forall. intros t Ht.
  apply SortFacts.elem_of_sorted_set, elem_of_list_to_set, list_elem_of_filter in Ht
    as [Htag Ht].
  apply bool_decide_unpack, elem_of_list_to_set in Htag.
  apply list_elem_of_fmap in Ht as (i & -> & Hi). split; [exact Htag|]. by exists i.
Qed.

Lemma evaluate_ok (self : t) (query : string) (c : CodeChunk) :
  decision_ok query c (evaluate self query c).
Proof.
  unfold decision_ok, evaluate.
  destruct (matched_keywords_ok (list_to_set (Tokenizer.normalize_terms query)) c)
    as (Hlen & Hnd & Hall).
  destruct (matched_intents_ok (qs_intents (infer_query_signal query)) (intent_tags c))
    as (Hnd' & Hall').
  destruct (_matched_intents _ _) as [|mi mis] eqn:Emi;
    destruct (bool_decide _ && _is_route_chunk c);
    destruct (bool_decide (_NEGATIVE_INTENTS ∩ _ ≠ ∅));
    cbn [multiplier h_matched_intents h_matched_keywords reasons length app];
    (split; [exact Hlen|]); (split; [exact Hnd|]);
    (split; [eapply Forall_impl; [exact Hall|]; intros k Hk; by apply elem_of_list_to_set in Hk|]);
    (split; [exact Hnd'|]); (split; [exact Hall'|]); (split; [lia|]); done.
Qed.

End DecisionFacts.

(** X8. A decision of [RankingHeuristics.evaluate] is grounded in its
    inputs for every configuration, query and chunk: it reports at most
    eight matched keywords, without duplicates, each a normalized term of
    the query; its matched intents are tags of the chunk of the form
    [<intent>_resource] for an intent inferred from the query; it gives at
    most three reasons, and when it gives none the multiplier is exactly 1. *)
Theorem X8_heuristic_decision_grounded :
  ∀ (self : RankingHeuristics.t) (query : string) (c : CodeChunk),
    DecisionSpec.decision_ok query c (RankingHeuristics.evaluate self query c).
Proof. exact DecisionFacts.evaluate_ok. Qed.


(** * The line splitter *)

Module TilingFacts.
Import PyStr PyList ChunkBuilder TilingSpec.

Lemma append_assoc (a b c : string) : (a +:+ b) +:+ c = a +:+ b +:+ c.
Proof.
  induction a as [|x a IH]; [reflexivity|].
  change (String x ((a +:+ b) +:+ c) = String x (a +:+ b +:+ c)). by rewrite IH.
Qed.

Lemma join_app (sep : string) (g r : list string) :
  g ≠ [] → r ≠ [] → join sep (g ++ r) = join sep g +:+ sep +:+ join sep r.
Proof.
  intros Hg Hr. induction g as [|x g IH]; [done|].
  destruct g as [|y g].
  - cbn [app]. destruct r as [|z r]; [done|]. reflexivity.
  - change (join sep ((x :: y :: g) ++ r)) with (x +:+ sep +:+ join sep ((y :: g) ++ r)).
    rewrite IH by done.
    change (join sep (x :: y :: g)) with (x +:+ sep +:+ join sep (y :: g)).
    by rewrite !append_assoc.
Qed.

Lemma join_concat (sep : string) (groups : list (list string)) :
  Forall (fun g => g ≠ []) groups →
  join sep (map (join sep) groups) = join sep (concat groups).
Proof.
  induction 1 as [|g gs Hg Hgs IH]; [reflexivity|].
  destruct gs as [|g' gs].
  - cbn. by rewrite app_nil_r.
  - change (join sep (map (join sep) (g :: g' :: gs)))
      with (join sep g +:+ sep +:+ join sep (map (join sep) (g' :: gs))).
    rewrite IH. change (concat (g :: g' :: gs)) with (g ++ concat (g' :: gs)).
    rewrite join_app; [reflexivity|exact Hg|].
    apply Forall_cons in Hgs as [Hg' _]. by destruct g'.
Qed.

Lemma contiguous_snoc (next : Z) (parts : list part) (p : part) :
  contiguous next parts → part_start p = after next parts → part_start p <= part_end p →
  contiguous next (parts ++ [p]) ∧ after next (parts ++ [p]) = part_end p + 1.
Proof.
  revert next. induction parts as [|q parts IH]; intros next Hc Hs Hw; cbn in *.
  - split; [|reflexivity]. split; [exact Hs|]. split; [lia|exact I].
  - destruct Hc as (Hq & Hle & Hc). destruct (IH _ Hc Hs Hw) as [H1 H2]. by repeat split.
Qed.

Lemma emit_block_chunks (start : Z) (done : list string) (st : split_state) (next : Z → Z) :
  split_inv start done st → sp_current st ≠ [] →
  contiguous start (sp_chunks (emit_block st next))
  ∧ after start (sp_chunks (emit_block st next)) = start + Z.of_nat (length done)
  ∧ ∃ groups : list (list string),
      Forall (fun g => g ≠ []) groups
      ∧ map part_text (sp_chunks (emit_block st next)) = map (join nl) groups
      ∧ concat groups = done.
Proof.
  intros (Hc & Ha & Hb & groups & Hne & Ht & Hd) Hcur. unfold emit_block. cbv zeta.
  cbn [sp_chunks].
  set (p := (join nl (sp_current st), sp_block_start st,
             sp_block_start st + Z.of_nat (length (sp_current st)) - 1)).
  assert (Hlen : (0 < length (sp_current st))%nat) by (destruct (sp_current st); [done|cbn; lia]).
  destruct (contiguous_snoc start (sp_chunks st) p Hc) as [H1 H2];
    [by rewrite Ha|unfold p, part_start, part_end; cbn; lia|].
  split; [exact H1|]. split; [etrans; [exact H2|]; unfold p, part_end; cbn; lia|].
  exists (groups ++ [sp_current st]). split; [apply Forall_app; by repeat constructor|].
  split.
  - rewrite !map_app, Ht. reflexivity.
  - rewrite concat_app. cbn. by rewrite app_nil_r.
Qed.

Lemma emit_block_inv (start : Z) (done : list string) (st : split_state) (next : Z → Z) :
  split_inv start done st → sp_current st ≠ [] →
  next (sp_block_start st + Z.of_nat (length (sp_current st)) - 1)
  = start + Z.of_nat (length done) →
  split_inv start done (emit_block st next).
Proof.
  intros Hinv Hcur Hnext.
  destruct (emit_block_chunks start done st next Hinv Hcur) as (H1 & H2 & groups & H3 & H4 & H5).
  split; [exact H1|]. split; [rewrite H2; cbn; by rewrite Hnext|].
  split; [cbn; rewrite Hnext; lia|].
  exists groups. split; [exact H3|]. split; [exact H4|]. cbn. by rewrite app_nil_r.
Qed.

Lemma split_step_inv (self : t) (start : Z) (done : list string) (st : split_state)
    (line : string) :
  split_inv start done st →
  split_inv start (done ++ [line]) (split_step self start st (length done, line)).
Proof.
  intros Hinv. unfold split_step.
  match goal with
  | |- context [if ?c then emit_block st ?f else st] =>
      assert (H1 : split_inv start done (if c then emit_block st f else st));
      [ destruct c eqn:E; [|exact Hinv];
        apply emit_block_inv; [exact Hinv| |reflexivity];
        apply andb_true_iff in E as [E _]; apply andb_true_iff in E as [E _];
        destruct (sp_current st); [discriminate|congruence]
      | generalize dependent (if c then emit_block st f else st) ]
  end.
  intros st1 (Hc & Ha & Hb & groups & Hne & Ht & Hd).
  set (st2 := {| sp_chunks := sp_chunks st1; sp_current := sp_current st1 ++ [line];
                 sp_current_tokens := _; sp_block_start := sp_block_start st1 |}).
  assert (H2 : split_inv start (done ++ [line]) st2).
  { split; [exact Hc|]. split; [exact Ha|]. cbn [sp_block_start sp_current st2].
    split; [rewrite !length_app; cbn; lia|].
    exists groups. split; [exact Hne|]. split; [exact Ht|].
    by rewrite (assoc_L (++)), Hd. }
  destruct (max_tokens self <=? sp_current_tokens st2); [|exact H2].
  apply emit_block_inv; [exact H2| |].
  - cbn. by destruct (sp_current st1).
  - destruct H2 as (_ & _ & Hb2 & _). lia.
Qed.

Lemma split_loop_inv (self : t) (start : Z) (lines : list string) :
  split_inv start lines
    (foldl (split_step self start)
       {| sp_chunks := []; sp_current := []; sp_current_tokens := 0; sp_block_start := start |}
       (imap (fun idx line => (idx, line)) lines)).
Proof.
  induction lines as [|line lines IH] using rev_ind.
  - split; [exact I|]. split; [reflexivity|]. split; [cbn; lia|]. by exists [].
  - rewrite imap_app, foldl_app. cbn [imap foldl]. rewrite Nat.add_0_r.
    by apply split_step_inv.
Qed.

Lemma split_text_tiles (self : t) (text : string) (start : Z) :
  tiles start (splitlines text) (_split_text_by_lines self text start).
Proof.
  unfold _split_text_by_lines, tiles. cbv zeta.
  pose proof (split_loop_inv self start (splitlines text)) as Hinv.
  set (st := foldl _ _ _) in *.
  destruct (sp_current st) as [|x xs] eqn:Ecur; cbn [null negb].
  - destruct Hinv as (Hc & Ha & Hb & groups & Hne & Ht & Hd).
    rewrite Ecur, app_nil_r in Hd. rewrite Ecur in Hb. cbn in Hb.
    split; [exact Hc|]. split; [lia|]. rewrite Ht, <- Hd. by apply join_concat.
  - destruct (emit_block_chunks start _ st (fun e => e) Hinv) as (H1 & H2 & groups & H3 & H4 & H5);
      [by rewrite Ecur|].
    split; [exact H1|]. split; [exact H2|]. rewrite H4, <- H5. by apply join_concat.
Qed.

End TilingFacts.

(** X9. The line splitter loses and repeats nothing: the parts that
    [_split_text_by_lines] returns are contiguous from the start line (each
    part begins on the line after the previous one and spans at least one
    line), the last part ends on the last line of the text, and the parts'
    texts joined by line feeds are the lines of the text joined by line
    feeds, for any token limits. *)
Theorem X9_line_splitter_tiles :
  ∀ (self : ChunkBuilder.t) (text : string) (start_line : Z),
    TilingSpec.tiles start_line (PyStr.splitlines text)
      (ChunkBuilder._split_text_by_lines self text start_line).
Proof. exact TilingFacts.split_text_tiles. Qed.


(** * The order and the fields of the chunks *)

Module OrderFacts.
Import PyStr PyList ChunkBuilder ChunkSpec OrderSpec ReFacts.

Lemma merge_tail_ordered (self : t) (merged : list ChunkDraft.t) :
  ordered merged → ordered (merge_tail self merged).
Proof.
  intros Hord. unfold merge_tail.
  destruct (reverse merged) as [|tail [|prev rest_rev]] eqn:E; try exact Hord.
  destruct (ChunkDraft.tokens tail <? min_tokens self); [|exact Hord].
  assert (Hm : merged = reverse rest_rev ++ [prev; tail]).
  { rewrite <- (reverse_involutive merged), E.
    rewrite !reverse_cons, <- app_assoc. reflexivity. }
  destruct (_ <=? max_tokens self); [|by rewrite <- Hm].
  rewrite Hm in Hord. unfold ordered in *.
  apply StronglySorted_app in Hord as (Hcross & Hrest & _).
  apply StronglySorted_app. split; [|split; [exact Hrest|repeat constructor]].
  intros a b Ha Hb. apply list_elem_of_singleton in Hb as ->.
  unfold starts_before. cbn. apply (Hcross a prev Ha). left.
Qed.

Lemma merge_small_ordered (self : t) (drafts : list ChunkDraft.t) :
  Forall wf drafts → ordered (_merge_small_drafts self drafts).
Proof.
  intros Hwf. unfold _merge_small_drafts.
  destruct drafts as [|d ds]; [constructor|].
  set (sorted_drafts := sort_by draft_le (d :: ds)).
  assert (Hinv : merge_inv ([], []) sorted_drafts).
  { split; cbn [fst snd app].
    - apply SortFacts.sort_by_Forall, Hwf.
    - apply ChunkFacts.sorted_drafts_ordered. }
  apply (ChunkFacts.merge_loop_inv self) in Hinv.
  apply ChunkFacts.flush_buffer_inv in Hinv as [Hnil Hinv].
  destruct (flush_buffer _) as [merged buffer]. cbn [snd] in Hnil. subst buffer.
  destruct Hinv as [Hw Ho]. cbn [fst snd] in Hw, Ho. rewrite !app_nil_r in Ho.
  by apply merge_tail_ordered.
Qed.

Lemma final_drafts_ordered (self : t) (content : string) (symbols : list SymbolBlock.t) :
  ordered (Chunker.final_drafts self content symbols).
Proof.
  unfold Chunker.final_drafts.
  apply merge_small_ordered, ChunkFacts.split_large_wf, ChunkFacts.initial_drafts_wf.
Qed.

Lemma sorted_map {A B : Type} (R : A → A → Prop) (S : B → B → Prop) (f : A → B)
    (l : list A) :
  (∀ a b, R a b → S (f a) (f b)) → StronglySorted R l → StronglySorted S (map f l).
Proof.
  intros Hf. induction 1 as [|x l Hl IH Hx]; cbn; constructor; [exact IH|].
  apply Forall_map. eapply Forall_impl; [exact Hx|]. intros y. apply Hf.
Qed.

Lemma build_chunks_ordered (sha256_hex : string → string)
    (relative_to : string → string → string) (self : t)
    (repo_path file_path language file_hash content : string)
    (symbols : list SymbolBlock.t) :
  StronglySorted chunk_starts_before
    (Chunker.build_chunks sha256_hex relative_to self repo_path file_path language
       file_hash content symbols).
Proof.
  unfold Chunker.build_chunks.
  eapply sorted_map; [|apply final_drafts_ordered]. intros a b Hab. exact Hab.
Qed.

(** ** Descriptions *)

Lemma lstrip_by_snoc (p : ascii → bool) (l : list ascii) (c : ascii) :
  p c = false → ∃ y, lstrip_by p (l ++ [c]) = y ++ [c].
Proof.
  intros Hc. induction l as [|x l (y & IH)]; cbn.
  - rewrite Hc. by exists [].
  - destruct (p x); [by exists y|]. by exists (x :: l).
Qed.

Lemma strip_head (c : ascii) (s : string) :
  is_space c = false → ∃ rest, strip (String c s) = String c rest.
Proof.
  intros Hc. unfold strip, strip_by, rstrip_by.
  change (chars (String c s)) with (c :: chars s). cbn [lstrip_by]. rewrite Hc.
  rewrite reverse_cons.
  destruct (lstrip_by_snoc is_space (reverse (chars s)) c Hc) as (y & ->).
  rewrite reverse_app. cbn. by eexists.
Qed.

Lemma describe_nonempty (file_path : string) (draft : ChunkDraft.t)
    (intent_meta : Intent.IntentMetadata) :
  nonempty (Chunker._describe file_path draft intent_meta) = true.
Proof.
  unfold Chunker._describe. cbv zeta.
  repeat match goal with
         | |- nonempty (if ?c then _ else _) = true => destruct c
         end;
    match goal with
    | |- nonempty (strip (String ?c ?s +:+ ?t)) = true =>
        change (String c s +:+ t) with (String c (s +:+ t));
        destruct (strip_head c (s +:+ t) eq_refl) as (rest & ->); reflexivity
    end.
Qed.

(** ** Files that yield chunks *)

Lemma splitlines_acc_nonempty (l cur : list ascii) :
  l ≠ [] ∨ cur ≠ [] → splitlines_acc l cur ≠ [].
Proof.
  revert cur. induction l as [|c l IH]; intros cur H; cbn.
  - destruct H as [H|H]; [done|]. by destruct cur.
  - destruct (is_linebreak c).
    + destruct l as [|d l']; [done|]. by destruct (_ && _).
    + apply IH. right. discriminate.
Qed.

Lemma splitlines_nil (text : string) : splitlines text = [] ↔ text = EmptyString.
Proof.
  unfold splitlines. split.
  - intros H. destruct text as [|c s]; [done|]. exfalso.
    apply fmap_nil_inv in H. revert H. apply splitlines_acc_nonempty. left. discriminate.
  - by intros ->.
Qed.

Lemma split_text_nonempty (self : t) (text : string) (start : Z) :
  text ≠ EmptyString → _split_text_by_lines self text start ≠ [].
Proof.
  intros Hne Hnil.
  destruct (TilingFacts.split_text_tiles self text start) as (_ & Hafter & _).
  rewrite Hnil in Hafter. cbn in Hafter.
  assert (Hl : splitlines text = []) by (destruct (splitlines text); [done|cbn in Hafter; lia]).
  by apply splitlines_nil in Hl.
Qed.

Lemma estimate_tokens_empty : Tokenizer.estimate_tokens EmptyString = 0.
Proof. reflexivity. Qed.

Lemma fallback_nonempty (self : t) (lines : list string) :
  0 <= max_tokens self → lines ≠ [] → _slice_file_fallback self lines ≠ [].
Proof.
  intros Hmax Hne. unfold _slice_file_fallback. destruct lines as [|l ls]; [done|].
  destruct (_ <=? max_tokens self) eqn:E; [done|].
  apply Z.leb_gt in E. intros H. apply fmap_nil_inv in H. revert H.
  apply split_text_nonempty. intros Hempty.
  rewrite Hempty, estimate_tokens_empty in E. lia.
Qed.

Lemma initial_drafts_nonempty (self : t) (content : string) (symbols : list SymbolBlock.t) :
  0 <= max_tokens self → content ≠ EmptyString → _initial_drafts self content symbols ≠ [].
Proof.
  intros Hmax Hne. unfold _initial_drafts.
  assert (Hlines : splitlines content ≠ []) by (by rewrite splitlines_nil).
  destruct symbols as [|s ss]; [by apply fallback_nonempty|].
  destruct (omap _ _); [by apply fallback_nonempty|done].
Qed.

Lemma split_large_nonempty (self : t) (drafts : list ChunkDraft.t) :
  0 <= max_tokens self → drafts ≠ [] → _split_large_drafts self drafts ≠ [].
Proof.
  intros Hmax Hne. unfold _split_large_drafts. destruct drafts as [|d ds]; [done|].
  cbn. destruct (_ <=? max_tokens self) eqn:E; [done|].
  apply Z.leb_gt in E. intros H. apply app_eq_nil in H as [H _].
  apply fmap_nil_inv in H. revert H. apply split_text_nonempty.
  intros Hempty. unfold ChunkDraft.tokens in E.
  rewrite Hempty, estimate_tokens_empty in E. lia.
Qed.

Lemma flush_buffer_nonempty (st : merge_state) :
  fst st ++ snd st ≠ [] → fst (flush_buffer st) ≠ [].
Proof.
  destruct st as [merged buffer]. cbn [fst snd]. unfold flush_buffer.
  destruct buffer as [|first [|second more]]; cbn [fst].
  - by rewrite app_nil_r.
  - intros _ H. by apply app_eq_nil in H as [_ H].
  - intros _ H. by apply app_eq_nil in H as [_ H].
Qed.

Lemma merge_step_nonempty (self : t) (st : merge_state) (draft : ChunkDraft.t) :
  fst (merge_step self st draft) ++ snd (merge_step self st draft) ≠ [].
Proof.
  unfold merge_step.
  destruct (min_tokens self <=? ChunkDraft.tokens draft).
  - destruct (flush_buffer st) as [merged buffer]. cbn [fst snd].
    intros H. apply app_eq_nil in H as [H _]. by apply app_eq_nil in H as [_ H].
  - destruct st as [merged buffer]. destruct buffer as [|first more]; cbn [fst snd].
    + intros H. by apply app_eq_nil in H as [_ H].
    + destruct (_ && _).
      * cbn [fst snd]. intros H. by apply app_eq_nil in H as [_ H].
      * destruct (flush_buffer _) as [merged' buffer']. cbn [fst snd].
        intros H. apply app_eq_nil in H as [_ H]. by apply app_eq_nil in H as [_ H].
Qed.

Lemma merge_loop_nonempty (self : t) (drafts : list ChunkDraft.t) (st : merge_state) :
  fst st ++ snd st ≠ [] ∨ drafts ≠ [] →
  fst (foldl (merge_step self) st drafts) ++ snd (foldl (merge_step self) st drafts) ≠ [].
Proof.
  revert st. induction drafts as [|d ds IH]; intros st H; cbn.
  - by destruct H.
  - apply IH. left. apply merge_step_nonempty.
Qed.

Lemma merge_tail_nonempty (self : t) (merged : list ChunkDraft.t) :
  merged ≠ [] → merge_tail self merged ≠ [].
Proof.
  intros Hne. unfold merge_tail.
  destruct (reverse merged) as [|tail [|prev rest_rev]]; try exact Hne.
  destruct (_ <? _); [|exact Hne].
  destruct (_ <=? _); intros H; by apply app_eq_nil in H as [_ H].
Qed.

Lemma merge_small_nonempty (self : t) (drafts : list ChunkDraft.t) :
  drafts ≠ [] → _merge_small_drafts self drafts ≠ [].
Proof.
  intros Hne. unfold _merge_small_drafts. destruct drafts as [|d ds]; [done|].
  pose proof (merge_loop_nonempty self (sort_by draft_le (d :: ds)) ([], [])) as Hloop.
  pose proof (flush_buffer_nonempty (foldl (merge_step self) ([], []) (sort_by draft_le (d :: ds))))
    as Hflush.
  destruct (flush_buffer _) as [merged buffer]. cbn [fst] in Hflush.
  apply merge_tail_nonempty, Hflush, Hloop. right.
  intros Hnil. apply (f_equal length) in Hnil.
  rewrite SortFacts.sort_by_length in Hnil. discriminate.
Qed.

Lemma initial_drafts_empty (self : t) (symbols : list SymbolBlock.t) :
  _initial_drafts self EmptyString symbols = [].
Proof.
  unfold _initial_drafts. change (splitlines EmptyString) with (@nil string).
  destruct symbols as [|s ss]; [reflexivity|].
  destruct (omap _ _) as [|d ds] eqn:E; [reflexivity|]. exfalso.
  assert (Hd : d ∈ omap (symbol_draft []) (sort_by symbol_le (s :: ss)))
    by (rewrite E; left).
  apply list_elem_of_omap in Hd as (x & _ & Hx).
  unfold symbol_draft, slice in Hx. rewrite take_nil, drop_nil in Hx. discriminate.
Qed.

Lemma build_chunks_nil (sha256_hex : string → string)
    (relative_to : string → string → string) (self : t)
    (repo_path file_path language file_hash content : string)
    (symbols : list SymbolBlock.t) :
  0 <= max_tokens self →
  Chunker.build_chunks sha256_hex relative_to self repo_path file_path language
    file_hash content symbols = [] ↔ content = EmptyString.
Proof.
  intros Hmax. unfold Chunker.build_chunks, Chunker.final_drafts. split.
  - intros H. apply fmap_nil_inv in H.
    destruct (decide (content = EmptyString)) as [|Hne]; [done|]. exfalso. revert H.
    by apply merge_small_nonempty, split_large_nonempty, initial_drafts_nonempty.
  - intros ->. by rewrite initial_drafts_empty.
Qed.

End OrderFacts.

Module ChunkFieldFacts.
Import PyStr PyList ChunkFieldSpec.

Lemma http_method_truthy (method : string) :
  method ∈ SignalSpec.HTTP_METHODS → nonempty method = true.
Proof.
  intros H. unfold SignalSpec.HTTP_METHODS in H.
  repeat (apply elem_of_cons in H as [->|H]); [reflexivity..|by apply elem_of_nil in H].
Qed.

Lemma chunk_of_draft_ok (sha256_hex : string → string)
    (repo_path relative_path language file_hash : string) (draft : ChunkDraft.t) :
  chunk_ok (Chunker.chunk_of_draft sha256_hex repo_path relative_path language file_hash draft).
Proof.
  unfold chunk_ok, Chunker.chunk_of_draft. cbv zeta.
  cbn [description keywords structural_terms symbol_terms route_method route_intent
       route_path route_resource intent_tags].
  pose proof (MetadataFacts.intent_metadata_ok relative_path (ChunkDraft.symbol_kind draft)
                (ChunkDraft.symbol draft) (ChunkDraft.text draft))
    as (Htags & _ & _ & Hroute).
  set (meta := Intent.extract_intent_metadata _ _ _ _) in *.
  split; [apply OrderFacts.describe_nonempty|].
  split; [apply TokenFacts.normalize_terms_are_terms|].
  split; [apply SignalFacts.NoDup_sorted_set|].
  split; [apply SignalFacts.NoDup_sorted_set|].
  split.
  { apply Forall_forall. intros x Hx. apply SortFacts.elem_of_sorted_set, elem_of_list_to_set.
    destruct (null _) eqn:E.
    - destruct (sorted_set _); [by apply elem_of_nil in Hx|discriminate].
    - apply elem_of_app. by right. }
  split; [exact Htags|].
  destruct (Intent.route_method meta) as [method|] eqn:Em; [|exact Hroute].
  destruct Hroute as (Hm & _ & i & Hi & _ & Htag & _).
  split; [exact Hm|]. split; [|by exists i].
  unfold RankingHeuristics._is_route_chunk. cbn [route_method truthy].
  by rewrite (http_method_truthy method Hm).
Qed.

End ChunkFieldFacts.

(** X10. [build_chunks] emits the chunks of a file in the order of their
    start lines: no chunk starts before a chunk that precedes it in the
    list, for any symbols (also nested or unsorted) and token limits. *)
Theorem X10_chunks_in_line_order :
  ∀ (sha256_hex : string → string) (relative_to : string → string → string)
    (self : ChunkBuilder.t) (repo_path file_path language file_hash content : string)
    (symbols : list SymbolBlock.t),
    StronglySorted OrderSpec.chunk_starts_before
      (Chunker.build_chunks sha256_hex relative_to self repo_path file_path language
         file_hash content symbols).
Proof. exact OrderFacts.build_chunks_ordered. Qed.

(** X11. The derived fields of every chunk that [build_chunks] emits fit
    together: the description is not empty; every keyword is a normalized
    term; structural terms and symbol terms have no duplicates and every
    structural term is also a symbol term; the intent tags come from the
    eleven fixed tags; a chunk with a route method has an upper-case HTTP
    method, carries the tag of its route intent and counts as a route chunk
    for the ranking heuristics, and a chunk without one has no route
    intent, path or resource. *)
Theorem X11_chunk_fields_coherent :
  ∀ (sha256_hex : string → string) (relative_to : string → string → string)
    (self : ChunkBuilder.t) (repo_path file_path language file_hash content : string)
    (symbols : list SymbolBlock.t),
    Forall ChunkFieldSpec.chunk_ok
      (Chunker.build_chunks sha256_hex relative_to self repo_path file_path language
         file_hash content symbols).
Proof.
  intros. unfold Chunker.build_chunks. apply Forall_map, Forall_forall.
  intros draft _. apply ChunkFieldFacts.chunk_of_draft_ok.
Qed.

(** X12. With a token ceiling that is not negative, [build_chunks]
    returns no chunk exactly for the empty content: every file with at
    least one character yields at least one chunk, whatever the parser
    found, and the empty file yields none. *)
Theorem X12_only_empty_file_yields_nothing :
  ∀ (sha256_hex : string → string) (relative_to : string → string → string)
    (self : ChunkBuilder.t) (repo_path file_path language file_hash content : string)
    (symbols : list SymbolBlock.t),
    0 <= ChunkBuilder.max_tokens self →
    bool_decide (Chunker.build_chunks sha256_hex relative_to self repo_path file_path
                   language file_hash content symbols = [])
    = bool_decide (content = EmptyString).
Proof.
  intros. apply bool_decide_ext. by apply OrderFacts.build_chunks_nil.
Qed.

(** A file of one blank line under the default limits. *)
Lemma X12_witness_blank_line :
  0 <= ChunkBuilder.max_tokens ChunkBuilder.default
  ∧ bool_decide (Chunker.build_chunks Fixtures.ident Fixtures.demo_relative_to
                   ChunkBuilder.default "/tmp/repo" "/tmp/repo/a.py" "python" "h"
                   PyStr.nl [] = [])
    = bool_decide (PyStr.nl = EmptyString).
Proof.
  split; [vm_compute; discriminate|].
  apply (X12_only_empty_file_yields_nothing Fixtures.ident Fixtures.demo_relative_to
           ChunkBuilder.default "/tmp/repo" "/tmp/repo/a.py" "python" "h" PyStr.nl []).
  vm_compute. discriminate.
Defined.


(** * What the rerankers keep *)

Module RerankFacts.
Import PyList RerankSpec RankSpec.

Section Local.
Variable sigmoid : Q → option Q.
Variable fmt3 : Q → string.
Variable predict : string → list QueryMatch → option (list Q * Z).

Lemma blend_all_outcome (target : list QueryMatch) (scores : list Q) :
  match LocalReranker.blend_all sigmoid fmt3 target scores with
  | Ok blended =>
      length scores = length target
      ∧ Forall (fun x => is_Some (sigmoid x)) scores
      ∧ map core blended = map core target
  | Raise e => loop_failure sigmoid target scores e
  end.
Proof.
  unfold loop_failure. revert scores.
  induction target as [|m target IH]; intros [|x scores]; cbn.
  - done.
  - right. split; [by eexists|]. split; [done|constructor].
  - right. split; [by eexists|]. split; [done|constructor].
  - destruct (sigmoid x) as [v|] eqn:Ex.
    + specialize (IH scores).
      destruct (LocalReranker.blend_all sigmoid fmt3 target scores) as [r|e].
      * destruct IH as (Hlen & Hall & Hcore). split; [by rewrite Hlen|].
        split; [constructor; [by rewrite Ex|done]|]. cbn. by rewrite Hcore.
      * destruct IH as [[He Hex]|(Hmsg & Hlen & Hall)].
        -- left. split; [done|]. by apply Exists_cons_tl.
        -- right. split; [done|]. split; [lia|]. constructor; [by rewrite Ex|done].
    + left. split; [done|]. by apply Exists_cons_hd.
Qed.

Lemma rerank_outcome (lr : LocalReranker.t) (q : string) (l : list QueryMatch) :
  match LocalReranker.rerank sigmoid fmt3 predict lr q l with
  | Ok (l', used, latency) =>
      reranked (LocalReranker.max_candidates lr) l l' used
      ∧ bool_decide (is_Some latency) = used
  | Raise e =>
      ∃ scores latency,
        predict q (take (LocalReranker.max_candidates lr) l) = Some (scores, latency)
        ∧ loop_failure sigmoid (take (LocalReranker.max_candidates lr) l) scores e
  end.
Proof.
  unfold LocalReranker.rerank, reranked.
  set (mc := LocalReranker.max_candidates lr).
  destruct (negb (LocalReranker.enabled lr) || (length l <=? 1)%nat); [done|].
  destruct (predict q (take mc l)) as [[scores latency]|]; [|done].
  pose proof (blend_all_outcome (take mc l) scores) as Hloop.
  destruct (LocalReranker.blend_all sigmoid fmt3 (take mc l) scores) as [blended|e].
  - destruct Hloop as (Hlen & _ & Hcore). split; [|done].
    set (w := sort_by LocalReranker.score_ge blended).
    assert (Hw : length w = length (take mc l)).
    { unfold w. rewrite SortFacts.sort_by_length.
      rewrite <- (length_map core blended), Hcore. apply length_map. }
    assert (Hsorted : StronglySorted outranks w).
    { apply SortFacts.sort_by_sorted.
      - apply RankFacts.score_ge_true.
      - apply RankFacts.score_ge_false.
      - apply RankFacts.outranks_trans. }
    rewrite length_take in Hw.
    split; [|split].
    + rewrite map_app. unfold w. rewrite SortFacts.sort_by_perm, Hcore.
      by rewrite <- map_app, take_drop.
    + destruct (decide (mc ≤ length l)%nat) as [Hle|Hgt].
      * rewrite drop_app_length'; [done|lia].
      * rewrite (drop_ge l) by lia. rewrite app_nil_r. apply drop_ge. lia.
    + destruct (decide (mc ≤ length l)%nat) as [Hle|Hgt].
      * rewrite take_app_length'; [done|lia].
      * rewrite (drop_ge l) by lia. rewrite app_nil_r, take_ge by lia. done.
  - by exists scores, latency.
Qed.

End Local.
End RerankFacts.

(** X13. [LocalReranker.rerank] never loses or invents a candidate.  When
    it returns, the result holds the same matches as the input up to
    order, score and explanation; the matches behind the first
    [max_candidates] are untouched; the window in front is sorted by
    descending score when the reranker ran, and the whole list is the
    input when it did not (disabled, at most one match, or a prediction
    that failed); a latency is reported exactly when it ran.  It raises
    only in the loop over the scores that the model returned: the
    [OverflowError] of [_sigmoid] on a score paired with a candidate, or,
    when none of these overflows, the [ValueError] of [zip] on a number of
    scores different from the number of candidates. *)
Theorem X13_local_rerank_keeps_candidates :
  ∀ (sigmoid : Q → option Q) (fmt3 : Q → string)
    (predict : string → list QueryMatch → option (list Q * Z))
    (self : LocalReranker.t) (query : string) (matches : list QueryMatch),
    match LocalReranker.rerank sigmoid fmt3 predict self query matches with
    | Ok (reranked, used, latency) =>
        RerankSpec.reranked (LocalReranker.max_candidates self) matches reranked used
        ∧ bool_decide (is_Some latency) = used
    | Raise e =>
        ∃ scores latency,
          predict query (take (LocalReranker.max_candidates self) matches)
          = Some (scores, latency)
          ∧ RerankSpec.loop_failure sigmoid
              (take (LocalReranker.max_candidates self) matches) scores e
    end.
Proof. exact RerankFacts.rerank_outcome. Qed.

(** A score of -710 makes [math.exp] overflow: the rerank of two
    candidates raises, and so does the query of an engine whose local
    reranker gets such scores. *)
Example rerank_overflow :
  LocalReranker.rerank Fixtures.squash_709 Fixtures.show Fixtures.cold_predict
    (LocalReranker.init true 10) "where is scoring done"
    (take 2 Fixtures.twelve_candidates)
  = Raise (OverflowError "math range error").
Proof. vm_compute. reflexivity. Qed.

Example query_overflow :
  QueryEngine.query Fixtures.ident Fixtures.obj_text Fixtures.show Fixtures.show
    Fixtures.squash_709 Fixtures.cold_predict Fixtures.render (fun _ => Ok [1%Q; 0%Q]) 7
    Fixtures.local_engine (Fixtures.md_of Fixtures.three_chunks)
    (Fixtures.store_of
       (zip_with Fixtures.point_for Fixtures.three_chunks [0.6; 0.61; 0.5]%Q))
    "/tmp/repo" "where is scoring done" 3
  = (Raise (OverflowError "math range error"), []).
Proof. vm_compute. reflexivity. Qed.

(** The exceptions of the rewriter and of the embedding propagate. *)
Example query_embedding_fails :
  QueryEngine.query Fixtures.ident Fixtures.obj_text Fixtures.show Fixtures.show
    Fixtures.squash Fixtures.flat_predict Fixtures.render
    (fun _ => Raise (RuntimeError "model not available")) 7
    Fixtures.plain_engine (Fixtures.md_of Fixtures.three_chunks) (Fixtures.store_of [])
    "/tmp/repo" "where is scoring done" 3
  = (Raise (RuntimeError "model not available"), []).
Proof. reflexivity. Qed.

Module GeminiRunFacts.
Import PyStr PyNum GeminiReranker RerankSpec.

Lemma payload_selection_ok (payload : gmap string pyobj) (candidates : list QueryMatch) :
  match _selection_from_payload payload candidates with
  | Ok sel => names_candidate sel candidates
  | Raise e => caught e = true
  end.
Proof.
  unfold _selection_from_payload, getitem.
  destruct (payload !! "file") as [file|]; [|reflexivity].
  destruct (payload !! "line") as [line|]; [|reflexivity].
  destruct (payload !! "reason") as [reason|]; [|reflexivity].
  destruct (as_str file) as [f|]; [|reflexivity].
  destruct (negb (nonempty (strip f))); [reflexivity|].
  destruct (as_int line) as [l|]; [|reflexivity].
  destruct (l <=? 0); [reflexivity|].
  destruct (as_str reason) as [r|]; [|reflexivity].
  destruct (negb (nonempty (strip r))); [reflexivity|].
  destruct (List.find (in_range f l) candidates) as [cand|] eqn:Efind.
  - apply find_some in Efind as [Hin Hr].
    apply GeminiFacts.in_range_spec in Hr as [Hfile Hrange].
    exists cand. split; [by apply list_elem_of_In|]. split; [reflexivity|by right].
  - destruct (filter _ candidates) as [|first others] eqn:Efilter; [reflexivity|].
    destruct (GeminiFacts.max_by_score_spec first others) as [Hin _].
    rewrite <- Efilter in Hin. apply list_elem_of_filter in Hin as [_ Hin].
    exists (max_by_score first others). split; [exact Hin|]. split; [reflexivity|by left].
Qed.

Lemma names_best (best : QueryMatch) (rest : list QueryMatch) (reason : string) :
  names_candidate (vector_selection best reason) (best :: rest).
Proof. exists best. split; [left|]. split; [reflexivity|by left]. Qed.

Lemma names_candidate_take (sel : QuerySelection.t) (n : nat) (ms : list QueryMatch) :
  names_candidate sel (take n ms) → names_candidate sel ms.
Proof.
  intros (m & Hm & H). exists m. split; [|exact H].
  rewrite <- (take_drop n ms). apply elem_of_app. by left.
Qed.

Section Decide.
Variable fmt3 fmt2 : Q → string.
Variable build : string → list QueryMatch → string.

Lemma decide_outcome (self : t) (c : client) (query : string) (ms : list QueryMatch) :
  match decide fmt3 fmt2 build self c query ms with
  | (Ok None, log) => ms = [] ∧ log = []
  | (Ok (Some d), log) => decision_sound self ms d log
  | (Raise e, log) => client_raised c e ∧ (length log ≤ 2)%nat
  end.
Proof.
  unfold decide. destruct ms as [|best rest]; [done|].
  destruct (Qle_bool (threshold self) (vector_score best)).
  { split; [apply names_best|]. unfold completions. cbn.
    destruct (enable_rewrite self); repeat split; lia. }
  set (candidates := take (max_candidates self) (best :: rest)).
  assert (Hafter : ∀ (rq : option string) (lat : Z) (q' : string) (log : list llm_call),
            (length log ≤ 1)%nat → completions log = 0%nat →
            (enable_rewrite self = false → log = []) →
            match
              match
                match complete_json c (build q' candidates) (model_name self) with
                | Raise e => (Raise e, lat)
                | Ok (payload, rerank_latency_ms) =>
                    match _selection_from_payload payload candidates with
                    | Raise e => (Raise e, lat + rerank_latency_ms)
                    | Ok sel => (Ok (sel, lat + rerank_latency_ms), lat + rerank_latency_ms)
                    end
                end
              with
              | (Raise e, total) =>
                  if caught e then
                    (Ok (Some {| selection :=
                                   vector_selection best
                                     ("Gemini rerank failed (" +:+ exn_message e
                                      +:+ "); falling back to top vector candidate with score "
                                      +:+ fmt3 (vector_score best) +:+ ".");
                                 used_gemini := false;
                                 gemini_model := Some (model_name self);
                                 gemini_latency_ms := nonzero total;
                                 rewritten_query := rq |}),
                     log ++ [CompleteJson (build q' candidates) (model_name self)])
                  else (Raise e, log ++ [CompleteJson (build q' candidates) (model_name self)])
              | (Ok (sel, total), _) =>
                  (Ok (Some {| selection := sel;
                               used_gemini := true;
                               gemini_model := Some (model_name self);
                               gemini_latency_ms := Some total;
                               rewritten_query := rq |}),
                   log ++ [CompleteJson (build q' candidates) (model_name self)])
              end
            with
            | (Ok None, log') => False
            | (Ok (Some d), log') => decision_sound self (best :: rest) d log'
            | (Raise e, log') => client_raised c e ∧ (length log' ≤ 2)%nat
            end).
  { intros rq lat q' log Hlen Hcomp Hoff.
    assert (Hlog : completions (log ++ [CompleteJson (build q' candidates) (model_name self)])
                   = 1%nat ∧
                   (length (log ++ [CompleteJson (build q' candidates) (model_name self)]) ≤ 2)%nat).
    { unfold completions in *. rewrite filter_app, !length_app, Hcomp.
      rewrite filter_cons_True by reflexivity. rewrite filter_nil. cbn. split; lia. }
    destruct Hlog as [Hone Htwo].
    assert (Hrw : if enable_rewrite self then True
                  else length (log ++ [CompleteJson (build q' candidates) (model_name self)])
                       = completions (log ++ [CompleteJson (build q' candidates) (model_name self)])).
    { destruct (enable_rewrite self); [done|]. rewrite (Hoff eq_refl). reflexivity. }
    destruct (complete_json c (build q' candidates) (model_name self))
      as [[payload lat']|e] eqn:Ec.
    - pose proof (payload_selection_ok payload candidates) as Hsel.
      destruct (_selection_from_payload payload candidates) as [sel|e].
      + split; [by apply (names_candidate_take _ (max_candidates self))|].
        split; [lia|]. split; [exact Htwo|]. split; [exact Hrw|].
        cbn. split; [exact Hone|]. split; [reflexivity|by eexists].
      + rewrite Hsel. split; [apply names_best|].
        split; [lia|]. split; [exact Htwo|]. split; [exact Hrw|]. exact I.
    - destruct (caught e).
      + split; [apply names_best|].
        split; [lia|]. split; [exact Htwo|]. split; [exact Hrw|]. exact I.
      + split; [|exact Htwo]. exists (build q' candidates), (model_name self). by right. }
  destruct (enable_rewrite self) eqn:Erw.
  - destruct (rewrite_query c (_REWRITE_PROMPT query) (model_name self))
      as [[rewritten lat0]|e] eqn:Er.
    + specialize (Hafter (Some rewritten) lat0 rewritten
                    [RewriteQuery (_REWRITE_PROMPT query) (model_name self)]).
      cbv beta iota zeta in *.
      destruct (complete_json c _ _) as [[payload lat']|e'];
        [destruct (_selection_from_payload payload candidates)|];
        try destruct (caught _); apply Hafter; cbn; done || lia.
    + destruct e; try (split; [exists (_REWRITE_PROMPT query), (model_name self); by left|cbn; lia]).
      specialize (Hafter None 0 query
                    [RewriteQuery (_REWRITE_PROMPT query) (model_name self)]).
      cbv beta iota zeta in *.
      destruct (complete_json c _ _) as [[payload lat']|e'];
        [destruct (_selection_from_payload payload candidates)|];
        try destruct (caught _); apply Hafter; cbn; done || lia.
  - specialize (Hafter None 0 query []).
    cbv beta iota zeta in *.
    destruct (complete_json c _ _) as [[payload lat']|e'];
      [destruct (_selection_from_payload payload candidates)|];
      try destruct (caught _); apply Hafter; cbn; done || lia.
Qed.

End Decide.
End GeminiRunFacts.

(** X14. [GeminiReranker.decide] is safe for every client and every
    answer.  It returns no decision only for an empty list of matches.  A
    decision always selects the file of one of the matches, at that
    match's start line or at a line inside its range; at most one JSON
    completion and at most two LLM calls are made, only completions when
    the rewrite is off; and a decision marked as the LLM's made exactly
    one completion and reports the model and a latency.  An exception
    leaves [decide] only if a call on the client raised it. *)
Theorem X14_decide_outcomes :
  ∀ (fmt3 fmt2 : Q → string) (build : string → list QueryMatch → string)
    (self : GeminiReranker.t) (c : GeminiReranker.client) (query : string)
    (matches : list QueryMatch),
    match GeminiReranker.decide fmt3 fmt2 build self c query matches with
    | (Ok None, log) => matches = [] ∧ log = []
    | (Ok (Some d), log) => RerankSpec.decision_sound self matches d log
    | (Raise e, log) => RerankSpec.client_raised c e ∧ (length log ≤ 2)%nat
    end.
Proof. exact GeminiRunFacts.decide_outcome. Qed.


(** * The outcome of a query *)

Module QueryFacts.
Import PyList ScoreSpec RerankSpec QuerySpec.





Section Engine.
Variable sha1_hex : string → string.
Variable py_str : pyobj → string.
Variable fmt3 fmt2 : Q → string.
Variable sigmoid : Q → option Q.
Variable predict : string → list QueryMatch → option (list Q * Z).
Variable build : string → list QueryMatch → string.




End Engine.
End QueryFacts.




(** * The collections of the vector store *)

Module StoreFacts.
Import VectorStore StoreSpec StateExn.

Section Store.
Variable sha1_hex uuid5 : string → string.

Lemma same_elsewhere_refl (name : string) (s : t) : same_elsewhere name s s.
Proof. by repeat split. Qed.

Lemma same_elsewhere_insert (name : string) (s s0 : t) (cs : gmap string collection)
    (col : collection) :
  api s0 = api s → engine s0 = engine s →
  delete name cs = delete name (collections s) →
  same_elsewhere name s (with_collections s0 (<[name := col]> cs)).
Proof.
  intros Ha He H. split; [|by split]. cbn. by rewrite delete_insert_eq.
Qed.

Lemma ensure_collection_ensured (repo_path : string) (vector_size : Z) (recreate : bool)
    (s : t) :
  ∃ recreated s',
    ensure_collection sha1_hex repo_path vector_size recreate s = (Ok recreated, s')
    ∧ ensured (collection_name sha1_hex repo_path) vector_size recreate s recreated s'.
Proof.
  unfold ensure_collection, ensured, collection_exists, _collection_vector_size.
  set (name := collection_name sha1_hex repo_path).
  destruct (collections s !! name) as [col|] eqn:Ecol.
  - rewrite bool_decide_eq_true_2 by eauto. destruct recreate; cbn.
    + eexists _, _. split; [reflexivity|]. split.
      * apply same_elsewhere_insert; [done..|]. cbn. by rewrite delete_delete_eq.
      * cbn. by rewrite lookup_insert_eq.
    + rewrite Ecol. cbn. destruct (vec_size col) as [d|] eqn:Ed.
      * destruct (d =? vector_size) eqn:E; cbn.
        -- apply Z.eqb_eq in E as ->. eexists _, _. split; [reflexivity|].
           split; [apply same_elsewhere_refl|]. split; [done|]. split; [done|].
           exists col. split; [done|]. by left.
        -- eexists _, _. split; [reflexivity|]. split.
           ++ apply same_elsewhere_insert; [done..|]. cbn. by rewrite delete_delete_eq.
           ++ cbn. by rewrite lookup_insert_eq.
      * eexists _, _. split; [reflexivity|].
        split; [apply same_elsewhere_refl|]. split; [done|]. split; [done|].
        exists col. split; [done|]. by right.
  - rewrite bool_decide_eq_false_2 by (intros [x Hx]; discriminate).
    rewrite andb_false_r. cbn.
    eexists _, _. split; [reflexivity|]. split.
    + by apply same_elsewhere_insert.
    + cbn. by rewrite lookup_insert_eq.
Qed.

Lemma foldl_insert_lookup {A : Type} (pts : list (string * A)) (m : gmap string A)
    (id : string) :
  let m' := foldl (fun m p => <[fst p := snd p]> m) m pts in
  (id ∈ map fst pts → ∃ p, p ∈ pts ∧ fst p = id ∧ m' !! id = Some (snd p))
  ∧ (id ∉ map fst pts → m' !! id = m !! id).
Proof.
  induction pts as [|p pts IH] using rev_ind; cbn zeta.
  - split; [intros H; by apply elem_of_nil in H|done].
  - rewrite foldl_app. cbn [foldl]. rewrite map_app. cbn [map].
    destruct IH as [IHin IHout].
    destruct (decide (fst p = id)) as [<-|Hne].
    + split; [|intros H; exfalso; apply H, elem_of_app; right; left].
      intros _. exists p. split; [apply elem_of_app; right; left|].
      split; [done|]. by rewrite lookup_insert_eq.
    + rewrite lookup_insert_ne by done. split.
      * intros H. apply elem_of_app in H as [H|H].
        -- destruct (IHin H) as (q & Hq & Hid & Hl). exists q.
           split; [apply elem_of_app; by left|done].
        -- apply list_elem_of_singleton in H. congruence.
      * intros H. apply IHout. intros Hin. apply H, elem_of_app. by left.
Qed.

Lemma zip_points_fst (chunks : list CodeChunk) (rows : list (list Q)) :
  length chunks = length rows →
  map fst (zip_with (fun c v => (point_id uuid5 (chunk_id c),
                                 {| p_vector := v; p_payload := payload_of c |}))
             chunks rows)
  = map (fun c => point_id uuid5 (chunk_id c)) chunks.
Proof.
  revert rows. induction chunks as [|c chunks IH]; intros [|v rows] Hlen; try done.
  cbn. f_equal. apply IH. cbn in Hlen. lia.
Qed.

Lemma zip_points_elem (chunks : list CodeChunk) (rows : list (list Q)) (p : string * point) :
  p ∈ zip_with (fun c v => (point_id uuid5 (chunk_id c),
                            {| p_vector := v; p_payload := payload_of c |})) chunks rows →
  ∃ c v, c ∈ chunks
         ∧ p = (point_id uuid5 (chunk_id c), {| p_vector := v; p_payload := payload_of c |}).
Proof.
  intros H. apply elem_of_zip_with in H as (c & v & -> & Hc & _). by exists c, v.
Qed.

Lemma ensured_lookup (name : string) (d : Z) (rc : bool) (s : t) (r : bool) (s1 : t) :
  ensured name d rc s r s1 → is_Some (collections s1 !! name).
Proof.
  intros [_ H]. destruct r; [by rewrite H|].
  destruct H as (-> & _ & col & Hcol & _). by rewrite Hcol.
Qed.

Lemma upsert_chunks_upserted (repo_path : string) (chunks : list CodeChunk) (vs : vectors)
    (s : t) :
  upserted sha1_hex uuid5 repo_path chunks vs s
    (upsert_chunks sha1_hex uuid5 repo_path chunks vs s).
Proof.
  unfold upserted, upsert_chunks. destruct chunks as [|c0 chunks0]; [reflexivity|].
  remember (c0 :: chunks0) as chunks eqn:Ech. clear Ech c0 chunks0.
  destruct (ensure_collection_ensured repo_path (v_dim vs) false s) as (r & s1 & He & Hens).
  exists r, s1. split; [exact He|]. unfold bind. rewrite He.
  set (name := collection_name sha1_hex repo_path) in *.
  destruct (decide (length chunks = length (v_rows vs))) as [Hlen|Hlen].
  - rewrite bool_decide_eq_true_2 by done.
    rewrite (proj2 (Nat.eqb_eq _ _) Hlen). cbn [negb modify fst snd].
    destruct (ensured_lookup _ _ _ _ _ _ Hens) as [col Hcol].
    unfold upsert_points. rewrite Hcol.
    set (pts := zip_with _ chunks (v_rows vs)).
    set (m' := foldl _ (points col) pts).
    assert (Hpoints : points_of (with_collections s1
                         (<[name := {| vec_size := vec_size col; points := m' |}]>
                            (collections s1))) name = m').
    { unfold points_of. cbn. by rewrite lookup_insert_eq. }
    rewrite Hpoints. split; [done|]. split; [|split].
    + destruct Hens as [(Hdel & Hapi & Heng) _].
      split; [|by split]. cbn. by rewrite delete_insert_eq.
    + apply Forall_forall. intros c Hc.
      destruct (foldl_insert_lookup pts (points col) (point_id uuid5 (chunk_id c))) as [Hin _].
      destruct Hin as (p & Hp & Hid & Hl).
      { unfold pts. rewrite zip_points_fst by done.
        apply list_elem_of_fmap. by exists c. }
      apply zip_points_elem in Hp as (c' & v & Hc' & ->). cbn in Hid, Hl.
      by exists c', v.
    + unfold ids_kept, points_of. rewrite Hcol. intros id p Hp.
      destruct (decide (id ∈ map (fun c => point_id uuid5 (chunk_id c)) chunks)) as [Hin|Hout];
        [by left|right].
      destruct (foldl_insert_lookup pts (points col) id) as [_ Hkeep].
      unfold m'. rewrite Hkeep; [done|]. unfold pts. by rewrite zip_points_fst.
  - rewrite bool_decide_eq_false_2 by done.
    rewrite (proj2 (Nat.eqb_neq _ _) Hlen). cbn. split; [done|]. by eexists.
Qed.

Lemma update_points_removed (name : string) (f : gmap string point → gmap string point)
    (s : t) :
  (∀ m, f m ⊆ m) →
  let s' := if negb (collection_exists s name) then s else update_points name f s in
  only_removed name s s' ∧ points_of s' name = f (points_of s name).
Proof.
  intros Hf. cbv zeta. unfold collection_exists at 1 2. unfold update_points.
  destruct (collections s !! name) as [col|] eqn:Ecol.
  - rewrite bool_decide_eq_true_2 by eauto. cbn [negb].
    set (s' := with_collections s _).
    assert (Hl : collections s' !! name = Some {| vec_size := vec_size col;
                                                   points := f (points col) |}).
    { unfold s'. cbn. by rewrite lookup_insert_eq. }
    unfold only_removed, same_elsewhere, collection_exists, _collection_vector_size, points_of.
    rewrite Hl, Ecol. cbn [mbind option_bind vec_size points].
    rewrite !bool_decide_eq_true_2 by eauto.
    split; [|done]. split; [|split; [done|split; [done|apply Hf]]].
    split; [|by split]. unfold s'. cbn. by rewrite delete_insert_eq.
  - rewrite bool_decide_eq_false_2 by (intros [x Hx]; discriminate). cbn [negb].
    split.
    + split; [apply same_elsewhere_refl|]. by repeat split.
    + unfold points_of. rewrite Ecol. symmetry. apply map_eq. intros i.
      rewrite lookup_empty. apply eq_None_not_Some. intros [x Hx].
      pose proof (Hf ∅) as Hsub. rewrite map_subseteq_spec in Hsub.
      apply Hsub in Hx. by rewrite lookup_empty in Hx.
Qed.

Lemma foldl_delete_subseteq (ids : list string) (m : gmap string point) :
  foldl (fun m i => delete (point_id uuid5 i) m) m ids ⊆ m.
Proof.
  revert m. induction ids as [|i ids IH]; intros m; cbn; [done|].
  etrans; [apply IH|apply delete_subseteq].
Qed.

Lemma foldl_delete_lookup (ids : list string) (m : gmap string point) (id : string) :
  foldl (fun m i => delete (point_id uuid5 i) m) m ids !! id
  = if bool_decide (id ∈ map (point_id uuid5) ids) then None else m !! id.
Proof.
  revert m. induction ids as [|i ids IH]; intros m; cbn [foldl map].
  - rewrite bool_decide_eq_false_2; [done|]. intros H. by apply elem_of_nil in H.
  - rewrite IH. destruct (decide (id ∈ map (point_id uuid5) ids)) as [Hin|Hout].
    + rewrite !bool_decide_eq_true_2; [done|by right|done].
    + rewrite (bool_decide_eq_false_2 _ Hout).
      destruct (decide (id = point_id uuid5 i)) as [->|Hne].
      * rewrite lookup_delete_eq. rewrite bool_decide_eq_true_2; [done|left].
      * rewrite lookup_delete_ne by done. rewrite bool_decide_eq_false_2; [done|].
        intros H. apply elem_of_cons in H as [H|H]; done.
Qed.

Lemma delete_chunk_ids_outcome (repo_path : string) (chunk_ids : list string) (s : t) :
  ∃ s', delete_chunk_ids sha1_hex uuid5 repo_path chunk_ids s = (Ok tt, s')
        ∧ only_removed (collection_name sha1_hex repo_path) s s'
        ∧ Forall (fun i => points_of s' (collection_name sha1_hex repo_path)
                           !! point_id uuid5 i = None) chunk_ids
        ∧ ids_kept (map (point_id uuid5) chunk_ids)
            (points_of s (collection_name sha1_hex repo_path))
            (points_of s' (collection_name sha1_hex repo_path)).
Proof.
  unfold delete_chunk_ids. set (name := collection_name sha1_hex repo_path).
  destruct chunk_ids as [|i0 ids0].
  - exists s. split; [done|]. split; [|split; [constructor|]].
    + split; [apply same_elsewhere_refl|]. by repeat split.
    + intros id p Hp. by right.
  - remember (i0 :: ids0) as ids eqn:Eids. clear Eids i0 ids0.
    eexists. split; [reflexivity|].
    destruct (update_points_removed name
                (fun m => foldl (fun m i => delete (point_id uuid5 i) m) m ids) s
                (foldl_delete_subseteq ids)) as [Hrem Hpts].
    cbv zeta in Hrem, Hpts. split; [exact Hrem|]. rewrite Hpts. split.
    + apply Forall_forall. intros i Hi. rewrite foldl_delete_lookup.
      rewrite bool_decide_eq_true_2; [done|]. apply list_elem_of_fmap. by exists i.
    + intros id p Hp. rewrite foldl_delete_lookup.
      destruct (decide (id ∈ map (point_id uuid5) ids)) as [Hin|Hout]; [by left|right].
      by rewrite bool_decide_eq_false_2.
Qed.

Lemma delete_file_chunks_outcome (repo_path file_path : string) (s : t) :
  ∃ s', delete_file_chunks sha1_hex repo_path file_path s = (Ok tt, s')
        ∧ only_removed (collection_name sha1_hex repo_path) s s'
        ∧ file_absent file_path (points_of s' (collection_name sha1_hex repo_path))
        ∧ others_kept file_path (points_of s (collection_name sha1_hex repo_path))
            (points_of s' (collection_name sha1_hex repo_path)).
Proof.
  unfold delete_file_chunks. set (name := collection_name sha1_hex repo_path).
  eexists. split; [reflexivity|].
  destruct (update_points_removed name
              (filter (fun kv : string * point => payload_file_is file_path (snd kv) = false)) s)
    as [Hrem Hpts]; [intros m; apply map_filter_subseteq|].
  cbv zeta in Hrem, Hpts. split; [exact Hrem|]. rewrite Hpts. split.
  - intros id p Hp. by apply map_lookup_filter_Some in Hp as [_ Hp].
  - intros id p Hp. destruct (payload_file_is file_path p) eqn:E; [by left|right].
    by apply map_lookup_filter_Some.
Qed.

End Store.
End StoreFacts.

(** X16. On a backend that behaves as a map of collections,
    [ensure_collection] leaves every other collection alone.  When it
    returns [True] the collection of the
    repository is a fresh, empty collection of the requested vector size
    (it was missing, or [recreate] was set, or it reported another size:
    its points are gone); when it returns [False] the store is unchanged,
    [recreate] was not set, and the existing collection has the requested
    size or reports no size. *)
Theorem X16_ensure_collection_outcome :
  ∀ (sha1_hex : string → string) (repo_path : string) (vector_size : Z)
    (recreate : bool) (s : VectorStore.t),
    ∃ recreated s',
      VectorStore.ensure_collection sha1_hex repo_path vector_size recreate s
      = (Ok recreated, s')
      ∧ StoreSpec.ensured (VectorStore.collection_name sha1_hex repo_path) vector_size
          recreate s recreated s'.
Proof. exact StoreFacts.ensure_collection_ensured. Qed.

(** X17. On a backend that stores what it is given, [upsert_chunks] with
    an empty batch does nothing.  With a non-empty batch it first ensures
    the collection for the dimension of the vectors (which replaces a
    collection of another size by an empty one).  If the batch and the
    vectors have the same length, every chunk of the batch is then stored
    under its point id with the payload of a chunk of the batch that has
    that point id, the points with other ids are as the ensure step left
    them, and no other collection changes.  If the lengths differ, a
    [ValueError] is raised after the ensure step and nothing is stored. *)
Theorem X17_upsert_chunks_outcome :
  ∀ (sha1_hex uuid5 : string → string) (repo_path : string) (chunks : list CodeChunk)
    (vs : VectorStore.vectors) (s : VectorStore.t),
    StoreSpec.upserted sha1_hex uuid5 repo_path chunks vs s
      (VectorStore.upsert_chunks sha1_hex uuid5 repo_path chunks vs s).
Proof. exact StoreFacts.upsert_chunks_upserted. Qed.

(** X18. On a backend that stores what it is given, the two deletions of
    the vector store only remove points of the repository's collection:
    no other collection changes, the collection exists afterwards exactly
    if it did, with the same vector size, and no point is added.  After
    [delete_chunk_ids] no point has the id of one of the chunk ids and
    every point with another id is unchanged; after [delete_file_chunks]
    no point has the file path in its payload and every point of another
    file is unchanged. *)
Theorem X18_deletions_only_remove :
  ∀ (sha1_hex uuid5 : string → string) (repo_path file_path : string)
    (chunk_ids : list string) (s : VectorStore.t),
    let name := VectorStore.collection_name sha1_hex repo_path in
    (∃ s', VectorStore.delete_chunk_ids sha1_hex uuid5 repo_path chunk_ids s = (Ok tt, s')
           ∧ StoreSpec.only_removed name s s'
           ∧ Forall (fun i => StoreSpec.points_of s' name !! VectorStore.point_id uuid5 i = None)
               chunk_ids
           ∧ StoreSpec.ids_kept (map (VectorStore.point_id uuid5) chunk_ids)
               (StoreSpec.points_of s name) (StoreSpec.points_of s' name))
    ∧ (∃ s', VectorStore.delete_file_chunks sha1_hex repo_path file_path s = (Ok tt, s')
             ∧ StoreSpec.only_removed name s s'
             ∧ StoreSpec.file_absent file_path (StoreSpec.points_of s' name)
             ∧ StoreSpec.others_kept file_path (StoreSpec.points_of s name)
                 (StoreSpec.points_of s' name)).
Proof.
  intros. split.
  - apply StoreFacts.delete_chunk_ids_outcome.
  - apply StoreFacts.delete_file_chunks_outcome.
Qed.

Module PayloadFacts.
Import VectorStore.

Lemma payload_chunk_id (c : CodeChunk) : payload_of c !! "chunk_id" = Some (JStr (chunk_id c)).
Proof. vm_compute. reflexivity. Qed.

Lemma payload_file_path (c : CodeChunk) :
  payload_of c !! "file_path" = Some (JStr (file_path c)).
Proof. vm_compute. reflexivity. Qed.

End PayloadFacts.

(** X19. The payload that [upsert_chunks] writes for a chunk reads back:
    a search hit built from a point with this payload carries the chunk's
    [chunk_id] (whatever the point id and [str] are), and the file filter
    of [delete_file_chunks] selects the point exactly for the chunk's
    [file_path]. *)
Theorem X19_payload_reads_back :
  ∀ (py_str : pyobj → string) (c : CodeChunk) (id : string) (score : Q) (v : list Q)
    (file_path : string),
    VectorStore.hit_chunk_id
      (VectorStore.hit_of_point py_str
         {| VectorStore.sp_id := id; VectorStore.sp_score := score;
            VectorStore.sp_payload := Some (VectorStore.payload_of c) |})
    = chunk_id c
    ∧ VectorStore.payload_file_is file_path
        {| VectorStore.p_vector := v; VectorStore.p_payload := VectorStore.payload_of c |}
      = bool_decide (Models.file_path c = file_path).
Proof.
  intros. split.
  - unfold VectorStore.hit_of_point.
    change (default ∅ (VectorStore.sp_payload _)) with (VectorStore.payload_of c).
    cbv zeta. rewrite PayloadFacts.payload_chunk_id. reflexivity.
  - unfold VectorStore.payload_file_is. cbn [VectorStore.p_payload].
    rewrite PayloadFacts.payload_file_path. reflexivity.
Qed.


(** * The tables of the metadata store *)

Module TableFacts.
Import MetadataStore TableSpec.

Lemma file_hashes_lookup (s : t) (repo file : string) :
  get_file_hashes s repo !! file = fst <$> files s !! (repo, file).
Proof.
  unfold get_file_hashes.
  set (g := fun kv : string * string * (string * string) =>
              if bool_decide (fst (fst kv) = repo)
              then Some (snd (fst kv), fst (snd kv)) else None).
  assert (Hin : ∀ h, (file, h) ∈ omap g (map_to_list (files s))
                     ↔ ∃ stamp, files s !! (repo, file) = Some (h, stamp)).
  { intros h. rewrite list_elem_of_omap. split.
    - intros ([[r f] [h' stamp]] & Hkv & Hg). unfold g in Hg. cbn in Hg.
      destruct (bool_decide (r = repo)) eqn:E; [|discriminate].
      apply bool_decide_eq_true in E as ->. injection Hg as -> ->.
      apply elem_of_map_to_list in Hkv. by exists stamp.
    - intros [stamp Hl]. exists ((repo, file), (h, stamp)).
      split; [by apply elem_of_map_to_list|]. unfold g. cbn.
      by rewrite bool_decide_eq_true_2. }
  destruct (files s !! (repo, file)) as [[h stamp]|] eqn:El; cbn.
  - apply elem_of_list_to_map_1'.
    + intros y Hy. apply Hin in Hy as [stamp' Hy]. congruence.
    + apply Hin. by exists stamp.
  - apply not_elem_of_list_to_map_1. intros Hf.
    apply list_elem_of_fmap in Hf as ([f h] & -> & Hf). cbn in *.
    apply Hin in Hf as [stamp Hf]. congruence.
Qed.

Lemma file_hashes_upsert (repo file content_hash now : string) (s : t) (repo' : string) :
  get_file_hashes (upsert_file_hash repo file content_hash now s) repo'
  = if bool_decide (repo' = repo) then <[file := content_hash]> (get_file_hashes s repo)
    else get_file_hashes s repo'.
Proof.
  apply map_eq. intros f. rewrite file_hashes_lookup. unfold upsert_file_hash. cbn [files with_files].
  destruct (decide (repo' = repo)) as [->|Hne].
  - rewrite bool_decide_eq_true_2 by done.
    destruct (decide (f = file)) as [->|Hf].
    + by rewrite !lookup_insert_eq.
    + rewrite !lookup_insert_ne by congruence. by rewrite file_hashes_lookup.
  - rewrite bool_decide_eq_false_2 by done.
    rewrite lookup_insert_ne by congruence. by rewrite file_hashes_lookup.
Qed.

Lemma foldl_delete_files (repo : string) (paths : list string)
    (m : gmap (string * string) (string * string)) (key : string * string) :
  foldl (fun m p => delete (repo, p) m) m paths !! key
  = if bool_decide (fst key = repo ∧ snd key ∈ paths) then None else m !! key.
Proof.
  revert m. induction paths as [|p paths IH]; intros m; cbn [foldl].
  - rewrite bool_decide_eq_false_2; [done|]. intros [_ H]. by apply elem_of_nil in H.
  - rewrite IH. destruct key as [r f]. cbn [fst snd].
    destruct (decide (r = repo ∧ f ∈ paths)) as [Hin|Hout].
    + rewrite !bool_decide_eq_true_2; [done| |done]. destruct Hin. split; [done|by right].
    + rewrite (bool_decide_eq_false_2 _ Hout).
      destruct (decide ((r, f) = (repo, p))) as [[= -> ->]|Hne].
      * rewrite lookup_delete_eq. rewrite bool_decide_eq_true_2; [done|]. split; [done|left].
      * rewrite lookup_delete_ne by done. rewrite bool_decide_eq_false_2; [done|].
        intros [-> H]. apply elem_of_cons in H as [->|H]; [done|]. by apply Hout.
Qed.

Lemma file_hashes_delete (repo : string) (paths : list string) (s : t)
    (repo' file : string) :
  get_file_hashes (delete_files repo paths s) repo' !! file
  = if bool_decide (repo' = repo ∧ file ∈ paths) then None
    else get_file_hashes s repo' !! file.
Proof.
  rewrite !file_hashes_lookup. unfold delete_files.
  destruct paths as [|p paths].
  - rewrite bool_decide_eq_false_2; [done|]. intros [_ H]. by apply elem_of_nil in H.
  - cbn [files with_files]. rewrite foldl_delete_files. cbn [fst snd].
    by destruct (bool_decide _).
Qed.

Lemma file_hashes_clear (repo : string) (s : t) (repo' : string) :
  get_file_hashes (clear_repo repo s) repo'
  = if bool_decide (repo' = repo) then ∅ else get_file_hashes s repo'.
Proof.
  apply map_eq. intros f. rewrite file_hashes_lookup. unfold clear_repo. cbn [files].
  rewrite map_lookup_filter.
  destruct (decide (repo' = repo)) as [->|Hne].
  - rewrite bool_decide_eq_true_2 by done. rewrite lookup_empty.
    destruct (files s !! (repo, f)) as [x|]; [|done]. cbn.
    rewrite option_guard_False; [done|]. cbn. by intros H.
  - rewrite bool_decide_eq_false_2 by done. rewrite file_hashes_lookup.
    destruct (files s !! (repo', f)) as [x|]; [|done]. cbn.
    by rewrite option_guard_True.
Qed.

End TableFacts.

(** X20. The dictionary of [get_file_hashes] is the view of the table
    [files] on one repository, and the writes keep it so: it maps a file
    to the hash of the row of the repository and the file, if there is
    one; after [upsert_file_hash] it is the former dictionary with the
    file set to the new hash; after [delete_files] exactly the listed
    files are gone; after [clear_repo] it is empty; and none of the three
    changes the dictionary of another repository. *)
Theorem X20_file_hashes_view :
  ∀ (s : MetadataStore.t) (repo file content_hash now repo' file' : string)
    (paths : list string),
    MetadataStore.get_file_hashes s repo !! file
    = fst <$> MetadataStore.files s !! (repo, file)
    ∧ MetadataStore.get_file_hashes
        (MetadataStore.upsert_file_hash repo file content_hash now s) repo'
      = (if bool_decide (repo' = repo)
         then <[file := content_hash]> (MetadataStore.get_file_hashes s repo)
         else MetadataStore.get_file_hashes s repo')
    ∧ MetadataStore.get_file_hashes (MetadataStore.delete_files repo paths s) repo' !! file'
      = (if bool_decide (repo' = repo ∧ file' ∈ paths) then None
         else MetadataStore.get_file_hashes s repo' !! file')
    ∧ MetadataStore.get_file_hashes (MetadataStore.clear_repo repo s) repo'
      = (if bool_decide (repo' = repo) then ∅ else MetadataStore.get_file_hashes s repo').
Proof.
  intros. split; [apply TableFacts.file_hashes_lookup|].
  split; [apply TableFacts.file_hashes_upsert|].
  split; [apply TableFacts.file_hashes_delete|apply TableFacts.file_hashes_clear].
Qed.

Module ChunkTableFacts.
Import MetadataStore TableSpec.

Lemma chunk_ids_elem (s : t) (repo file id : string) :
  id ∈ get_chunk_ids_for_file s repo file
  ↔ ∃ c, chunks s !! id = Some c ∧ in_file repo file c = true.
Proof.
  unfold get_chunk_ids_for_file. rewrite list_elem_of_fmap. split.
  - intros ([id' c] & -> & H). apply list_elem_of_filter in H as [Hc H].
    apply elem_of_map_to_list in H. by exists c.
  - intros (c & Hl & Hc). exists (id, c). split; [done|].
    apply list_elem_of_filter. split; [done|]. by apply elem_of_map_to_list.
Qed.

Lemma chunk_ids_NoDup (s : t) (repo file : string) :
  NoDup (get_chunk_ids_for_file s repo file).
Proof.
  unfold get_chunk_ids_for_file.
  eapply sublist_NoDup; [apply (NoDup_fst_map_to_list (chunks s))|].
  apply fmap_sublist, sublist_filter.
Qed.

Lemma foldl_delete_chunks (ids : list string) (m : gmap string CodeChunk) (id : string) :
  foldl (fun m i => delete i m) m ids !! id
  = if bool_decide (id ∈ ids) then None else m !! id.
Proof.
  revert m. induction ids as [|i ids IH]; intros m; cbn [foldl].
  - rewrite bool_decide_eq_false_2; [done|]. intros H. by apply elem_of_nil in H.
  - rewrite IH. destruct (decide (id ∈ ids)) as [Hin|Hout].
    + rewrite !bool_decide_eq_true_2; [done|by right|done].
    + rewrite (bool_decide_eq_false_2 _ Hout).
      destruct (decide (id = i)) as [->|Hne].
      * rewrite lookup_delete_eq. rewrite bool_decide_eq_true_2; [done|left].
      * rewrite lookup_delete_ne by done. rewrite bool_decide_eq_false_2; [done|].
        intros H. apply elem_of_cons in H as [H|H]; done.
Qed.

Lemma with_chunks_same (s : t) (m : gmap string CodeChunk) :
  m = chunks s → with_chunks s m = s.
Proof. intros ->. by destruct s. Qed.

Lemma delete_by_ids_is_by_file (s : t) (repo file : string) :
  delete_chunks_by_ids (get_chunk_ids_for_file s repo file) s
  = delete_chunks_by_file repo file s.
Proof.
  unfold delete_chunks_by_ids, delete_chunks_by_file.
  assert (Heq : foldl (fun m i => delete i m) (chunks s) (get_chunk_ids_for_file s repo file)
                = filter (fun kv => in_file repo file (snd kv) = false) (chunks s)).
  { apply map_eq. intros id. rewrite foldl_delete_chunks, map_lookup_filter.
    destruct (chunks s !! id) as [c|] eqn:El; cbn.
    - destruct (in_file repo file c) eqn:Ec.
      + rewrite bool_decide_eq_true_2 by (apply chunk_ids_elem; by exists c).
        by rewrite option_guard_False.
      + rewrite bool_decide_eq_false_2.
        * by rewrite option_guard_True.
        * intros H. apply chunk_ids_elem in H as (c' & Hc' & Hin). congruence.
    - by destruct (bool_decide _). }
  destruct (get_chunk_ids_for_file s repo file) as [|i ids] eqn:E.
  - cbn in Heq. rewrite <- Heq. symmetry. by apply with_chunks_same.
  - by rewrite Heq.
Qed.

Lemma chunk_ids_after_delete (s : t) (repo file : string) :
  get_chunk_ids_for_file (delete_chunks_by_file repo file s) repo file = [].
Proof.
  destruct (get_chunk_ids_for_file _ repo file) as [|id ids] eqn:E; [done|]. exfalso.
  assert (Hid : id ∈ get_chunk_ids_for_file (delete_chunks_by_file repo file s) repo file)
    by (rewrite E; left).
  apply chunk_ids_elem in Hid as (c & Hl & Hc).
  unfold delete_chunks_by_file in Hl. cbn in Hl.
  apply map_lookup_filter_Some in Hl as [_ Hl]. cbn in Hl. congruence.
Qed.

Lemma foldl_insert_union (cs : list CodeChunk) (m m' : gmap string CodeChunk) :
  foldl (fun m c => <[chunk_id c := c]> m) (m' ∪ m) cs
  = foldl (fun m c => <[chunk_id c := c]> m) m' cs ∪ m.
Proof.
  revert m'. induction cs as [|c cs IH]; intros m'; cbn [foldl]; [done|].
  by rewrite insert_union_l, IH.
Qed.

Lemma by_id_lookup (cs : list CodeChunk) (m : gmap string CodeChunk) (id : string) :
  is_Some (foldl (fun m c => <[chunk_id c := c]> m) m cs !! id)
  ↔ id ∈ map chunk_id cs ∨ is_Some (m !! id).
Proof.
  revert m. induction cs as [|c cs IH]; intros m; cbn [foldl map].
  - split; [by right|]. intros [H|H]; [by apply elem_of_nil in H|done].
  - rewrite IH, elem_of_cons. destruct (decide (id = chunk_id c)) as [->|Hne].
    + rewrite lookup_insert_eq. split; [intros _; by left; left|by right].
    + rewrite lookup_insert_ne by done. split; intros [H|H]; try (by right).
      * left. by right.
      * destruct H as [H|H]; [done|by left].
Qed.

Lemma upsert_then_get (cs : list CodeChunk) (s : t) :
  get_chunks_by_ids (upsert_chunks cs s) (map chunk_id cs) = by_id cs.
Proof.
  unfold get_chunks_by_ids, upsert_chunks, by_id. destruct cs as [|c0 cs0]; [done|].
  remember (c0 :: cs0) as cs eqn:Ecs.
  assert (Hne : map chunk_id cs ≠ []) by (by rewrite Ecs).
  destruct (map chunk_id cs) as [|i ids] eqn:Eids; [done|]. rewrite <- Eids. clear Ecs Hne.
  cbn [chunks with_chunks].
  rewrite <- (left_id_L ∅ (∪) (chunks s)) at 1. rewrite foldl_insert_union.
  apply map_eq. intros id. rewrite map_lookup_filter.
  pose proof (by_id_lookup cs ∅ id) as Hdom. rewrite lookup_empty in Hdom.
  destruct (foldl _ ∅ cs !! id) as [c|] eqn:El.
  - rewrite (lookup_union_Some_l _ _ _ c El). cbn.
    rewrite option_guard_True; [done|]. cbn. destruct Hdom as [Hdom _].
    destruct Hdom as [H|H]; [by eexists|done|by destruct H].
  - destruct ((foldl _ ∅ cs ∪ chunks s) !! id) as [c|]; cbn; [|done].
    rewrite option_guard_False; [done|]. cbn. intros Hin.
    destruct Hdom as [_ Hdom]. destruct Hdom as [c' Hc']; [by left|done].
Qed.

Lemma upsert_chunks_kept (cs : list CodeChunk) (s : t) :
  rows_kept (map chunk_id cs) s (upsert_chunks cs s)
  ∧ only_chunks s (upsert_chunks cs s).
Proof.
  unfold upsert_chunks. destruct cs as [|c0 cs0].
  { split; [|done]. intros id c Hc. by right. }
  remember (c0 :: cs0) as cs eqn:Ecs. clear Ecs c0 cs0.
  split; [|done]. intros id c Hc. cbn [chunks with_chunks].
  destruct (decide (id ∈ map chunk_id cs)) as [Hin|Hout]; [by left|right].
  rewrite <- Hc. clear Hc. generalize (chunks s).
  induction cs as [|c1 cs IH]; intros m; cbn [foldl]; [done|].
  cbn [map] in Hout. apply not_elem_of_cons in Hout as [Hne Hout].
  rewrite (IH Hout). by apply lookup_insert_ne.
Qed.

End ChunkTableFacts.

(** X21. The two ways in which the indexer removes the chunks of a file
    from the metadata store agree: deleting the ids that
    [get_chunk_ids_for_file] returns with [delete_chunks_by_ids] gives the
    same store as [delete_chunks_by_file].  The ids returned have no
    duplicates, and after the deletion none is returned for the file. *)
Theorem X21_chunk_deletions_agree :
  ∀ (s : MetadataStore.t) (repo file : string),
    MetadataStore.delete_chunks_by_ids (MetadataStore.get_chunk_ids_for_file s repo file) s
    = MetadataStore.delete_chunks_by_file repo file s
    ∧ NoDup (MetadataStore.get_chunk_ids_for_file s repo file)
    ∧ MetadataStore.get_chunk_ids_for_file
        (MetadataStore.delete_chunks_by_file repo file s) repo file = [].
Proof.
  intros. split; [apply ChunkTableFacts.delete_by_ids_is_by_file|].
  split; [apply ChunkTableFacts.chunk_ids_NoDup|apply ChunkTableFacts.chunk_ids_after_delete].
Qed.

(** X22. With a row of the table [chunks] taken as the chunk it holds:
    asking [get_chunks_by_ids] for the ids of a batch just written with
    [upsert_chunks] returns the batch keyed by id, the later of two chunks
    with one id winning, whatever the store held before.  The write leaves
    the rows with other ids and the other tables as they were. *)
Theorem X22_upserted_chunks_read_back :
  ∀ (cs : list CodeChunk) (s : MetadataStore.t),
    MetadataStore.get_chunks_by_ids (MetadataStore.upsert_chunks cs s) (map chunk_id cs)
    = TableSpec.by_id cs
    ∧ TableSpec.rows_kept (map chunk_id cs) s (MetadataStore.upsert_chunks cs s)
    ∧ TableSpec.only_chunks s (MetadataStore.upsert_chunks cs s).
Proof.
  intros. split; [apply ChunkTableFacts.upsert_then_get|].
  apply ChunkTableFacts.upsert_chunks_kept.
Qed.


(** * A run of the indexer *)

Module RunFacts.
Import PyList StateExn Indexer RunSpec.

Lemma bind_Ok {S A B : Type} (m : M S A) (k : A → M S B) (s s' : S) (b : B) :
  bind m k s = (Ok b, s') → ∃ a s1, m s = (Ok a, s1) ∧ k a s1 = (Ok b, s').
Proof.
  unfold bind. destruct (m s) as [[a|e] s1]; [|discriminate].
  intros H. by exists a, s1.
Qed.

Lemma file_hashes_same (s1 s2 : MetadataStore.t) (repo : string) :
  MetadataStore.files s1 = MetadataStore.files s2 →
  MetadataStore.get_file_hashes s1 repo = MetadataStore.get_file_hashes s2 repo.
Proof. unfold MetadataStore.get_file_hashes. by intros ->. Qed.

Lemma on_vs_md {A : Type} (m : M VectorStore.t A) (w w' : world) (r : result A) :
  on_vs m w = (r, w') → md w' = md w.
Proof. unfold on_vs. destruct (m (vs w)) as [r' v]. by intros [= _ <-]. Qed.

Lemma on_md_run (f : MetadataStore.t → MetadataStore.t) (w w' : world) (r : result unit) :
  on_md f w = (r, w') → md w' = f (md w).
Proof. unfold on_md, modify. by intros [= _ <-]. Qed.

Lemma for_each_files (l : list string) (body : string → M world unit) (w w' : world)
    (r : result unit) :
  (∀ x w1 w2 r1, body x w1 = (r1, w2) →
     MetadataStore.files (md w2) = MetadataStore.files (md w1)) →
  for_each l body w = (r, w') →
  MetadataStore.files (md w') = MetadataStore.files (md w).
Proof.
  intros Hbody. revert w. induction l as [|x l IH]; intros w; cbn [for_each].
  - unfold ret. by intros [= _ <-].
  - unfold bind. destruct (body x w) as [[[]|e] w1] eqn:E.
    + intros H. rewrite (IH _ H). by eapply Hbody.
    + intros [= _ <-]. by eapply Hbody.
Qed.

Section Run.
Variable sha256_hex sha1_hex uuid5 : string → string.
Variable relative_to : string → string → string.
Variable clock : nat → string.
Variable elapsed_ms : Z.
Variable parse_symbols : string → string → string → list SymbolBlock.t.
Variable chunk_builder : ChunkBuilder.t.
Variable dimension : Z.
Variable embed_documents :
  gmap string (Z * list Q * string) → list string →
  VectorStore.vectors * gmap string (Z * list Q * string).
Variable summarize_chunks :
  option (gmap string (string * string * string) → list CodeChunk →
          gmap string string * gmap string (string * string * string)).

Lemma scan_step_spec (fs : file_system) (repo : string) (rebuild : bool)
    (known : gmap string string) (acc : gset string * list changed_file) (f : string) :
  let out := scan_step sha256_hex relative_to fs repo rebuild known acc f in
  snd out = snd acc ++ option_list (changed_of sha256_hex relative_to fs repo rebuild known f)
  ∧ ∀ path, path ∈ fst out
            ↔ path ∈ fst acc
              ∨ (is_Some (Repo.detect_language f) ∧ relative_to f repo = path).
Proof.
  unfold scan_step, changed_of. destruct acc as [paths changed]. cbn [fst snd].
  destruct (Repo.detect_language f) as [language|].
  - assert (Hpaths : ∀ path, path ∈ paths ∪ {[relative_to f repo]}
                             ↔ path ∈ paths ∨ (is_Some (Some language)
                                               ∧ relative_to f repo = path)).
    { intros path. rewrite elem_of_union, elem_of_singleton. split.
      - intros [H|H]; [by left|right]. split; [by eexists|done].
      - intros [H|[_ H]]; [by left|by right]. }
    destruct (read_text fs f) as [text|].
    + destruct (negb rebuild && _); cbn [fst snd option_list].
      * split; [by rewrite app_nil_r|exact Hpaths].
      * split; [done|exact Hpaths].
    + cbn [fst snd option_list]. split; [by rewrite app_nil_r|exact Hpaths].
  - cbn [fst snd option_list]. split; [by rewrite app_nil_r|].
    intros path. split; [by left|]. intros [H|[[x Hx] _]]; done.
Qed.

Lemma scan_fold_spec (fs : file_system) (repo : string) (rebuild : bool)
    (known : gmap string string) (files : list string)
    (acc : gset string * list changed_file) :
  let out := foldl (scan_step sha256_hex relative_to fs repo rebuild known) acc files in
  snd out = snd acc ++ omap (changed_of sha256_hex relative_to fs repo rebuild known) files
  ∧ ∀ path, path ∈ fst out
            ↔ path ∈ fst acc
              ∨ ∃ file, file ∈ files ∧ is_Some (Repo.detect_language file)
                        ∧ relative_to file repo = path.
Proof.
  revert acc. induction files as [|f files IH]; intros acc; cbn [foldl].
  - split; [by rewrite app_nil_r|]. intros path. split; [by left|].
    intros [H|(file & Hin & _)]; [done|by apply elem_of_nil in Hin].
  - destruct (IH (scan_step sha256_hex relative_to fs repo rebuild known acc f))
      as [Hsnd Hfst].
    destruct (scan_step_spec fs repo rebuild known acc f) as [Hs1 Hf1].
    split.
    + rewrite Hsnd, Hs1, <- app_assoc. f_equal.
      unfold omap. cbn [list_omap option_list].
      by destruct (changed_of _ _ _ _ _ _ f).
    + intros path. rewrite Hfst, Hf1. split.
      * intros [[H|[Hl Hp]]|(file & Hin & Hl & Hp)].
        -- by left.
        -- right. exists f. split; [left|done].
        -- right. exists file. split; [by right|done].
      * intros [H|(file & Hin & Hl & Hp)]; [by left; left|].
        apply elem_of_cons in Hin as [->|Hin].
        -- left. by right.
        -- right. by exists file.
Qed.

Lemma scan_spec (fs : file_system) (repo : string) (rebuild : bool)
    (known : gmap string string) :
  let out := scan sha256_hex relative_to fs repo rebuild known in
  snd out = omap (changed_of sha256_hex relative_to fs repo rebuild known)
              (walk_source_files fs)
  ∧ ∀ path, path ∈ fst out
            ↔ ∃ file, file ∈ walk_source_files fs ∧ is_Some (Repo.detect_language file)
                      ∧ relative_to file repo = path.
Proof.
  destruct (scan_fold_spec fs repo rebuild known (walk_source_files fs) (∅, []))
    as [Hsnd Hfst].
  split; [exact Hsnd|]. intros path. unfold scan. rewrite Hfst. cbn [fst].
  split; [intros [H|H]; [by apply elem_of_empty in H|done]|by right].
Qed.

Lemma changed_of_fields (fs : file_system) (repo : string) (rebuild : bool)
    (known : gmap string string) (file : string) (f : changed_file) :
  changed_of sha256_hex relative_to fs repo rebuild known file = Some f →
  ∃ language text,
    Repo.detect_language file = Some language ∧ read_text fs file = Some text
    ∧ f = (file, relative_to file repo, language, text, sha256_hex text).
Proof.
  unfold changed_of. destruct (Repo.detect_language file) as [language|]; [|done].
  destruct (read_text fs file) as [text|]; [|done].
  destruct (negb rebuild && _); [done|]. intros [= <-]. by exists language, text.
Qed.

Lemma changed_of_None (fs : file_system) (repo : string) (rebuild : bool)
    (known : gmap string string) (file language text : string) :
  Repo.detect_language file = Some language → read_text fs file = Some text →
  changed_of sha256_hex relative_to fs repo rebuild known file = None →
  known !! relative_to file repo = Some (sha256_hex text).
Proof.
  unfold changed_of. intros -> ->.
  destruct (bool_decide _) eqn:E; [|by rewrite andb_false_r].
  intros _. by apply bool_decide_eq_true in E.
Qed.

Lemma index_file_md (repo_path repo_key : string) (f : changed_file) (w w' : world) (n : Z) :
  index_file sha256_hex sha1_hex uuid5 relative_to clock parse_symbols chunk_builder
    embed_documents summarize_chunks repo_path repo_key f w = (Ok n, w') →
  0 <= n
  ∧ ∃ s stamp, MetadataStore.files s = MetadataStore.files (md w)
               ∧ md w' = MetadataStore.upsert_file_hash repo_key (relative_path_of f)
                           (file_hash_of f) stamp s.
Proof.
  destruct f as [[[[file_path relative_path] language] text] file_hash].
  unfold index_file, relative_path_of, file_hash_of. cbn [fst snd].
  intros H.
  apply bind_Ok in H as (old & w1 & H1 & H). unfold gets in H1. injection H1 as <- <-.
  apply bind_Ok in H as ([] & w2 & H2 & H).
  assert (Hf2 : MetadataStore.files (md w2) = MetadataStore.files (md w)).
  { match type of H2 with (if ?c then _ else _) _ = _ => destruct c end.
    - unfold ret in H2. by injection H2 as <-.
    - apply bind_Ok in H2 as ([] & w1' & Ha & Hb).
      apply on_vs_md in Ha. apply on_md_run in Hb. rewrite Hb, Ha.
      unfold MetadataStore.delete_chunks_by_ids. by destruct (MetadataStore.get_chunk_ids_for_file _ _ _). }
  apply bind_Ok in H as (n' & w3 & H3 & H).
  assert (Hf3 : MetadataStore.files (md w3) = MetadataStore.files (md w2) ∧ 0 <= n').
  { match type of H3 with (if ?c then _ else _) _ = _ => destruct c end.
    - unfold ret in H3. injection H3 as <- <-. done.
    - apply bind_Ok in H3 as (cs & wa & Ha & H3).
      assert (Hfa : MetadataStore.files (md wa) = MetadataStore.files (md w2)).
      { unfold run_summarizer in Ha. destruct summarize_chunks as [summarize|].
        - destruct (summarize _ _) as [summaries table]. by injection Ha as _ <-.
        - unfold ret in Ha. by injection Ha as _ <-. }
      apply bind_Ok in H3 as (vectors & wb & Hb & H3).
      assert (Hfb : MetadataStore.files (md wb) = MetadataStore.files (md wa)).
      { unfold run_embedding in Hb. destruct (embed_documents _ _) as [vecs table].
        by injection Hb as _ <-. }
      apply bind_Ok in H3 as ([] & wc & Hc & H3). apply on_vs_md in Hc.
      apply bind_Ok in H3 as ([] & wd & Hd & H3). apply on_md_run in Hd.
      unfold ret in H3. injection H3 as <- <-. split; [|lia].
      rewrite Hd, Hc, <- Hfa, <- Hfb.
      unfold MetadataStore.upsert_chunks. by destruct cs. }
  destruct Hf3 as [Hf3 Hn].
  apply bind_Ok in H as (stamp & w4 & H4 & H). unfold now in H4. injection H4 as <- <-.
  apply bind_Ok in H as ([] & w5 & H5 & H). apply on_md_run in H5. cbn [md] in H5.
  unfold ret in H. injection H as <- <-. split; [exact Hn|].
  exists (md w3), (clock (tick w3)). split; [by rewrite Hf3, Hf2|exact H5].
Qed.

Lemma index_files_md (repo_path repo_key : string) (cs : list changed_file)
    (a b : Z) (w w' : world) (counts : Z * Z) :
  index_files sha256_hex sha1_hex uuid5 relative_to clock parse_symbols chunk_builder
    embed_documents summarize_chunks repo_path repo_key cs a b w = (Ok counts, w') →
  fst counts = a + Z.of_nat (length cs) ∧ b <= snd counts
  ∧ ∀ repo, MetadataStore.get_file_hashes (md w') repo
            = if bool_decide (repo = repo_key)
              then foldl (fun m f => <[relative_path_of f := file_hash_of f]> m)
                     (MetadataStore.get_file_hashes (md w) repo_key) cs
              else MetadataStore.get_file_hashes (md w) repo.
Proof.
  revert a b w. induction cs as [|f cs IH]; intros a b w; cbn [index_files].
  - unfold ret. intros [= <- <-]. cbn [fst snd length foldl].
    split; [lia|]. split; [lia|]. intros repo.
    destruct (decide (repo = repo_key)) as [->|Hne].
    + by rewrite bool_decide_eq_true_2.
    + by rewrite bool_decide_eq_false_2.
  - intros H. apply bind_Ok in H as (n & w1 & H1 & H).
    apply index_file_md in H1 as (Hn & s & stamp & Hs & Hmd).
    apply IH in H as (Ha & Hb & Hh).
    split; [rewrite Ha; cbn [length]; lia|]. split; [lia|].
    intros repo. rewrite Hh, Hmd. cbn [foldl].
    rewrite !TableFacts.file_hashes_upsert.
    rewrite (bool_decide_eq_true_2 (repo_key = repo_key)) by done.
    rewrite (file_hashes_same s (md w) repo_key Hs).
    destruct (bool_decide (repo = repo_key)); [done|].
    by apply file_hashes_same.
Qed.

Lemma delete_missing_md (repo_key : string) (deleted : list string) (w w' : world)
    (r : result unit) :
  delete_missing sha1_hex repo_key deleted w = (r, w') →
  ∃ s, MetadataStore.files s = MetadataStore.files (md w)
       ∧ md w' = MetadataStore.delete_files repo_key deleted s.
Proof.
  unfold delete_missing, bind.
  destruct (for_each deleted _ w) as [[[]|e] w1] eqn:E.
  - intros H. apply on_md_run in H. exists (md w1). split; [|exact H].
    eapply for_each_files; [|exact E].
    intros x wa wb ra Hbody. cbn beta in Hbody. unfold bind in Hbody.
    destruct (on_vs _ wa) as [[[]|e] wc] eqn:Ec.
    + apply on_vs_md in Ec. apply on_md_run in Hbody. by rewrite Hbody, Ec.
    + injection Hbody as _ <-. apply on_vs_md in Ec. by rewrite Ec.
  - exfalso. clear -E. revert w E. induction deleted as [|x l IH]; intros w; cbn [for_each].
    + done.
    + unfold bind, on_vs, on_md, modify, VectorStore.delete_file_chunks. cbn. apply IH.
Qed.

Lemma prepare_md (repo_key : string) (rebuild : bool) (w w' : world) (r : result bool) :
  prepare sha1_hex repo_key dimension rebuild w = (r, w') →
  ∀ other, other ≠ repo_key →
    MetadataStore.get_file_hashes (md w') other = MetadataStore.get_file_hashes (md w) other.
Proof.
  unfold prepare. intros H other Hne.
  assert (Hclear : MetadataStore.get_file_hashes (MetadataStore.clear_repo repo_key (md w)) other
                   = MetadataStore.get_file_hashes (md w) other).
  { rewrite TableFacts.file_hashes_clear. by rewrite bool_decide_eq_false_2. }
  destruct rebuild.
  - unfold bind in H. unfold on_md at 1, modify in H.
    destruct (on_vs _ _) as [[b|e] w1] eqn:E; apply on_vs_md in E; cbn [md] in E.
    + unfold ret in H. injection H as _ <-. by rewrite E.
    + injection H as _ <-. by rewrite E.
  - unfold bind in H. destruct (on_vs _ w) as [[b|e] w1] eqn:E; apply on_vs_md in E.
    + destruct b.
      * unfold on_md, modify, ret in H. injection H as _ <-. cbn [md]. by rewrite E.
      * unfold ret in H. injection H as _ <-. by rewrite E.
    + injection H as _ <-. by rewrite E.
Qed.

Lemma omap_length_le {A B : Type} (g : A → option B) (l : list A) :
  (length (omap g l) <= length l)%nat.
Proof.
  induction l as [|x l IH]; [done|]. unfold omap in *. cbn [list_omap length].
  destruct (g x); cbn [length]; lia.
Qed.

Lemma NoDup_map_inj {A B : Type} (g : A → B) (l : list A) (x y : A) :
  NoDup (map g l) → x ∈ l → y ∈ l → g x = g y → x = y.
Proof.
  induction l as [|a l IH]; intros Hnd Hx Hy Hg; [by apply elem_of_nil in Hx|].
  cbn [map] in Hnd. apply NoDup_cons in Hnd as [Hout Hnd].
  apply elem_of_cons in Hx as [->|Hx]; apply elem_of_cons in Hy as [->|Hy].
  - done.
  - exfalso. apply Hout. rewrite Hg. apply list_elem_of_fmap. by exists y.
  - exfalso. apply Hout. rewrite <- Hg. apply list_elem_of_fmap. by exists x.
  - by apply IH.
Qed.

Lemma index_up_to_date (fs : file_system) (repo : string) (rebuild : bool)
    (w w' : world) (stats : IndexStats) :
  distinct_paths relative_to fs repo →
  index sha256_hex sha1_hex uuid5 relative_to clock elapsed_ms parse_symbols chunk_builder
    dimension embed_documents summarize_chunks fs repo rebuild w = (Ok stats, w') →
  up_to_date sha256_hex relative_to fs repo w w' stats.
Proof.
  intros Hdistinct H. unfold index in H.
  apply bind_Ok in H as (rb & w1 & Hprep & H).
  pose proof (prepare_md repo rebuild w w1 (Ok rb) Hprep) as Hother1.
  apply bind_Ok in H as (known & w1' & Hk & H). unfold gets in Hk. injection Hk as <- <-.
  set (known := MetadataStore.get_file_hashes (md w1) repo) in *.
  destruct (scan_spec fs repo rb known) as [Hchanged Hpaths].
  destruct (scan sha256_hex relative_to fs repo rb known) as [current_paths changed].
  cbn [fst snd] in Hchanged, Hpaths.
  set (deleted := PyStr.sorted (filter (fun p => p ∉ current_paths) (elements (dom known)))) in *.
  apply bind_Ok in H as ([] & w2 & Hdel & H).
  apply delete_missing_md in Hdel as (s2 & Hs2 & Hmd2).
  apply bind_Ok in H as (counts & w3 & Hidx & H).
  apply index_files_md in Hidx as (Hcount & Hchunks & Hhashes).
  apply bind_Ok in H as (stamp & w4 & Hnow & H). unfold now in Hnow. injection Hnow as <- <-.
  apply bind_Ok in H as ([] & w5 & Hset & H). apply on_md_run in Hset. cbn [md] in Hset.
  unfold ret in H. injection H as <- <-.
  assert (Hfinal : ∀ other, MetadataStore.get_file_hashes (md w5) other
                            = MetadataStore.get_file_hashes (md w3) other).
  { intros other. apply file_hashes_same. by rewrite Hset. }
  assert (Hdeleted : ∀ p, p ∈ deleted ↔ is_Some (known !! p) ∧ p ∉ current_paths).
  { intros p. unfold deleted. rewrite SortFacts.elem_of_sorted, list_elem_of_filter.
    rewrite elem_of_elements, elem_of_dom. tauto. }
  assert (Hbase : ∀ p, MetadataStore.get_file_hashes (md w2) repo !! p
                       = if bool_decide (p ∈ deleted) then None else known !! p).
  { intros p. rewrite Hmd2, TableFacts.file_hashes_delete.
    rewrite (file_hashes_same s2 (md w1) repo Hs2). fold known.
    destruct (decide (p ∈ deleted)) as [Hin|Hout].
    - by rewrite !bool_decide_eq_true_2.
    - rewrite !bool_decide_eq_false_2; [done|done|]. by intros [_ ?]. }
  assert (Hlook : ∀ p,
            let final := MetadataStore.get_file_hashes (md w5) repo in
            (p ∈ map relative_path_of changed →
               ∃ f, f ∈ changed ∧ relative_path_of f = p ∧ final !! p = Some (file_hash_of f))
            ∧ (p ∉ map relative_path_of changed →
                 final !! p = if bool_decide (p ∈ deleted) then None else known !! p)).
  { intros p. cbn zeta. rewrite Hfinal, Hhashes, bool_decide_eq_true_2 by done.
    rewrite <- Hbase.
    pose proof (StoreFacts.foldl_insert_lookup
                  ((fun f => (relative_path_of f, file_hash_of f)) <$> changed)
                  (MetadataStore.get_file_hashes (md w2) repo) p) as Hl.
    cbn zeta in Hl. rewrite foldl_fmap in Hl. cbn [fst snd] in Hl.
    assert (Hkeys : map fst ((fun f => (relative_path_of f, file_hash_of f)) <$> changed)
                    = map relative_path_of changed).
    { by rewrite <- list_fmap_compose. }
    rewrite Hkeys in Hl. destruct Hl as [Hin Hout]. split; [|exact Hout].
    intros Hp. destruct (Hin Hp) as ([r h] & Hrh & Hr & Hv). cbn [fst snd] in Hr, Hv.
    apply list_elem_of_fmap in Hrh as (f & [= -> ->] & Hf). by exists f. }
  assert (Hin_changed : ∀ f, f ∈ changed →
            ∃ file language text,
              file ∈ walk_source_files fs
              ∧ Repo.detect_language file = Some language ∧ read_text fs file = Some text
              ∧ changed_of sha256_hex relative_to fs repo rb known file = Some f
              ∧ f = (file, relative_to file repo, language, text, sha256_hex text)).
  { intros f Hf. rewrite Hchanged in Hf. apply list_elem_of_omap in Hf as (file & Hfile & Hc).
    destruct (changed_of_fields fs repo rb known file f Hc) as (language & text & Hl & Ht & ->).
    by exists file, language, text. }
  split; [|split; [|split; [|split]]].
  - intros file language text Hfile Hl Ht.
    destruct (Hlook (relative_to file repo)) as [Hyes Hno].
    destruct (decide (relative_to file repo ∈ map relative_path_of changed)) as [Hin|Hout].
    + destruct (Hyes Hin) as (f & Hf & Hrel & Hv). rewrite Hv. f_equal.
      destruct (Hin_changed f Hf) as (file' & language' & text' & Hfile' & Hl' & Ht' & _ & ->).
      unfold relative_path_of in Hrel. cbn [fst snd] in Hrel.
      assert (file' = file) as ->.
      { eapply (NoDup_map_inj (fun file => relative_to file repo)); [exact Hdistinct|done..]. }
      unfold file_hash_of. cbn [snd]. congruence.
    + rewrite (Hno Hout).
      assert (Hnone : changed_of sha256_hex relative_to fs repo rb known file = None).
      { destruct (changed_of _ _ _ _ _ _ file) as [f|] eqn:Ec; [|done]. exfalso. apply Hout.
        destruct (changed_of_fields fs repo rb known file f Ec) as (l' & t' & _ & _ & ->).
        apply list_elem_of_fmap. eexists. split; [|rewrite Hchanged; apply list_elem_of_omap; by exists file].
        done. }
      pose proof (changed_of_None fs repo rb known file language text Hl Ht Hnone) as Hknown.
      rewrite bool_decide_eq_false_2; [exact Hknown|].
      intros Hd. apply Hdeleted in Hd as [_ Hd]. apply Hd, Hpaths.
      exists file. split; [done|]. split; [by eexists|done].
  - intros path Hsome.
    destruct (Hlook path) as [Hyes Hno].
    destruct (decide (path ∈ map relative_path_of changed)) as [Hin|Hout].
    + destruct (Hyes Hin) as (f & Hf & Hrel & _).
      destruct (Hin_changed f Hf) as (file & language & text & Hfile & Hl & _ & _ & ->).
      exists file. split; [done|]. split; [by eexists|exact Hrel].
    + rewrite (Hno Hout) in Hsome.
      destruct (decide (path ∈ deleted)) as [Hd|Hd].
      * rewrite bool_decide_eq_true_2 in Hsome by done. by destruct Hsome.
      * rewrite bool_decide_eq_false_2 in Hsome by done.
        apply Hpaths. destruct (decide (path ∈ current_paths)) as [Hc|Hc]; [done|].
        exfalso. apply Hd, Hdeleted. done.
  - intros other Hne. rewrite Hfinal, Hhashes, bool_decide_eq_false_2 by done.
    rewrite Hmd2. rewrite <- (Hother1 other Hne).
    apply map_eq. intros p. rewrite TableFacts.file_hashes_delete.
    rewrite bool_decide_eq_false_2 by (by intros [? _]).
    by rewrite (file_hashes_same s2 (md w1) other Hs2).
  - cbn [files_indexed files_scanned]. rewrite Hcount, Hchanged.
    pose proof (omap_length_le (changed_of sha256_hex relative_to fs repo rb known)
                  (walk_source_files fs)).
    lia.
  - cbn [chunks_indexed]. exact Hchunks.
Qed.

End Run.
End RunFacts.

(** X23. A run of [Indexer.index] that completes, with or without
    [rebuild], on a walk whose files have distinct relative paths, leaves
    the stored file hashes of the repository up to date: every readable
    source file of the walk has the hash of its current text stored, and
    every stored path is a source file of the walk.  The stored hashes of
    every other repository are untouched, the number of files indexed is
    at most the number scanned, and the number of chunks indexed is not
    negative. *)
Theorem X23_index_brings_hashes_up_to_date :
  ∀ (sha256_hex sha1_hex uuid5 : string → string)
    (relative_to : string → string → string) (clock : nat → string) (elapsed_ms : Z)
    (parse_symbols : string → string → string → list SymbolBlock.t)
    (chunk_builder : ChunkBuilder.t) (dimension : Z)
    (embed_documents :
       gmap string (Z * list Q * string) → list string →
       VectorStore.vectors * gmap string (Z * list Q * string))
    (summarize_chunks :
       option (gmap string (string * string * string) → list CodeChunk →
               gmap string string * gmap string (string * string * string)))
    (fs : Indexer.file_system) (repo : string) (rebuild : bool) (w : Indexer.world),
    RunSpec.distinct_paths relative_to fs repo →
    match Indexer.index sha256_hex sha1_hex uuid5 relative_to clock elapsed_ms parse_symbols
            chunk_builder dimension embed_documents summarize_chunks fs repo rebuild w with
    | (Ok stats, w') => RunSpec.up_to_date sha256_hex relative_to fs repo w w' stats
    | (Raise _, _) => True
    end.
Proof.
  intros sha256_hex sha1_hex uuid5 relative_to clock elapsed_ms parse_symbols chunk_builder
    dimension embed_documents summarize_chunks fs repo rebuild w Hdistinct.
  destruct (Indexer.index _ _ _ _ _ _ _ _ _ _ _ fs repo rebuild w) as [[stats|e] w'] eqn:E;
    [|exact I].
  by eapply RunFacts.index_up_to_date.
Qed.

(** The first run on the repository with one file goes through the
    theorem: it completes, and the hash of the file is stored. *)
Lemma X23_witness_first_run :
  ∃ stats w',
    Fixtures.demo_index Fixtures.world0 = (Ok stats, w')
    ∧ RunSpec.distinct_paths Fixtures.demo_relative_to Fixtures.demo_fs "/tmp/repo"
    ∧ RunSpec.up_to_date Fixtures.ident Fixtures.demo_relative_to Fixtures.demo_fs
        "/tmp/repo" Fixtures.world0 w' stats.
Proof.
  assert (Hrun : ∃ stats w', Fixtures.demo_index Fixtures.world0 = (Ok stats, w')).
  { eexists _, _. vm_compute. reflexivity. }
  destruct Hrun as (stats & w' & Hrun).
  assert (Hdistinct : RunSpec.distinct_paths Fixtures.demo_relative_to Fixtures.demo_fs
                        "/tmp/repo").
  { apply (bool_decide_eq_true_1 _). vm_compute. reflexivity. }
  pose proof (X23_index_brings_hashes_up_to_date Fixtures.ident Fixtures.ident Fixtures.ident
                Fixtures.demo_relative_to Fixtures.demo_clock 7 (fun _ _ _ => [])
                ChunkBuilder.default 2 Fixtures.demo_embed None Fixtures.demo_fs
                "/tmp/repo" false Fixtures.world0 Hdistinct) as H.
  unfold Fixtures.demo_index in Hrun. rewrite Hrun in H.
  exists stats, w'. split; [exact Hrun|]. split; [exact Hdistinct|exact H].
Defined.


(** * Cleaned text and the query rewriter *)

Module TextFacts.
Import PyStr PyText TextSpec.

Lemma chars_app (a b : string) : chars (a +:+ b) = chars a ++ chars b.
Proof.
  induction a as [|x a IH]; [done|].
  change (chars (String x (a +:+ b)) = x :: chars a ++ chars b).
  change (chars (String x (a +:+ b))) with (x :: chars (a +:+ b)). by rewrite IH.
Qed.

Lemma len_app (a b : string) : len (a +:+ b) = (len a + len b)%nat.
Proof. by rewrite !ReFacts.len_chars, chars_app, length_app. Qed.

Lemma nonempty_chars (s : string) : nonempty s = negb (PyList.null (chars s)).
Proof. by destruct s. Qed.

(** The characters of the words joined by single spaces. *)
Lemma chars_join_cons (w : list ascii) (ws : list (list ascii)) :
  chars (join " " (map str (w :: ws)))
  = match ws with
    | [] => w
    | _ => w ++ space :: chars (join " " (map str ws))
    end.
Proof.
  destruct ws as [|w' ws]; cbn [map join].
  - apply ReFacts.chars_str.
  - rewrite !chars_app, ReFacts.chars_str. done.
Qed.

Lemma split_ws_words (l cur : list ascii) :
  Forall (fun c => is_space c = false) cur →
  Forall (fun w => w ≠ [] ∧ Forall (fun c => is_space c = false) w) (split_ws_acc l cur).
Proof.
  revert cur. induction l as [|c l IH]; intros cur Hcur; cbn [split_ws_acc].
  - destruct cur as [|x cur]; [constructor|].
    constructor; [|constructor]. split.
    + intros H. apply (f_equal length) in H. rewrite length_reverse in H. done.
    + by apply Forall_reverse.
  - destruct (is_space c) eqn:Hc.
    + destruct cur as [|x cur]; [by apply IH|].
      constructor; [|by apply IH]. split.
      * intros H. apply (f_equal length) in H. rewrite length_reverse in H. done.
      * by apply Forall_reverse.
    + apply IH. by constructor.
Qed.

Lemma spaced_word (w r : list ascii) :
  Forall (fun c => is_space c = false) w → spaced (w ++ r) = spaced r.
Proof.
  induction 1 as [|c w Hc _ IH]; [done|]. cbn [app spaced]. by rewrite Hc, IH.
Qed.

Lemma head_space_word (w r : list ascii) :
  w ≠ [] → Forall (fun c => is_space c = false) w → head_space (w ++ r) = false.
Proof. intros Hne Hw. destruct w as [|c w]; [done|]. by inversion Hw. Qed.

Lemma last_space_word (w r : list ascii) :
  w ≠ [] → Forall (fun c => is_space c = false) w → head_space (reverse (r ++ w)) = false.
Proof.
  intros Hne Hw. rewrite reverse_app. apply head_space_word.
  - intros H. apply (f_equal length) in H. rewrite length_reverse in H. by destruct w.
  - by apply Forall_reverse.
Qed.

Lemma space_is_space : is_space space = true.
Proof. reflexivity. Qed.

(** Words joined by single spaces make one line. *)
Lemma words_one_line (ws : list (list ascii)) :
  Forall (fun w => w ≠ [] ∧ Forall (fun c => is_space c = false) w) ws →
  let l := chars (join " " (map str ws)) in
  spaced l = true ∧ head_space l = false ∧ head_space (reverse l) = false
  ∧ (l = [] ↔ ws = []).
Proof.
  induction 1 as [|w ws [Hne Hw] Hws IH]; [done|]. cbn zeta in *.
  rewrite chars_join_cons. destruct ws as [|w' ws].
  - split; [by rewrite <- (app_nil_r w), spaced_word|].
    split; [rewrite <- (app_nil_r w); by apply head_space_word|].
    split; [by apply (last_space_word w [])|]. done.
  - destruct IH as (Hs & Hh & Hl & Hnil).
    set (rest := chars (join " " (map str (w' :: ws)))) in *.
    assert (Hrest : rest ≠ []) by (intros H; by apply Hnil in H).
    split.
    { rewrite spaced_word by done. cbn [spaced]. rewrite space_is_space, Hh, Hs.
      by rewrite bool_decide_eq_true_2. }
    split; [by apply head_space_word|]. split.
    + rewrite reverse_app, reverse_cons.
      destruct (reverse rest) as [|x y] eqn:E.
      * apply (f_equal length) in E. rewrite length_reverse in E. by destruct rest.
      * done.
    + split; [|done]. intros H. by destruct w.
Qed.

Lemma strip_chars (s : string) : chars (strip s) = strip_by is_space (chars s).
Proof. apply ReFacts.chars_str. Qed.

Lemma squeeze_words (text : string) :
  ∃ ws, Forall (fun w => w ≠ [] ∧ Forall (fun c => is_space c = false) w) ws
        ∧ squeeze text = join " " (map str ws)
        ∧ ws = split_ws_acc (chars (strip text)) [].
Proof.
  eexists. split; [|split; [|reflexivity]].
  - apply split_ws_words. constructor.
  - reflexivity.
Qed.

Lemma squeeze_one_line (text : string) : one_line (squeeze text) = true.
Proof.
  destruct (squeeze_words text) as (ws & Hws & -> & _).
  destruct (words_one_line ws Hws) as (Hs & Hh & Hl & _). unfold one_line.
  by rewrite Hs, Hh, Hl.
Qed.

(** Parts of a spaced text are spaced. *)
Lemma spaced_app_inv (a b : list ascii) :
  spaced (a ++ b) = true → spaced a = true ∧ spaced b = true.
Proof.
  induction a as [|c a IH]; [done|]. cbn [app spaced]. intros H.
  apply andb_true_iff in H as [Hc H]. destruct (IH H) as [Ha Hb]. split; [|done].
  rewrite Ha, andb_true_r. destruct (is_space c); [|done]. cbn in *.
  apply andb_true_iff in Hc as [-> Hc]. cbn. destruct a; [done|exact Hc].
Qed.

Lemma spaced_take (n : nat) (l : list ascii) : spaced l = true → spaced (take n l) = true.
Proof. intros H. rewrite <- (take_drop n l) in H. by apply spaced_app_inv in H as [? _]. Qed.

Lemma spaced_drop (n : nat) (l : list ascii) : spaced l = true → spaced (drop n l) = true.
Proof. intros H. rewrite <- (take_drop n l) in H. by apply spaced_app_inv in H as [_ ?]. Qed.

Lemma spaced_lstrip (l : list ascii) : spaced l = true → spaced (lstrip_by is_space l) = true.
Proof.
  intros H. destruct (TokenFacts.lstrip_by_split is_space l) as (a & Ha & _).
  rewrite Ha in H. by apply spaced_app_inv in H as [_ ?].
Qed.

Lemma rstrip_by_split (l : list ascii) :
  ∃ b, l = rstrip_by is_space l ++ b ∧ Forall (fun c => is_space c = true) b.
Proof.
  unfold rstrip_by.
  destruct (TokenFacts.lstrip_by_split is_space (reverse l)) as (a & Ha & Hsp).
  exists (reverse a). split; [|by apply Forall_reverse].
  rewrite <- reverse_app, <- Ha. by rewrite reverse_involutive.
Qed.

Lemma spaced_rstrip (l : list ascii) : spaced l = true → spaced (rstrip_by is_space l) = true.
Proof.
  intros H. destruct (rstrip_by_split l) as (b & Hb & _).
  rewrite Hb in H. by apply spaced_app_inv in H as [? _].
Qed.

Lemma head_space_lstrip (l : list ascii) : head_space (lstrip_by is_space l) = false.
Proof. induction l as [|c l IH]; [done|]. cbn. by destruct (is_space c) eqn:E; [|cbn]. Qed.

Lemma last_space_rstrip (l : list ascii) :
  head_space (reverse (rstrip_by is_space l)) = false.
Proof. unfold rstrip_by. rewrite reverse_involutive. apply head_space_lstrip. Qed.

Lemma head_space_prefix (a b : list ascii) :
  head_space (a ++ b) = false → head_space a = false.
Proof. by destruct a. Qed.

Lemma head_space_rstrip (l : list ascii) :
  head_space l = false → head_space (rstrip_by is_space l) = false.
Proof.
  intros H. destruct (rstrip_by_split l) as (b & Hb & _). rewrite Hb in H.
  by apply head_space_prefix in H.
Qed.

Lemma head_space_take (n : nat) (l : list ascii) :
  head_space l = false → head_space (take n l) = false.
Proof. intros H. rewrite <- (take_drop n l) in H. by apply head_space_prefix in H. Qed.

Lemma slice_upto_is_take (k : Z) (l : list ascii) : ∃ n, PyList.slice_upto k l = take n l.
Proof. unfold PyList.slice_upto. destruct (0 <=? k); by eexists. Qed.

Lemma spaced_snoc_word (a w : list ascii) :
  spaced a = true → Forall (fun c => is_space c = false) w → w ≠ [] →
  spaced (a ++ w) = true.
Proof.
  intros Ha Hw Hne. induction a as [|c a IH].
  - cbn [app]. rewrite <- (app_nil_r w). by rewrite (spaced_word w [] Hw).
  - cbn [app spaced] in *. apply andb_true_iff in Ha as [Hc Ha].
    rewrite (IH Ha), andb_true_r. destruct (is_space c); [|done]. cbn in *.
    apply andb_true_iff in Hc as [-> Hc]. cbn. destruct a as [|d a]; [|exact Hc].
    pose proof (head_space_word w [] Hne Hw) as Hx. rewrite app_nil_r in Hx.
    cbn [app]. by rewrite Hx.
Qed.

(** What is left of a line after it is cut and the dots are put. *)
Lemma cut_one_line (k : Z) (s : string) :
  spaced (chars s) = true → head_space (chars s) = false →
  one_line (rstrip (slice_upto k s) +:+ "...") = true.
Proof.
  intros Hs Hh. unfold one_line, rstrip, slice_upto.
  rewrite chars_app, !ReFacts.chars_str.
  destruct (slice_upto_is_take k (chars s)) as [n ->].
  set (body := rstrip_by is_space (take n (chars s))).
  assert (Hdots : Forall (fun c => is_space c = false) (chars "...")).
  { repeat constructor. }
  assert (Hb : spaced body = true) by (by apply spaced_rstrip, spaced_take).
  assert (Hbh : head_space body = false) by (by apply head_space_rstrip, head_space_take).
  rewrite (spaced_snoc_word body (chars "...") Hb Hdots) by done.
  rewrite (last_space_word (chars "...") body) by done.
  destruct body; [done|]. cbn in Hbh. cbn. by rewrite Hbh.
Qed.

Lemma cut_length (k : Z) (s : string) :
  3 <= k → Z.of_nat (len (rstrip (slice_upto (k - 3) s) +:+ "...")) <= k.
Proof.
  intros Hk. rewrite len_app. unfold rstrip, slice_upto. rewrite ReFacts.len_chars.
  rewrite !ReFacts.chars_str.
  destruct (rstrip_by_split (PyList.slice_upto (k - 3) (chars s))) as (b & Hb & _).
  apply (f_equal length) in Hb. rewrite length_app in Hb.
  unfold PyList.slice_upto in Hb |- *.
  destruct (0 <=? k - 3) eqn:E; [|lia].
  rewrite length_take in Hb. cbn [len String.length]. lia.
Qed.

(** A line that is already clean is left as it is by [squeeze]. *)
Lemma strip_by_fixed (l : list ascii) :
  head_space l = false → head_space (reverse l) = false → strip_by is_space l = l.
Proof.
  intros Hh Hl. unfold strip_by, rstrip_by.
  assert (H1 : lstrip_by is_space l = l).
  { destruct l as [|c l]; [done|]. cbn in *. by rewrite Hh. }
  rewrite H1.
  assert (H2 : lstrip_by is_space (reverse l) = reverse l).
  { destruct (reverse l) as [|c r]; [done|]. cbn in *. by rewrite Hl. }
  by rewrite H2, reverse_involutive.
Qed.

Lemma split_ws_rejoin (l cur : list ascii) :
  spaced l = true → head_space (reverse l) = false →
  (cur = [] → head_space l = false) →
  Forall (fun c => is_space c = false) cur →
  chars (join " " (map str (split_ws_acc l cur))) = reverse cur ++ l.
Proof.
  revert cur. induction l as [|c l IH]; intros cur Hs Hl Hcur Hw; cbn [split_ws_acc].
  - destruct cur as [|x cur]; [done|]. rewrite chars_join_cons. by rewrite app_nil_r.
  - cbn [spaced] in Hs. apply andb_true_iff in Hs as [Hc Hs].
    assert (Hl' : head_space (reverse l) = false).
    { rewrite reverse_cons in Hl. destruct (reverse l); [done|exact Hl]. }
    destruct (is_space c) eqn:Ec.
    + cbn in Hc. apply andb_true_iff in Hc as [Hsp Hnext].
      apply bool_decide_eq_true in Hsp as ->. apply negb_true_iff in Hnext.
      destruct cur as [|x cur]; [by specialize (Hcur eq_refl)|].
      assert (Hne : l ≠ []).
      { intros ->. cbn in Hl. done. }
      rewrite chars_join_cons.
      pose proof (IH [] Hs Hl' (fun _ => Hnext) (Forall_nil_2 _)) as Hrest.
      cbn [reverse app] in Hrest. rewrite reverse_nil in Hrest. cbn [app] in Hrest.
      destruct (split_ws_acc l []) as [|w ws] eqn:E.
      * cbn in Hrest. by symmetry in Hrest.
      * by rewrite Hrest.
    + rewrite (IH (c :: cur) Hs Hl').
      * rewrite reverse_cons, <- app_assoc. done.
      * done.
      * by constructor.
Qed.

Lemma squeeze_fixed (s : string) : one_line s = true → squeeze s = s.
Proof.
  unfold one_line. intros H. apply andb_true_iff in H as [H Hl].
  apply andb_true_iff in H as [Hs Hh]. apply negb_true_iff in Hh, Hl.
  assert (H : chars (squeeze s) = chars s).
  { unfold squeeze, split_ws. rewrite strip_chars, (strip_by_fixed _ Hh Hl).
    by rewrite (split_ws_rejoin (chars s) [] Hs Hl (fun _ => Hh) (Forall_nil_2 _)). }
  apply (f_equal str) in H. by rewrite !ReFacts.str_chars in H.
Qed.

Lemma split_ws_acc_nonempty (l cur : list ascii) :
  cur ≠ [] → split_ws_acc l cur ≠ [].
Proof.
  revert cur. induction l as [|c l IH]; intros cur Hcur; cbn [split_ws_acc].
  - by destruct cur.
  - destruct (is_space c); [by destruct cur|]. by apply IH.
Qed.

Lemma squeeze_nonempty (text : string) : nonempty (squeeze text) = nonempty (strip text).
Proof.
  destruct (squeeze_words text) as (ws & Hws & Hq & Hsplit).
  destruct (words_one_line ws Hws) as (_ & _ & _ & Hnil). cbn zeta in Hnil.
  rewrite Hq, !nonempty_chars.
  destruct (chars (strip text)) as [|c l] eqn:El.
  - rewrite Hsplit. done.
  - destruct (chars (join " " (map str ws))) as [|d r] eqn:Er; [|done]. exfalso.
    destruct Hnil as [Hnil _]. specialize (Hnil eq_refl). subst ws.
    assert (Hh : head_space (c :: l) = false).
    { rewrite <- El, strip_chars. unfold strip_by.
      apply head_space_rstrip, head_space_lstrip. }
    cbn in Hh. symmetry in Hnil. cbn [split_ws_acc] in Hnil. rewrite Hh in Hnil.
    symmetry in Hnil. by apply (split_ws_acc_nonempty l [c]) in Hnil.
Qed.

(** The body shared by the two [_clean_summary] methods. *)
Lemma clean_shape (m : Z) (text clean : string) :
  3 <= m →
  clean = (if Z.of_nat (len (squeeze text)) <=? m then squeeze text
           else rstrip (slice_upto (m - 3) (squeeze text)) +:+ "...") →
  Z.of_nat (len clean) <= m
  ∧ one_line clean = true
  ∧ nonempty clean = nonempty (strip text)
  ∧ (if Z.of_nat (len (squeeze clean)) <=? m then squeeze clean
     else rstrip (slice_upto (m - 3) (squeeze clean)) +:+ "...") = clean.
Proof.
  intros Hm Hclean.
  pose proof (squeeze_one_line text) as Hline.
  assert (Hshape : Z.of_nat (len clean) <= m ∧ one_line clean = true
                   ∧ nonempty clean = nonempty (strip text)).
  { destruct (Z.of_nat (len (squeeze text)) <=? m) eqn:E; subst clean.
    - apply Z.leb_le in E. split; [exact E|]. split; [exact Hline|apply squeeze_nonempty].
    - apply Z.leb_gt in E. split; [by apply cut_length|].
      unfold one_line in Hline. apply andb_true_iff in Hline as [Hline _].
      apply andb_true_iff in Hline as [Hs Hh]. apply negb_true_iff in Hh.
      split; [by apply cut_one_line|].
      rewrite <- squeeze_nonempty.
      assert (H1 : nonempty (rstrip (slice_upto (m - 3) (squeeze text)) +:+ "...") = true).
      { rewrite nonempty_chars, chars_app. by destruct (chars (rstrip _)). }
      rewrite H1. symmetry. rewrite nonempty_chars.
      destruct (chars (squeeze text)) as [|c l] eqn:El; [|done].
      rewrite ReFacts.len_chars, El in E. cbn in E. lia. }
  destruct Hshape as (Hlen & Hone & Hne). split; [exact Hlen|]. split; [exact Hone|].
  split; [exact Hne|]. rewrite (squeeze_fixed clean Hone).
  apply Z.leb_le in Hlen. by rewrite Hlen.
Qed.

Lemma strip_empty (q : string) : nonempty (strip q) = true → nonempty q = true.
Proof. by destruct q. Qed.

Lemma clean_rewrite_shape (text : string) :
  let line := QueryRewriter._clean_rewrite text in
  Z.of_nat (len line) <= 220 ∧ one_line line = true
  ∧ (if nonempty (strip text) then True else line = EmptyString).
Proof.
  cbn zeta. unfold QueryRewriter._clean_rewrite.
  pose proof (squeeze_one_line text) as Hline.
  pose proof (squeeze_nonempty text) as Hne.
  destruct (nonempty (squeeze text)) eqn:E0; cbn [negb].
  2:{ split; [cbn; lia|]. split; [reflexivity|]. by destruct (nonempty (strip text)). }
  split; [|split; [|by rewrite <- Hne]].
  - match goal with |- context [if ?c then strip _ else _] => destruct c end.
    + destruct (220 <? _) eqn:E.
      * change 217 with (220 - 3). by apply cut_length.
      * by apply Z.ltb_ge in E.
    + destruct (220 <? _) eqn:E.
      * change 217 with (220 - 3). by apply cut_length.
      * by apply Z.ltb_ge in E.
  - unfold one_line in Hline. apply andb_true_iff in Hline as [Hline Hl].
    apply andb_true_iff in Hline as [Hs Hh]. apply negb_true_iff in Hh, Hl.
    set (line := if startswith (squeeze text) quote && endswith (squeeze text) quote
                 then strip (unwrap (squeeze text)) else squeeze text).
    assert (Hshape : spaced (chars line) = true ∧ head_space (chars line) = false
                     ∧ head_space (reverse (chars line)) = false).
    { unfold line. destruct (startswith _ _ && endswith _ _); [|done].
      rewrite strip_chars. unfold unwrap. rewrite ReFacts.chars_str.
      destruct (slice_upto_is_take (-1) (chars (squeeze text))) as [n ->].
      unfold strip_by. split.
      - by apply spaced_rstrip, spaced_lstrip, spaced_drop, spaced_take.
      - split; [apply head_space_rstrip, head_space_lstrip|apply last_space_rstrip]. }
    destruct Hshape as (Hs1 & Hh1 & Hl1).
    destruct (220 <? _); [by apply cut_one_line|].
    unfold one_line. by rewrite Hs1, Hh1, Hl1.
Qed.

End TextFacts.

Module RewriterFacts.
Import PyStr PyText QueryRewriter.

Lemma cached_rewrite_calls (self : t) (key : string) (st st' : state) (out : outcome) :
  _cached_rewrite self key st = (out, st') →
  (length (calls st') <= S (length (calls st)))%nat
  ∧ match out with
    | Failed e => ∃ client n prompt,
        llm_client self = Some client ∧ client n prompt (model_name self) = Crashed e
    | _ => True
    end.
Proof.
  unfold _cached_rewrite.
  destruct (cache_get key (cache st)) as [[r l]|].
  - intros [= <- <-]. cbn. split; [lia|done].
  - unfold _rewrite_uncached. destruct (llm_client self) as [client|].
    + destruct (client _ _ _) eqn:Ec; intros [= <- <-]; cbn; rewrite length_app; cbn;
        (split; [lia|]); try done.
      by eexists client, _, _.
    + intros [= <- <-]. cbn. split; [lia|done].
Qed.

Lemma cached_rewrite_stored (self : t) (key : string) (st st' : state)
    (rewritten : string) (latency : Z) :
  (1 <= maxsize self)%nat →
  _cached_rewrite self key st = (Returned rewritten latency, st') →
  cache_get key (cache st') = Some (rewritten, latency)
  ∧ (length (calls st') <= S (length (calls st)))%nat.
Proof.
  intros Hsize Hcall. split; [|by destruct (cached_rewrite_calls self key st st' _ Hcall)].
  unfold _cached_rewrite in Hcall.
  destruct (cache_get key (cache st)) as [[r l]|] eqn:Eget.
  - injection Hcall as <- <- <-. cbn. by rewrite bool_decide_eq_true_2.
  - destruct (_rewrite_uncached self key st) as [[r l|msg|e] st1] eqn:Eun; [|done..].
    injection Hcall as <- <- <-. cbn [cache calls].
    destruct (maxsize self) as [|n]; [lia|]. cbn. by rewrite bool_decide_eq_true_2.
Qed.

Lemma cached_rewrite_hit (self : t) (key : string) (st : state) (v : string * Z) :
  cache_get key (cache st) = Some v →
  ∃ st', _cached_rewrite self key st = (Returned (fst v) (snd v), st')
         ∧ calls st' = calls st.
Proof. intros H. unfold _cached_rewrite. rewrite H. by eexists. Qed.

End RewriterFacts.

(** X24. [_clean_summary] of the two summarizers returns one line of
    words set apart by single spaces, of at most [max_chars] characters,
    where [max_chars] is at least 80 for [IndexChunkSummarizer] and at
    least 64 for [GeminiChunkSummarizer]; it is empty exactly when the
    text is blank, and cleaning the result again gives the result. *)
Theorem X24_clean_summary_shape :
  ∀ (llm_client : option text_client) (model_name text : string) (max_chars : Z),
    let index := IndexSummarizer.init llm_client model_name max_chars in
    let gemini := GeminiChunkSummarizer.init model_name max_chars in
    let clean := IndexSummarizer._clean_summary index text in
    let clean' := GeminiChunkSummarizer._clean_summary gemini text in
    (Z.of_nat (PyStr.len clean) <= Z.max 80 max_chars
     ∧ TextSpec.one_line clean = true
     ∧ PyStr.nonempty clean = PyStr.nonempty (PyStr.strip text)
     ∧ IndexSummarizer._clean_summary index clean = clean)
    ∧ (Z.of_nat (PyStr.len clean') <= Z.max 64 max_chars
       ∧ TextSpec.one_line clean' = true
       ∧ PyStr.nonempty clean' = PyStr.nonempty (PyStr.strip text)
       ∧ GeminiChunkSummarizer._clean_summary gemini clean' = clean').
Proof.
  intros llm_client model_name text max_chars. cbn zeta. split.
  - apply (TextFacts.clean_shape (Z.max 80 max_chars) text); [lia|reflexivity].
  - apply (TextFacts.clean_shape (Z.max 64 max_chars) text); [lia|reflexivity].
Qed.

(** X25. [QueryRewriter._clean_rewrite] returns one line of words set
    apart by single spaces, of at most 220 characters, and the empty
    string for a blank text. *)
Theorem X25_clean_rewrite_shape :
  ∀ text : string,
    Z.of_nat (PyStr.len (QueryRewriter._clean_rewrite text)) <= 220
    ∧ TextSpec.one_line (QueryRewriter._clean_rewrite text) = true
    ∧ (if PyStr.nonempty (PyStr.strip text) then True
       else QueryRewriter._clean_rewrite text = EmptyString).
Proof. intros text. apply TextFacts.clean_rewrite_shape. Qed.

(** X26. [QueryRewriter.rewrite] makes at most one call to the client.
    When it returns, the flag says whether the text differs from the
    query, and the text is empty only if the query is; without a latency
    the text is the query itself; with a latency the rewrite is cached, so
    that the same call made again returns the same answer without calling
    the client.  It raises only what the client raised other than
    [LLMClientError]. *)
Theorem X26_rewrite_contract :
  ∀ (llm_client : option text_client) (model_name : string) (enabled : bool)
    (cache_size : Z) (query : string) (st : QueryRewriter.state),
    let self := QueryRewriter.init llm_client model_name enabled cache_size in
    match QueryRewriter.rewrite self query st with
    | (Ok (text, used, latency), st1) =>
        used = negb (bool_decide (text = query))
        ∧ PyStr.nonempty text = PyStr.nonempty query
        ∧ (length (QueryRewriter.calls st1) <= S (length (QueryRewriter.calls st)))%nat
        ∧ match latency with
          | Some ms =>
              ∃ st2, QueryRewriter.rewrite self query st1 = (Ok (text, used, Some ms), st2)
                     ∧ QueryRewriter.calls st2 = QueryRewriter.calls st1
          | None => text = query
          end
    | (Raise e, st1) =>
        ∃ client n prompt,
          llm_client = Some client ∧ client n prompt model_name = Crashed e
    end.
Proof.
  intros llm_client model_name enabled cache_size query st self.
  assert (Hsize : (1 <= QueryRewriter.maxsize self)%nat) by (cbn; lia).
  assert (Hfall : ∀ st1 : QueryRewriter.state,
            (length (QueryRewriter.calls st1) <= S (length (QueryRewriter.calls st)))%nat →
            false = negb (bool_decide (query = query))
            ∧ PyStr.nonempty query = PyStr.nonempty query
            ∧ (length (QueryRewriter.calls st1) <= S (length (QueryRewriter.calls st)))%nat
            ∧ query = query).
  { intros st1 H. by rewrite bool_decide_eq_true_2. }
  unfold QueryRewriter.rewrite.
  destruct (negb (QueryRewriter.enabled self)
            || bool_decide (QueryRewriter.llm_client self = None)) eqn:Eoff.
  { apply Hfall. lia. }
  destruct (PyStr.nonempty (PyStr.strip query)) eqn:Enorm; cbn [negb].
  2:{ apply Hfall. lia. }
  destruct (QueryRewriter._cached_rewrite self (PyStr.strip query) st)
    as [[rewritten latency|msg|e] st1] eqn:Ecall.
  - destruct (RewriterFacts.cached_rewrite_stored self _ st st1 rewritten latency Hsize Ecall)
      as [Hget Hcalls].
    destruct (PyStr.nonempty rewritten) eqn:Ere; cbn [negb]; [|by apply Hfall].
    split; [done|]. split; [by rewrite (TextFacts.strip_empty query Enorm)|].
    split; [exact Hcalls|].
    destruct (RewriterFacts.cached_rewrite_hit self _ st1 _ Hget) as (st2 & Hhit & Hsame).
    exists st2. rewrite Hhit. cbn [fst snd].
    by rewrite Ere.
  - apply Hfall. by destruct (RewriterFacts.cached_rewrite_calls self _ st st1 _ Ecall).
  - by destruct (RewriterFacts.cached_rewrite_calls self _ st st1 _ Ecall).
Qed.


(** * The summaries of the chunks and the prepared texts *)

Module SummaryFacts.
Import PyStr StateExn SummaryCache SummarizeChunks SummarySpec.

Lemma filter_length_le {A : Type} (P Q : A → Prop) `{∀ x, Decision (P x)}
    `{∀ x, Decision (Q x)} (l : list A) :
  (∀ x, P x → Q x) → (length (filter P l) <= length (filter Q l))%nat.
Proof.
  intros HPQ. induction l as [|x l IH]; [done|].
  rewrite !filter_cons. destruct (decide (P x)) as [Hp|Hp].
  - rewrite decide_True by auto. cbn. lia.
  - destruct (decide (Q x)); cbn; lia.
Qed.

Section Summarize.
Variable sha256_hex : string → string.
Variable self : IndexSummarizer.t.
Variable chunks : list CodeChunk.
Variable t : gmap string (string * string * string).

Lemma keys_lookup (cs : list CodeChunk) (m : gmap string string) (id : string) :
  is_Some (foldl (fun m chunk => <[chunk_id chunk := _summary_key sha256_hex self chunk]> m)
             m cs !! id)
  ↔ id ∈ map chunk_id cs ∨ is_Some (m !! id).
Proof.
  revert m. induction cs as [|c cs IH]; intros m; cbn [foldl map].
  - split; [by right|]. intros [H|H]; [by apply elem_of_nil in H|done].
  - rewrite IH, elem_of_cons. destruct (decide (id = chunk_id c)) as [->|Hne].
    + rewrite lookup_insert_eq. split; [intros _; by left; left|by right].
    + rewrite lookup_insert_ne by done. split; intros [H|H]; try (by right).
      * left. by right.
      * destruct H as [H|H]; [done|by left].
Qed.

Lemma cached_lookup (c : CodeChunk) :
  c ∈ chunks →
  cached_of sha256_hex self chunks t !! key_in sha256_hex self chunks (chunk_id c)
  = row_summary <$> t !! key_in sha256_hex self chunks (chunk_id c).
Proof.
  intros Hc.
  assert (Hk : is_Some (keys_of sha256_hex self chunks !! chunk_id c)).
  { apply keys_lookup. left. apply list_elem_of_fmap. by exists c. }
  destruct Hk as [k Hk].
  assert (Hin : k ∈ map snd (map_to_list (keys_of sha256_hex self chunks))).
  { apply list_elem_of_fmap. exists (chunk_id c, k). split; [done|].
    by apply elem_of_map_to_list. }
  unfold key_in. rewrite Hk. change (default EmptyString (Some k)) with k.
  unfold cached_of, get_cached_chunk_summaries.
  destruct (map snd (map_to_list (keys_of sha256_hex self chunks))) as [|k0 ks] eqn:E;
    [by apply elem_of_nil in Hin|].
  rewrite lookup_fmap, map_lookup_filter.
  destruct (t !! k) as [row|]; [|done]. cbn. by rewrite option_guard_True.
Qed.

Lemma truthy_cached (c : CodeChunk) :
  c ∈ chunks →
  let found :=
    cached_of sha256_hex self chunks t !! key_in sha256_hex self chunks (chunk_id c) in
  match cached_for t (key_in sha256_hex self chunks (chunk_id c)) with
  | Some s => truthy found = true ∧ or_else found EmptyString = s ∧ nonempty s = true
  | None => truthy found = false
  end.
Proof.
  intros Hc. cbn zeta. rewrite (cached_lookup c Hc). unfold cached_for.
  destruct (t !! key_in sha256_hex self chunks (chunk_id c)) as [row|]; [|done]. cbn.
  destruct (nonempty (row_summary row)) eqn:E; [|done]. by rewrite E.
Qed.

Lemma summarize_one_spec (acc : progress) (c : CodeChunk) (log log' : list string)
    (out : result progress) :
  c ∈ chunks →
  summarize_one self (keys_of sha256_hex self chunks) (cached_of sha256_hex self chunks t)
    acc c log = (out, log') →
  (length log' <= length log + length (uncached sha256_hex self t chunks [c]))%nat
  ∧ match out with
    | Ok acc' =>
        loop_inv sha256_hex self chunks t acc →
        loop_inv sha256_hex self chunks t acc' ∧ grows acc acc'
        ∧ from_option (fun s => summaries acc' !! chunk_id c = Some s) True
            (cached_for t (key_in sha256_hex self chunks (chunk_id c)))
    | Raise e =>
        ∃ client n prompt,
          IndexSummarizer.llm_client self = Some client
          ∧ client n prompt (IndexSummarizer.model_name self) = Crashed e
    end.
Proof.
  intros Hc. unfold summarize_one.
  change (default EmptyString (keys_of sha256_hex self chunks !! chunk_id c))
    with (key_in sha256_hex self chunks (chunk_id c)).
  unfold loop_inv, uncached.
  pose proof (truthy_cached c Hc) as Hcached.
  assert (Hid : chunk_id c ∈ map chunk_id chunks).
  { apply list_elem_of_fmap. by exists c. }
  rewrite filter_cons, filter_nil.
  destruct (cached_for t (key_in sha256_hex self chunks (chunk_id c))) as [s|] eqn:Ecf.
  - destruct Hcached as (Ht & Hs & Hne). rewrite Ht, Hs. unfold ret. intros [= <- <-].
    rewrite decide_False by done. split; [cbn; lia|].
    intros [Hsum Hstore]. cbn [summaries to_store from_option].
    split; [|split; [|by rewrite lookup_insert_eq]].
    + split; [|exact Hstore]. apply map_Forall_insert_2; [|exact Hsum].
      split; [done|]. split; [done|]. by rewrite Ecf.
    + intros id Hsome. cbn [summaries]. destruct (decide (id = chunk_id c)) as [->|Hn].
      * by rewrite lookup_insert_eq.
      * by rewrite lookup_insert_ne.
  - rewrite Hcached. rewrite decide_True by done. cbn [length from_option].
    destruct (IndexSummarizer.llm_client self) as [client|] eqn:Ecl.
    2:{ unfold ret. intros [= <- <-]. split; [lia|].
        intros Hinv. split; [exact Hinv|]. split; [by intros id|done]. }
    destruct (client (length log) _ _) as [text elapsed|msg|e] eqn:Ecall.
    + destruct (nonempty (IndexSummarizer._clean_summary self text)) eqn:Eclean; cbn [negb].
      * intros [= <- <-]. rewrite length_app. cbn [length]. split; [lia|].
        intros [Hsum Hstore]. cbn [summaries to_store]. split; [|split; [|done]].
        -- split.
           ++ apply map_Forall_insert_2.
              ** split; [done|]. split; [done|]. rewrite Ecf. by rewrite lookup_insert_eq.
              ** intros id s Hl. destruct (Hsum id s Hl) as (H1 & H2 & H3).
                 split; [done|]. split; [done|].
                 destruct (cached_for t (key_in sha256_hex self chunks id)); [done|].
                 destruct (decide (key_in sha256_hex self chunks id
                                   = key_in sha256_hex self chunks (chunk_id c))) as [->|Hn].
                 --- by rewrite lookup_insert_eq.
                 --- by rewrite lookup_insert_ne.
           ++ by apply map_Forall_insert_2.
        -- intros id Hsome. cbn [summaries]. destruct (decide (id = chunk_id c)) as [->|Hn].
           ++ by rewrite lookup_insert_eq.
           ++ by rewrite lookup_insert_ne.
      * intros [= <- <-]. rewrite length_app. cbn [length]. split; [lia|].
        intros Hinv. split; [exact Hinv|]. split; [by intros id|done].
    + intros [= <- <-]. rewrite length_app. cbn [length]. split; [lia|].
      intros Hinv. split; [exact Hinv|]. split; [by intros id|done].
    + intros [= <- <-]. rewrite length_app. cbn [length]. split; [lia|].
      by exists client, (length log), (prompt_of c).
Qed.

Lemma summarize_loop_spec (cs : list CodeChunk) (acc : progress) (log log' : list string)
    (out : result progress) :
  (∀ c, c ∈ cs → c ∈ chunks) →
  summarize_loop self (keys_of sha256_hex self chunks) (cached_of sha256_hex self chunks t)
    cs acc log = (out, log') →
  (length log' <= length log + length (uncached sha256_hex self t chunks cs))%nat
  ∧ match out with
    | Ok acc' =>
        loop_inv sha256_hex self chunks t acc →
        loop_inv sha256_hex self chunks t acc' ∧ grows acc acc'
        ∧ Forall (fun c =>
                    from_option (fun s => summaries acc' !! chunk_id c = Some s) True
                      (cached_for t (key_in sha256_hex self chunks (chunk_id c)))) cs
    | Raise e =>
        ∃ client n prompt,
          IndexSummarizer.llm_client self = Some client
          ∧ client n prompt (IndexSummarizer.model_name self) = Crashed e
    end.
Proof.
  unfold uncached.
  revert acc log. induction cs as [|c cs IH]; intros acc log Hin; cbn [summarize_loop].
  - unfold ret. intros [= <- <-]. rewrite filter_nil. split; [cbn; lia|].
    intros Hinv. split; [done|]. split; [by intros id|constructor].
  - unfold bind.
    destruct (summarize_one self _ _ acc c log) as [[acc1|e] log1] eqn:E1.
    + destruct (summarize_one_spec acc c log log1 _ (Hin c (list_elem_of_here _ _)) E1)
        as [Hlen1 Hstep].
      intros Hloop.
      destruct (IH acc1 log1 (fun x Hx => Hin x (list_elem_of_further _ _ _ Hx)) Hloop)
        as [Hlen2 Hrest].
      split.
      { unfold uncached in Hlen1. rewrite filter_cons.
        rewrite filter_cons, filter_nil in Hlen1.
        destruct (decide _); cbn [length] in *; lia. }
      destruct out as [acc'|e]; [|exact Hrest].
      intros Hinv. destruct (Hstep Hinv) as (Hinv1 & Hg1 & Hc1).
      destruct (Hrest Hinv1) as (Hinv2 & Hg2 & Hcs).
      split; [exact Hinv2|]. split; [intros id Hid; by apply Hg2, Hg1|].
      constructor; [|exact Hcs].
      destruct (cached_for t (key_in sha256_hex self chunks (chunk_id c))) as [s|] eqn:Ecf; [|done].
      cbn [from_option] in *.
      destruct (Hg2 (chunk_id c)) as [s' Hs']; [by rewrite Hc1|].
      destruct Hinv2 as [Hsum _]. destruct (Hsum _ _ Hs') as (_ & _ & Heq).
      rewrite Ecf in Heq. by subst s'.
    + intros [= <- <-].
      destruct (summarize_one_spec acc c log log1 _ (Hin c (list_elem_of_here _ _)) E1)
        as [Hlen1 Hstep].
      split; [|exact Hstep]. unfold uncached in Hlen1. rewrite filter_cons.
      rewrite filter_cons, filter_nil in Hlen1.
      destruct (decide _); cbn [length] in *; lia.
Qed.

End Summarize.

Lemma upsert_lookup (model now : string) (store : gmap string string)
    (t : gmap string (string * string * string))
    (key : string) :
  upsert_cached_chunk_summaries model store now t !! key
  = match store !! key with
    | Some s => Some (model, s, now)
    | None => t !! key
    end.
Proof.
  unfold upsert_cached_chunk_summaries. destruct (decide (store = ∅)) as [->|Hne].
  - rewrite bool_decide_eq_true_2 by done. by rewrite lookup_empty.
  - rewrite bool_decide_eq_false_2 by done.
    destruct (store !! key) as [s|] eqn:E.
    + apply lookup_union_Some_l. by rewrite lookup_fmap, E.
    + rewrite lookup_union_r; [done|]. by rewrite lookup_fmap, E.
Qed.

(** A run of [summarize_chunks], with the bound on the calls of any
    outcome and what a completed run leaves. *)
Lemma summarize_chunks_spec (sha256_hex : string → string) (self : IndexSummarizer.t)
    (now : string) (chunks : list CodeChunk) (w : world) :
  let run := summarize_chunks sha256_hex self now chunks w in
  (length (calls (snd run))
   <= length (calls w) + length (uncached sha256_hex self (llm_summaries w) chunks chunks))%nat
  ∧ match fst run with
    | Ok (summaries, latency) =>
        map_Forall (fun id s => nonempty s = true ∧ id ∈ map chunk_id chunks) summaries
        ∧ Forall (fun c =>
                    from_option (fun s => summaries !! chunk_id c = Some s) True
                      (cached_for (llm_summaries w)
                         (key_in sha256_hex self chunks (chunk_id c)))) chunks
        ∧ map_Forall (fun key row =>
                        nonempty (row_summary row) = false
                        ∨ llm_summaries (snd run) !! key = Some row) (llm_summaries w)
        ∧ map_Forall (fun id _ =>
                        is_Some (cached_for (llm_summaries (snd run))
                                   (key_in sha256_hex self chunks id))) summaries
    | Raise e =>
        llm_summaries (snd run) = llm_summaries w
        ∧ ∃ client n prompt,
            IndexSummarizer.llm_client self = Some client
            ∧ client n prompt (IndexSummarizer.model_name self) = Crashed e
    end.
Proof.
  cbn zeta. unfold summarize_chunks. destruct chunks as [|c0 cs0] eqn:Echunks.
  { cbn. split; [lia|]. split; [apply map_Forall_empty|]. split; [constructor|].
    split; [|apply map_Forall_empty]. intros key row Hrow. by right. }
  rewrite <- Echunks. clear Echunks c0 cs0.
  set (start := {| summaries := ∅; to_store := ∅; latency_ms := 0 |}).
  fold (cached_of sha256_hex self chunks (llm_summaries w)).
  destruct (summarize_loop _ _ _ chunks start (calls w)) as [out log] eqn:Eloop.
  destruct (summarize_loop_spec sha256_hex self chunks (llm_summaries w) chunks start
              (calls w) log out (fun c Hc => Hc) Eloop) as [Hlen Hout].
  destruct out as [acc|e]; cbn [fst snd calls llm_summaries].
  2:{ split; [exact Hlen|]. split; [done|exact Hout]. }
  split; [exact Hlen|].
  destruct Hout as ([Hsum Hstore] & _ & Hcached).
  { split; apply map_Forall_empty. }
  assert (Hkept : ∀ key row, llm_summaries w !! key = Some row →
            nonempty (row_summary row) = true →
            upsert_cached_chunk_summaries (IndexSummarizer.model_name self) (to_store acc)
              now (llm_summaries w) !! key = Some row).
  { intros key row Hrow Hne. rewrite upsert_lookup.
    destruct (to_store acc !! key) as [s|] eqn:Es; [|exact Hrow].
    destruct (Hstore key s Es) as [_ Hnone]. unfold cached_for in Hnone.
    by rewrite Hrow, Hne in Hnone. }
  split; [|split; [exact Hcached|split]].
  - intros id s Hl. by destruct (Hsum id s Hl) as (? & ? & _).
  - intros key row Hrow. destruct (nonempty (row_summary row)) eqn:Hne; [right|by left].
    by apply Hkept.
  - intros id s Hl. destruct (Hsum id s Hl) as (_ & _ & Hkey).
    destruct (cached_for (llm_summaries w) _) as [s0|] eqn:Ecf.
    + unfold cached_for in Ecf |- *.
      destruct (llm_summaries w !! _) as [row|] eqn:Erow; [|done].
      destruct (nonempty (row_summary row)) eqn:Hne; [|done].
      rewrite (Hkept _ row Erow Hne). rewrite Hne. by eexists.
    + destruct Hkey as [s' Hs']. destruct (Hstore _ s' Hs') as [Hne _].
      unfold cached_for. rewrite upsert_lookup, Hs'. cbn. rewrite Hne. by eexists.
Qed.

End SummaryFacts.

(** tests/test_query_rewrite.py: the second rewrite is answered from
    the cache, and a disabled rewriter returns the query. *)
Example test_query_rewriter_rewrites_and_caches :
  ∃ st1 st2,
    QueryRewriter.rewrite LLMFixtures.test_rewriter "function to create new posts"
      QueryRewriter.state0
    = (Ok ("backend POST route or function that creates user posts", true, Some 12), st1)
    ∧ QueryRewriter.rewrite LLMFixtures.test_rewriter "function to create new posts" st1
      = (Ok ("backend POST route or function that creates user posts", true, Some 12), st2)
    ∧ length (QueryRewriter.calls st2) = 1%nat.
Proof. eexists _, _. split; [vm_compute; reflexivity|]. split; vm_compute; reflexivity. Qed.

Example test_query_rewriter_fallback_when_disabled :
  QueryRewriter.rewrite (QueryRewriter.init None "m" false 256) "find post creation"
    QueryRewriter.state0
  = (Ok ("find post creation", false, None), QueryRewriter.state0).
Proof. vm_compute. reflexivity. Qed.

(** The scenario of tests/test_chunk_summarizer.py on the summarizer of
    the indexer: the second run is answered from the table. *)
Example test_summarizer_caches_by_summary_key :
  ∃ w1 w2,
    SummarizeChunks.summarize_chunks Fixtures.ident LLMFixtures.test_summarizer "t1"
      [LLMFixtures.test_chunk] LLMFixtures.world0
    = (Ok ({[ "chunk-1" := "Creates a post resource using a POST route handler." ]}, 7), w1)
    ∧ SummarizeChunks.summarize_chunks Fixtures.ident LLMFixtures.test_summarizer "t2"
        [LLMFixtures.test_chunk] w1
      = (Ok ({[ "chunk-1" := "Creates a post resource using a POST route handler." ]}, 0), w2)
    ∧ length (SummarizeChunks.calls w2) = 1%nat.
Proof. eexists _, _. split; [vm_compute; reflexivity|]. split; vm_compute; reflexivity. Qed.

Example clean_summary_squeezes :
  IndexSummarizer._clean_summary LLMFixtures.test_summarizer
    ("  Creates a post." +:+ PyStr.nl +:+ "  Returns   it.  ")
  = "Creates a post. Returns it.".
Proof. vm_compute. reflexivity. Qed.

Module PrepareFacts.
Import PyStr EmbeddingService.

Lemma starts_with_app (p l : list ascii) : starts_with p (p ++ l) = true.
Proof.
  induction p as [|c p IH]; [by destruct l|]. cbn. by rewrite bool_decide_eq_true_2, IH.
Qed.

Lemma startswith_app (p text : string) : startswith (p +:+ text) p = true.
Proof. unfold startswith. rewrite TextFacts.chars_app. apply starts_with_app. Qed.

Lemma prefixed_fixed (p text : string) :
  let once := if startswith text p then text else p +:+ text in
  (if startswith once p then once else p +:+ once) = once
  ∧ startswith once p = true.
Proof.
  cbn zeta. destruct (startswith text p) eqn:E.
  - by rewrite E.
  - by rewrite startswith_app.
Qed.

End PrepareFacts.

(** X27. [IndexChunkSummarizer.summarize_chunks] makes at most as many
    calls to the client as the batch has chunks whose key has no summary
    in the cache table.  When it completes, every summary returned is not
    empty and belongs to a chunk of the batch; a chunk whose key had a
    cached summary gets that summary; the rows of the table that held a
    summary are unchanged; and a second run over the batch makes at most
    as many calls as the batch has chunks that got no summary.  When it
    raises, it is the exception of the client, and the table is
    unchanged. *)
Theorem X27_summarize_chunks_uses_cache :
  ∀ (sha256_hex : string → string) (llm_client : option text_client)
    (model_name : string) (max_chars : Z) (now later : string)
    (chunks : list CodeChunk) (w : SummarizeChunks.world),
    let self := IndexSummarizer.init llm_client model_name max_chars in
    let run := SummarizeChunks.summarize_chunks sha256_hex self now chunks w in
    (length (SummarizeChunks.calls (snd run))
     <= length (SummarizeChunks.calls w)
        + length (SummarySpec.uncached sha256_hex self (SummarizeChunks.llm_summaries w)
                    chunks chunks))%nat
    ∧ match fst run with
      | Ok (summaries, latency) =>
          map_Forall (fun id s => PyStr.nonempty s = true ∧ id ∈ map chunk_id chunks)
            summaries
          ∧ Forall (fun c =>
                      from_option (fun s => summaries !! chunk_id c = Some s) True
                        (SummarySpec.cached_for (SummarizeChunks.llm_summaries w)
                           (SummarySpec.key_in sha256_hex self chunks (chunk_id c)))) chunks
          ∧ map_Forall (fun key row =>
                          PyStr.nonempty (SummaryCache.row_summary row) = false
                          ∨ SummarizeChunks.llm_summaries (snd run) !! key = Some row)
              (SummarizeChunks.llm_summaries w)
          ∧ (length (SummarizeChunks.calls
                       (snd (SummarizeChunks.summarize_chunks sha256_hex self later chunks
                               (snd run))))
             <= length (SummarizeChunks.calls (snd run))
                + length (SummarySpec.unsummarized summaries chunks))%nat
      | Raise e =>
          SummarizeChunks.llm_summaries (snd run) = SummarizeChunks.llm_summaries w
          ∧ ∃ client n prompt,
              llm_client = Some client ∧ client n prompt model_name = Crashed e
      end.
Proof.
  intros sha256_hex llm_client model_name max_chars now later chunks w self run.
  destruct (SummaryFacts.summarize_chunks_spec sha256_hex self now chunks w) as [Hlen Hout].
  fold run in Hlen, Hout. split; [exact Hlen|].
  destruct (fst run) as [[summaries latency]|e]; [|exact Hout].
  destruct Hout as (Hsum & Hcached & Hkept & Hstored).
  split; [exact Hsum|]. split; [exact Hcached|]. split; [exact Hkept|].
  destruct (SummaryFacts.summarize_chunks_spec sha256_hex self later chunks (snd run))
    as [Hlen2 _].
  etrans; [exact Hlen2|]. apply Nat.add_le_mono_l.
  apply SummaryFacts.filter_length_le. intros c Hnone.
  destruct (summaries !! chunk_id c) as [s|] eqn:Es; [|done].
  destruct (Hstored _ _ Es) as [s' Hs']. congruence.
Qed.

(** X28. The texts that [EmbeddingService] prepares for a model carry the
    prefix of the model once: preparing a prepared text changes nothing,
    for queries and for documents. *)
Theorem X28_prepared_text_fixed :
  ∀ model_name text : string,
    EmbeddingService._prepare_query_text model_name
      (EmbeddingService._prepare_query_text model_name text)
    = EmbeddingService._prepare_query_text model_name text
    ∧ EmbeddingService._prepare_document_text model_name
        (EmbeddingService._prepare_document_text model_name text)
      = EmbeddingService._prepare_document_text model_name text.
Proof.
  intros model_name text.
  unfold EmbeddingService._prepare_query_text, EmbeddingService._prepare_document_text.
  cbn zeta. split.
  - destruct (PyStr.contains (PyStr.lower model_name) "bge").
    + apply PrepareFacts.prefixed_fixed.
    + destruct (PyStr.contains (PyStr.lower model_name) "e5"); [|done].
      apply PrepareFacts.prefixed_fixed.
  - destruct (PyStr.contains (PyStr.lower model_name) "e5"); [|done].
    apply PrepareFacts.prefixed_fixed.
Qed.
